(* ===== verification/_CoqProject ===== *)
-Q . S2P
Prelude.v
Address.v
Memblock.v
Memory.v
FrameAllocator.v
Buddy.v
BuddyBlocks.v
BuddyProofs.v
BuddyMemory.v
PageTable.v
MmSet.v
PageTree.v
PageTableProofs.v
MemMap.v
Slub.v
SlubProofs.v
SlubSpec.v
Boot.v
RefCell.v
Entry.v
BootProofs.v
Handover.v
Board.v
Machine.v
RingBuf.v
Lock.v
Context.v
Scheduler.v
SchedulerProofs.v
SchedulerSpec.v
Kernel.v
KernelProofs.v
KernelSpec.v
Trace.v
Plic.v
Liveness.v
HeapVec.v
Capacity.v
Serial.v
Main.v
Console.v
Tasks.v
