(* ===== verification/Prelude.v ===== *)
(** * Charlotte OS: a verification library

    Charlotte OS is a small kernel for 64-bit RISC-V, written in Rust for the QEMU [virt] machine. This library
    models it in Rocq and proves what its parts promise to each other. The file paths below are relative to the
    repository's [src/].

    ** The program and its model

    Boot. [_start] sets up the stack and clears bss, [rust_main] switches on an early page table and jumps to [virt_rust_main], which
    reads the device tree, describes RAM in [MEMBLOCK], builds the final page table with pages taken from [MEMBLOCK], hands the free pages over to the
    buddy allocator and starts the tasks. After that everything happens in traps: the entry code saves the registers of the
    running task into the context that [sscratch] points to, the handler serves a timer interrupt, a UART
    interrupt or a system call, and the context [sscratch] points to afterwards is resumed.

    - [Prelude]: outcomes of code that can panic, machine integers with wrap-around, tactics and shared lemmas.
    - [Address] (mm/address.rs, config.rs): addresses, page numbers, their conversions, the direct map.
    - [Memblock] (mm/memblock.rs): the boot-time allocator, sorted arrays of regions updated in place.
    - [Memory]: physical memory as a map from addresses to words, and pointers into the direct map.
    - [FrameAllocator]: the interface of the frame allocator as type classes: what it hands out is owned by one client
      ([FrameAllocatorLaws]), it leaves its clients' memory alone ([FrameMemoryLaws]), and it stays within RAM ([FrameBoundsLaws]).
    - [Buddy], [BuddyBlocks], [BuddyProofs], [BuddyMemory] (mm/buddy.rs): the buddy allocator, whose free lists live
      inside the free blocks; the set of free blocks it represents; the instances of the interface.
    - [PageTable], [PageTree], [PageTableProofs] (mm/pagetable.rs, mm/bump.rs): page tables in memory, the Sv39
      translation that the processor performs on them, and how mapping and unmapping change it.
    - [MmSet] (mm/mm_set.rs): the declarations of address spaces, on which the source has no operations.
    - [MemMap] (mm/mod.rs): [MEM_MAP], the state of every page of RAM.
    - [Slub], [SlubProofs], [SlubSpec] (mm/slub.rs): the heap: caches of equal objects over the frame allocator.
    - [Boot], [BootProofs], [Handover], [Machine] (mm/mod.rs): the memory setup, the handover to the buddy
      allocator, and a run of it on the device tree of the QEMU machine.
    - [RefCell] (data_struct/sync_ref_cell.rs): [SyncRefCell] with its borrow counter, and its use for [BOOT_ROOT_PPN].
    - [Entry] (entry.S, main.rs): [_start] and [rust_main], up to the jump into the upper half.
    - [Board] (bsp, console/mod.rs): device addresses and the early console output.
    - [RingBuf] (data_struct/ring_buf.rs) and [Lock] (data_struct/lock.rs): ring buffers, interrupt-safe locks.
    - [Context] (task/context.rs, trap/mod.rs, task/switch.rs): the two naked functions, instruction by
      instruction, run by an interpreter of the instructions they use.
    - [Scheduler], [SchedulerProofs], [SchedulerSpec] (task/scheduler.rs, task/tcb.rs): the scheduler over any frame allocator.
    - [Kernel], [KernelProofs], [KernelSpec] (trap/mod.rs, trap/interrupts, driver/plic.rs, syslib/syscall.rs): the
      trap handler, the UART service and the system calls; the system as a state machine.
    - [Trace]: what a trap sends to the console and does to the registers of a reader, as programs see it.
    - [Plic] (trap/interrupts/mod.rs, driver/plic.rs): the enable bits, and the interrupt controller with claim and completion.
    - [Liveness]: sequences of timer interrupts.
    - [HeapVec], [Capacity]: the kernel's vectors on the kernel's heap, and how far its queues grow in a trap.
    - [Serial] (driver/uart.rs): both UART drivers over a model of the device registers.
    - [Main] (main.rs, userlib/syscall.rs): the start of the kernel and the system call wrappers.
    - [Console] (console/mod.rs, lang_items.rs): the writers behind the output macros, as instances of one class with its laws, and the panic handler.
    - [Tasks] (main.rs, task/scheduler.rs): the bodies of the tasks as programs, and the whole system: tasks, kernel and interrupts, interleaved.

    State is passed explicitly; one definition models one function, and a loop of the source is a fixpoint next to it. Fallible
    code returns an [outcome]: a value, a panic with its message, undefined behaviour, or exhausted fuel. Integers are [Z], with the
    wrap-around of a release build written out ([⊞], [⊟], [⊠]). Indexing out of bounds panics.

    ** What the theorems show

    - The running system: from the state the boot code reaches, in every state reached by running tasks and
      taking traps the invariant holds and the next trap is handled without panic; suspended tasks keep their registers
      (reachable_safe, suspended_task_preserved, boot_safe, trap_spec, trap_entry_switches). With the tasks of the
      source, whatever the interleaving, no call and no interrupt panics, no vector outgrows its first heap block, and the console shows what the tasks
      write, in order (tasks_safe, console_interleaves, println_spec).
    - The start: hart 0 arrives in the upper half with exactly the early translation, the others park (boot_hart_spec).
    - Scheduling: the choice of the next task, fairness, the life of a task from [spawn] to the release of its
      stack, sleeping and waking (prepare_next_task_spec, round_robin_fair, sleeper_runs, spawn_spec, exit_lifecycle, finish_sleep_spec, sleep_call_spec).
    - Memory: the region arrays compute unions and differences of sets; the buddy allocator refines a set of
      free blocks; the heap hands out aligned, disjoint blocks and terminates; page table operations change exactly the
      translations they should; the handover gives the allocator exactly the free pages.
    - Devices: ring buffers are bounded queues, characters reach the task that waits for them, the UART and the PLIC are programmed as
      intended, a completed interrupt is delivered again, register addresses do not overlap.
    - Cells and locks: guards give back what they took (cell_borrows, irq_lock_balanced).
    - Where the code falls short, precisely: among them a heap that cannot free, so that vectors grow once (vec_grows_once), tasks that run in user mode without a
      page mapped for it, device registers that are not mapped, timeouts that outlive their purpose.

    ** Fuel

    Loops with a fixed number of iterations are structural. Fuel is used where the source loops until a condition holds, and the
    definitions give it themselves: the loops over a region array have a step per region and one more; the search and the merging
    of the buddy allocator a step per order and one more; [add_free_region] one per page and one more; a walk along a free list one per word of memory
    and two more; [map_segment] one per page and two more; [finish_sleep] one per sleeping task and one more; [hex_loop] 17 for 16 digits; clearing bss one per word and two more;
    carving a slab one per object and one more; [remove_from_partial] one per page of [MEM_MAP] and two more. The theorems show that this is enough.
    [kmem_alloc] and [write_str] take their fuel as an argument, since they need not end: the theorems give a bound that is
    enough under their invariants, and show that no fuel is enough where the code loops forever.
    A lock that is never acquired is [Fault FuelF] as well.

    ** Not modelled

    The spin crate's mutex, the fdt crate's parser and the SBI are used through their documented behaviour: parsed device tree, linker addresses
    and sizes of types are parameters. Collections of the alloc crate are lists, and the scheduler's theorems take them as
    unbounded; what the heap allows them is the subject of [HeapVec] and [Capacity], where a failure of the first allocation of a vector is the only one
    that remains for the tasks of the source ([fit_first_blocks] in tasks_safe). Formatting is the sequence of strings that [core::fmt] passes to [write_str].
    Interleaving is modelled where the code allows it: tasks are interrupted anywhere, handlers run with interrupts off, the lock's
    guard is shown to be interruptible between the two halves of its drop. Messages on the console are dropped except where they are the subject. Left out are
    module declarations, re-exports and the choice of the driver (driver/mod.rs, system.rs), and [schedule_on_interrupt], which nothing calls. *)

From stdpp Require Export base tactics list gmap strings numbers option sorting.
From Stdlib Require Export ZArith Lia.

#[global] Open Scope Z_scope.
#[global] Set Default Goal Selector "!".

(** ** Outcomes of kernel code

    Every fallible function of the kernel returns an [outcome]: a value, a Rust
    panic (explicit [panic!], failed [assert!], [unwrap] on [None], index out
    of bounds, ...), undefined behaviour of an [unsafe] block, or exhausted fuel
    of a loop that the model runs with fuel. *)

Inductive fault :=
| PanicF (msg : string)
| UndefF (msg : string)
| FuelF.

Inductive outcome (A : Type) :=
| Done (a : A)
| Fault (f : fault).
Arguments Done {A} a.
Arguments Fault {A} f.

Abbreviation panic msg := (Fault (PanicF msg)).
Abbreviation undef msg := (Fault (UndefF msg)).

#[export] Instance outcome_ret : MRet outcome := @Done.
#[export] Instance outcome_bind : MBind outcome :=
  fun _ _ f o => match o with Done a => f a | Fault e => Fault e end.
#[export] Instance outcome_fmap : FMap outcome :=
  fun _ _ f o => match o with Done a => Done (f a) | Fault e => Fault e end.

(** [Option::unwrap] and [expect]. *)
Definition unwrap {A} (msg : string) (o : option A) : outcome A :=
  match o with Some a => Done a | None => panic msg end.

(** [assert!]. *)
Definition assert (msg : string) (b : bool) : outcome () :=
  if b then Done () else panic msg.

(** Indexing [a[i]] and assignment [a[i] = x] of a Rust slice: both panic out
    of bounds. *)
Definition index {A} (l : list A) (i : nat) : outcome A :=
  unwrap "index out of bounds" (l !! i).

Definition index_set {A} (l : list A) (i : nat) (x : A) : outcome (list A) :=
  if decide (i < length l)%nat then Done (<[i := x]> l) else panic "index out of bounds".

(** ** Machine integers

    [usize] is 64 bits wide on [riscv64gc]. The kernel is built with
    [cargo build --release], where [+], [-], [*] and [<<] wrap around. *)

Abbreviation USIZE := 18446744073709551616.
Abbreviation usize_MAX := 18446744073709551615.

Definition wrap (z : Z) : Z := z mod USIZE.
Definition usize (z : Z) : Prop := 0 <= z < USIZE.

Definition wadd (a b : Z) : Z := wrap (a + b).
Definition wsub (a b : Z) : Z := wrap (a - b).
Definition wmul (a b : Z) : Z := wrap (a * b).
Definition wshl (a n : Z) : Z := wrap (Z.shiftl a (n mod 64)).
Definition wshr (a n : Z) : Z := Z.shiftr a (n mod 64).
Definition wnot (a : Z) : Z := usize_MAX - a.

Declare Scope usize_scope.
Delimit Scope usize_scope with usize.
Infix "⊞" := wadd (at level 50, left associativity) : usize_scope.
Infix "⊟" := wsub (at level 50, left associativity) : usize_scope.
Infix "⊠" := wmul (at level 40, left associativity) : usize_scope.
#[global] Open Scope usize_scope.

(** [usize::trailing_zeros], [usize::ilog2] and [usize::next_power_of_two]
    (the latter wraps to 0 in a release build when the result does not fit). *)
Fixpoint ctz_pos (p : positive) : Z :=
  match p with
  | xO q => 1 + ctz_pos q
  | _ => 0
  end.

Definition trailing_zeros (z : Z) : Z :=
  match z with Zpos p => ctz_pos p | _ => 64 end.

Definition ilog2 (z : Z) : outcome Z :=
  if z <=? 0 then panic "ilog2 of zero" else Done (Z.log2 z).

Definition next_power_of_two (z : Z) : Z := wrap (2 ^ Z.log2_up z).

(** ** Lemmas on outcomes *)

Lemma bind_Done {A B} (o : outcome A) (f : A -> outcome B) b :
  o ≫= f = Done b <-> exists a, o = Done a /\ f a = Done b.
Proof. destruct o; cbn; naive_solver. Qed.

Lemma unwrap_Done {A} msg (o : option A) a : unwrap msg o = Done a <-> o = Some a.
Proof. destruct o; cbn; naive_solver. Qed.

Lemma index_Done {A} (l : list A) i x : index l i = Done x <-> l !! i = Some x.
Proof. apply unwrap_Done. Qed.

Lemma index_set_Done {A} (l : list A) i x :
  (i < length l)%nat -> index_set l i x = Done (<[i := x]> l).
Proof. intros. unfold index_set. by rewrite decide_True. Qed.

(** [outcome_simpl] splits the binds of a computation known to be [Done]. *)
Ltac outcome_simpl :=
  repeat match goal with
  | H : _ ≫= _ = Done _ |- _ => apply bind_Done in H as (? & ? & H)
  | H : unwrap _ _ = Done _ |- _ => apply unwrap_Done in H
  | H : index _ _ = Done _ |- _ => apply index_Done in H
  | H : Done _ = Done _ |- _ => injection H as H
  | H : Fault _ = Done _ |- _ => discriminate H
  end.

(** ** Lemmas on machine integers *)

Lemma wrap_small z : usize z -> wrap z = z.
Proof. intros. by apply Z.mod_small. Qed.

Lemma wrap_usize z : usize (wrap z).
Proof. by apply Z.mod_pos_bound. Qed.

Lemma wadd_small a b : 0 <= a + b < USIZE -> a ⊞ b = a + b.
Proof. apply wrap_small. Qed.

Lemma wsub_small a b : 0 <= a - b < USIZE -> a ⊟ b = a - b.
Proof. apply wrap_small. Qed.

Lemma wmul_small a b : 0 <= a * b < USIZE -> a ⊠ b = a * b.
Proof. apply wrap_small. Qed.

Lemma wshl_small a n :
  0 <= n < 64 -> 0 <= a * 2 ^ n < USIZE -> wshl a n = a * 2 ^ n.
Proof.
  intros Hn Ha. unfold wshl.
  rewrite Z.mod_small, Z.shiftl_mul_pow2 by lia. by apply wrap_small.
Qed.

Lemma wshr_div a n : 0 <= n < 64 -> wshr a n = a / 2 ^ n.
Proof. intros. unfold wshr. rewrite Z.mod_small, Z.shiftr_div_pow2; lia. Qed.

(** Subtracting back what was added is the identity, whatever wraps. *)
Lemma wsub_wadd a b : usize a -> (a ⊞ b) ⊟ b = a.
Proof.
  intros Ha. unfold wadd, wsub, wrap. rewrite Zminus_mod_idemp_l.
  replace (a + b - b) with a by lia. by apply Z.mod_small.
Qed.

Lemma wadd_wsub a b : usize a -> (a ⊟ b) ⊞ b = a.
Proof.
  intros Ha. unfold wadd, wsub, wrap. rewrite Zplus_mod_idemp_l.
  replace (a - b + b) with a by lia. by apply Z.mod_small.
Qed.

Create HintDb usize.
Create Rewrite HintDb usize.
#[export] Hint Rewrite wadd_small wsub_small wmul_small using lia : usize.
#[export] Hint Resolve wrap_usize : usize.

(** [wsimpl] removes the wrap-around of operations whose result provably fits. *)
Ltac wsimpl := unfold usize in *; autorewrite with usize in *.

(** ** Powers of two and masks *)

Lemma pow2_pos n : 0 <= n -> 0 < 2 ^ n.
Proof. intros. by apply Z.pow_pos_nonneg. Qed.

Lemma pow2_succ n : 0 <= n -> 2 ^ (n + 1) = 2 * 2 ^ n.
Proof. intros. rewrite Z.pow_add_r by lia. lia. Qed.

Lemma pow2_le_mono a b : 0 <= a <= b -> 2 ^ a <= 2 ^ b.
Proof. intros. apply Z.pow_le_mono_r; lia. Qed.

Lemma pow2_divide a b : 0 <= a <= b -> (2 ^ a | 2 ^ b).
Proof.
  intros. exists (2 ^ (b - a)). rewrite <- Z.pow_add_r by lia. f_equal; lia.
Qed.

(** [x & (2^k - 1)] and [x & !(2^k - 1)]. *)
Lemma land_low_mask x k : 0 <= k -> Z.land x (2 ^ k - 1) = x mod 2 ^ k.
Proof.
  intros. replace (2 ^ k - 1) with (Z.ones k) by (rewrite Z.ones_equiv; lia).
  by apply Z.land_ones.
Qed.

Lemma testbit_high x k n : 0 <= k <= n -> 0 <= x < 2 ^ k -> Z.testbit x n = false.
Proof.
  intros Hk Hx. rewrite <- (Z.mod_small x (2 ^ k)) by lia.
  by apply Z.mod_pow2_bits_high.
Qed.

Lemma testbit_usize_high x n : usize x -> 64 <= n -> Z.testbit x n = false.
Proof. intros Hx ?. apply (testbit_high x 64); [lia|exact Hx]. Qed.

Lemma land_high_mask x k :
  0 <= k <= 64 -> usize x -> Z.land x (wnot (2 ^ k - 1)) = x - x mod 2 ^ k.
Proof.
  intros Hk Hx. unfold wnot.
  assert (Hones : usize_MAX - (2 ^ k - 1) = Z.shiftl (Z.ones (64 - k)) k).
  { rewrite Z.shiftl_mul_pow2, Z.ones_equiv by lia.
    assert (2 ^ (64 - k) * 2 ^ k = USIZE) by (rewrite <- Z.pow_add_r by lia; by replace (64 - k + k) with 64 by lia).
    lia. }
  rewrite Hones, <- Z.land_ones by lia.
  rewrite (Z.sub_nocarry_ldiff x).
  - apply Z.bits_inj'. intros n Hn.
    rewrite Z.land_spec, Z.ldiff_spec, Z.land_spec, Z.shiftl_spec by lia.
    rewrite (Z.testbit_ones_nonneg k) by lia.
    destruct (Z.ltb_spec n k).
    + rewrite (Z.testbit_neg_r _ (n - k)) by lia. by destruct (Z.testbit x n).
    + destruct (decide (n < 64)).
      * rewrite Z.ones_spec_low by lia. by destruct (Z.testbit x n).
      * by rewrite (testbit_usize_high x n) by (done || lia).
  - apply Z.bits_inj'. intros n Hn.
    rewrite Z.ldiff_spec, Z.land_spec, Z.bits_0. by destruct (Z.testbit x n), (Z.testbit _ n).
Qed.

(** Aligning down with a mask never leaves the block of the address. *)
Lemma align_mask_spec x k :
  0 <= k <= 64 -> usize x ->
  let y := Z.land x (wnot (2 ^ k - 1)) in
  (2 ^ k | y) /\ y <= x < y + 2 ^ k /\ 0 <= y.
Proof.
  intros Hk Hx y. unfold y. rewrite land_high_mask by done.
  pose proof (pow2_pos k ltac:(lia)). pose proof (Z.mod_pos_bound x (2 ^ k) ltac:(lia)).
  split; [|split; [lia|]].
  - exists (x / 2 ^ k). rewrite Z.mod_eq by lia. lia.
  - pose proof (Z.mod_le x (2 ^ k) (proj1 Hx) ltac:(lia)). lia.
Qed.

(** [x ^ 2^k] flips the bit [k]. *)
Lemma lxor_pow2_clear x k :
  0 <= k -> Z.testbit x k = false -> Z.lxor x (2 ^ k) = x + 2 ^ k.
Proof.
  intros Hk Hb. symmetry. apply Z.add_nocarry_lxor.
  apply Z.bits_inj'. intros n Hn. rewrite Z.land_spec, Z.bits_0, Z.pow2_bits_eqb by lia.
  destruct (Z.eqb_spec k n) as [->|]; [by rewrite Hb|by rewrite andb_false_r].
Qed.

Lemma lxor_pow2_set x k :
  0 <= k -> Z.testbit x k = true -> Z.lxor x (2 ^ k) = x - 2 ^ k.
Proof.
  intros Hk Hb. symmetry. rewrite Z.sub_nocarry_ldiff.
  - apply Z.bits_inj'. intros n Hn. rewrite Z.ldiff_spec, Z.lxor_spec, Z.pow2_bits_eqb by lia.
    destruct (Z.eqb_spec k n) as [->|]; [by rewrite Hb|by destruct (Z.testbit x n)].
  - apply Z.bits_inj'. intros n Hn. rewrite Z.ldiff_spec, Z.bits_0, Z.pow2_bits_eqb by lia.
    destruct (Z.eqb_spec k n) as [->|]; [by rewrite Hb|done].
Qed.

(** For a multiple of [2^k], bit [k] tells whether it is a multiple of [2^(k+1)]. *)
Lemma testbit_aligned x k :
  0 <= k -> (2 ^ k | x) ->
  if Z.testbit x k then (2 ^ (k + 1) | x - 2 ^ k) else (2 ^ (k + 1) | x).
Proof.
  intros Hk [c ->]. pose proof (pow2_pos k Hk).
  rewrite Z.testbit_odd, Z.shiftr_div_pow2, Z.div_mul by lia.
  rewrite pow2_succ by lia. destruct (Z.odd c) eqn:Ho.
  - apply Z.odd_spec in Ho as [m ->]. exists m. lia.
  - rewrite <- Z.negb_even in Ho. apply negb_false_iff, Z.even_spec in Ho as [m ->].
    exists m. lia.
Qed.

(** ** [trailing_zeros] and [next_power_of_two] *)

Lemma ctz_pos_nonneg p : 0 <= ctz_pos p.
Proof. induction p; cbn; lia. Qed.

Lemma ctz_pos_divide p : (2 ^ ctz_pos p | Zpos p).
Proof.
  induction p as [p _|p IH|]; try apply Z.divide_1_l.
  cbn [ctz_pos]. rewrite Z.add_comm, pow2_succ by apply ctz_pos_nonneg.
  rewrite (Pos2Z.inj_xO p). by apply Z.mul_divide_mono_l.
Qed.

Lemma trailing_zeros_nonneg z : 0 <= trailing_zeros z.
Proof. destruct z; cbn; [lia|apply ctz_pos_nonneg|lia]. Qed.

Lemma trailing_zeros_divide z : 0 < z -> (2 ^ trailing_zeros z | z).
Proof. destruct z; try lia. intros _. apply ctz_pos_divide. Qed.

(** [trailing_zeros] is the exponent of the largest power of two dividing [z]. *)
Lemma trailing_zeros_max z k : 0 < z -> 0 <= k -> (2 ^ k | z) -> k <= trailing_zeros z.
Proof.
  intros Hz Hk. destruct z as [|p|]; try lia. cbn. revert p Hz.
  pattern k. apply natlike_ind; [|clear k Hk; intros k Hk IH|done].
  - intros. apply ctz_pos_nonneg.
  - intros p Hz [c Hc]. unfold Z.succ in *. rewrite pow2_succ in Hc by lia.
    destruct p as [p|p|]; cbn [ctz_pos]; try lia.
    enough (k <= ctz_pos p) by lia. apply IH; [done|]. exists c. lia.
Qed.

Lemma trailing_zeros_pow2 k : 0 <= k -> trailing_zeros (2 ^ k) = k.
Proof.
  intros Hk. pose proof (pow2_pos k Hk) as Hp.
  apply Z.le_antisymm; [|by apply trailing_zeros_max].
  pose proof (trailing_zeros_divide (2 ^ k) Hp) as Hd.
  apply Z.divide_pos_le in Hd; [|done].
  apply (Z.pow_le_mono_r_iff 2); lia.
Qed.

Lemma log2_up_spec' z : 1 <= z -> 2 ^ Z.log2_up z / 2 < z <= 2 ^ Z.log2_up z.
Proof.
  intros Hz. destruct (decide (z = 1)) as [->|]; [done|].
  pose proof (Z.log2_up_spec z ltac:(lia)). pose proof (Z.log2_up_pos z ltac:(lia)).
  replace (2 ^ Z.log2_up z) with (2 ^ Z.pred (Z.log2_up z) * 2) by
    (rewrite Z.mul_comm, <- Z.pow_succ_r by lia; f_equal; lia).
  rewrite Z.div_mul by lia. rewrite Z.mul_comm, <- Z.pow_succ_r, Z.succ_pred by lia. lia.
Qed.

Lemma next_power_of_two_small z :
  1 <= z <= 2 ^ 63 -> next_power_of_two z = 2 ^ Z.log2_up z.
Proof.
  intros Hz. apply wrap_small. pose proof (Z.log2_up_nonneg z).
  pose proof (pow2_pos (Z.log2_up z) ltac:(lia)).
  assert (Z.log2_up z <= 63) by (rewrite <- (Z.log2_up_pow2 63) by lia; apply Z.log2_up_le_mono; lia).
  pose proof (pow2_le_mono (Z.log2_up z) 63 ltac:(lia)). unfold usize. lia.
Qed.

(** Beyond [2^63] the next power of two is [2^64], which wraps to 0. *)
Lemma next_power_of_two_overflow z : 2 ^ 63 < z < USIZE -> next_power_of_two z = 0.
Proof.
  intros Hz. unfold next_power_of_two. replace (Z.log2_up z) with 64; [done|].
  apply Z.le_antisymm.
  - assert (63 < Z.log2_up z) by (apply Z.log2_up_lt_pow2; lia). lia.
  - apply Z.log2_up_le_pow2; lia.
Qed.

(** ** Lists *)

Lemma filter_all {A} (P : A -> Prop) `{forall x, Decision (P x)} (l : list A) :
  Forall P l -> filter P l = l.
Proof. induction 1; [done|]. rewrite filter_cons_True by done. by f_equal. Qed.

Lemma filter_ne_id {A} `{EqDecision A} (p : A) (l : list A) : p ∉ l -> filter (fun q => q <> p) l = l.
Proof. intros Hp. apply filter_all, Forall_forall. by intros x Hx ->. Qed.

(** Testing one bit with a mask. *)
Lemma land_pow2_test s k : 0 <= k -> (Z.land s (2 ^ k) =? 0) = negb (Z.testbit s k).
Proof.
  intros Hk. destruct (Z.testbit s k) eqn:Hb; cbn [negb].
  - apply Z.eqb_neq. intros H0.
    assert (H1 : Z.testbit (Z.land s (2 ^ k)) k = Z.testbit 0 k) by (by rewrite H0).
    rewrite Z.land_spec, Hb, Z.pow2_bits_true, Z.bits_0 in H1 by done. done.
  - apply Z.eqb_eq, Z.bits_inj'. intros i Hi. rewrite Z.land_spec, Z.bits_0.
    rewrite Z.pow2_bits_eqb by lia. destruct (Z.eqb_spec k i) as [<-|]; [by rewrite Hb|].
    apply andb_false_r.
Qed.

(** ** Lemmas on lists *)

Lemma NoDup_snoc {A} (l : list A) x : NoDup l -> x ∉ l -> NoDup (l ++ [x]).
Proof.
  intros Hl Hx. apply NoDup_app. split_and!; [done| |apply NoDup_singleton].
  intros y Hy ->%list_elem_of_singleton. done.
Qed.

Lemma elem_of_snoc {A} (l : list A) x y : y ∈ l ++ [x] <-> y ∈ l \/ y = x.
Proof. by rewrite elem_of_app, list_elem_of_singleton. Qed.

Lemma forallb_ext_in {A} (f g : A -> bool) l : (forall x, x ∈ l -> f x = g x) -> forallb f l = forallb g l.
Proof.
  induction l as [|x l IH]; intros Hl; [done|]. cbn [forallb].
  rewrite (Hl x) by constructor. f_equal. apply IH. intros y Hy. apply Hl. by constructor.
Qed.
