(* ===== verification/Address.v ===== *)
(** * Addresses and page numbers

    Models [src/mm/address.rs], the constants of [src/config.rs] and
    [src/mm/mod.rs], the direct-map conversions [phys_to_virt] and
    [virt_to_phys] of [src/mm/buddy.rs] and the alignment helpers of
    [src/mm/mod.rs]. The four newtypes [PhysAddr], [VirtAddr], [PhysPageNum] and
    [VirtPageNum] wrap a [usize] and are represented by that number. *)

From S2P Require Import Prelude.

Abbreviation PhysAddr := Z.
Abbreviation VirtAddr := Z.
Abbreviation PhysPageNum := Z.
Abbreviation VirtPageNum := Z.

Definition PAGE_SIZE_BITS : Z := 12.
Definition PAGE_SIZE : Z := wshl 1 PAGE_SIZE_BITS.
Definition PHYS_VIRT_OFFSET : Z := 0xFFFFFFFF00000000.
Definition PA_WIDTH_SV39 : Z := 56.
Definition VA_WIDTH_SV39 : Z := 39.
Definition PPN_WIDTH_SV39 : Z := PA_WIDTH_SV39 - PAGE_SIZE_BITS.
Definition VPN_WIDTH_SV39 : Z := VA_WIDTH_SV39 - PAGE_SIZE_BITS.

(** ** Virtual addresses and page numbers *)

(** The loop of [VirtPageNum::indices] runs for [i = 2, 1, 0]. *)
Definition indices (vpn : VirtPageNum) : list Z :=
  let mask := wshl 1 9 ⊟ 1 in
  let i2 := Z.land vpn mask in
  let vpn := wshr vpn 9 in
  let i1 := Z.land vpn mask in
  let vpn := wshr vpn 9 in
  let i0 := Z.land vpn mask in
  [i0; i1; i2].

Definition VirtPageNum_next (vpn : VirtPageNum) : VirtPageNum := vpn ⊞ 1.

Definition VirtAddr_floor (va : VirtAddr) : VirtPageNum := wshr va PAGE_SIZE_BITS.
Definition VirtAddr_ceil (va : VirtAddr) : VirtPageNum :=
  wshr (va ⊟ 1 ⊞ PAGE_SIZE) PAGE_SIZE_BITS.
Definition VirtAddr_page_offset (va : VirtAddr) : Z := Z.land va (PAGE_SIZE ⊟ 1).
Definition VirtAddr_aligned (va : VirtAddr) : bool := VirtAddr_page_offset va =? 0.

(** [(v << 25) as isize >> 25]: an arithmetic shift of the two's complement value. *)
Definition to_isize (z : Z) : Z := if z <? 2 ^ 63 then z else z - USIZE.

Definition VirtAddr_from_usize (v : Z) : VirtAddr :=
  wrap (Z.shiftr (to_isize (wshl v 25)) 25).

Definition VirtPageNum_from_VirtAddr (va : VirtAddr) : outcome VirtPageNum :=
  _ ← assert "assertion `left == right` failed" (VirtAddr_page_offset va =? 0);
  Done (VirtAddr_floor va).

Definition VirtAddr_from_VirtPageNum (vpn : VirtPageNum) : VirtAddr :=
  VirtAddr_from_usize (wshl vpn PAGE_SIZE_BITS).

Definition VirtPageNum_from_usize (v : Z) : VirtPageNum :=
  Z.land v (wshl 1 VPN_WIDTH_SV39 ⊟ 1).

(** ** Physical addresses and page numbers *)

Definition PhysAddr_from_usize (v : Z) : PhysAddr := Z.land v (wshl 1 PA_WIDTH_SV39 ⊟ 1).
Definition PhysPageNum_from_usize (v : Z) : PhysPageNum :=
  Z.land v (wshl 1 PPN_WIDTH_SV39 ⊟ 1).

Definition PhysAddr_page_offset (pa : PhysAddr) : Z := Z.land pa (PAGE_SIZE ⊟ 1).
Definition PhysAddr_floor (pa : PhysAddr) : PhysPageNum := wshr pa PAGE_SIZE_BITS.
Definition PhysAddr_ceil (pa : PhysAddr) : PhysPageNum :=
  wshr (pa ⊞ PAGE_SIZE ⊟ 1) PAGE_SIZE_BITS.

Definition PhysPageNum_from_PhysAddr (pa : PhysAddr) : outcome PhysPageNum :=
  _ ← assert "assertion `left == right` failed" (PhysAddr_page_offset pa =? 0);
  Done (PhysAddr_floor pa).

Definition PhysAddr_from_PhysPageNum (ppn : PhysPageNum) : PhysAddr :=
  wshl ppn PAGE_SIZE_BITS.

(** ** The direct map and alignment helpers *)

Definition phys_to_virt (pa : Z) : Z := pa ⊞ PHYS_VIRT_OFFSET.
Definition virt_to_phys (va : Z) : Z := va ⊟ PHYS_VIRT_OFFSET.

Definition align_up (value align : Z) : Z :=
  Z.land (value ⊞ align ⊟ 1) (wnot (align ⊟ 1)).
Definition align_down (value align : Z) : Z := Z.land value (wnot (align ⊟ 1)).

(** ** The page-number range iterator *)

Record VPNRange := mkVPNRange { current : VirtPageNum; end_ : VirtPageNum }.

Definition Range_new (start end_ : VirtPageNum) : VPNRange := mkVPNRange start end_.

Definition Range_next (r : VPNRange) : option VirtPageNum * VPNRange :=
  if current r <? end_ r
  then (Some (current r), mkVPNRange (VirtPageNum_next (current r)) (end_ r))
  else (None, r).

(** A [for] loop over the iterator, with fuel for the number of [next] calls. *)
Fixpoint Range_collect (fuel : nat) (r : VPNRange) : outcome (list VirtPageNum) :=
  match fuel with
  | O => Fault FuelF
  | S fuel =>
      match Range_next r with
      | (None, _) => Done []
      | (Some v, r') => vs ← Range_collect fuel r'; Done (v :: vs)
      end
  end.

(** ** Lemmas *)

Lemma PAGE_SIZE_eq : PAGE_SIZE = 4096.
Proof. reflexivity. Qed.

Lemma page_offset_mod pa : PhysAddr_page_offset pa = pa mod 4096.
Proof. apply (land_low_mask pa 12). lia. Qed.

Lemma VirtAddr_page_offset_mod va : VirtAddr_page_offset va = va mod 4096.
Proof. apply (land_low_mask va 12). lia. Qed.

Lemma PhysAddr_floor_div pa : PhysAddr_floor pa = pa / 4096.
Proof. by apply wshr_div. Qed.

Lemma PhysAddr_ceil_div pa :
  0 <= pa < USIZE - 4096 -> PhysAddr_ceil pa = (pa + 4095) / 4096.
Proof.
  intros. unfold PhysAddr_ceil. rewrite PAGE_SIZE_eq.
  rewrite (wadd_small pa), wsub_small by lia.
  replace (pa + 4096 - 1) with (pa + 4095) by lia. by apply wshr_div.
Qed.

Lemma PhysAddr_from_PhysPageNum_mul ppn :
  0 <= ppn < 2 ^ 52 -> PhysAddr_from_PhysPageNum ppn = ppn * 4096.
Proof. intros. unfold PhysAddr_from_PhysPageNum, PAGE_SIZE_BITS. by rewrite wshl_small by lia. Qed.

Lemma PhysPageNum_from_PhysAddr_mul ppn :
  0 <= ppn -> PhysPageNum_from_PhysAddr (ppn * 4096) = Done ppn.
Proof.
  intros. unfold PhysPageNum_from_PhysAddr.
  rewrite page_offset_mod, Z.mod_mul, PhysAddr_floor_div, Z.div_mul by lia. done.
Qed.

Lemma phys_to_virt_small pa : 0 <= pa < 2 ^ 32 -> phys_to_virt pa = pa + PHYS_VIRT_OFFSET.
Proof. intros. apply wadd_small. unfold PHYS_VIRT_OFFSET. lia. Qed.

Lemma virt_to_phys_to_virt pa : usize pa -> virt_to_phys (phys_to_virt pa) = pa.
Proof. apply wsub_wadd. Qed.

Lemma phys_to_virt_to_phys va : usize va -> phys_to_virt (virt_to_phys va) = va.
Proof. apply wadd_wsub. Qed.

#[export] Hint Rewrite virt_to_phys_to_virt phys_to_virt_to_phys using (assumption || lia) : usize.

Lemma align_down_pow2 v k :
  0 <= k < 64 -> usize v -> align_down v (2 ^ k) = v - v mod 2 ^ k.
Proof.
  intros. unfold align_down. pose proof (pow2_pos k ltac:(lia)).
  pose proof (pow2_le_mono k 63 ltac:(lia)).
  rewrite wsub_small by lia. apply land_high_mask; [lia|done].
Qed.

Lemma align_up_pow2 v k :
  0 <= k < 64 -> 0 <= v -> v + 2 ^ k <= USIZE ->
  align_up v (2 ^ k) = (v + 2 ^ k - 1) - (v + 2 ^ k - 1) mod 2 ^ k.
Proof.
  intros. unfold align_up. pose proof (pow2_pos k ltac:(lia)).
  pose proof (pow2_le_mono k 63 ltac:(lia)).
  unfold wadd, wsub, wrap. rewrite Zminus_mod_idemp_l.
  rewrite (Z.mod_small (v + 2 ^ k - 1)), (Z.mod_small (2 ^ k - 1)) by lia.
  apply land_high_mask; unfold usize; lia.
Qed.

(** [align_down] yields the largest multiple of the alignment below the value. *)
Lemma align_down_spec v k :
  0 <= k < 64 -> usize v ->
  (2 ^ k | align_down v (2 ^ k)) /\ align_down v (2 ^ k) <= v < align_down v (2 ^ k) + 2 ^ k.
Proof.
  intros. unfold align_down. pose proof (pow2_pos k ltac:(lia)).
  pose proof (pow2_le_mono k 63 ltac:(lia)). rewrite wsub_small by lia.
  destruct (align_mask_spec v k ltac:(lia) ltac:(done)) as (? & ? & _). done.
Qed.

(** [align_up] yields the smallest multiple of the alignment above the value. *)
Lemma align_up_spec v k :
  0 <= k < 64 -> 0 <= v -> v + 2 ^ k <= USIZE ->
  (2 ^ k | align_up v (2 ^ k)) /\ v <= align_up v (2 ^ k) < v + 2 ^ k.
Proof.
  intros. rewrite align_up_pow2 by lia. pose proof (pow2_pos k ltac:(lia)).
  pose proof (Z.mod_pos_bound (v + 2 ^ k - 1) (2 ^ k) ltac:(lia)).
  split; [|lia]. exists ((v + 2 ^ k - 1) / 2 ^ k). rewrite Z.mod_eq by lia. lia.
Qed.

(** The sign extension of [VirtAddr::from(usize)], written out. *)
Lemma VirtAddr_from_usize_eq v :
  VirtAddr_from_usize v =
  let m := v mod 2 ^ 39 in if m <? 2 ^ 38 then m else USIZE - 2 ^ 39 + m.
Proof.
  cbv zeta. pose proof (Z.mod_pos_bound v (2 ^ 39) ltac:(lia)) as Hm.
  assert (Hs : wshl v 25 = v mod 2 ^ 39 * 2 ^ 25).
  { unfold wshl, wrap. change (25 mod 64) with 25. rewrite Z.shiftl_mul_pow2 by lia.
    by rewrite <- Z.mul_mod_distr_r by lia. }
  unfold VirtAddr_from_usize, to_isize. rewrite Hs, Z.shiftr_div_pow2 by lia.
  generalize dependent (v mod 2 ^ 39). intros m Hm _.
  destruct (Z.ltb_spec m (2 ^ 38)), (Z.ltb_spec (m * 2 ^ 25) (2 ^ 63)); try lia.
  - rewrite Z.div_mul by lia. apply wrap_small. unfold usize. lia.
  - replace (m * 2 ^ 25 - USIZE) with ((m - 2 ^ 39) * 2 ^ 25) by lia.
    rewrite Z.div_mul by lia. unfold wrap.
    rewrite <- (Z.mod_add _ 1) by lia. rewrite Z.mod_small by lia. lia.
Qed.

(** Canonical Sv39 addresses: bits 63..38 are all equal. *)
Definition canonical (va : Z) : Prop := 0 <= va < 2 ^ 38 \/ USIZE - 2 ^ 38 <= va < USIZE.

Lemma VirtAddr_from_usize_id v : usize v -> canonical v -> VirtAddr_from_usize v = v.
Proof.
  intros Hv Hc. rewrite VirtAddr_from_usize_eq. cbv zeta. unfold canonical, usize in *.
  destruct Hc as [|].
  - rewrite Z.mod_small by lia. destruct (Z.ltb_spec v (2 ^ 38)); lia.
  - replace (v mod 2 ^ 39) with (v - (2 ^ 25 - 1) * 2 ^ 39).
    + destruct (Z.ltb_spec (v - (2 ^ 25 - 1) * 2 ^ 39) (2 ^ 38)); lia.
    + apply (Z.mod_unique_pos _ _ (2 ^ 25 - 1)); lia.
Qed.

(** [VirtAddr::from(usize)] always yields a canonical Sv39 address with the
    low 39 bits of its argument, and is the identity on canonical addresses. *)
Theorem VirtAddr_from_usize_canonical v :
  usize v ->
  canonical (VirtAddr_from_usize v) /\
  VirtAddr_from_usize v mod 2 ^ 39 = v mod 2 ^ 39 /\
  (canonical v -> VirtAddr_from_usize v = v).
Proof.
  intros Hv. split; [|split; [|by apply VirtAddr_from_usize_id]];
    rewrite VirtAddr_from_usize_eq; cbv zeta;
    pose proof (Z.mod_pos_bound v (2 ^ 39) ltac:(lia)) as Hm; unfold canonical, usize in *.
  - destruct (Z.ltb_spec (v mod 2 ^ 39) (2 ^ 38)); lia.
  - destruct (Z.ltb_spec (v mod 2 ^ 39) (2 ^ 38)); [by rewrite Z.mod_mod by lia|].
    replace (USIZE - 2 ^ 39 + v mod 2 ^ 39) with (v mod 2 ^ 39 + (2 ^ 25 - 1) * 2 ^ 39) by lia.
    by rewrite Z.mod_add, Z.mod_mod by lia.
Qed.

Lemma VirtAddr_from_usize_canonical_witness :
  canonical (VirtAddr_from_usize 0x0000007F80200000) /\
  VirtAddr_from_usize 0xFFFFFFFF80200000 = 0xFFFFFFFF80200000.
Proof.
  split.
  - apply (VirtAddr_from_usize_canonical 0x0000007F80200000). split; done.
  - apply (VirtAddr_from_usize_canonical 0xFFFFFFFF80200000); [split; done|].
    right. done.
Defined.

Lemma VirtAddr_from_VirtPageNum_id va :
  usize va -> canonical va -> va mod 4096 = 0 -> VirtAddr_from_VirtPageNum (va / 4096) = va.
Proof.
  intros Hva Hc Hmod. unfold VirtAddr_from_VirtPageNum, PAGE_SIZE_BITS.
  assert (va / 4096 * 2 ^ 12 = va) by (rewrite (Z.div_mod va 4096) at 2; lia).
  unfold usize in *. rewrite wshl_small by lia.
  replace (va / 4096 * 2 ^ 12) with va by lia. by apply VirtAddr_from_usize_id.
Qed.

Lemma VirtPageNum_from_VirtAddr_mod va :
  VirtPageNum_from_VirtAddr va =
  if va mod 4096 =? 0 then Done (va / 4096) else panic "assertion `left == right` failed".
Proof.
  unfold VirtPageNum_from_VirtAddr. rewrite VirtAddr_page_offset_mod.
  destruct (va mod 4096 =? 0); [|done]. cbn. f_equal. by apply wshr_div.
Qed.

(** a canonical page-aligned virtual address survives the conversion to a
    page number and back; an unaligned one makes the conversion panic. *)
Theorem VirtPageNum_roundtrip va :
  usize va ->
  VirtPageNum_from_VirtAddr va =
    (if va mod 4096 =? 0 then Done (va / 4096)
     else panic "assertion `left == right` failed") /\
  (canonical va -> va mod 4096 = 0 -> VirtAddr_from_VirtPageNum (va / 4096) = va).
Proof.
  intros Hva. split; [apply VirtPageNum_from_VirtAddr_mod|].
  intros Hc Hmod. by apply VirtAddr_from_VirtPageNum_id.
Qed.

Lemma VirtPageNum_roundtrip_witness :
  VirtAddr_from_VirtPageNum (0xFFFFFFFF80200000 / 4096) = 0xFFFFFFFF80200000.
Proof.
  apply (VirtPageNum_roundtrip 0xFFFFFFFF80200000); [split; done|right; done|done].
Defined.

Lemma indices_eq vpn :
  indices vpn = [vpn / 2 ^ 18 mod 512; vpn / 2 ^ 9 mod 512; vpn mod 512].
Proof.
  unfold indices. change (wshl 1 9 ⊟ 1) with (2 ^ 9 - 1).
  rewrite !(land_low_mask _ 9), !wshr_div by lia. rewrite Z.div_div by lia. done.
Qed.

(** the three table indices of a page number are in range for a 512-entry
    table and determine its 27 significant bits. *)
Theorem indices_spec vpn :
  exists i0 i1 i2, indices vpn = [i0; i1; i2] /\
    0 <= i0 < 512 /\ 0 <= i1 < 512 /\ 0 <= i2 < 512 /\
    i0 * 2 ^ 18 + i1 * 2 ^ 9 + i2 = VirtPageNum_from_usize vpn.
Proof.
  rewrite indices_eq. do 3 eexists. split; [done|].
  repeat split; try (apply Z.mod_pos_bound; lia).
  unfold VirtPageNum_from_usize. change (wshl 1 VPN_WIDTH_SV39 ⊟ 1) with (2 ^ 27 - 1).
  rewrite land_low_mask by lia.
  replace (2 ^ 27) with (512 * (512 * 512)) by done.
  rewrite !Z.rem_mul_r by lia. rewrite Z.div_div by lia.
  change (2 ^ 18) with (512 * 512). change (2 ^ 9) with 512. lia.
Qed.

(** the range iterator yields exactly the page numbers of the half-open
    interval in order, and then stops. *)
Theorem Range_collect_spec (start : VirtPageNum) (n : nat) :
  0 <= start -> start + Z.of_nat n < USIZE ->
  Range_collect (S n) (Range_new start (start + Z.of_nat n)) = Done (seqZ start (Z.of_nat n)).
Proof.
  intros Hs Hn. unfold Range_new.
  revert start Hs Hn. induction n as [|n IH]; intros start Hs Hn.
  - cbn [Range_collect]. unfold Range_next. cbn [current end_].
    destruct (Z.ltb_spec start (start + Z.of_nat 0)); [lia|done].
  - remember (S n) as m. cbn [Range_collect]. subst m.
    unfold Range_next. cbn [current end_].
    destruct (Z.ltb_spec start (start + Z.of_nat (S n))); [|lia].
    unfold VirtPageNum_next. rewrite wadd_small by lia.
    replace (start + Z.of_nat (S n)) with (start + 1 + Z.of_nat n) by lia.
    rewrite IH by lia. rewrite (seqZ_cons start) by lia.
    cbn [mbind outcome_bind]. do 3 f_equal; lia.
Qed.

Lemma Range_collect_spec_witness :
  Range_collect 4 (Range_new 7 (7 + 3)) = Done [7; 8; 9].
Proof. apply (Range_collect_spec 7 3); lia. Defined.
