(* ===== verification/Memblock.v ===== *)
(** * The boot-time region allocator

    Models [src/mm/memblock.rs]: the fixed array of memory regions
    [RegionArray] with [add_region] (union) and [remove_region] (difference), and
    the allocator [Memblock] with [init_add_memory], [reserve_memory] and
    [early_alloc]. An index into the array is a [nat]; the array always has
    [MAX_REGIONS] elements, of which the first [count] are in use. The [while]
    loops run with fuel [S count], which the theorems show to be enough. *)

From S2P Require Import Prelude Address.

Definition MAX_REGIONS : nat := 128.

Record MemRegion := mkMemRegion { rg_base : PhysAddr; rg_size : Z }.

Definition region_end (r : MemRegion) : PhysAddr := rg_base r ⊞ rg_size r.

Record RegionArray := mkRegionArray {
  regions : list MemRegion;
  count : nat;
  total_size : Z;
}.

Definition RegionArray_new : RegionArray :=
  mkRegionArray (replicate MAX_REGIONS (mkMemRegion 0 0)) 0 0.

(** [slice::copy_within(src_start..src_end, dest)]. *)
Definition copy_within {A} (l : list A) (src_start src_end dest : nat) : outcome (list A) :=
  if decide (src_end < src_start)%nat then panic "slice index starts after end"
  else if decide (length l < src_end)%nat then panic "range end index out of range"
  else
    let n := (src_end - src_start)%nat in
    if decide (length l < dest + n)%nat then panic "dest is out of bounds"
    else Done (take dest l ++ take n (drop src_start l) ++ drop (dest + n) l).

Definition update_total (ra : RegionArray) : outcome RegionArray :=
  if decide (length (regions ra) < count ra)%nat then panic "range end index out of range"
  else Done (mkRegionArray (regions ra) (count ra)
               (foldl wadd 0 (rg_size <$> take (count ra) (regions ra)))).

(** First loop of [add_region]: skip the regions that end below [base]. *)
Fixpoint find_insert_idx (fuel : nat) (ra : RegionArray) (base : PhysAddr) (insert_idx : nat)
    : outcome nat :=
  match fuel with
  | O => Fault FuelF
  | S fuel =>
      if decide (insert_idx < count ra)%nat then
        r ← index (regions ra) insert_idx;
        if region_end r <? base then find_insert_idx fuel ra base (S insert_idx)
        else Done insert_idx
      else Done insert_idx
  end.

(** Second loop of [add_region]: absorb the regions that touch the new one. *)
Fixpoint merge_regions (fuel : nat) (ra : RegionArray) (i : nat) (merged_base merged_end : PhysAddr)
    : outcome (nat * PhysAddr * PhysAddr) :=
  match fuel with
  | O => Fault FuelF
  | S fuel =>
      if decide (i < count ra)%nat then
        r ← index (regions ra) i;
        if rg_base r <=? merged_end then
          merge_regions fuel ra (S i)
            (Z.min merged_base (rg_base r)) (Z.max merged_end (region_end r))
        else Done (i, merged_base, merged_end)
      else Done (i, merged_base, merged_end)
  end.

(** The branch of [add_region] that leaves one slot at [insert_idx] for the merged
    region, in place of the [i - insert_idx] absorbed ones. *)
Definition make_room (ra : RegionArray) (insert_idx i : nat) : outcome (list MemRegion * nat) :=
  let merge_count := (i - insert_idx)%nat in
  if decide (merge_count = 0%nat) then
    _ ← assert "Region array full!" (bool_decide (count ra < MAX_REGIONS)%nat);
    regs ← copy_within (regions ra) insert_idx (count ra) (insert_idx + 1)%nat;
    Done (regs, (count ra + 1)%nat)
  else
    let shift := (merge_count - 1)%nat in
    if decide (0 < shift)%nat then
      regs ← copy_within (regions ra) i (count ra) (i - shift)%nat;
      Done (regs, (count ra - shift)%nat)
    else Done (regions ra, count ra).

Definition add_region (ra : RegionArray) (base : PhysAddr) (size : Z) : outcome RegionArray :=
  if size =? 0 then Done ra
  else
    let end_ := base ⊞ size in
    insert_idx ← find_insert_idx (S (count ra)) ra base 0;
    '(i, merged_base, merged_end) ← merge_regions (S (count ra)) ra insert_idx base end_;
    '(regs, cnt) ← make_room ra insert_idx i;
    regs ← index_set regs insert_idx (mkMemRegion merged_base (merged_end ⊟ merged_base));
    update_total (mkRegionArray regs cnt (total_size ra)).

(** The loop of [remove_region]; [i] is the index under inspection. *)
Fixpoint remove_loop (fuel : nat) (ra : RegionArray) (rm_base rm_end : PhysAddr) (i : nat)
    : outcome RegionArray :=
  match fuel with
  | O => Fault FuelF
  | S fuel =>
      if decide (i < count ra)%nat then
        r ← index (regions ra) i;
        let reg_base := rg_base r in
        let reg_end := region_end r in
        if (rm_base <? reg_end) && (reg_base <? rm_end) then
          if (rm_base <=? reg_base) && (reg_end <=? rm_end) then
            regs ← copy_within (regions ra) (i + 1)%nat (count ra) i;
            remove_loop fuel (mkRegionArray regs (count ra - 1)%nat (total_size ra)) rm_base rm_end i
          else if (rm_base <=? reg_base) && (rm_end <? reg_end) then
            regs ← index_set (regions ra) i (mkMemRegion rm_end (reg_end ⊟ rm_end));
            remove_loop fuel (mkRegionArray regs (count ra) (total_size ra)) rm_base rm_end (i + 1)%nat
          else if (reg_base <? rm_base) && (reg_end <=? rm_end) then
            regs ← index_set (regions ra) i (mkMemRegion reg_base (rm_base ⊟ reg_base));
            remove_loop fuel (mkRegionArray regs (count ra) (total_size ra)) rm_base rm_end (i + 1)%nat
          else
            _ ← assert "Region array full during hole punching!"
                  (bool_decide (count ra < MAX_REGIONS)%nat);
            regs ← index_set (regions ra) i (mkMemRegion reg_base (rm_base ⊟ reg_base));
            regs ← copy_within regs (i + 1)%nat (count ra) (i + 2)%nat;
            regs ← index_set regs (i + 1)%nat (mkMemRegion rm_end (reg_end ⊟ rm_end));
            remove_loop fuel (mkRegionArray regs (count ra + 1)%nat (total_size ra))
              rm_base rm_end (i + 2)%nat
        else remove_loop fuel ra rm_base rm_end (i + 1)%nat
      else Done ra
  end.

Definition remove_region (ra : RegionArray) (rm_base : PhysAddr) (rm_size : Z)
    : outcome RegionArray :=
  if rm_size =? 0 then Done ra
  else
    let rm_end := rm_base ⊞ rm_size in
    ra ← remove_loop (S (count ra)) ra rm_base rm_end 0;
    update_total ra.

Record Memblock := mkMemblock {
  available : RegionArray;
  reserved : RegionArray;
  allocated : RegionArray;
}.

(** The initial value of the static [MEMBLOCK]. *)
Definition MEMBLOCK_init : Memblock :=
  mkMemblock RegionArray_new RegionArray_new RegionArray_new.

Definition init_add_memory (mb : Memblock) (base : PhysAddr) (size : Z) : outcome Memblock :=
  available' ← add_region (available mb) base size;
  Done (mkMemblock available' (reserved mb) (allocated mb)).

Definition reserve_memory (mb : Memblock) (base : PhysAddr) (size : Z) : outcome Memblock :=
  available' ← remove_region (available mb) base size;
  reserved' ← add_region (reserved mb) base size;
  Done (mkMemblock available' reserved' (allocated mb)).

(** The loop of [early_alloc] visits the indices [count-1, ..., 0]; [n] is the
    number of indices still to visit. *)
Fixpoint early_alloc_loop (n : nat) (mb : Memblock) (size align : Z)
    : outcome (option PhysAddr * Memblock) :=
  match n with
  | O => Done (None, mb)
  | S i =>
      reg ← index (regions (available mb)) i;
      let alloc_base := Z.land (region_end reg ⊟ size) (wnot (align ⊟ 1)) in
      if rg_base reg <=? alloc_base then
        available' ← remove_region (available mb) alloc_base size;
        allocated' ← add_region (allocated mb) alloc_base size;
        Done (Some alloc_base, mkMemblock available' (reserved mb) allocated')
      else early_alloc_loop i mb size align
  end.

Definition early_alloc (mb : Memblock) (size align : Z) : outcome (option PhysAddr * Memblock) :=
  early_alloc_loop (count (available mb)) mb size align.

(** ** Specification: sets of addresses *)

(** The regions in use, and the addresses they cover. *)
Definition active (ra : RegionArray) : list MemRegion := take (count ra) (regions ra).

Definition rend (r : MemRegion) : Z := rg_base r + rg_size r.

Definition covers (l : list MemRegion) (a : Z) : Prop :=
  exists r, r ∈ l /\ rg_base r <= a < rend r.

Definition region_ok (r : MemRegion) : Prop :=
  0 <= rg_base r /\ 0 < rg_size r /\ rend r < USIZE.

(** Regions are non-empty, increasing, and separated by at least one byte. *)
Definition regions_ok (l : list MemRegion) : Prop :=
  Forall region_ok l /\ StronglySorted (fun r s => rend r < rg_base s) l.

Definition total (l : list MemRegion) : Z := foldr Z.add 0 (rg_size <$> l).

Definition array_ok (ra : RegionArray) : Prop :=
  length (regions ra) = MAX_REGIONS /\ (count ra <= MAX_REGIONS)%nat /\
  regions_ok (active ra) /\ total_size ra = total (active ra).

(** What is left of one region when [b, e) is cut out. *)
Definition cut (b e : Z) (r : MemRegion) : list MemRegion :=
  if (b <? rend r) && (rg_base r <? e) then
    (if rg_base r <? b then [mkMemRegion (rg_base r) (b - rg_base r)] else []) ++
    (if e <? rend r then [mkMemRegion e (rend r - e)] else [])
  else [r].

(** [b, e) lies strictly inside the region, so that cutting splits it. *)
Definition splits (b e : Z) (r : MemRegion) : Prop := rg_base r < b /\ e < rend r.

#[export] Instance splits_dec b e r : Decision (splits b e r).
Proof. unfold splits. apply _. Defined.

(** ** Array lemmas *)

Lemma copy_within_left {A} (a d p j : list A) :
  exists j', length j' = (length d + length j)%nat /\
  copy_within (a ++ d ++ p ++ j) (length a + length d) (length a + length d + length p) (length a)
  = Done (a ++ p ++ j').
Proof.
  exists (drop (length a + length p) (a ++ d ++ p ++ j)). unfold copy_within.
  rewrite !length_app, length_drop, !length_app. split; [lia|].
  rewrite decide_False, decide_False by lia. cbv zeta.
  replace (length a + length d + length p - (length a + length d))%nat with (length p) by lia.
  rewrite decide_False by lia. do 2 f_equal; [by rewrite take_app_length|].
  rewrite (app_assoc a d), drop_app_length' by (rewrite length_app; done).
  by rewrite take_app_length.
Qed.

Lemma copy_within_right {A} (a p : list A) x j :
  exists y,
  copy_within (a ++ p ++ x :: j) (length a) (length a + length p) (length a + 1)
  = Done (a ++ y :: p ++ j).
Proof.
  assert (Hy : exists y t, p ++ x :: j = y :: t).
  { destruct p as [|y p]; cbn; eauto. }
  destruct Hy as (y & t & Hy). exists y. unfold copy_within.
  rewrite !length_app. cbn [length].
  rewrite decide_False, decide_False by lia. cbv zeta.
  replace (length a + length p - length a)%nat with (length p) by lia.
  rewrite decide_False by lia. f_equal.
  rewrite drop_app_length, take_app_length.
  assert (take (length a + 1) (a ++ p ++ x :: j) = a ++ [y]) as ->.
  { rewrite take_app_add, Hy. done. }
  replace (length a + 1 + length p)%nat with (length a + (length p + 1))%nat by lia.
  rewrite drop_app_add, drop_app_add. cbn. by rewrite <- app_assoc.
Qed.

(** [holds ra l]: the array has its fixed size and its used part is [l]. *)
Definition holds (ra : RegionArray) (l : list MemRegion) : Prop :=
  length (regions ra) = MAX_REGIONS /\ count ra = length l /\
  exists junk, regions ra = l ++ junk.

Lemma holds_active ra l : holds ra l -> active ra = l.
Proof. intros (_ & Hc & junk & Hr). unfold active. rewrite Hc, Hr. apply take_app_length. Qed.

Lemma holds_count ra l : holds ra l -> (length l <= MAX_REGIONS)%nat.
Proof. intros (Hlen & _ & junk & Hr). rewrite Hr, length_app in Hlen. lia. Qed.

Lemma active_holds ra :
  length (regions ra) = MAX_REGIONS -> (count ra <= MAX_REGIONS)%nat -> holds ra (active ra).
Proof.
  intros Hlen Hc. unfold active. split_and!; [done|rewrite length_take; lia|].
  exists (drop (count ra) (regions ra)). by rewrite take_drop.
Qed.

Lemma holds_index ra pre r l :
  holds ra (pre ++ r :: l) ->
  (length pre < count ra)%nat /\ index (regions ra) (length pre) = Done r.
Proof.
  intros (_ & Hc & junk & Hr). rewrite Hc, Hr, length_app. cbn. split; [lia|].
  apply index_Done. rewrite <- app_assoc. by apply list_lookup_middle.
Qed.

Lemma holds_set ra pre r l x :
  holds ra (pre ++ r :: l) ->
  exists regs, index_set (regions ra) (length pre) x = Done regs /\
    forall tot, holds (mkRegionArray regs (count ra) tot) (pre ++ x :: l).
Proof.
  intros (Hlen & Hc & junk & Hr). rewrite Hr in Hlen |- *. rewrite <- app_assoc in Hlen |- *.
  rewrite length_app in Hlen, Hc. cbn in Hlen, Hc. rewrite index_set_Done by (rewrite length_app; cbn; lia).
  eexists. split; [done|]. intros tot. unfold holds. cbn [regions count].
  rewrite insert_app_r_alt, Nat.sub_diag by lia. cbn. split_and!.
  - rewrite length_app. cbn. lia.
  - rewrite length_app. cbn. lia.
  - exists junk. by rewrite <- app_assoc.
Qed.

Lemma holds_delete ra pre d l :
  holds ra (pre ++ d ++ l) ->
  exists regs, copy_within (regions ra) (length pre + length d) (count ra) (length pre) = Done regs /\
    forall tot, holds (mkRegionArray regs (count ra - length d) tot) (pre ++ l).
Proof.
  intros (Hlen & Hc & junk & Hr). rewrite Hr in Hlen |- *. rewrite <- !app_assoc in Hlen |- *.
  rewrite !length_app in Hlen. rewrite !length_app in Hc. destruct (copy_within_left pre d l junk) as (j' & Hj & Heq).
  rewrite Hc, Nat.add_assoc, Heq. eexists. split; [done|]. intros tot.
  unfold holds. cbn [regions count]. rewrite !length_app. split_and!; [lia|lia|].
  exists j'. by rewrite <- app_assoc.
Qed.

Lemma holds_insert ra pre l :
  holds ra (pre ++ l) -> (count ra < MAX_REGIONS)%nat ->
  exists regs, copy_within (regions ra) (length pre) (count ra) (length pre + 1) = Done regs /\
    exists y, forall tot, holds (mkRegionArray regs (count ra + 1) tot) (pre ++ y :: l).
Proof.
  intros (Hlen & Hc & junk & Hr) Hmax. rewrite Hr in Hlen |- *. rewrite <- !app_assoc in Hlen |- *.
  rewrite !length_app in Hlen. rewrite !length_app in Hc. destruct junk as [|x junk]; [cbn in Hlen; lia|].
  destruct (copy_within_right pre l x junk) as (y & Heq).
  rewrite Hc, Heq. eexists. split; [done|]. exists y. intros tot.
  unfold holds. cbn [regions count]. rewrite !length_app. cbn in *. rewrite !length_app.
  split_and!; [lia|lia|]. exists junk. by rewrite <- app_assoc.
Qed.

(** The three array operations of hole punching. *)
Lemma holds_split ra pre r l x y :
  holds ra (pre ++ r :: l) -> (count ra < MAX_REGIONS)%nat ->
  exists r1 r2 r3,
    index_set (regions ra) (length pre) x = Done r1 /\
    copy_within r1 (length pre + 1) (count ra) (length pre + 2) = Done r2 /\
    index_set r2 (length pre + 1) y = Done r3 /\
    forall tot, holds (mkRegionArray r3 (count ra + 1) tot) (pre ++ x :: y :: l).
Proof.
  intros Hra Hmax. destruct (holds_set _ _ _ _ x Hra) as (r1 & H1 & Hr1).
  specialize (Hr1 0). rewrite (app_assoc pre [x] l : pre ++ x :: l = _) in Hr1.
  destruct (holds_insert _ _ _ Hr1 Hmax) as (r2 & H2 & z & Hr2). specialize (Hr2 0).
  destruct (holds_set _ _ _ _ y Hr2) as (r3 & H3 & Hr3).
  rewrite !length_app in H2. rewrite !length_app in H3. cbn [length regions count] in *.
  exists r1, r2, r3. split_and!; [done| |done|].
  - by replace (length pre + 2)%nat with (length pre + 1 + 1)%nat by lia.
  - intros tot. specialize (Hr3 tot). by rewrite <- app_assoc in Hr3.
Qed.

Lemma region_end_ok r : region_ok r -> region_end r = rend r.
Proof. intros (? & ? & ?). unfold region_end, rend in *. apply wadd_small. lia. Qed.

(** ** [remove_region] *)

(** Running the loop from index [length pre] replaces the rest by its cuts. *)
Lemma remove_loop_spec b e l : forall pre ra fuel,
  0 <= b < e -> e < USIZE ->
  regions_ok l -> (length l < fuel)%nat -> holds ra (pre ++ l) ->
  (count ra < MAX_REGIONS)%nat \/ Forall (fun r => ~ splits b e r) l ->
  exists ra', remove_loop fuel ra b e (length pre) = Done ra' /\ holds ra' (pre ++ (l ≫= cut b e)).
Proof.
  induction l as [|r l IH]; intros pre ra fuel Hb He [Hok Hsort] Hfuel Hra Hroom;
    (destruct fuel as [|fuel]; [cbn in Hfuel; lia|]); cbn [remove_loop].
  { rewrite app_nil_r in Hra. rewrite decide_False by (destruct Hra as (_ & -> & _); lia).
    exists ra. by rewrite app_nil_r. }
  destruct (holds_index _ _ _ _ Hra) as [Hlt Hidx]. rewrite decide_True, Hidx by done.
  apply Forall_cons in Hok as [Hr Hok]. apply StronglySorted_inv in Hsort as [Hsort Hrl].
  cbn [mbind outcome_bind list_bind]. cbv zeta. rewrite region_end_ok by done.
  assert (Hnext : forall c ra2 i, cut b e r = c -> holds ra2 (pre ++ c ++ l) ->
    (count ra2 <= count ra)%nat \/ splits b e r -> i = (length pre + length c)%nat ->
    exists ra', remove_loop fuel ra2 b e i = Done ra' /\
      holds ra' (pre ++ (cut b e r ++ (l ≫= cut b e)))).
  { intros c ra2 i <- Hra2 Hc ->. rewrite app_assoc in Hra2 |- *. rewrite <- length_app.
    apply IH; try done; [cbn in Hfuel; lia|].
    destruct Hc as [Hc|Hsplit].
    - destruct Hroom as [Hroom|Hroom]; [left; lia|right; by inv Hroom].
    - right. eapply Forall_impl; [exact Hrl|]. cbn. unfold splits in *. lia. }
  destruct Hr as (Hr0 & Hr1 & Hr2). unfold cut at 1 in Hnext.
  destruct (Z.ltb_spec b (rend r)), (Z.ltb_spec (rg_base r) e); cbn [andb] in *;
    try (apply (Hnext [r] ra); [done|done|by left|done]).
  destruct (Z.leb_spec b (rg_base r)), (Z.leb_spec (rend r) e),
    (Z.ltb_spec (rg_base r) b), (Z.ltb_spec e (rend r)); try lia; cbn [andb app] in *.
  - destruct (holds_delete ra pre [r] l Hra) as (regs & Heq & Hregs). cbn [length] in *.
    rewrite Heq. cbn [mbind outcome_bind].
    apply (Hnext []); [done|apply Hregs|left; cbn; lia|cbn; lia].
  - destruct (holds_set _ _ _ _ (mkMemRegion e (rend r - e)) Hra) as (regs & Heq & Hregs).
    rewrite wsub_small, Heq by lia. cbn [mbind outcome_bind].
    eapply Hnext; [done|apply Hregs|by left|done].
  - destruct (holds_set _ _ _ _ (mkMemRegion (rg_base r) (b - rg_base r)) Hra) as (regs & Heq & Hregs).
    rewrite wsub_small, Heq by lia. cbn [mbind outcome_bind].
    eapply Hnext; [done|apply Hregs|by left|done].
  - assert (Hsplit : splits b e r) by done.
    assert (Hmax : (count ra < MAX_REGIONS)%nat).
    { destruct Hroom as [|Hroom]; [done|]. by inv Hroom. }
    rewrite bool_decide_eq_true_2 by done.
    destruct (holds_split ra pre r l (mkMemRegion (rg_base r) (b - rg_base r))
      (mkMemRegion e (rend r - e)) Hra Hmax) as (? & ? & ? & Hs1 & Hs2 & Hs3 & Hregs).
    rewrite !wsub_small by lia. cbn [mbind outcome_bind assert].
    rewrite Hs1. cbn [mbind outcome_bind]. rewrite Hs2. cbn [mbind outcome_bind].
    rewrite Hs3. cbn [mbind outcome_bind].
    eapply Hnext; [done|apply Hregs|by right|done].
Qed.

(** ** Cutting lists of regions *)

Ltac cut_cases :=
  unfold cut;
  repeat match goal with |- context [?x <? ?y] => destruct (Z.ltb_spec x y) end;
  cbn [andb app].

Lemma cut_within b e r s :
  b < e -> region_ok r -> s ∈ cut b e r ->
  region_ok s /\ rg_base r <= rg_base s /\ rend s <= rend r.
Proof.
  unfold region_ok. intros Hbe Hr. cut_cases; rewrite ?elem_of_cons, ?elem_of_nil;
    intros; destruct_or?; subst; unfold rend in *; cbn in *; try done; lia.
Qed.

Lemma cut_sorted b e r :
  b < e -> StronglySorted (fun r s => rend r < rg_base s) (cut b e r).
Proof.
  intros Hbe. cut_cases; repeat constructor. unfold rend. cbn. lia.
Qed.

Lemma covers_nil a : covers [] a <-> False.
Proof. unfold covers. set_solver. Qed.

Lemma covers_cons r l a : covers (r :: l) a <-> rg_base r <= a < rend r \/ covers l a.
Proof. unfold covers. set_solver. Qed.

Lemma covers_app l1 l2 a : covers (l1 ++ l2) a <-> covers l1 a \/ covers l2 a.
Proof. unfold covers. set_solver. Qed.

Lemma covers_cut b e r a :
  b < e -> covers (cut b e r) a <-> rg_base r <= a < rend r /\ ~ (b <= a < e).
Proof.
  intros Hbe. cut_cases; rewrite ?covers_cons, ?covers_nil; unfold rend in *; cbn [rg_base rg_size];
    lia.
Qed.

Lemma covers_bind_cut b e l a :
  b < e -> covers (l ≫= cut b e) a <-> covers l a /\ ~ (b <= a < e).
Proof.
  intros Hbe. induction l as [|r l IH]; cbn [mbind list_bind].
  - rewrite covers_nil. tauto.
  - rewrite covers_app, covers_cons, IH, covers_cut by done. tauto.
Qed.

Lemma regions_ok_cons r l :
  regions_ok (r :: l) <->
  region_ok r /\ (forall s, s ∈ l -> rend r < rg_base s) /\ regions_ok l.
Proof.
  unfold regions_ok. rewrite Forall_cons. split.
  - intros [[??] [? Hf]%StronglySorted_inv]. rewrite Forall_forall in Hf. naive_solver.
  - intros (? & ? & ? & ?). split; [done|]. constructor; [done|]. by apply Forall_forall.
Qed.

Lemma regions_ok_app l1 l2 :
  regions_ok (l1 ++ l2) <->
  regions_ok l1 /\ regions_ok l2 /\ (forall r s, r ∈ l1 -> s ∈ l2 -> rend r < rg_base s).
Proof. unfold regions_ok. rewrite Forall_app, StronglySorted_app. naive_solver. Qed.

Lemma regions_ok_cut b e l : b < e -> regions_ok l -> regions_ok (l ≫= cut b e).
Proof.
  intros Hbe. induction l as [|r l IH]; cbn [mbind list_bind]; [done|].
  rewrite regions_ok_cons, regions_ok_app. intros (Hr & Hrl & Hl). split_and!; auto.
  - split; [|by apply cut_sorted]. apply Forall_forall. intros s Hs.
    by apply (cut_within b e r).
  - intros s t Hs (u & Ht & Hu)%list_elem_of_bind.
    destruct Hl as [Hl _]. rewrite Forall_forall in Hl.
    apply cut_within in Hs as (_ & _ & ?); [|done..].
    apply cut_within in Ht as (_ & ? & _); [|by auto..]. specialize (Hrl _ Hu). lia.
Qed.

(** ** The running total *)

Lemma total_bound l lo :
  regions_ok l -> (forall r, r ∈ l -> lo <= rg_base r) -> 0 <= total l /\ (l <> [] -> total l < USIZE - lo).
Proof.
  revert lo. induction l as [|r l IH]; intros lo; [done|].
  rewrite regions_ok_cons. intros (Hr & Hrl & Hl) Hlo. unfold total. cbn. fold (total l).
  destruct (IH (rend r) Hl) as [H1 H2]; [intros s Hs; specialize (Hrl s Hs); lia|].
  destruct Hr as (? & ? & ?). unfold rend in *. specialize (Hlo r ltac:(set_solver)).
  split; [lia|]. intros _. destruct l; [unfold total; cbn; lia|]. specialize (H2 ltac:(done)). lia.
Qed.

Lemma foldl_wadd_total l acc :
  Forall (fun r => 0 <= rg_size r) l -> 0 <= acc -> acc + total l < USIZE ->
  foldl wadd acc (rg_size <$> l) = acc + total l.
Proof.
  revert acc. induction l as [|r l IH]; intros acc Hl Hacc Hlt; unfold total in *; cbn in *; [lia|].
  inv Hl. assert (0 <= foldr Z.add 0 (rg_size <$> l)).
  { clear -H2. induction H2; cbn; lia. }
  rewrite wadd_small, IH by (done || lia). lia.
Qed.

Lemma update_total_spec ra l :
  holds ra l -> regions_ok l -> exists ra', update_total ra = Done ra' /\ array_ok ra' /\ active ra' = l.
Proof.
  intros Hra Hl. pose proof (holds_active _ _ Hra) as Ha. pose proof (holds_count _ _ Hra).
  destruct Hra as (Hlen & Hc & _). unfold update_total. rewrite decide_False by lia.
  fold (active ra). rewrite Ha. eexists. split; [done|]. unfold array_ok, active in *. cbn.
  rewrite Ha. split_and!; try done; [lia|].
  destruct (total_bound l 0 Hl) as [Ht Ht'].
  { intros r Hr. destruct Hl as [Hl _]. rewrite Forall_forall in Hl. by apply Hl. }
  rewrite foldl_wadd_total; [done| |lia|].
  - eapply Forall_impl; [apply Hl|]. intros r (? & ? & ?). lia.
  - destruct l; [done|]. specialize (Ht' ltac:(done)). lia.
Qed.

Lemma remove_region_ok ra b n :
  array_ok ra -> 0 <= b -> 0 < n -> b + n < USIZE ->
  (count ra < MAX_REGIONS)%nat \/ Forall (fun r => ~ splits b (b + n) r) (active ra) ->
  exists ra', remove_region ra b n = Done ra' /\ array_ok ra' /\
    active ra' = active ra ≫= cut b (b + n).
Proof.
  intros (Hlen & Hc & Hok & _) Hb Hn He Hroom.
  pose proof (active_holds ra Hlen Hc) as Hra.
  unfold remove_region. rewrite (proj2 (Z.eqb_neq n 0)) by lia. rewrite wadd_small by lia.
  destruct (remove_loop_spec b (b + n) (active ra) [] ra (S (count ra))) as (ra' & Heq & Hra');
    try done; [lia| |].
  { unfold active. rewrite length_take. lia. }
  change (length (@nil MemRegion)) with 0%nat in Heq. rewrite Heq. cbn [mbind outcome_bind].
  by apply update_total_spec, regions_ok_cut; [|lia|].
Qed.

Lemma remove_loop_full b e l : forall pre ra fuel,
  0 <= b < e -> e < USIZE -> regions_ok l -> (length l < fuel)%nat -> holds ra (pre ++ l) ->
  count ra = MAX_REGIONS -> Exists (splits b e) l ->
  remove_loop fuel ra b e (length pre) = panic "Region array full during hole punching!".
Proof.
  induction l as [|r l IH]; intros pre ra fuel Hb He Hok Hfuel Hra Hmax Hex; [by inv Hex|].
  destruct fuel as [|fuel]; [cbn in Hfuel; lia|]; cbn [remove_loop].
  destruct (holds_index _ _ _ _ Hra) as [Hlt Hidx]. rewrite decide_True, Hidx by done.
  apply regions_ok_cons in Hok as (Hr & Hrl & Hok).
  cbn [mbind outcome_bind]. cbv zeta. rewrite region_end_ok by done.
  destruct (decide (splits b e r)) as [[Hs1 Hs2]|Hns].
  - destruct (Z.ltb_spec b (rend r)), (Z.ltb_spec (rg_base r) e); try lia; cbn [andb].
    destruct (Z.leb_spec b (rg_base r)), (Z.leb_spec (rend r) e),
      (Z.ltb_spec (rg_base r) b), (Z.ltb_spec e (rend r)); try lia; cbn [andb].
    by rewrite bool_decide_eq_false_2 by lia.
  - assert (Hex' : Exists (splits b e) l) by (by inv Hex).
    apply Exists_exists in Hex' as (s & Hs & Hs1 & Hs2). specialize (Hrl s Hs).
    destruct (Z.ltb_spec b (rend r)); [lia|]. cbn [andb].
    replace (length pre + 1)%nat with (length (pre ++ [r])) by (rewrite length_app; done).
    apply IH; try done; [cbn in Hfuel; lia|by rewrite <- app_assoc|].
    apply Exists_exists. by exists s.
Qed.


(** C20: [remove_region] computes the set difference: on a well-formed array it
    terminates, keeps the array well formed (sorted, disjoint, exact total) and
    the covered addresses become those outside [rm_base, rm_base + rm_size).
    The one exception is a full array in which a region has to be split: then,
    and only then, it panics. *)
Theorem remove_region_spec ra rm_base rm_size :
  array_ok ra -> 0 <= rm_base -> 0 < rm_size -> rm_base + rm_size < USIZE ->
  if decide (count ra = MAX_REGIONS /\ Exists (splits rm_base (rm_base + rm_size)) (active ra))
  then remove_region ra rm_base rm_size = panic "Region array full during hole punching!"
  else exists ra', remove_region ra rm_base rm_size = Done ra' /\ array_ok ra' /\
    forall a, covers (active ra') a <->
      covers (active ra) a /\ ~ (rm_base <= a < rm_base + rm_size).
Proof.
  intros Hra Hb Hn He. destruct (decide _) as [[Hfull Hex]|Hno].
  - destruct Hra as (Hlen & Hc & Hok & _). pose proof (active_holds ra Hlen Hc) as Hra.
    unfold remove_region. rewrite (proj2 (Z.eqb_neq rm_size 0)), wadd_small by lia.
    pose proof (remove_loop_full rm_base (rm_base + rm_size) (active ra) [] ra (S (count ra))) as Hl.
    cbn [length app] in Hl. rewrite Hl; try done; [lia|].
    unfold active. rewrite length_take. lia.
  - destruct (remove_region_ok ra rm_base rm_size) as (ra' & Heq & Hok & Hact); try done.
    + destruct (decide (count ra = MAX_REGIONS)) as [Hfull|].
      * right. apply not_Exists_Forall; [apply _|tauto].
      * left. destruct Hra as (_ & Hc & _). lia.
    + exists ra'. split_and!; [done..|]. intros a. rewrite Hact. apply covers_bind_cut. lia.
Qed.

(** A 128 MiB machine: one region at 0x80000000. *)
Definition example_array : RegionArray :=
  mkRegionArray (mkMemRegion 0x80000000 0x8000000 :: replicate 127 (mkMemRegion 0 0)) 1 0x8000000.

Lemma example_array_ok : array_ok example_array.
Proof.
  unfold array_ok, regions_ok, active. split_and!; [done|by apply Nat.leb_le| | |done].
  - repeat constructor; done.
  - repeat constructor.
Qed.

Lemma RegionArray_new_ok : array_ok RegionArray_new.
Proof.
  unfold array_ok, regions_ok, active. split_and!; [done|by apply Nat.leb_le|constructor..|done].
Qed.

Lemma remove_region_spec_witness :
  exists ra', remove_region example_array 0x80200000 0x100000 = Done ra' /\ array_ok ra' /\
    covers (active ra') 0x80100000 /\ ~ covers (active ra') 0x80200000.
Proof.
  pose proof (remove_region_spec example_array 0x80200000 0x100000 example_array_ok
    ltac:(lia) ltac:(lia) ltac:(lia)) as H.
  rewrite decide_False in H by (intros [[=] _]).
  destruct H as (ra' & H1 & H2 & H3). exists ra'. rewrite !H3. split_and!; try done.
  - exists (mkMemRegion 0x80000000 0x8000000). split; [by left|split; done].
  - lia.
  - intros [_ Hout]. lia.
Defined.

(** ** [add_region] *)

Lemma find_insert_idx_spec base l : forall pre ra fuel,
  holds ra (pre ++ l) -> regions_ok l -> (length l < fuel)%nat ->
  exists p q, l = p ++ q /\
    find_insert_idx fuel ra base (length pre) = Done (length pre + length p)%nat /\
    Forall (fun r => rend r < base) p /\ Forall (fun r => base <= rend r) q.
Proof.
  induction l as [|r l IH]; intros pre ra fuel Hra Hok Hfuel;
    (destruct fuel as [|fuel]; [cbn in Hfuel; lia|]); cbn [find_insert_idx].
  - exists [], []. rewrite app_nil_r in Hra. destruct Hra as (_ & -> & _).
    rewrite decide_False by lia. split_and!; try done. by rewrite Nat.add_0_r.
  - destruct (holds_index _ _ _ _ Hra) as [Hlt Hidx]. rewrite decide_True, Hidx by done.
    apply regions_ok_cons in Hok as (Hr & Hrl & Hok).
    cbn [mbind outcome_bind]. rewrite region_end_ok by done.
    destruct (Z.ltb_spec (rend r) base).
    + destruct (IH (pre ++ [r]) ra fuel) as (p & q & -> & Heq & Hp & Hq);
        [by rewrite <- app_assoc|done|cbn in Hfuel; lia|].
      exists (r :: p), q. rewrite length_app, Nat.add_1_r in Heq. rewrite Heq.
      split_and!; [done| |by constructor|done]. f_equal. cbn. lia.
    + exists [], (r :: l). rewrite Nat.add_0_r. split_and!; try done.
      constructor; [lia|]. apply Forall_forall. intros s Hs. specialize (Hrl s Hs).
      destruct Hok as [Hok _]. rewrite Forall_forall in Hok. destruct (Hok s Hs) as (? & ? & ?).
      unfold rend in *. lia.
Qed.

Lemma merge_regions_spec l : forall pre ra fuel mb me,
  holds ra (pre ++ l) -> regions_ok l -> (length l < fuel)%nat ->
  0 <= mb < me -> me < USIZE -> Forall (fun r => mb <= rend r) l ->
  exists m q mb' me', l = m ++ q /\
    merge_regions fuel ra (length pre) mb me = Done ((length pre + length m)%nat, mb', me') /\
    0 <= mb' <= mb /\ me <= me' < USIZE /\
    (mb' = mb \/ exists r, r ∈ m /\ mb' = rg_base r) /\
    Forall (fun r => me' < rg_base r) q /\
    (forall a, mb' <= a < me' <-> mb <= a < me \/ covers m a).
Proof.
  induction l as [|r l IH]; intros pre ra fuel mb me Hra Hok Hfuel Hm Hme Htouch;
    (destruct fuel as [|fuel]; [cbn in Hfuel; lia|]); cbn [merge_regions].
  - exists [], [], mb, me. rewrite app_nil_r in Hra. destruct Hra as (_ & -> & _).
    rewrite decide_False by lia. rewrite Nat.add_0_r.
    split_and!; try done; try lia. intros a. rewrite covers_nil. tauto.
  - destruct (holds_index _ _ _ _ Hra) as [Hlt Hidx]. rewrite decide_True, Hidx by done.
    apply regions_ok_cons in Hok as (Hr & Hrl & Hok). apply Forall_cons in Htouch as [Ht Htl].
    cbn [mbind outcome_bind]. rewrite region_end_ok by done. destruct Hr as (Hr0 & Hr1 & Hr2).
    destruct (Z.leb_spec (rg_base r) me).
    + destruct (IH (pre ++ [r]) ra fuel (Z.min mb (rg_base r)) (Z.max me (rend r)))
        as (m & q & mb' & me' & -> & Heq & Hmb & Hme' & Hfrom & Hq & Hcov).
      * by rewrite <- app_assoc.
      * done.
      * cbn in Hfuel. lia.
      * lia.
      * lia.
      * eapply Forall_impl; [exact Htl|]. cbn. lia.
      * rewrite length_app, Nat.add_1_r in Heq. exists (r :: m), q, mb', me'. rewrite Heq.
        split_and!; try done; try lia.
        -- do 2 f_equal. cbn. f_equal. lia.
        -- destruct Hfrom as [->|(s & Hs & ->)]; [|right; exists s; set_solver].
           destruct (Z.min_spec mb (rg_base r)) as [[_ ->]|[_ ->]]; [by left|].
           right. exists r. set_solver.
        -- intros a. rewrite Hcov, covers_cons.
           assert (Z.min mb (rg_base r) <= a < Z.max me (rend r) <->
             mb <= a < me \/ rg_base r <= a < rend r) by lia. tauto.
    + exists [], (r :: l), mb, me. rewrite Nat.add_0_r. split_and!; try done; try lia.
      * constructor; [lia|]. apply Forall_forall. intros s Hs. specialize (Hrl s Hs).
        unfold rend in *. lia.
      * intros a. rewrite covers_nil. tauto.
Qed.

Lemma make_room_spec ra p m q :
  holds ra (p ++ m ++ q) -> m <> [] \/ (count ra < MAX_REGIONS)%nat ->
  exists regs cnt y, make_room ra (length p) (length p + length m) = Done (regs, cnt) /\
    forall tot, holds (mkRegionArray regs cnt tot) (p ++ y :: q).
Proof.
  intros Hra Hroom. unfold make_room.
  replace (length p + length m - length p)%nat with (length m) by lia.
  destruct m as [|x [|x' m]]; cbn [length]; cbv zeta.
  - destruct Hroom as [|Hmax]; [done|]. rewrite decide_True by done.
    rewrite bool_decide_eq_true_2 by done. cbn [mbind outcome_bind assert].
    destruct (holds_insert _ _ _ Hra Hmax) as (regs & Heq & y & Hregs).
    rewrite Heq. cbn. eauto.
  - rewrite decide_False, decide_False by lia. exists (regions ra), (count ra), x.
    split; [done|]. intros tot. exact Hra.
  - rewrite decide_False, decide_True by lia.
    change ((x :: x' :: m) ++ q) with ([x] ++ (x' :: m) ++ q) in Hra. rewrite app_assoc in Hra.
    destruct (holds_delete _ _ _ _ Hra) as (regs & Heq & Hregs).
    rewrite length_app in Heq. cbn [length] in *.
    replace (length p + S (S (length m)))%nat with (length p + 1 + S (length m))%nat by lia.
    replace (length p + 1 + S (length m) - (S (S (length m)) - 1))%nat with (length p + 1)%nat by lia.
    rewrite Heq. cbn [mbind outcome_bind]. do 3 eexists. split; [done|]. intros tot.
    specialize (Hregs tot). rewrite <- app_assoc in Hregs. exact Hregs.
Qed.

(** The merged region fits between the regions below and the regions above it. *)
Lemma regions_ok_merge b p m q mb me :
  regions_ok p -> regions_ok q -> (forall r s, r ∈ p -> s ∈ m ++ q -> rend r < rg_base s) ->
  Forall (fun r => rend r < b) p -> Forall (fun r => me < rg_base r) q ->
  mb = b \/ (exists r, r ∈ m /\ mb = rg_base r) -> 0 <= mb < me -> me < USIZE ->
  regions_ok (p ++ mkMemRegion mb (me - mb) :: q).
Proof.
  rewrite !Forall_forall, regions_ok_app, regions_ok_cons.
  intros Hp Hq Hpq Hpb Hqe Hmb ? ?. unfold region_ok, rend in *. cbn [rg_base rg_size] in *.
  replace (mb + (me - mb)) with me by lia. split_and!; try done; try lia.
  intros r s Hr [->|Hs]%elem_of_cons; [|set_solver]. cbn [rg_base].
  destruct Hmb as [->|(t & Ht & ->)]; [by apply Hpb|apply Hpq; set_solver].
Qed.

Lemma add_region_ok ra b n :
  array_ok ra -> 0 <= b -> 0 < n -> b + n < USIZE ->
  (count ra < MAX_REGIONS)%nat \/
    Exists (fun r => b <= rend r /\ rg_base r <= b + n) (active ra) ->
  exists ra', add_region ra b n = Done ra' /\ array_ok ra' /\
    forall a, covers (active ra') a <-> covers (active ra) a \/ b <= a < b + n.
Proof.
  intros (Hlen & Hc & Hok & _) Hb Hn He Hroom. pose proof (active_holds ra Hlen Hc) as Hra.
  assert (Hl : (length (active ra) < S (count ra))%nat) by (unfold active; rewrite length_take; lia).
  unfold add_region. rewrite (proj2 (Z.eqb_neq n 0)) by lia. rewrite wadd_small by lia.
  destruct (find_insert_idx_spec b (active ra) [] ra (S (count ra))) as (p & l & Hpl & Heq & Hp & Hq);
    [done..|]. cbn [length app Nat.add] in Heq. rewrite Heq. cbn [mbind outcome_bind]. clear Heq.
  rewrite Hpl in *. apply regions_ok_app in Hok as (Hokp & Hokl & Hpq). rewrite length_app in Hl.
  destruct (merge_regions_spec l p ra (S (count ra)) b (b + n))
    as (m & q & mb & me & -> & Heq & Hmb & Hme & Hfrom & Hq' & Hcov); try done; [lia..|].
  rewrite Heq. cbn [mbind outcome_bind]. clear Heq.
  destruct (make_room_spec ra p m q Hra) as (regs & cnt & y & Heq & Hregs).
  { destruct Hroom as [|Hex]; [by right|left; intros ->].
    rewrite Exists_app, !Exists_exists in Hex. rewrite !Forall_forall in *.
    destruct Hex as [(r & Hr & ? & ?)|(r & Hr & ? & ?)]; [specialize (Hp r Hr)|specialize (Hq' r Hr)]; lia. }
  rewrite Heq. cbn [mbind outcome_bind]. clear Heq.
  destruct (holds_set _ _ _ _ (mkMemRegion mb (me - mb)) (Hregs 0)) as (regs' & Heq & Hregs').
  rewrite wsub_small by lia. cbn [regions count] in *. rewrite Heq. cbn [mbind outcome_bind].
  apply regions_ok_app in Hokl as (_ & Hokq & _).
  destruct (update_total_spec _ _ (Hregs' (total_size ra))) as (ra' & Heq' & Hra' & Hact).
  - apply regions_ok_merge with b m; done || lia.
  - exists ra'. split_and!; [done..|]. intros a. rewrite Hact.
    rewrite !covers_app, covers_cons. specialize (Hcov a). unfold rend. cbn [rg_base rg_size].
    replace (mb + (me - mb)) with me by lia. tauto.
Qed.

(** A region that meets or abuts [b, e), so that adding [b, e) merges with it. *)
Definition touches (b e : Z) (r : MemRegion) : Prop := b <= rend r /\ rg_base r <= e.

#[export] Instance touches_dec b e r : Decision (touches b e r).
Proof. unfold touches. apply _. Defined.

Lemma add_region_full ra b n :
  array_ok ra -> 0 <= b -> 0 < n -> b + n < USIZE ->
  count ra = MAX_REGIONS -> ~ Exists (touches b (b + n)) (active ra) ->
  add_region ra b n = panic "Region array full!".
Proof.
  intros (Hlen & Hc & Hok & _) Hb Hn He Hfull Hno. pose proof (active_holds ra Hlen Hc) as Hra.
  assert (Hl : (length (active ra) < S (count ra))%nat) by (unfold active; rewrite length_take; lia).
  unfold add_region. rewrite (proj2 (Z.eqb_neq n 0)), wadd_small by lia.
  destruct (find_insert_idx_spec b (active ra) [] ra (S (count ra))) as (p & l & Hpl & Heq & Hp & Hq);
    [done..|]. cbn [length app Nat.add] in Heq. rewrite Heq. cbn [mbind outcome_bind]. clear Heq.
  rewrite Hpl in *. apply regions_ok_app in Hok as (_ & Hokl & _). rewrite length_app in Hl.
  destruct (merge_regions_spec l p ra (S (count ra)) b (b + n))
    as (m & q & mb & me & -> & Heq & _ & _ & _ & _ & _); try done; [lia..|].
  rewrite Heq. cbn [mbind outcome_bind].
  assert (m = []) as ->.
  { destruct m as [|r m]; [done|]. exfalso. apply Hno, Exists_exists. exists r.
    split; [set_solver|]. split; [by inv Hq|].
    destruct (holds_index _ _ _ _ Hra) as [Hlt Hidx]. cbn [merge_regions] in Heq.
    rewrite decide_True, Hidx in Heq by done. cbn [mbind outcome_bind] in Heq.
    destruct (Z.leb_spec (rg_base r) (b + n)); [done|]. injection Heq as Heq _ _. cbn in Heq. lia. }
  unfold make_room. rewrite Nat.add_0_r, Nat.sub_diag, decide_True by done.
  by rewrite bool_decide_eq_false_2 by lia.
Qed.

(** C21: [add_region] computes the set union: on a well-formed array it terminates,
    keeps the array sorted, disjoint, merged and its total exact, and adds
    exactly the addresses [base, base + size). It panics just when the array
    is full and the new range can be merged with no existing region. *)
Theorem add_region_spec ra base size :
  array_ok ra -> 0 <= base -> 0 < size -> base + size < USIZE ->
  if decide (count ra = MAX_REGIONS /\ ~ Exists (touches base (base + size)) (active ra))
  then add_region ra base size = panic "Region array full!"
  else exists ra', add_region ra base size = Done ra' /\ array_ok ra' /\
    forall a, covers (active ra') a <-> covers (active ra) a \/ base <= a < base + size.
Proof.
  intros Hra Hb Hn He. destruct (decide _) as [[Hfull Hno]|Hno].
  - by apply add_region_full.
  - apply add_region_ok; try done. destruct (decide (Exists (touches base (base + size)) (active ra))).
    + by right.
    + left. destruct Hra as (_ & Hc & _). assert (count ra <> MAX_REGIONS) by tauto. lia.
Qed.

Lemma add_region_spec_witness :
  exists ra', add_region example_array 0x88000000 0x1000 = Done ra' /\ array_ok ra' /\
    covers (active ra') 0x88000000.
Proof.
  pose proof (add_region_spec example_array 0x88000000 0x1000 example_array_ok
    ltac:(lia) ltac:(lia) ltac:(lia)) as H.
  rewrite decide_False in H by (intros [[=] _]).
  destruct H as (ra' & H1 & H2 & H3). exists ra'. rewrite H3. split_and!; try done. lia.
Defined.

(** ** [Memblock] *)

(** The three arrays are well formed and no address is both available and
    handed out. *)
Definition memblock_ok (mb : Memblock) : Prop :=
  array_ok (available mb) /\ array_ok (reserved mb) /\ array_ok (allocated mb) /\
  (forall a, covers (active (available mb)) a -> ~ covers (active (allocated mb)) a) /\
  (forall a, covers (active (available mb)) a -> ~ covers (active (reserved mb)) a).

(** Enough free slots for one more operation. *)
Definition has_room (mb : Memblock) : Prop :=
  (count (available mb) < MAX_REGIONS)%nat /\ (count (reserved mb) < MAX_REGIONS)%nat /\
  (count (allocated mb) < MAX_REGIONS)%nat.

Lemma reserve_memory_ok mb base size :
  memblock_ok mb -> has_room mb -> 0 <= base -> 0 < size -> base + size < USIZE ->
  exists mb', reserve_memory mb base size = Done mb' /\ memblock_ok mb' /\
    (forall a, covers (active (available mb')) a <->
       covers (active (available mb)) a /\ ~ (base <= a < base + size)) /\
    (forall a, covers (active (reserved mb')) a <->
       covers (active (reserved mb)) a \/ base <= a < base + size) /\
    allocated mb' = allocated mb.
Proof.
  intros (Hav & Hre & Hal & Hd1 & Hd2) (Hr1 & Hr2 & _) Hb Hs He. unfold reserve_memory.
  destruct (remove_region_ok (available mb) base size) as (av & Heq1 & Hav' & Hact); auto.
  destruct (add_region_ok (reserved mb) base size) as (re & Heq2 & Hre' & Hcov); auto.
  rewrite Heq1. cbn [mbind outcome_bind]. rewrite Heq2. cbn [mbind outcome_bind].
  assert (Hcov' : forall a, covers (active av) a <->
    covers (active (available mb)) a /\ ~ (base <= a < base + size)).
  { intros a. rewrite Hact. apply covers_bind_cut. lia. }
  eexists. split; [done|]. unfold memblock_ok. cbn [available reserved allocated].
  split_and!; try done.
  - intros a. rewrite Hcov'. naive_solver.
  - intros a. rewrite Hcov', Hcov. naive_solver.
Qed.

(** reserving a range takes it out of the available memory, records it as
    reserved, leaves the allocations alone, and keeps available memory disjoint
    from both reserved and allocated memory. *)
Theorem reserve_memory_spec mb base size :
  memblock_ok mb -> has_room mb -> 0 <= base -> 0 < size -> base + size < USIZE ->
  exists mb', reserve_memory mb base size = Done mb' /\ memblock_ok mb' /\
    (forall a, covers (active (available mb')) a <->
       covers (active (available mb)) a /\ ~ (base <= a < base + size)) /\
    (forall a, covers (active (reserved mb')) a <->
       covers (active (reserved mb)) a \/ base <= a < base + size) /\
    allocated mb' = allocated mb.
Proof. apply reserve_memory_ok. Qed.

Lemma example_memblock_ok :
  let mb := mkMemblock example_array RegionArray_new RegionArray_new in
  memblock_ok mb /\ has_room mb.
Proof.
  split.
  - split_and!; try apply example_array_ok; try apply RegionArray_new_ok;
      intros a _ Hcov; by apply covers_nil in Hcov.
  - split_and!; cbn; unfold MAX_REGIONS; lia.
Qed.

Lemma reserve_memory_spec_witness :
  exists mb', reserve_memory (mkMemblock example_array RegionArray_new RegionArray_new)
      0x80200000 0x100000 = Done mb' /\ memblock_ok mb'.
Proof.
  destruct (reserve_memory_spec (mkMemblock example_array RegionArray_new RegionArray_new)
    0x80200000 0x100000) as (mb' & Heq & Hok & _); try apply example_memblock_ok; try lia.
  by exists mb'.
Defined.

(** Some aligned block of [size] bytes fits into the region. *)
Definition fits (size k : Z) (r : MemRegion) : Prop :=
  exists x, (2 ^ k | x) /\ rg_base r <= x /\ x + size <= rend r.

(** The candidate computed by the loop is the highest aligned block below the
    end of the region. *)
Lemma alloc_base_spec size k r :
  region_ok r -> 0 < size <= rend r -> 0 <= k < 64 ->
  let x := Z.land (region_end r ⊟ size) (wnot (2 ^ k ⊟ 1)) in
  (2 ^ k | x) /\ 0 <= x /\ x + size <= rend r /\ (rg_base r <= x <-> fits size k r).
Proof.
  intros Hr Hsize Hk. cbv zeta. rewrite region_end_ok by done. destruct Hr as (Hr0 & Hr1 & Hr2).
  pose proof (pow2_pos k ltac:(lia)). pose proof (pow2_le_mono k 63 ltac:(lia)).
  rewrite !wsub_small by lia.
  destruct (align_mask_spec (rend r - size) k) as ([c Hc] & Hy & Hy0); [lia|unfold usize; lia|].
  rewrite Hc in *. split_and!; [by exists c|done|lia|]. split.
  - intros. exists (c * 2 ^ k). split_and!; [by exists c|done|lia].
  - intros (x & [d ->] & Hx1 & Hx2). assert (d * 2 ^ k < (c + 1) * 2 ^ k) by lia.
    assert (d < c + 1) by (apply (Z.mul_lt_mono_pos_r (2 ^ k)); lia).
    assert (d * 2 ^ k <= c * 2 ^ k) by (apply Z.mul_le_mono_nonneg_r; lia). lia.
Qed.

Lemma early_alloc_loop_spec mb size k n :
  memblock_ok mb -> has_room mb -> 0 < size -> 0 <= k < 64 ->
  Forall (fun r => size <= rend r) (active (available mb)) ->
  (n <= count (available mb))%nat ->
  (early_alloc_loop n mb size (2 ^ k) = Done (None, mb) /\
     Forall (fun r => ~ fits size k r) (take n (active (available mb)))) \/
  exists x r av al, early_alloc_loop n mb size (2 ^ k) = Done (Some x, mkMemblock av (reserved mb) al) /\
    r ∈ active (available mb) /\ (2 ^ k | x) /\ 0 <= x /\ rg_base r <= x /\ x + size <= rend r /\
    remove_region (available mb) x size = Done av /\ add_region (allocated mb) x size = Done al.
Proof.
  intros Hmb Hroom Hs Hk Hle. induction n as [|n IH]; intros Hn; cbn [early_alloc_loop].
  { left. rewrite take_0. done. }
  destruct Hmb as (Hav & _ & Hal & _). assert (Hav' := Hav).
  destruct Hav' as (Hlen & Hc & [Hok _] & _). assert (Hact := active_holds _ Hlen Hc).
  destruct (lookup_lt_is_Some_2 (active (available mb)) n) as [r Hr].
  { unfold active. rewrite length_take. lia. }
  assert (index (regions (available mb)) n = Done r) as ->.
  { apply index_Done. unfold active in Hr. by apply lookup_take_Some in Hr as [? _]. }
  cbn [mbind outcome_bind]. assert (Hin : r ∈ active (available mb)) by (by eapply list_elem_of_lookup_2).
  rewrite Forall_forall in Hok, Hle. specialize (Hok r Hin). specialize (Hle r Hin).
  destruct (alloc_base_spec size k r) as (Hx1 & Hx0 & Hx2 & Hfit); [done|lia|done|].
  destruct (Z.leb_spec (rg_base r) (Z.land (region_end r ⊟ size) (wnot (2 ^ k ⊟ 1)))) as [Hge|Hlt].
  - right. destruct Hok as (? & ? & ?).
    destruct (remove_region_ok (available mb) (Z.land (region_end r ⊟ size) (wnot (2 ^ k ⊟ 1))) size)
      as (av & Heq1 & _); [done|lia|lia|lia|left; apply Hroom|].
    destruct (add_region_ok (allocated mb) (Z.land (region_end r ⊟ size) (wnot (2 ^ k ⊟ 1))) size)
      as (al & Heq2 & _); [done|lia|lia|lia|left; apply Hroom|].
    rewrite Heq1. cbn [mbind outcome_bind]. rewrite Heq2. cbn [mbind outcome_bind].
    eexists _, r, av, al. by split_and!.
  - destruct (IH ltac:(lia)) as [[-> HF]|Hsome]; [left|by right].
    split; [done|]. erewrite take_S_r by done. apply Forall_app. split; [done|].
    constructor; [|done]. rewrite <- Hfit. lia.
Qed.

Lemma early_alloc_ok mb size k :
  memblock_ok mb -> has_room mb -> 0 < size -> 0 <= k < 64 ->
  Forall (fun r => size <= rend r) (active (available mb)) ->
  exists res mb', early_alloc mb size (2 ^ k) = Done (res, mb') /\ memblock_ok mb' /\
    reserved mb' = reserved mb /\
    match res with
    | Some x =>
        (2 ^ k | x) /\
        (forall a, x <= a < x + size -> covers (active (available mb)) a) /\
        (forall a, covers (active (available mb')) a <->
           covers (active (available mb)) a /\ ~ (x <= a < x + size)) /\
        (forall a, covers (active (allocated mb')) a <->
           covers (active (allocated mb)) a \/ x <= a < x + size)
    | None => mb' = mb /\ Forall (fun r => ~ fits size k r) (active (available mb))
    end.
Proof.
  intros Hmb Hroom Hs Hk Hle. unfold early_alloc.
  destruct (early_alloc_loop_spec mb size k (count (available mb)))
    as [[Heq HF]|(x & r & av & al & Heq & Hin & Hx & Hx0 & Hx1 & Hx2 & Heq1 & Heq2)]; try done.
  { exists None, mb. unfold active in *. rewrite take_take, Nat.min_id in HF. by split_and!. }
  destruct Hmb as (Hav & Hre & Hal & Hd1 & Hd2).
  assert (Hok : region_ok r).
  { destruct Hav as (_ & _ & [Hok _] & _). rewrite Forall_forall in Hok. by apply Hok. }
  destruct Hok as (? & ? & ?).
  destruct (remove_region_ok (available mb) x size) as (av' & Heq1' & Hav' & Hact);
    [done|lia|lia|lia|left; apply Hroom|]. rewrite Heq1 in Heq1'. injection Heq1' as <-.
  destruct (add_region_ok (allocated mb) x size) as (al' & Heq2' & Hal' & Hcov2);
    [done|lia|lia|lia|left; apply Hroom|]. rewrite Heq2 in Heq2'. injection Heq2' as <-.
  assert (Hcov : forall a, covers (active av) a <->
    covers (active (available mb)) a /\ ~ (x <= a < x + size)).
  { intros a. rewrite Hact. apply covers_bind_cut. lia. }
  rewrite Heq. exists (Some x), (mkMemblock av (reserved mb) al).
  unfold memblock_ok. cbn [available reserved allocated]. split_and!; try done.
  - intros a. rewrite Hcov, Hcov2. naive_solver.
  - intros a. rewrite Hcov. naive_solver.
  - intros a Ha. exists r. split; [done|]. lia.
Qed.



(** a region that ends below the requested size breaks [early_alloc]: a region
    below [size] makes [reg.end() - size] wrap around in a release build, and
    the block returned is not memory of the machine at all. *)
Theorem early_alloc_underflow :
  let low := mkRegionArray (mkMemRegion 0x1000 0x1000 :: replicate 127 (mkMemRegion 0 0)) 1 0x1000 in
  fst <$> early_alloc (mkMemblock low RegionArray_new RegionArray_new) 0x10000 0x1000
    = Done (Some 0xFFFFFFFFFFFF2000) /\
  ~ covers (active low) 0xFFFFFFFFFFFF2000.
Proof.
  split; [vm_compute; reflexivity|].
  intros [Hcov|Hcov]%covers_cons; [|by apply covers_nil in Hcov].
  unfold rend in Hcov. cbn in Hcov. lia.
Qed.
