(* ===== verification/Memory.v ===== *)
(** * Physical memory

    The kernel stores its allocator data inside the memory it manages: free-list
    links, page-table entries and SLUB free lists are 64-bit words written through
    raw pointers. Memory is a finite map from the physical address of a word to
    its value; a word that was never written reads as 0. The kernel reaches
    physical address [pa] through the direct map at [phys_to_virt pa]; while the
    identity map is in place it also uses [pa] itself as a pointer. *)

From S2P Require Import Prelude Address.

Abbreviation Memory := (gmap Z Z).

(** Access through an identity-mapped pointer. *)
Definition read_pa (m : Memory) (pa : Z) : Z := default 0 (m !! pa).
Definition write_pa (m : Memory) (pa v : Z) : Memory := <[pa := v]> m.

(** Access through a pointer into the direct map. *)
Definition read_va (m : Memory) (va : Z) : Z := read_pa m (virt_to_phys va).
Definition write_va (m : Memory) (va v : Z) : Memory := write_pa m (virt_to_phys va) v.

(** [ptr::write_bytes(p, 0, PAGE_SIZE)] on the 512 words of a page. *)
Definition zero_page (m : Memory) (pa : Z) : Memory :=
  foldr (fun i m => write_pa m (pa + 8 * i) 0) m (seqZ 0 512).

(** [Option<NonNull<T>>] is stored as the pointer itself, with 0 for [None]. *)
Definition encode_ptr (o : option Z) : Z := default 0 o.
Definition decode_ptr (w : Z) : option Z := if w =? 0 then None else Some w.

(** [NonNull::new_unchecked]: undefined behaviour on a null pointer. *)
Definition new_unchecked (p : Z) : outcome Z :=
  if p =? 0 then undef "NonNull::new_unchecked requires that the pointer is non-null" else Done p.

Lemma read_write_same m pa v : read_pa (write_pa m pa v) pa = v.
Proof. unfold read_pa, write_pa. by rewrite lookup_insert_eq. Qed.

Lemma read_write_other m pa pa' v : pa <> pa' -> read_pa (write_pa m pa v) pa' = read_pa m pa'.
Proof. intros. unfold read_pa, write_pa. by rewrite lookup_insert_ne. Qed.

Lemma read_va_direct m pa : usize pa -> read_va m (phys_to_virt pa) = read_pa m pa.
Proof. intros. unfold read_va. by rewrite virt_to_phys_to_virt. Qed.

Lemma write_va_direct m pa v : usize pa -> write_va m (phys_to_virt pa) v = write_pa m pa v.
Proof. intros. unfold write_va. by rewrite virt_to_phys_to_virt. Qed.

Lemma decode_encode_ptr o : o <> Some 0 -> decode_ptr (encode_ptr o) = o.
Proof.
  destruct o as [p|]; [|done]. cbn. unfold decode_ptr. intros Hp.
  destruct (Z.eqb_spec p 0); [congruence|done].
Qed.

Lemma decode_ptr_nonzero w p : decode_ptr w = Some p -> w = p /\ p <> 0.
Proof. unfold decode_ptr. destruct (Z.eqb_spec w 0); [done|]. by intros [= ->]. Qed.

Lemma read_pa_nonzero m pa : read_pa m pa <> 0 -> pa ∈ dom m.
Proof. unfold read_pa. intros Hr. apply elem_of_dom. by destruct (m !! pa). Qed.

Create Rewrite HintDb memory.
#[export] Hint Rewrite read_write_same : memory.
#[export] Hint Rewrite read_write_other using (done || lia) : memory.
#[export] Hint Rewrite read_va_direct write_va_direct using done : memory.
