(* ===== verification/FrameAllocator.v ===== *)
(** * The interface of a frame allocator

    What the kernel's users of [BUDDY_ALLOCATOR] (task stacks in
    [src/task/scheduler.rs], slabs, page tables) rely on: an allocator state with
    [alloc] and [dealloc], and the promise that blocks handed out are owned by
    exactly one client. [fa_owns s B] says that the blocks in use are [B], a map
    from the first page number of a block to its number of pages. *)

From S2P Require Import Prelude.

(** The direct map starts at [PHYS_VIRT_OFFSET], 4 GiB below the end of the address
    space, so it reaches the first 4 GiB of physical memory. *)
Definition DIRECT_MAP_PAGES : Z := 2 ^ 20.

Class FrameAllocator (S : Type) := {
  fa_alloc : S -> Z -> outcome (option Z * S);
  fa_dealloc : S -> Z -> Z -> outcome S;
  fa_owns : S -> gmap Z Z -> Prop;
}.

Class FrameAllocatorLaws (S : Type) `{FrameAllocator S} := {
  (** [alloc] never faults; a block it returns was not in use. *)
  fa_alloc_ok s B pages :
    fa_owns s B -> 1 <= pages < USIZE ->
    exists r s', fa_alloc s pages = Done (r, s') /\
      match r with
      | Some ppn =>
          0 < ppn /\ ppn + pages <= DIRECT_MAP_PAGES /\ B !! ppn = None /\
          fa_owns s' (<[ppn := pages]> B)
      | None => fa_owns s' B
      end;
  (** [dealloc] of a block in use never faults and ends its use. *)
  fa_dealloc_ok s B ppn pages :
    fa_owns s B -> B !! ppn = Some pages ->
    exists s', fa_dealloc s ppn pages = Done s' /\ fa_owns s' (delete ppn B);
  (** Blocks in use do not overlap. *)
  fa_owned_disjoint s B p n q m :
    fa_owns s B -> B !! p = Some n -> B !! q = Some m -> p <> q -> p + n <= q \/ q + m <= p;
}.

(** ** Frames with memory

    The words of memory that clients keep in their blocks: page tables, slabs. Physical addresses. *)

Class FrameMemory (S : Type) := {
  fm_read : S -> Z -> Z;
  fm_write : S -> Z -> Z -> S;
}.

(** The address lies in one of the blocks. *)
Definition in_blocks (B : gmap Z Z) (a : Z) : Prop :=
  exists ppn pages, B !! ppn = Some pages /\ ppn * 4096 <= a < (ppn + pages) * 4096.

Class FrameMemoryLaws (S : Type) `{FrameAllocator S} `{FrameMemory S} := {
  fm_read_write s a v : fm_read (fm_write s a v) a = v;
  fm_read_write_ne s a b v : a <> b -> fm_read (fm_write s a v) b = fm_read s b;
  (** Clients may write to their own blocks. *)
  fm_write_owns s B a v : fa_owns s B -> in_blocks B a -> fa_owns (fm_write s a v) B;
  (** The allocator does not touch the blocks of its clients. *)
  fm_alloc_keeps s B pages r s' a :
    fa_owns s B -> fa_alloc s pages = Done (r, s') -> in_blocks B a -> fm_read s' a = fm_read s a;
  fm_dealloc_keeps s B ppn pages s' a :
    fa_owns s B -> B !! ppn = Some pages -> fa_dealloc s ppn pages = Done s' ->
    in_blocks (delete ppn B) a -> fm_read s' a = fm_read s a;
}.

(** ** Frames of a part of memory

    [fa_within s B lo hi]: the blocks in use are [B], and all pages the allocator manages, free or in use, are among
    the pages from [lo] up to [hi], which are in the direct map. [MEM_MAP] has an entry for each of them. *)

Class FrameBounds (S : Type) := {
  fa_within : S -> gmap Z Z -> Z -> Z -> Prop;
}.

Class FrameBoundsLaws (S : Type) `{FrameAllocator S} `{FrameMemory S} `{FrameBounds S} := {
  fa_within_owns s B lo hi : fa_within s B lo hi -> fa_owns s B;
  fa_within_alloc s B lo hi pages :
    fa_within s B lo hi -> 1 <= pages < USIZE ->
    exists r s', fa_alloc s pages = Done (r, s') /\
      match r with
      | Some ppn => lo <= ppn /\ ppn + pages <= hi /\ B !! ppn = None /\ fa_within s' (<[ppn := pages]> B) lo hi
      | None => fa_within s' B lo hi
      end;
  fa_within_dealloc s B lo hi ppn pages :
    fa_within s B lo hi -> B !! ppn = Some pages ->
    exists s', fa_dealloc s ppn pages = Done s' /\ fa_within s' (delete ppn B) lo hi;
  fa_within_write s B lo hi a v : fa_within s B lo hi -> in_blocks B a -> fa_within (fm_write s a v) B lo hi;
}.
