(* ===== verification/Buddy.v ===== *)
(** * The buddy frame allocator

    Models [src/mm/buddy.rs]. The allocator keeps one singly linked free list per
    order; the link of a free block is stored in the first word of the block, so
    the operations work on the pair of the list heads and the physical memory
    ([Frames]). Addresses are byte addresses; a block of order [o] has
    [2^(o+12)] bytes. The traversal of [try_remove_from_list] runs with fuel
    [size memory + 2]: every node but the last stores a non-zero link, so a list
    has at most [size memory + 1] nodes. *)

From S2P Require Import Prelude Address Memory.

Definition MAX_ORDER : nat := 16.

Record BuddySystemFrameAllocator := mkBuddy { free_lists : list (option Z) }.

(** The allocator together with the memory its lists live in. *)
Record Frames := mkFrames { memory : Memory; buddy : BuddySystemFrameAllocator }.

Definition BuddySystemFrameAllocator_new : BuddySystemFrameAllocator :=
  mkBuddy (replicate MAX_ORDER None).

Definition pages_to_order (pages : Z) : nat :=
  let power_of_2_pages := next_power_of_two pages in
  Z.to_nat (trailing_zeros power_of_2_pages).

Definition add_free_block (s : Frames) (phys_addr : Z) (order : nat) : outcome Frames :=
  if decide (MAX_ORDER <= order)%nat
  then panic "Requested size is too large for buddy system allocator"
  else
    old_head ← index (free_lists (buddy s)) order;
    let new_node_va := phys_to_virt phys_addr in
    let mem := write_va (memory s) new_node_va (encode_ptr old_head) in
    node ← new_unchecked phys_addr;
    lists ← index_set (free_lists (buddy s)) order (Some node);
    Done (mkFrames mem (mkBuddy lists)).

(** The [while let] loop of [try_remove_from_list], from the node at [current_va]. *)
Fixpoint remove_after (fuel : nat) (m : Memory) (phys_addr current_va : Z) : outcome (bool * Memory) :=
  match fuel with
  | O => Fault FuelF
  | S fuel =>
      match decode_ptr (read_va m current_va) with
      | None => Done (false, m)
      | Some next_node =>
          let next_node_va := phys_to_virt next_node in
          if next_node =? phys_addr then
            let next := read_va m next_node_va in
            let m := write_va m next_node_va 0 in
            Done (true, write_va m current_va next)
          else remove_after fuel m phys_addr next_node_va
      end
  end.

Definition try_remove_from_list (s : Frames) (phys_addr : Z) (order : nat)
    : outcome (bool * Frames) :=
  head ← index (free_lists (buddy s)) order;
  match head with
  | None => Done (false, s)
  | Some list_head =>
      let list_head_va := phys_to_virt list_head in
      if list_head =? phys_addr then
        let next := decode_ptr (read_va (memory s) list_head_va) in
        lists ← index_set (free_lists (buddy s)) order next;
        Done (true, mkFrames (write_va (memory s) list_head_va 0) (mkBuddy lists))
      else
        '(removed, m) ← remove_after (size (memory s) + 2) (memory s) phys_addr list_head_va;
        Done (removed, mkFrames m (buddy s))
  end.

(** The splitting loop of [alloc]: [current_order] counts down to [required_order]. *)
Fixpoint split_block (s : Frames) (block_addr : Z) (required_order current_order : nat)
    : outcome Frames :=
  match current_order with
  | O => Done s
  | S c =>
      if decide (required_order < current_order)%nat then
        let current_block_size := wshl 1 (Z.of_nat current_order + PAGE_SIZE_BITS) in
        let buddy_block_size := current_block_size / 2 in
        let buddy_addr := block_addr ⊞ buddy_block_size in
        s ← add_free_block s buddy_addr c;
        split_block s block_addr required_order c
      else Done s
  end.

(** The searching loop of [alloc]; [fuel] bounds the orders still to visit. *)
Fixpoint alloc_from (fuel : nat) (s : Frames) (required_order order : nat)
    : outcome (option PhysPageNum * Frames) :=
  match fuel with
  | O => Fault FuelF
  | S fuel =>
      if decide (order < MAX_ORDER)%nat then
        head ← index (free_lists (buddy s)) order;
        match head with
        | Some block_pa =>
            let block_va := phys_to_virt block_pa in
            let next := decode_ptr (read_va (memory s) block_va) in
            lists ← index_set (free_lists (buddy s)) order next;
            let s := mkFrames (write_va (memory s) block_va 0) (mkBuddy lists) in
            s ← split_block s block_pa required_order order;
            ppn ← PhysPageNum_from_PhysAddr block_pa;
            Done (Some ppn, s)
        | None => alloc_from fuel s required_order (order + 1)%nat
        end
      else Done (None, s)
  end.

Definition alloc (s : Frames) (pages : Z) : outcome (option PhysPageNum * Frames) :=
  let required_order := pages_to_order pages in
  if decide (MAX_ORDER <= required_order)%nat then Done (None, s)
  else alloc_from (S MAX_ORDER) s required_order required_order.

(** The merging loop of [dealloc]. *)
Fixpoint merge_buddies (fuel : nat) (s : Frames) (block_addr block_size : Z) (current_order : nat)
    : outcome (Frames * Z * nat) :=
  match fuel with
  | O => Fault FuelF
  | S fuel =>
      if decide (current_order < MAX_ORDER - 1)%nat then
        let buddy_addr := Z.lxor block_addr block_size in
        '(removed, s) ← try_remove_from_list s buddy_addr current_order;
        if (removed : bool) then
          merge_buddies fuel s (Z.min block_addr buddy_addr) (block_size ⊠ 2) (current_order + 1)%nat
        else Done (s, block_addr, current_order)
      else Done (s, block_addr, current_order)
  end.

Definition dealloc (s : Frames) (ppn : PhysPageNum) (pages : Z) : outcome Frames :=
  let order := pages_to_order pages in
  let block_size := wshl 1 (Z.of_nat order + PAGE_SIZE_BITS) in
  let block_addr := PhysAddr_from_PhysPageNum ppn in
  '(s, block_addr, current_order) ← merge_buddies (S MAX_ORDER) s block_addr block_size order;
  add_free_block s block_addr current_order.

(** The loop of [add_free_region]. *)
Fixpoint add_region_loop (fuel : nat) (s : Frames) (current_ppn align_end_ppn : Z) : outcome Frames :=
  match fuel with
  | O => Fault FuelF
  | S fuel =>
      if current_ppn <? align_end_ppn then
        let remaining_pages := align_end_ppn ⊟ current_ppn in
        if remaining_pages =? 0 then Done s
        else
          max_order_by_remaining ← ilog2 remaining_pages;
          let max_order_by_alignment :=
            if current_ppn =? 0 then Z.of_nat MAX_ORDER - 1
            else Z.min (trailing_zeros current_ppn) (Z.of_nat MAX_ORDER - 1) in
          let order :=
            Z.min (Z.min max_order_by_remaining max_order_by_alignment) (Z.of_nat MAX_ORDER - 1) in
          let block_pages := wshl 1 order in
          let block_addr := PhysAddr_from_PhysPageNum current_ppn in
          s ← add_free_block s block_addr (Z.to_nat order);
          add_region_loop fuel s (current_ppn ⊞ block_pages) align_end_ppn
      else Done s
  end.

Definition add_free_region (s : Frames) (align_start_ppn align_end_ppn : Z) : outcome Frames :=
  if align_end_ppn <=? align_start_ppn then Done s
  else
    add_region_loop (S (Z.to_nat (align_end_ppn - align_start_ppn))) s align_start_ppn align_end_ppn.
