(* ===== verification/BuddyBlocks.v ===== *)
(** * Tilings of memory by buddy blocks

    The abstract state of a buddy allocator: a finite map from the address of a
    block to its order. Splitting a block and joining two buddies are the two
    moves; both preserve the tiling invariant and the covered addresses. *)

From S2P Require Import Prelude.

Abbreviation Blocks := (gmap Z nat).

(** The number of orders of the allocator. *)
Definition orders : nat := 16.

Definition bsize (o : nat) : Z := 2 ^ (Z.of_nat o + 12).

Definition buddy_of (p : Z) (o : nat) : Z := Z.lxor p (bsize o).

Definition block_ok (p : Z) (o : nat) : Prop :=
  (o < orders)%nat /\ 0 < p /\ (bsize o | p) /\ p + bsize o <= USIZE.

Definition disjoint_blocks (p : Z) (o : nat) (q : Z) (o' : nat) : Prop :=
  p + bsize o <= q \/ q + bsize o' <= p.

(** Every block is aligned to its size and blocks do not overlap. *)
Definition tiling (T : Blocks) : Prop :=
  (forall p o, T !! p = Some o -> block_ok p o) /\
  (forall p o q o', T !! p = Some o -> T !! q = Some o' -> p <> q -> disjoint_blocks p o q o').

Definition covered (T : Blocks) (a : Z) : Prop :=
  exists p o, T !! p = Some o /\ p <= a < p + bsize o.

(** No two buddies of the same order are both present. *)
Definition coalesced (F : Blocks) : Prop :=
  forall p o, (S o < orders)%nat -> F !! p = Some o -> F !! buddy_of p o <> Some o.

(** ** Block sizes and buddies *)

Lemma bsize_pos o : 0 < bsize o.
Proof. apply pow2_pos. lia. Qed.

Lemma bsize_S o : bsize (S o) = 2 * bsize o.
Proof. unfold bsize. rewrite <- pow2_succ by lia. f_equal. lia. Qed.

Lemma bsize_mono o o' : (o <= o')%nat -> bsize o <= bsize o'.
Proof. intros. apply pow2_le_mono. lia. Qed.

Lemma bsize_inj o o' : bsize o = bsize o' -> o = o'.
Proof. intros Heq. apply Z.pow_inj_r in Heq; lia. Qed.

Lemma bsize_divide o o' : (o <= o')%nat -> (bsize o | bsize o').
Proof. intros. apply pow2_divide. lia. Qed.

Lemma bsize_bound o : (o < orders)%nat -> bsize o <= 2 ^ 27.
Proof. intros. apply pow2_le_mono. unfold orders in *. lia. Qed.

(** The buddy of an aligned block is its neighbour within the block of the next
    order that contains it. *)
Lemma buddy_of_cases p o :
  (bsize o | p) ->
  ((bsize (S o) | p) /\ buddy_of p o = p + bsize o) \/
  ((bsize (S o) | p - bsize o) /\ buddy_of p o = p - bsize o).
Proof.
  intros Hp. unfold buddy_of, bsize in *.
  pose proof (testbit_aligned p (Z.of_nat o + 12) ltac:(lia) Hp) as Hb.
  replace (Z.of_nat (S o) + 12) with (Z.of_nat o + 12 + 1) by lia.
  destruct (Z.testbit p (Z.of_nat o + 12)) eqn:Htb; [right|left]; split; try done.
  - apply lxor_pow2_set; [lia|done].
  - apply lxor_pow2_clear; [lia|done].
Qed.

Lemma buddy_of_invol p o : buddy_of (buddy_of p o) o = p.
Proof. unfold buddy_of. by rewrite Z.lxor_assoc, Z.lxor_nilpotent, Z.lxor_0_r. Qed.

Lemma buddy_of_ne p o : buddy_of p o <> p.
Proof.
  intros Heq. assert (Z.lxor p (buddy_of p o) = 0) as H0 by (rewrite Heq; apply Z.lxor_nilpotent).
  unfold buddy_of in H0. rewrite <- Z.lxor_assoc, Z.lxor_nilpotent, Z.lxor_0_l in H0.
  pose proof (bsize_pos o). lia.
Qed.

Lemma buddy_of_divide p o : (bsize o | p) -> (bsize o | buddy_of p o).
Proof.
  intros Hp. pose proof (bsize_divide o (S o) ltac:(lia)) as Hd.
  destruct (buddy_of_cases p o Hp) as [[_ ->]|[Hp' ->]].
  - apply Z.divide_add_r; [done|apply Z.divide_refl].
  - by apply Z.divide_trans with (bsize (S o)).
Qed.

(** The lower of two buddies starts the joined block. *)
Lemma buddy_of_min p o :
  (bsize o | p) -> (bsize (S o) | Z.min p (buddy_of p o)) /\
    Z.max p (buddy_of p o) = Z.min p (buddy_of p o) + bsize o.
Proof.
  intros Hp. pose proof (bsize_pos o).
  destruct (buddy_of_cases p o Hp) as [[Hd ->]|[Hd ->]].
  - rewrite Z.min_l, Z.max_r by lia. done.
  - rewrite Z.min_r, Z.max_l by lia. split; [done|lia].
Qed.

(** The buddy of the lower half of a block is its upper half. *)
Lemma buddy_of_upper p o : (bsize (S o) | p) -> buddy_of p o = p + bsize o.
Proof.
  intros Hd. pose proof (bsize_pos o).
  destruct (buddy_of_cases p o) as [[_ ->]|[Hd' _]]; [|done|].
  - eapply Z.divide_trans; [|done]. apply bsize_divide. lia.
  - exfalso. assert (Hd3 : (bsize (S o) | p - (p - bsize o))) by (by apply Z.divide_sub_r).
    replace (p - (p - bsize o)) with (bsize o) in Hd3 by lia.
    apply Z.divide_pos_le in Hd3; [|done]. rewrite bsize_S in Hd3. lia.
Qed.

(** ** Aligned blocks are nested or disjoint *)

Lemma aligned_step o p q : (bsize o | p) -> (bsize o | q) -> p < q -> p + bsize o <= q.
Proof.
  intros [c ->] [d ->] Hlt. pose proof (bsize_pos o).
  assert (c < d) by (apply (Z.mul_lt_mono_pos_r (bsize o)); lia). nia.
Qed.

(** A block that meets an aligned block of at least its order lies inside it. *)
Lemma block_within p o q o' :
  (o' <= o)%nat -> (bsize o | p) -> (bsize o' | q) ->
  ~ disjoint_blocks p o q o' -> p <= q /\ q + bsize o' <= p + bsize o.
Proof.
  intros Ho Hp Hq Hd. unfold disjoint_blocks in Hd.
  assert (Hp' : (bsize o' | p)) by (eapply Z.divide_trans; [by apply bsize_divide|done]).
  assert (Hpe : (bsize o' | p + bsize o)) by (apply Z.divide_add_r; [done|by apply bsize_divide]).
  pose proof (aligned_step o' q p Hq Hp'). pose proof (aligned_step o' q (p + bsize o) Hq Hpe). lia.
Qed.

(** ** Splitting *)

Definition split_once (T : Blocks) (p : Z) (o : nat) : Blocks :=
  <[p + bsize o := o]> (<[p := o]> T).

Lemma tiling_no_inside T p o q o' :
  tiling T -> T !! p = Some o -> T !! q = Some o' -> p < q < p + bsize o -> False.
Proof.
  intros [_ Hd] Hp Hq Hr. destruct (Hd p o q o' Hp Hq ltac:(lia)); pose proof (bsize_pos o'); lia.
Qed.

Lemma split_once_fresh T p o : tiling T -> T !! p = Some (S o) -> T !! (p + bsize o) = None.
Proof.
  intros HT Hp. destruct (T !! (p + bsize o)) as [o'|] eqn:Hq; [|done]. exfalso.
  eapply (tiling_no_inside T p (S o)); [done..|]. rewrite bsize_S. pose proof (bsize_pos o). lia.
Qed.

(** Lookups in a map after a split. *)
Lemma split_once_lookup T p o q o' :
  split_once T p o !! q = Some o' <->
  (q = p + bsize o /\ o' = o) \/ (q = p /\ o' = o) \/
  (q <> p /\ q <> p + bsize o /\ T !! q = Some o').
Proof.
  unfold split_once. pose proof (bsize_pos o). rewrite !lookup_insert.
  repeat case_decide; naive_solver lia.
Qed.

Lemma split_once_tiling T p o :
  tiling T -> T !! p = Some (S o) -> tiling (split_once T p o).
Proof.
  intros [Hok Hd] Hp. pose proof (bsize_pos o). destruct (Hok _ _ Hp) as (Ho & H0 & Hdiv & Hb).
  rewrite bsize_S in *. assert (Hdo : (bsize o | p)).
  { apply Z.divide_trans with (2 * bsize o); [apply Z.divide_factor_r|done]. }
  assert (Hout : forall q o', T !! q = Some o' -> q <> p -> p + 2 * bsize o <= q \/ q + bsize o' <= p).
  { intros q o' Hq Hne. destruct (Hd p (S o) q o') as [Hx|Hx]; try done; [|lia].
    rewrite bsize_S in Hx. lia. }
  split.
  - intros q o' [[-> ->]|[[-> ->]|(_ & _ & Hq)]]%split_once_lookup; [| |by apply Hok].
    + split_and!; [lia|lia| |lia]. apply Z.divide_add_r; [done|apply Z.divide_refl].
    + split_and!; [lia|lia|done|lia].
  - intros q1 o1 q2 o2 H1 H2 Hne. unfold disjoint_blocks.
    apply split_once_lookup in H1, H2.
    destruct H1 as [[-> ->]|[[-> ->]|(Hn1 & Hn1' & H1)]], H2 as [[-> ->]|[[-> ->]|(Hn2 & Hn2' & H2)]];
      try lia; try (by apply Hd).
    + specialize (Hout _ _ H2 Hn2). lia.
    + specialize (Hout _ _ H2 Hn2). lia.
    + specialize (Hout _ _ H1 Hn1). lia.
    + specialize (Hout _ _ H1 Hn1). lia.
Qed.

Lemma split_once_covered T p o a :
  tiling T -> T !! p = Some (S o) -> covered (split_once T p o) a <-> covered T a.
Proof.
  intros HT Hp. pose proof (bsize_pos o). unfold covered. setoid_rewrite split_once_lookup. split.
  - intros (q & o' & [[-> ->]|[[-> ->]|(_ & _ & Hq)]] & Ha); [| |by exists q, o'];
      exists p, (S o); rewrite bsize_S; split; (done || lia).
  - intros (q & o' & Hq & Ha). destruct (decide (q = p)) as [->|Hne].
    + assert (o' = S o) as -> by congruence. rewrite bsize_S in Ha.
      destruct (decide (a < p + bsize o)).
      * exists p, o. split; [tauto|lia].
      * exists (p + bsize o), o. split; [tauto|lia].
    + exists q, o'. split; [|done]. right. right. split_and!; [done| |done].
      intros ->. by rewrite (split_once_fresh T p o) in Hq.
Qed.

(** ** Joining *)

Definition join_once (T : Blocks) (p : Z) (o : nat) : Blocks :=
  <[Z.min p (buddy_of p o) := S o]> (delete (Z.max p (buddy_of p o)) T).

Lemma join_once_lookup T p o q o' :
  join_once T p o !! q = Some o' <->
  (q = Z.min p (buddy_of p o) /\ o' = S o) \/ (q <> p /\ q <> buddy_of p o /\ T !! q = Some o').
Proof.
  pose proof (buddy_of_ne p o). unfold join_once. rewrite lookup_insert, lookup_delete.
  destruct (Z.min_spec p (buddy_of p o)) as [[? ->]|[? ->]],
    (Z.max_spec p (buddy_of p o)) as [[? ->]|[? ->]]; repeat case_decide; naive_solver lia.
Qed.

Section Join.
Context (T : Blocks) (p : Z) (o : nat).
Hypothesis HT : tiling T.
Hypothesis Hp : T !! p = Some o.
Hypothesis Hb : T !! buddy_of p o = Some o.

Let lo := Z.min p (buddy_of p o).

Lemma join_bounds :
  (bsize (S o) | lo) /\ 0 < lo /\ lo + bsize (S o) <= USIZE /\
  ((p = lo /\ buddy_of p o = lo + bsize o) \/ (buddy_of p o = lo /\ p = lo + bsize o)).
Proof.
  destruct HT as [Hok _]. destruct (Hok _ _ Hp) as (_ & ? & Hdiv & ?), (Hok _ _ Hb) as (_ & ? & _ & ?).
  destruct (buddy_of_min p o Hdiv) as [Hlo Hhi]. pose proof (buddy_of_ne p o).
  unfold lo. rewrite bsize_S. split_and!; [by rewrite <- bsize_S|lia..].
Qed.

Lemma join_once_tiling : (S o < orders)%nat -> tiling (join_once T p o).
Proof.
  intros Ho. destruct join_bounds as (Hdiv & H0 & Hend & Hcase). pose proof (bsize_pos o).
  rewrite bsize_S in Hend. assert (HT' := HT). destruct HT' as [Hok Hd].
  assert (Hout : forall q o', T !! q = Some o' -> q <> p -> q <> buddy_of p o ->
    lo + 2 * bsize o <= q \/ q + bsize o' <= lo).
  { intros q o' Hq Hn1 Hn2.
    destruct (Hd p o q o' Hp Hq ltac:(done)), (Hd _ o q o' Hb Hq ltac:(done));
      pose proof (bsize_pos o'); lia. }
  split.
  - intros q o' [[-> ->]|(_ & _ & Hq)]%join_once_lookup; [|by apply Hok].
    fold lo. rewrite bsize_S in *. unfold block_ok. rewrite bsize_S. by split_and!.
  - intros q1 o1 q2 o2 H1 H2 Hne. unfold disjoint_blocks. apply join_once_lookup in H1, H2. fold lo in H1, H2.
    destruct H1 as [[-> ->]|(? & ? & H1)], H2 as [[-> ->]|(? & ? & H2)]; try lia; try (by apply Hd).
    + specialize (Hout _ _ H2). rewrite bsize_S. lia.
    + specialize (Hout _ _ H1). rewrite bsize_S. lia.
Qed.

Lemma join_once_covered a : covered (join_once T p o) a <-> covered T a.
Proof.
  destruct join_bounds as (_ & _ & _ & Hcase). pose proof (bsize_pos o).
  unfold covered. setoid_rewrite join_once_lookup. fold lo. split.
  - intros (q & o' & [[-> ->]|(_ & _ & Hq)] & Ha); [|by exists q, o']. rewrite bsize_S in Ha.
    destruct (decide (p <= a < p + bsize o)); [by exists p, o|].
    exists (buddy_of p o), o. split; [done|lia].
  - intros (q & o' & Hq & Ha).
    destruct (decide (q = p \/ q = buddy_of p o)) as [Heq|Hne].
    + assert (o' = o) as -> by (destruct Heq; congruence).
      exists lo, (S o). split; [by left|]. rewrite bsize_S. lia.
    + exists q, o'. split; [right; tauto|done].
Qed.
End Join.

(** ** The abstract allocator

    [F] maps the free blocks, [A] the blocks in use. [split_down] returns the
    upper halves of the block at [p] to the free map, from order [cur] down to
    order [req]; [merge_up] joins the block at [p] with its free buddies. *)

Fixpoint split_down (F : Blocks) (p : Z) (req cur : nat) : Blocks :=
  match cur with
  | O => F
  | S c => if decide (req < cur)%nat then split_down (<[p + bsize c := c]> F) p req c else F
  end.

Fixpoint merge_up (fuel : nat) (F : Blocks) (p : Z) (o : nat) : Blocks * Z * nat :=
  match fuel with
  | O => (F, p, o)
  | S fuel =>
      if decide (S o < orders)%nat then
        if decide (F !! buddy_of p o = Some o)
        then merge_up fuel (delete (buddy_of p o) F) (Z.min p (buddy_of p o)) (S o)
        else (F, p, o)
      else (F, p, o)
  end.

Definition free_block (F : Blocks) (p : Z) (o : nat) : Blocks :=
  let '(F', p', o') := merge_up orders F p o in <[p' := o']> F'.

Lemma split_down_spec p req cur : forall F A,
  (req <= cur)%nat -> F ##ₘ A -> F !! p = None -> A !! p = None ->
  tiling (<[p := cur]> (F ∪ A)) ->
  let F' := split_down F p req cur in
  F' ##ₘ A /\ F' !! p = None /\ tiling (<[p := req]> (F' ∪ A)) /\
  (forall a, covered (<[p := req]> (F' ∪ A)) a <-> covered (<[p := cur]> (F ∪ A)) a) /\
  (forall q o, F' !! q = Some o <-> F !! q = Some o \/ ((req <= o < cur)%nat /\ q = p + bsize o)).
Proof.
  induction cur as [|c IH]; intros F A Hreq HFA HpF HpA HT; cbn [split_down].
  { assert (req = 0)%nat as -> by lia. split_and!; try done.
    intros q o. split; [by left|]. intros [?|[? _]]; [done|lia]. }
  destruct (decide (req < S c)%nat).
  - pose proof (bsize_pos c) as Hc.
    assert (Hfresh : (F ∪ A) !! (p + bsize c) = None).
    { pose proof (split_once_fresh _ p c HT) as Hf. rewrite lookup_insert_eq, lookup_insert_ne in Hf by lia.
      by apply Hf. }
    apply lookup_union_None in Hfresh as [HfF HfA].
    assert (Hsplit : split_once (<[p := S c]> (F ∪ A)) p c = <[p := c]> (<[p + bsize c := c]> F ∪ A)).
    { unfold split_once. rewrite insert_insert_eq, insert_insert_ne, insert_union_l by lia. done. }
    destruct (IH (<[p + bsize c := c]> F) A) as (H1 & H2 & H3 & H4 & H5); [lia| | |done| |].
    + by apply map_disjoint_insert_l_2.
    + by rewrite lookup_insert_ne by lia.
    + rewrite <- Hsplit. apply split_once_tiling; [done|by rewrite lookup_insert_eq].
    + split_and!; try done.
      * intros a. rewrite H4, <- Hsplit. apply split_once_covered; [done|by rewrite lookup_insert_eq].
      * intros q o. rewrite H5, lookup_insert. case_decide as Hq.
        -- subst q. rewrite HfF. split.
           ++ intros [[= <-]|[? ?]]; right; (split; [lia|done]).
           ++ intros [?|[? Heq]]; [done|]. left. f_equal.
              apply (bsize_inj c o). lia.
        -- split; (intros [?|[? ?]]; [by left|]); [right; split; [lia|done]|].
           destruct (decide (o = c)) as [->|]; [done|]. right. split; [lia|done].
  - assert (req = S c) as -> by lia. split_and!; try done.
    intros q o. split; [by left|]. intros [?|[? _]]; [done|lia].
Qed.

(** One joining step, seen on the free map. *)
Lemma join_once_free F A p o :
  F !! p = None -> A !! p = None -> A !! buddy_of p o = None ->
  join_once (<[p := o]> (F ∪ A)) p o =
  <[Z.min p (buddy_of p o) := S o]> (delete (buddy_of p o) F ∪ A).
Proof.
  intros HpF HpA HbA. pose proof (buddy_of_ne p o). apply map_eq. intros q.
  unfold join_once. rewrite !lookup_insert, lookup_delete, lookup_insert.
  rewrite (lookup_union (delete _ F)), lookup_delete, (lookup_union F).
  destruct (Z.min_spec p (buddy_of p o)) as [[? ->]|[? ->]],
    (Z.max_spec p (buddy_of p o)) as [[? ->]|[? ->]]; try lia;
    repeat case_decide; subst; try done; try lia; rewrite ?HpF, ?HpA, ?HbA; done.
Qed.

Lemma merge_up_spec fuel : forall F A p o F' p' o',
  F ##ₘ A -> F !! p = None -> A !! p = None -> tiling (<[p := o]> (F ∪ A)) ->
  (orders <= fuel + o)%nat ->
  merge_up fuel F p o = (F', p', o') ->
  F' ##ₘ A /\ F' !! p' = None /\ A !! p' = None /\ F' ⊆ F /\ tiling (<[p' := o']> (F' ∪ A)) /\
  (forall a, covered (<[p' := o']> (F' ∪ A)) a <-> covered (<[p := o]> (F ∪ A)) a) /\
  ((S o' < orders)%nat -> F' !! buddy_of p' o' <> Some o').
Proof.
  induction fuel as [|fuel IH]; intros F A p o F' p' o' HFA HpF HpA HT Hfuel; cbn [merge_up].
  { intros [= <- <- <-]. destruct (proj1 HT p o) as (? & _); [by rewrite lookup_insert_eq|]. lia. }
  destruct (decide (S o < orders)%nat) as [Ho|Ho]; [|intros [= <- <- <-]; by split_and!].
  destruct (decide (F !! buddy_of p o = Some o)) as [Hb|Hb];
    [|intros [= <- <- <-]; by split_and!]. intros Hm.
  assert (HbA : A !! buddy_of p o = None) by (by eapply map_disjoint_Some_l).
  pose proof (buddy_of_ne p o) as Hne. assert (Hjoin := join_once_free F A p o HpF HpA HbA).
  assert (HT1 : <[p := o]> (F ∪ A) !! p = Some o) by (by rewrite lookup_insert_eq).
  assert (HT2 : <[p := o]> (F ∪ A) !! buddy_of p o = Some o).
  { rewrite lookup_insert_ne by done. by apply lookup_union_Some_l. }
  assert (Hmin : Z.min p (buddy_of p o) = p \/ Z.min p (buddy_of p o) = buddy_of p o) by lia.
  apply (IH _ A) in Hm as (H1 & H2 & H3 & H4 & H5 & H6 & H7).
  - split_and!; try done; [etransitivity; [done|apply delete_subseteq]|].
    intros a. rewrite H6, <- Hjoin. by apply join_once_covered.
  - by apply map_disjoint_delete_l.
  - destruct Hmin as [->| ->]; [by rewrite lookup_delete_ne|by rewrite lookup_delete_eq].
  - destruct Hmin as [->| ->]; done.
  - rewrite <- Hjoin. by apply join_once_tiling.
  - lia.
Qed.

(** ** Coalescing *)

Lemma coalesced_subseteq F F' : F' ⊆ F -> coalesced F -> coalesced F'.
Proof.
  intros Hsub HF p o Ho Hp Hb. by eapply (HF p o); [|eapply lookup_weaken|eapply lookup_weaken].
Qed.

Lemma coalesced_insert F p o :
  coalesced F -> F !! p = None -> ((S o < orders)%nat -> F !! buddy_of p o <> Some o) ->
  coalesced (<[p := o]> F).
Proof.
  intros HF Hp Hb q o' Ho Hq Hqb. pose proof (buddy_of_ne q o') as Hne.
  rewrite lookup_insert in Hq. rewrite lookup_insert in Hqb.
  destruct (decide (p = q)) as [->|Hpq].
  - rewrite decide_False in Hqb by congruence. injection Hq as ->. by apply Hb.
  - destruct (decide (p = buddy_of q o')) as [->|]; [|by eapply (HF q o')].
    injection Hqb as ->. rewrite buddy_of_invol in Hb. by apply Hb.
Qed.

(** Giving back a block leaves no pair of free buddies unmerged. *)
Lemma free_block_coalesced F A p o :
  F ##ₘ A -> F !! p = None -> A !! p = None -> tiling (<[p := o]> (F ∪ A)) ->
  coalesced F -> coalesced (free_block F p o).
Proof.
  intros HFA HpF HpA HT HF. unfold free_block.
  destruct (merge_up orders F p o) as [[F' p'] o'] eqn:Hm.
  apply (merge_up_spec _ _ A) in Hm as (? & ? & ? & ? & ? & ? & ?); try done; [|lia].
  apply coalesced_insert; [by eapply coalesced_subseteq|done..].
Qed.

(** Splitting a block whose lower part stays in use creates no free buddies. *)
Lemma split_down_coalesced F A p req cur :
  (req <= cur)%nat -> F ##ₘ A -> F !! p = None -> A !! p = None ->
  tiling (<[p := cur]> (F ∪ A)) -> coalesced F -> coalesced (split_down F p req cur).
Proof.
  intros Hreq HFA HpF HpA HT HF.
  destruct (split_down_spec p req cur F A) as (_ & Hp' & _ & _ & Hl); try done.
  assert (Hbud : forall i, (i < cur)%nat -> buddy_of (p + bsize i) i = p).
  { intros i Hi. destruct (proj1 HT p cur) as (_ & _ & Hdiv & _); [by rewrite lookup_insert_eq|].
    rewrite <- (buddy_of_upper p i), buddy_of_invol; [done|].
    eapply Z.divide_trans; [apply bsize_divide|done]; lia. }
  intros q o Ho Hq Hqb. assert (Hq0 := Hq). assert (Hqb0 := Hqb). rewrite Hl in Hq, Hqb.
  destruct Hq as [Hq|[Hqo ->]].
  - destruct Hqb as [Hqb|[Hqo Heq]]; [by eapply (HF q o)|].
    assert (q = p) as -> by (rewrite <- (buddy_of_invol q o), Heq; apply Hbud; lia). congruence.
  - rewrite Hbud in Hqb0 by lia. congruence.
Qed.

(** ** Allocating a block and giving it back *)

Lemma merge_split_down p req cur : forall F fuel,
  (req <= cur)%nat -> (cur < orders)%nat -> (cur - req <= fuel)%nat -> (bsize cur | p) ->
  (forall i, (i < cur)%nat -> F !! (p + bsize i) = None) ->
  merge_up fuel (split_down F p req cur) p req = merge_up (fuel - (cur - req)) F p cur.
Proof.
  induction cur as [|c IH]; intros F fuel Hreq Hcur Hfuel Hdiv Hnone; cbn [split_down].
  { assert (req = 0)%nat as -> by lia. by rewrite Nat.sub_0_r. }
  destruct (decide (req < S c)%nat); [|assert (req = S c) as -> by lia; by rewrite Nat.sub_diag, Nat.sub_0_r].
  pose proof (bsize_pos c).
  rewrite IH; [|lia|lia|lia| |].
  - replace (fuel - (c - req))%nat with (S (fuel - (S c - req)))%nat by lia. cbn [merge_up].
    rewrite decide_True by lia. rewrite (buddy_of_upper p c) by done.
    rewrite decide_True by (by rewrite lookup_insert_eq).
    rewrite delete_insert_id by (apply Hnone; lia). by rewrite Z.min_l by lia.
  - eapply Z.divide_trans; [apply bsize_divide|done]. lia.
  - intros i Hi. rewrite lookup_insert_ne by (intros Heq%Z.add_cancel_l%bsize_inj; lia).
    apply Hnone. lia.
Qed.

Lemma free_split_roundtrip F A p req cur :
  F ##ₘ A -> tiling (F ∪ A) -> coalesced F -> F !! p = Some cur -> (req <= cur)%nat ->
  free_block (split_down (delete p F) p req cur) p req = F.
Proof.
  intros HFA HT HF Hp Hreq. assert (Hp' : (F ∪ A) !! p = Some cur) by (by apply lookup_union_Some_l).
  destruct (proj1 HT _ _ Hp') as (Hcur & _ & Hdiv & _). unfold free_block.
  rewrite merge_split_down; [|done|done|lia|done|].
  - replace (orders - (cur - req))%nat with (S (orders - 1 - (cur - req)))%nat by lia. cbn [merge_up].
    pose proof (buddy_of_ne p cur).
    assert (Hstop : (S cur < orders)%nat -> delete p F !! buddy_of p cur <> Some cur).
    { intros Ho. rewrite lookup_delete_ne by done. by apply HF. }
    destruct (decide (S cur < orders)%nat); [rewrite decide_False by auto|];
      by rewrite insert_delete_id.
  - intros i Hi. rewrite lookup_delete_ne by (pose proof (bsize_pos i); lia).
    destruct (F !! (p + bsize i)) as [o'|] eqn:Hq; [|done]. exfalso.
    eapply (tiling_no_inside (F ∪ A) p cur (p + bsize i) o'); [done|done|by apply lookup_union_Some_l|].
    pose proof (bsize_pos i). pose proof (bsize_mono (S i) cur ltac:(lia)) as Hm. rewrite bsize_S in Hm. lia.
Qed.

(** ** Sub-maps and coverage *)

Lemma tiling_subseteq T T' : T' ⊆ T -> tiling T -> tiling T'.
Proof.
  intros Hsub [Hok Hd]. split.
  - intros p o Hp. apply Hok. by eapply lookup_weaken.
  - intros p o q o' Hp Hq. apply Hd; by eapply lookup_weaken.
Qed.

Lemma tiling_union_l F A : tiling (F ∪ A) -> tiling F.
Proof. apply tiling_subseteq, map_union_subseteq_l. Qed.

Lemma covered_insert T p o a :
  T !! p = None -> covered (<[p := o]> T) a <-> p <= a < p + bsize o \/ covered T a.
Proof.
  intros Hp. unfold covered. split.
  - intros (q & o' & Hq & Ha). rewrite lookup_insert in Hq. case_decide; [left|right].
    + subst. by injection Hq as ->.
    + by exists q, o'.
  - intros [Ha|(q & o' & Hq & Ha)].
    + exists p, o. by rewrite lookup_insert_eq.
    + exists q, o'. rewrite lookup_insert_ne by congruence. done.
Qed.

(** A free block is disjoint from every block in use. *)
Lemma tiling_free_used F A p o q o' :
  F ##ₘ A -> tiling (F ∪ A) -> F !! p = Some o -> A !! q = Some o' -> disjoint_blocks p o q o'.
Proof.
  intros HFA HT Hp Hq. apply (proj2 HT).
  - by apply lookup_union_Some_l.
  - by apply lookup_union_Some_r.
  - intros ->. by eapply map_disjoint_spec.
Qed.

Lemma split_down_covered F p req cur a :
  tiling F -> F !! p = Some cur -> (req <= cur)%nat ->
  covered F a <-> p <= a < p + bsize req \/ covered (split_down (delete p F) p req cur) a.
Proof.
  intros HT Hp Hreq.
  destruct (split_down_spec p req cur (delete p F) ∅) as (_ & Hp' & _ & Hc & _); try done.
  - apply map_disjoint_empty_r.
  - by rewrite lookup_delete_eq.
  - by rewrite map_union_empty, insert_delete_id.
  - rewrite !map_union_empty in Hc. rewrite insert_delete_id in Hc by done.
    by rewrite <- Hc, covered_insert.
Qed.

Lemma free_block_covered F p o a :
  F !! p = None -> tiling (<[p := o]> F) ->
  covered (free_block F p o) a <-> p <= a < p + bsize o \/ covered F a.
Proof.
  intros Hp HT. unfold free_block. destruct (merge_up orders F p o) as [[F' p'] o'] eqn:Hm.
  apply (merge_up_spec _ _ ∅) in Hm as (_ & Hp' & _ & _ & _ & Hc & _); try done.
  - rewrite !map_union_empty in Hc. by rewrite Hc, covered_insert.
  - apply map_disjoint_empty_r.
  - by rewrite map_union_empty.
  - lia.
Qed.

Lemma delete_union_free (F A : Blocks) p : A !! p = None -> delete p F ∪ A = delete p (F ∪ A).
Proof. intros Hp. by rewrite delete_union, (delete_id A). Qed.

Lemma delete_union_used (F A : Blocks) p : F !! p = None -> F ∪ delete p A = delete p (F ∪ A).
Proof. intros Hp. by rewrite delete_union, (delete_id F). Qed.

(** More fuel than there are orders above does not change the merge. *)
Lemma merge_up_fuel fuel : forall fuel' F p o,
  (orders <= fuel + o)%nat -> (fuel <= fuel')%nat -> merge_up fuel' F p o = merge_up fuel F p o.
Proof.
  induction fuel as [|fuel IH]; intros fuel' F p o Ho Hf.
  - destruct fuel'; cbn [merge_up]; [done|]. by rewrite decide_False by lia.
  - destruct fuel' as [|fuel']; [lia|]. cbn [merge_up].
    destruct (decide (S o < orders)%nat); [|done].
    destruct (decide (F !! buddy_of p o = Some o)); [|done]. apply IH; lia.
Qed.

(** ** Adding a block over uncovered memory *)

Lemma tiling_insert T p o :
  tiling T -> block_ok p o -> (forall a, p <= a < p + bsize o -> ~ covered T a) ->
  T !! p = None /\ tiling (<[p := o]> T).
Proof.
  intros [Hok Hd] Hp Hunc. pose proof (bsize_pos o).
  assert (Hnone : T !! p = None).
  { destruct (T !! p) as [o'|] eqn:Heq; [|done]. pose proof (bsize_pos o').
    exfalso. apply (Hunc p); [lia|]. exists p, o'. split; [done|lia]. }
  assert (Hdis : forall q o', T !! q = Some o' -> disjoint_blocks p o q o').
  { intros q o' Hq. pose proof (bsize_pos o'). unfold disjoint_blocks.
    destruct (decide (p + bsize o <= q \/ q + bsize o' <= p)) as [|Hov]; [done|].
    exfalso. apply (Hunc (Z.max p q)); [lia|]. exists q, o'. split; [done|lia]. }
  split; [done|]. split.
  - intros q o' Hq. rewrite lookup_insert in Hq. case_decide; [subst; by injection Hq as <-|by apply Hok].
  - intros q1 o1 q2 o2 H1 H2 Hne. rewrite lookup_insert in H1. rewrite lookup_insert in H2.
    destruct (decide (p = q1)) as [<-|], (decide (p = q2)) as [<-|]; simplify_eq.
    + by apply Hdis.
    + destruct (Hdis _ _ H1); [by right|by left].
    + by apply Hd.
Qed.

Lemma covered_union_l F A a : covered F a -> covered (F ∪ A) a.
Proof. intros (p & o & Hp & Ha). exists p, o. split; [by apply lookup_union_Some_l|done]. Qed.
