(* ===== verification/BuddyProofs.v ===== *)
(** * Correctness of the buddy allocator

    The linked lists of [Buddy] refine the abstract block maps of [BuddyBlocks]:
    [refines s F] says that the list of every order is a duplicate-free chain in
    memory whose nodes are exactly the blocks of that order in [F]. *)

From S2P Require Import Prelude Address Memory FrameAllocator Buddy BuddyBlocks.

(** ** Linked lists in memory *)

(** From the head [h], following the stored links visits exactly the nodes [l]. *)
Fixpoint chain (m : Memory) (h : option Z) (l : list Z) : Prop :=
  match l with
  | [] => h = None
  | p :: l' => h = Some p /\ 0 < p < USIZE /\ chain m (decode_ptr (read_pa m p)) l'
  end.

Lemma chain_ext m m' h l :
  (forall a, a ∈ l -> read_pa m' a = read_pa m a) -> chain m h l -> chain m' h l.
Proof.
  revert h. induction l as [|p l IH]; intros h Hext; cbn; [done|].
  intros (-> & Hp & Hc). split_and!; try lia; [done|].
  rewrite Hext by set_solver. apply IH; [set_solver|done].
Qed.

Lemma chain_write m h l a v : a ∉ l -> chain m h l -> chain (write_pa m a v) h l.
Proof. intros Ha. apply chain_ext. intros b Hb. apply read_write_other. set_solver. Qed.

Lemma chain_head_ne m h l : chain m h l -> h <> Some 0.
Proof. destruct l; cbn; [by intros ->|]. intros (-> & ? & _) [= ->]. lia. Qed.

Lemma chain_cons m h l p :
  chain m h l -> p ∉ l -> 0 < p < USIZE ->
  chain (write_pa m p (encode_ptr h)) (Some p) (p :: l).
Proof.
  intros Hc Hp Hr. cbn. split_and!; try done; try lia.
  rewrite read_write_same, decode_encode_ptr by (by eapply chain_head_ne).
  by apply chain_write.
Qed.

Lemma chain_linked m h l :
  chain m h l -> l = [] \/ exists l' x, l = l' ++ [x] /\ Forall (fun a => a ∈ dom m) l'.
Proof.
  revert h. induction l as [|p l IH]; intros h; [by left|]. cbn. intros (_ & _ & Hc). right.
  destruct (IH _ Hc) as [->|(l' & x & -> & Hl')]; [by exists [], p|].
  exists (p :: l'), x. split; [done|]. constructor; [|done].
  apply read_pa_nonzero. intros H0. rewrite H0 in Hc. destruct l'; by destruct Hc as [[=] _].
Qed.

(** A chain is at most one longer than the number of words in memory. *)
Lemma chain_length m h l : chain m h l -> NoDup l -> (length l <= S (size m))%nat.
Proof.
  intros Hc Hnd. destruct (chain_linked _ _ _ Hc) as [->|(l' & x & -> & Hl')]; [cbn; lia|].
  apply NoDup_app in Hnd as (Hnd & _ & _). rewrite length_app. cbn.
  rewrite <- (size_dom m), <- (size_list_to_set (C := gset Z) l') by done.
  enough (size (list_to_set l' : gset Z) <= size (dom m))%nat by lia.
  apply subseteq_size. rewrite Forall_forall in Hl'. set_solver.
Qed.

(** The list traversal of [try_remove_from_list]. *)
Lemma remove_after_spec l : forall fuel m c p,
  chain m (Some c) (c :: l) -> NoDup (c :: l) -> (length l < fuel)%nat ->
  exists m', remove_after fuel m p (phys_to_virt c) = Done (bool_decide (p ∈ l), m') /\
    chain m' (Some c) (c :: filter (fun q => q <> p) l) /\
    (forall a, a ∉ c :: l -> read_pa m' a = read_pa m a).
Proof.
  induction l as [|n l IH]; intros fuel m c p Hc Hnd Hfuel;
    (destruct fuel as [|fuel]; [cbn in Hfuel; lia|]); cbn [remove_after];
    assert (Hcu : usize c) by (destruct Hc as (_ & ? & _); unfold usize; lia);
    rewrite read_va_direct by done; assert (Hc0 := Hc); destruct Hc as (_ & Hcr & Hc).
  { cbn in Hc. rewrite Hc. exists m. by rewrite bool_decide_eq_false_2 by set_solver. }
  assert (Hc1 := Hc). destruct Hc as (Hn & Hnr & Hc). rewrite Hn. cbv zeta.
  apply NoDup_cons in Hnd as [Hcn Hnd]. assert (Hnd' := Hnd). apply NoDup_cons in Hnd' as [Hnl Hnd'].
  assert (Hnu : usize n) by (unfold usize; lia).
  destruct (Z.eqb_spec n p) as [->|Hne].
  - autorewrite with memory. eexists. rewrite bool_decide_eq_true_2 by set_solver. split; [done|].
    rewrite filter_cons_False by naive_solver.
    rewrite filter_ne_id by done. split.
    + split; [done|split; [lia|]]. rewrite read_write_same.
      apply chain_write; [set_solver|]. by apply chain_write.
    + intros a Ha. rewrite !read_write_other by set_solver. done.
  - destruct (IH fuel m n p) as (m' & Heq & Hc' & Hfr); [by rewrite <- Hn|done|cbn in Hfuel; lia|].
    exists m'. rewrite Heq, filter_cons_True by done. split_and!.
    + f_equal. f_equal. apply bool_decide_ext. set_solver.
    + split; [done|split; [lia|]]. rewrite Hfr by done. by rewrite Hn.
    + intros a Ha. apply Hfr. set_solver.
Qed.

(** ** The refinement relation *)

Definition refines (s : Frames) (F : Blocks) : Prop :=
  length (free_lists (buddy s)) = MAX_ORDER /\
  (forall o, (o < MAX_ORDER)%nat -> exists h l, free_lists (buddy s) !! o = Some h /\
     chain (memory s) h l /\ NoDup l /\ forall p, p ∈ l <-> F !! p = Some o) /\
  (forall p o, F !! p = Some o -> (o < MAX_ORDER)%nat /\ 0 < p < USIZE).

(** Replacing the list of one order; the memory may change at addresses that
    are no nodes of other orders. *)
Lemma refines_update m m' lists F F' o h l :
  refines (mkFrames m (mkBuddy lists)) F -> (o < MAX_ORDER)%nat ->
  chain m' h l -> NoDup l -> (forall p, p ∈ l <-> F' !! p = Some o) ->
  (forall p o', o' <> o -> F' !! p = Some o' <-> F !! p = Some o') ->
  (forall p o', o' <> o -> F !! p = Some o' -> read_pa m' p = read_pa m p) ->
  refines (mkFrames m' (mkBuddy (<[o := h]> lists))) F'.
Proof.
  intros (Hlen & Hl & Hr) Ho Hc Hnd HF' Hother Hmem. cbn in *. split_and!; cbn.
  - by rewrite length_insert.
  - intros o' Ho'. destruct (decide (o' = o)) as [->|Hne].
    + exists h, l. rewrite list_lookup_insert_eq by lia. done.
    + destruct (Hl o' Ho') as (h' & l' & Hh' & Hc' & Hnd' & Hl'). exists h', l'.
      rewrite list_lookup_insert_ne by done. split_and!; try done.
      * eapply chain_ext; [|done]. intros a Ha. eapply Hmem; [done|by apply Hl'].
      * intros p. by rewrite Hl', Hother.
  - intros p o' Hp. destruct (decide (o' = o)) as [->|Hne]; [|by apply Hother in Hp; auto].
    split; [done|]. apply HF' in Hp. clear -Hc Hp. revert h Hc.
    induction l as [|q l IH]; intros h; cbn; [set_solver|]. intros (_ & Hq & Hc).
    apply elem_of_cons in Hp as [->|Hp]; [done|by eapply IH].
Qed.

Lemma add_free_block_refines s F p o :
  refines s F -> (o < MAX_ORDER)%nat -> 0 < p < USIZE -> F !! p = None ->
  exists s', add_free_block s p o = Done s' /\ refines s' (<[p := o]> F).
Proof.
  intros HF Ho Hp Hnone. destruct s as [m [lists]]. assert (HF' := HF).
  destruct HF' as (Hlen & Hl & Hr). cbn in *. destruct (Hl o Ho) as (h & l & Hh & Hc & Hnd & Hin).
  unfold add_free_block. rewrite decide_False by lia. cbn [buddy free_lists memory].
  rewrite (proj2 (index_Done lists o h) Hh). cbn [mbind outcome_bind].
  unfold new_unchecked. rewrite (proj2 (Z.eqb_neq p 0)) by lia. cbn [mbind outcome_bind].
  rewrite index_set_Done by lia. rewrite write_va_direct by (unfold usize; lia). cbn [mbind outcome_bind].
  eexists. split; [done|]. assert (Hpl : p ∉ l) by (rewrite Hin; congruence).
  eapply refines_update; [done|done|by apply chain_cons| | | |].
  - by constructor.
  - intros q. rewrite elem_of_cons, Hin, lookup_insert. case_decide; naive_solver.
  - intros q o' Hne. rewrite lookup_insert. case_decide; naive_solver.
  - intros q o' Hne Hq. rewrite read_write_other; [done|]. congruence.
Qed.

(** Unlinking the head of a list, as [alloc] and [try_remove_from_list] do. *)
Lemma unlink_head_refines m lists F o p :
  refines (mkFrames m (mkBuddy lists)) F -> (o < MAX_ORDER)%nat -> lists !! o = Some (Some p) ->
  F !! p = Some o /\
  refines (mkFrames (write_pa m p 0) (mkBuddy (<[o := decode_ptr (read_pa m p)]> lists))) (delete p F).
Proof.
  intros HF Ho Hh. assert (HF' := HF). destruct HF' as (Hlen & Hl & Hr). cbn in *.
  destruct (Hl o Ho) as (h & l & Hh' & Hc & Hnd & Hin). rewrite Hh in Hh'. injection Hh' as <-.
  destruct l as [|q l]; [done|]. destruct Hc as ([= <-] & Hp & Hc).
  apply NoDup_cons in Hnd as [Hpl Hnd]. assert (HFp : F !! p = Some o) by (apply Hin; set_solver).
  split; [done|]. eapply refines_update; [done|done|by apply chain_write|done| | |].
  - intros q. rewrite lookup_delete. specialize (Hin q). rewrite elem_of_cons in Hin.
    case_decide; naive_solver.
  - intros q o' Hne. rewrite lookup_delete. case_decide; naive_solver.
  - intros q o' Hne Hq. rewrite read_write_other; [done|]. congruence.
Qed.

Lemma try_remove_refines s F p o :
  refines s F -> (o < MAX_ORDER)%nat ->
  exists s', try_remove_from_list s p o = Done (bool_decide (F !! p = Some o), s') /\
    refines s' (if decide (F !! p = Some o) then delete p F else F).
Proof.
  intros HF Ho. destruct s as [m [lists]]. assert (HF' := HF). destruct HF' as (Hlen & Hl & Hr). cbn in *.
  destruct (Hl o Ho) as (h & l & Hh & Hc & Hnd & Hin).
  unfold try_remove_from_list. cbn [buddy free_lists memory].
  rewrite (proj2 (index_Done lists o h) Hh). cbn [mbind outcome_bind].
  destruct l as [|c l].
  { cbn in Hc. subst h. assert (F !! p <> Some o) by (rewrite <- Hin; set_solver).
    rewrite bool_decide_eq_false_2, decide_False by done. by exists (mkFrames m (mkBuddy lists)). }
  assert (Hc' := Hc). destruct Hc' as (-> & Hcr & Hcn). cbv zeta.
  assert (Hcu : usize c) by (unfold usize; lia).
  destruct (Z.eqb_spec c p) as [->|Hne].
  - destruct (unlink_head_refines m lists F o p HF Ho Hh) as [HFp Href].
    rewrite bool_decide_eq_true_2, decide_True by done. autorewrite with memory.
    rewrite index_set_Done by lia. cbn [mbind outcome_bind]. by eexists.
  - pose proof (chain_length _ _ _ Hc Hnd) as Hsz. cbn in Hsz.
    destruct (remove_after_spec l (size m + 2) m c p) as (m' & Heq & Hc2 & Hfr); [done..|lia|].
    rewrite Heq. cbn [mbind outcome_bind].
    assert (HFp : bool_decide (p ∈ l) = bool_decide (F !! p = Some o)).
    { apply bool_decide_ext. rewrite <- Hin. set_solver. }
    rewrite HFp. eexists. split; [done|].
    rewrite <- (list_insert_id lists o (Some c) Hh) at 1.
    eapply refines_update; [done|done|exact Hc2| | | |].
    + apply NoDup_cons in Hnd as [? ?]. constructor; [|by apply NoDup_filter].
      rewrite list_elem_of_filter. tauto.
    + intros q. rewrite elem_of_cons, list_elem_of_filter. destruct (decide (F !! p = Some o)) as [Hp|Hp].
      * rewrite lookup_delete_Some, <- Hin, elem_of_cons. clear -Hne. naive_solver.
      * rewrite <- Hin, elem_of_cons in Hp. rewrite <- Hin, elem_of_cons. clear -Hp. naive_solver.
    + intros q o' Hne'. destruct (decide (F !! p = Some o)); [|done].
      rewrite lookup_delete_Some. split; [tauto|]. intros Hq. split; [congruence|done].
    + intros q o' Hne' Hq. apply Hfr. rewrite Hin. congruence.
Qed.

(** ** Splitting and merging *)

Lemma block_size_eq o : (o < MAX_ORDER)%nat -> wshl 1 (Z.of_nat o + PAGE_SIZE_BITS) = bsize o.
Proof.
  intros Ho. unfold bsize, PAGE_SIZE_BITS, MAX_ORDER in *. pose proof (pow2_pos (Z.of_nat o + 12) ltac:(lia)).
  pose proof (pow2_le_mono (Z.of_nat o + 12) 63 ltac:(lia)). rewrite wshl_small; lia.
Qed.

(** [frames_ok s F A]: the free lists hold the blocks [F]; together with the
    blocks [A] in use they tile memory without overlap. *)
Record frames_ok (s : Frames) (F A : Blocks) : Prop := {
  fo_refines : refines s F;
  fo_disjoint : F ##ₘ A;
  fo_tiling : tiling (F ∪ A);
  fo_coalesced : coalesced F;
}.

Lemma split_block_refines cur : forall s F A p req,
  refines s F -> F ##ₘ A -> F !! p = None -> A !! p = None ->
  tiling (<[p := cur]> (F ∪ A)) -> (req <= cur)%nat ->
  exists s', split_block s p req cur = Done s' /\ refines s' (split_down F p req cur).
Proof.
  induction cur as [|c IH]; intros s F A p req HF HFA HpF HpA HT Hreq; cbn [split_block split_down].
  { by exists s. }
  destruct (decide (req < S c)%nat); [|by exists s]. cbv zeta.
  assert (HT1 : <[p := S c]> (F ∪ A) !! p = Some (S c)) by (by rewrite lookup_insert_eq).
  destruct (proj1 HT _ _ HT1) as (Hc & Hp0 & Hdiv & Hend). unfold orders in Hc.
  rewrite block_size_eq by (unfold MAX_ORDER; lia).
  pose proof (bsize_pos c). rewrite bsize_S in *. rewrite Z.mul_comm, Z.div_mul by lia.
  rewrite wadd_small by lia.
  assert (Hfresh := split_once_fresh _ p c HT HT1). rewrite lookup_insert_ne in Hfresh by lia.
  apply lookup_union_None in Hfresh as [HfF HfA].
  destruct (add_free_block_refines s F (p + bsize c) c) as (s1 & Heq & HF1);
    [done|unfold MAX_ORDER; lia|lia|done|].
  rewrite Heq. cbn [mbind outcome_bind]. apply (IH _ _ A); try done.
  - by apply map_disjoint_insert_l_2.
  - by rewrite lookup_insert_ne by lia.
  - pose proof (split_once_tiling _ p c HT HT1) as HT'. unfold split_once in HT'.
    rewrite insert_insert_eq, insert_insert_ne, insert_union_l in HT' by lia. done.
  - lia.
Qed.

Lemma merge_buddies_refines fuel : forall s F A p o,
  refines s F -> F ##ₘ A -> F !! p = None -> A !! p = None ->
  tiling (<[p := o]> (F ∪ A)) -> (orders <= fuel + o)%nat -> (0 < fuel)%nat ->
  exists s', merge_buddies fuel s p (bsize o) o =
      Done (s', (merge_up fuel F p o).1.2, (merge_up fuel F p o).2) /\
    refines s' (merge_up fuel F p o).1.1.
Proof.
  induction fuel as [|fuel IH]; intros s F A p o HF HFA HpF HpA HT Hfuel Hpos; [lia|].
  assert (HT1 : <[p := o]> (F ∪ A) !! p = Some o) by (by rewrite lookup_insert_eq).
  destruct (proj1 HT _ _ HT1) as (Ho & Hp0 & Hdiv & Hend).
  cbn [merge_buddies merge_up]. unfold orders, MAX_ORDER in *.
  destruct (decide (o < 16 - 1)%nat), (decide (S o < 16)%nat); try lia; [|by exists s].
  cbv zeta. fold (buddy_of p o).
  destruct (try_remove_refines s F (buddy_of p o) o) as (s1 & Heq & HF1); [done|unfold MAX_ORDER; lia|].
  rewrite Heq. cbn [mbind outcome_bind].
  destruct (decide (F !! buddy_of p o = Some o)) as [Hb|Hb];
    [rewrite bool_decide_eq_true_2 by done|rewrite bool_decide_eq_false_2 by done; by exists s1].
  assert (HbA : A !! buddy_of p o = None) by (by eapply map_disjoint_Some_l).
  pose proof (buddy_of_ne p o). assert (Hjoin := join_once_free F A p o HpF HpA HbA).
  pose proof (bsize_bound (S o) ltac:(unfold orders; lia)). pose proof (bsize_pos o).
  rewrite wmul_small by (rewrite bsize_S in *; lia). rewrite Z.mul_comm, <- bsize_S, Nat.add_1_r.
  assert (Hmin : Z.min p (buddy_of p o) = p \/ Z.min p (buddy_of p o) = buddy_of p o) by lia.
  apply (IH s1 _ A); try done; try lia.
  - by apply map_disjoint_delete_l.
  - destruct Hmin as [->| ->]; [by rewrite lookup_delete_ne|by rewrite lookup_delete_eq].
  - by destruct Hmin as [->| ->].
  - rewrite <- Hjoin. apply join_once_tiling; [done|done| |unfold orders; lia].
    rewrite lookup_insert_ne by done. by apply lookup_union_Some_l.
Qed.

(** ** Allocation *)

Lemma pages_to_order_spec pages :
  1 <= pages <= 2 ^ 63 ->
  2 ^ Z.of_nat (pages_to_order pages) / 2 < pages <= 2 ^ Z.of_nat (pages_to_order pages).
Proof.
  intros Hp. unfold pages_to_order. pose proof (Z.log2_up_nonneg pages).
  rewrite next_power_of_two_small, trailing_zeros_pow2, Z2Nat.id by lia.
  apply log2_up_spec'. lia.
Qed.

Lemma pages_to_order_huge pages : 2 ^ 63 < pages < USIZE -> pages_to_order pages = 64%nat.
Proof. intros. unfold pages_to_order. by rewrite next_power_of_two_overflow by lia. Qed.

Lemma pages_to_order_lt pages :
  1 <= pages < USIZE -> (pages_to_order pages < MAX_ORDER)%nat ->
  2 ^ Z.of_nat (pages_to_order pages) / 2 < pages <= 2 ^ Z.of_nat (pages_to_order pages).
Proof.
  intros Hp Ho. apply pages_to_order_spec. split; [lia|].
  destruct (decide (pages <= 2 ^ 63)); [done|].
  rewrite pages_to_order_huge in Ho by lia. unfold MAX_ORDER in Ho. lia.
Qed.

Lemma ppn_of_block p o : block_ok p o -> PhysPageNum_from_PhysAddr p = Done (p / 4096) /\ p / 4096 * 4096 = p.
Proof.
  intros (_ & Hp & Hdiv & _).
  assert ((4096 | p)) as [c ->].
  { eapply Z.divide_trans; [|done]. apply (bsize_divide 0 o). lia. }
  rewrite Z.div_mul by lia. split; [|done]. apply PhysPageNum_from_PhysAddr_mul. lia.
Qed.

Lemma alloc_from_refines s F A req fuel : forall order,
  frames_ok s F A -> (req <= order <= MAX_ORDER)%nat -> (MAX_ORDER < fuel + order)%nat ->
  (alloc_from fuel s req order = Done (None, s) /\ forall p o, F !! p = Some o -> (o < order)%nat) \/
  (exists p k s', alloc_from fuel s req order = Done (Some (p / 4096), s') /\
    (order <= k)%nat /\ F !! p = Some k /\ refines s' (split_down (delete p F) p req k)).
Proof.
  induction fuel as [|fuel IH]; intros order Hok Hreq Hfuel; cbn [alloc_from].
  { lia. }
  assert (HF := fo_refines _ _ _ Hok). destruct s as [m [lists]]. assert (HF' := HF).
  destruct HF' as (Hlen & Hl & Hr). cbn in Hlen, Hl.
  destruct (decide (order < MAX_ORDER)%nat) as [Ho|Ho].
  2: { left. split; [done|]. intros p o Hp. apply Hr in Hp as [? _]. lia. }
  destruct (Hl order Ho) as (h & l & Hh & Hc & Hnd & Hin). cbn [buddy free_lists memory].
  rewrite (proj2 (index_Done lists order h) Hh). cbn [mbind outcome_bind].
  destruct h as [p|].
  - right. destruct (unlink_head_refines m lists F order p HF Ho Hh) as [HFp Href].
    assert (HTp : (F ∪ A) !! p = Some order) by (by apply lookup_union_Some_l).
    assert (Hblk := proj1 (fo_tiling _ _ _ Hok) _ _ HTp).
    destruct (ppn_of_block _ _ Hblk) as [Hppn _]. destruct Hblk as (_ & Hp0 & _ & Hpe).
    pose proof (bsize_pos order). assert (Hpu : usize p) by (unfold usize; lia).
    autorewrite with memory. rewrite index_set_Done by lia. cbn [mbind outcome_bind]. cbv zeta.
    assert (HpA : A !! p = None) by (eapply map_disjoint_Some_l; [apply Hok|done]).
    destruct (split_block_refines order _ _ A p req Href) as (s' & Heq & Href').
    + apply map_disjoint_delete_l, Hok.
    + by rewrite lookup_delete_eq.
    + done.
    + rewrite delete_union_free, insert_delete_id by done. apply Hok.
    + lia.
    + rewrite Heq. cbn [mbind outcome_bind]. rewrite Hppn. cbn [mbind outcome_bind].
      exists p, order, s'. by split_and!.
  - destruct (IH (order + 1)%nat) as [[Heq Hnone]|(p & k & s' & Heq & Hk & Hp & Hs')]; [done|lia|lia| |].
    + left. split; [done|]. intros p o Hp. specialize (Hnone p o Hp).
      assert (o <> order); [|lia]. intros ->. apply Hin in Hp.
      destruct l; [set_solver|by destruct Hc].
    + right. exists p, k, s'. split_and!; try done. lia.
Qed.

Lemma alloc_refines s F A pages :
  frames_ok s F A ->
  let req := pages_to_order pages in
  (alloc s pages = Done (None, s) /\
     ((MAX_ORDER <= req)%nat \/ forall p o, F !! p = Some o -> (o < req)%nat)) \/
  (exists ppn k s', alloc s pages = Done (Some ppn, s') /\ (req <= k)%nat /\
    F !! (ppn * 4096) = Some k /\
    frames_ok s' (split_down (delete (ppn * 4096) F) (ppn * 4096) req k) (<[ppn * 4096 := req]> A) /\
    A !! (ppn * 4096) = None).
Proof.
  intros Hok. cbv zeta. unfold alloc.
  destruct (decide (MAX_ORDER <= pages_to_order pages)%nat) as [Hbig|Hbig]; [left; auto|].
  destruct (alloc_from_refines s F A (pages_to_order pages) (S MAX_ORDER) (pages_to_order pages))
    as [[Heq Hnone]|(p & k & s' & Heq & Hk & Hp & Hs')]; [done|lia|lia|left; auto|right].
  assert (HpA : A !! p = None) by (eapply map_disjoint_Some_l; [apply Hok|done]).
  assert (HTp : (F ∪ A) !! p = Some k) by (by apply lookup_union_Some_l).
  destruct (ppn_of_block _ _ (proj1 (fo_tiling _ _ _ Hok) _ _ HTp)) as [_ Hp4].
  exists (p / 4096), k, s'. rewrite Hp4.
  assert (Hfree : F ##ₘ A /\ tiling (<[p := k]> (delete p F ∪ A)) /\ delete p F !! p = None).
  { split_and!; [apply Hok| |by rewrite lookup_delete_eq].
    rewrite delete_union_free, insert_delete_id by done. apply Hok. }
  destruct Hfree as (HFA & HT & Hpd). apply (map_disjoint_delete_l _ _ p) in HFA.
  destruct (split_down_spec p (pages_to_order pages) k (delete p F) A) as (H1 & H2 & H3 & _); try done.
  split_and!; try done. constructor; [done| | |].
  - by apply map_disjoint_insert_r_2.
  - rewrite <- insert_union_r by done. done.
  - eapply split_down_coalesced; try done. eapply coalesced_subseteq; [apply delete_subseteq|apply Hok].
Qed.

(** ** Deallocation *)

Lemma free_block_ok F A p o :
  F ##ₘ A -> F !! p = None -> A !! p = None -> tiling (<[p := o]> (F ∪ A)) -> coalesced F ->
  free_block F p o ##ₘ A /\ tiling (free_block F p o ∪ A) /\ coalesced (free_block F p o).
Proof.
  intros HFA HpF HpA HT HF. split_and!; [| |by eapply free_block_coalesced].
  all: unfold free_block; destruct (merge_up orders F p o) as [[F' p'] o'] eqn:Hm;
    apply (merge_up_spec _ _ A) in Hm as (? & ? & ? & ? & ? & _ & _); try done; try lia.
  - by apply map_disjoint_insert_l_2.
  - by rewrite <- insert_union_l.
Qed.

(** Freeing the block at [p] of order [o], from any state in which it is neither
    free nor in use. *)
Lemma dealloc_block_refines s F A ppn pages :
  let p := ppn * 4096 in let o := pages_to_order pages in
  refines s F -> F ##ₘ A -> F !! p = None -> A !! p = None -> tiling (<[p := o]> (F ∪ A)) ->
  exists s', dealloc s ppn pages = Done s' /\ refines s' (free_block F p o).
Proof.
  cbv zeta. intros HF HFA HpF HpA HT. unfold dealloc.
  assert (HT1 : <[ppn * 4096 := pages_to_order pages]> (F ∪ A) !! (ppn * 4096) = Some (pages_to_order pages))
    by (by rewrite lookup_insert_eq).
  destruct (proj1 HT _ _ HT1) as (Ho & Hp0 & _ & Hend). pose proof (bsize_pos (pages_to_order pages)).
  rewrite PhysAddr_from_PhysPageNum_mul by lia. rewrite block_size_eq by done. cbv zeta.
  destruct (merge_buddies_refines (S MAX_ORDER) s F A (ppn * 4096) (pages_to_order pages))
    as (s1 & Heq & HF1); try done; [unfold orders, MAX_ORDER; lia|lia|].
  rewrite Heq. cbn [mbind outcome_bind]. unfold free_block.
  assert (Hfuel : merge_up (S MAX_ORDER) F (ppn * 4096) (pages_to_order pages) =
    merge_up orders F (ppn * 4096) (pages_to_order pages)) by (apply merge_up_fuel; unfold orders, MAX_ORDER; lia).
  rewrite Hfuel in *. destruct (merge_up orders F _ _) as [[F' p'] o'] eqn:Hm. cbn [fst snd] in *.
  apply (merge_up_spec _ _ A) in Hm as (_ & Hp' & HA' & _ & HT' & _ & _); try done; [|lia].
  destruct (proj1 HT' p' o') as (Ho' & Hp0' & _ & Hend'); [by rewrite lookup_insert_eq|].
  pose proof (bsize_pos o'). apply add_free_block_refines; try done. lia.
Qed.

Lemma frames_ok_used_block s F A p o :
  frames_ok s F A -> A !! p = Some o ->
  F !! p = None /\ F ##ₘ delete p A /\ delete p A !! p = None /\ tiling (<[p := o]> (F ∪ delete p A)).
Proof.
  intros Hok Hp. assert (HpF : F !! p = None) by (eapply map_disjoint_Some_r; [apply Hok|done]).
  split_and!; [done|apply map_disjoint_delete_r, Hok|by rewrite lookup_delete_eq|].
  rewrite delete_union_used, insert_delete_id; [apply Hok| |done].
  apply lookup_union_Some_r; [apply Hok|done].
Qed.

Lemma dealloc_refines s F A ppn pages :
  let p := ppn * 4096 in let o := pages_to_order pages in
  frames_ok s F A -> A !! p = Some o ->
  exists s', dealloc s ppn pages = Done s' /\ frames_ok s' (free_block F p o) (delete p A).
Proof.
  cbv zeta. intros Hok HpA. destruct (frames_ok_used_block _ _ _ _ _ Hok HpA) as (HpF & HFA & HpA' & HT).
  destruct (dealloc_block_refines s F (delete (ppn * 4096) A) ppn pages) as (s' & Heq & Hs'); try done.
  { apply Hok. }
  destruct (free_block_ok F (delete (ppn * 4096) A) (ppn * 4096) (pages_to_order pages)) as (? & ? & ?);
    try done; [apply Hok|]. exists s'. by split.
Qed.

(** ** Handing over a region *)

(** The order [add_free_region] chooses for the block at page [c]. *)
Definition greedy_order (c e : Z) : nat :=
  Z.to_nat (Z.min (Z.min (Z.log2 (e - c)) (Z.min (trailing_zeros c) 15)) 15).

Lemma greedy_order_spec c e :
  0 < c < e -> e <= 2 ^ 52 ->
  let o := greedy_order c e in
  block_ok (c * 4096) o /\ c + 2 ^ Z.of_nat o <= e /\
  ((S o < MAX_ORDER)%nat -> (bsize (S o) | c * 4096) -> e < c + 2 ^ Z.of_nat (S o)).
Proof.
  intros Hc He. cbv zeta. unfold greedy_order.
  pose proof (Z.log2_nonneg (e - c)). pose proof (trailing_zeros_nonneg c).
  set (z := Z.min (Z.min (Z.log2 (e - c)) (Z.min (trailing_zeros c) 15)) 15) in *.
  assert (Hz : 0 <= z <= 15) by lia. pose proof (Z.log2_spec (e - c) ltac:(lia)) as [Hl1 Hl2].
  pose proof (pow2_pos z ltac:(lia)). pose proof (pow2_le_mono z (Z.log2 (e - c)) ltac:(lia)).
  assert (Hbs : forall i, 0 <= i -> bsize (Z.to_nat i) = 2 ^ i * 4096).
  { intros i Hi. unfold bsize. rewrite Z2Nat.id, Z.pow_add_r by lia. done. }
  rewrite <- Z2Nat.inj_succ by lia. rewrite !Z2Nat.id by lia.
  unfold block_ok, orders, MAX_ORDER. rewrite !Hbs by lia. split_and!; try lia.
  - apply Z.mul_divide_mono_r. eapply Z.divide_trans; [|apply trailing_zeros_divide; lia].
    apply pow2_divide. lia.
  - intros Ho Hdiv. apply Z.mul_divide_cancel_r in Hdiv; [|lia].
    apply trailing_zeros_max in Hdiv; [|lia..].
    assert (z = Z.log2 (e - c)) as -> by lia. lia.
Qed.

Section AddRegion.
Context (A F0 : Blocks) (lo hi : Z).
Hypothesis Hlo : 0 < lo.
Hypothesis Hhi : hi <= 2 ^ 52.
(** The region and the bytes next to it are not covered by free blocks, and the
    region is not in use. *)
Hypothesis Hgap : forall a, lo * 4096 - 1 <= a <= hi * 4096 -> ~ covered F0 a.
Hypothesis Hunused : forall a, lo * 4096 <= a < hi * 4096 -> ~ covered A a.

(** Loop invariant at page [c]: the blocks so far, and the orders of the new ones. *)
Definition region_inv (s : Frames) (F : Blocks) (c : Z) : Prop :=
  frames_ok s F A /\
  (forall a, covered F a <-> covered F0 a \/ lo * 4096 <= a < c * 4096) /\
  (forall q o, F !! q = Some o -> F0 !! q = Some o \/
     exists d, q = d * 4096 /\ lo <= d < c /\ o = greedy_order d hi).

Lemma region_inv_step s F c :
  region_inv s F c -> lo <= c < hi ->
  let o := greedy_order c hi in
  exists s', add_free_block s (c * 4096) o = Done s' /\
    region_inv s' (<[c * 4096 := o]> F) (c + 2 ^ Z.of_nat o).
Proof.
  intros (Hok & Hcov & Hblk) Hc. destruct (greedy_order_spec c hi) as (Hbok & Hend & Hmax); [lia|done|].
  cbv zeta. set (o := greedy_order c hi) in *. pose proof (bsize_pos o).
  assert (Hbs : bsize o = 2 ^ Z.of_nat o * 4096) by (unfold bsize; rewrite Z.pow_add_r by lia; done).
  destruct (tiling_insert (F ∪ A) (c * 4096) o) as [Hnone HT]; [apply Hok|done| |].
  { intros a Ha (p & o' & Hp & Hpa). apply lookup_union_Some in Hp as [Hp|Hp]; [| |apply Hok].
    - assert (Hca : covered F a) by (by exists p, o'). apply Hcov in Hca as [Hca|]; [|lia].
      eapply Hgap; [|done]. lia.
    - apply (Hunused a); [lia|]. by exists p, o'. }
  apply lookup_union_None in Hnone as [HnF HnA]. destruct Hbok as (Ho & Hb0 & Hbd & Hbe).
  destruct (add_free_block_refines s F (c * 4096) o) as (s' & Heq & Hs'); [apply Hok|done|lia|done|].
  exists s'. split; [done|]. split_and!.
  - constructor; [done|apply map_disjoint_insert_l_2; [done|apply Hok]|by rewrite <- insert_union_l|].
    apply coalesced_insert; [apply Hok|done|]. intros HSo Hbud.
    destruct (buddy_of_cases (c * 4096) o Hbd) as [[Hd Hq]|[Hd Hq]]; rewrite Hq in Hbud.
    + assert (Hca : covered F (c * 4096 + bsize o)) by (exists (c * 4096 + bsize o), o; split; [done|lia]).
      apply Hcov in Hca as [Hca|]; [|lia]. eapply Hgap; [|done]. lia.
    + destruct (Hblk _ _ Hbud) as [HF0|(d & Hd' & Hdr & Hdo)].
      * eapply (Hgap (c * 4096 - 1)); [lia|]. exists (c * 4096 - bsize o), o. split; [done|lia].
      * destruct (greedy_order_spec d hi) as (_ & _ & Hmax'); [lia|done|]. rewrite <- Hdo in Hmax'.
        rewrite Hd' in Hd. specialize (Hmax' HSo Hd). rewrite Nat2Z.inj_succ, Z.pow_succ_r in Hmax' by lia. lia.
  - intros a. rewrite covered_insert by done. rewrite Hcov.
    assert (lo * 4096 <= a < (c + 2 ^ Z.of_nat o) * 4096 <->
      c * 4096 <= a < c * 4096 + bsize o \/ lo * 4096 <= a < c * 4096) by lia. tauto.
  - intros q o' Hq. rewrite lookup_insert in Hq. case_decide as Hcase.
    + subst q. injection Hq as <-. right. exists c. split_and!; try done; lia.
    + destruct (Hblk _ _ Hq) as [|(d & ? & ? & ?)]; [by left|]. right. exists d. split_and!; try done; lia.
Qed.

Lemma add_region_loop_inv fuel : forall s F c,
  region_inv s F c -> lo <= c <= hi -> (Z.to_nat (hi - c) < fuel)%nat ->
  exists s' F', add_region_loop fuel s c hi = Done s' /\ region_inv s' F' hi.
Proof.
  induction fuel as [|fuel IH]; intros s F c Hinv Hc Hfuel; [lia|]. cbn [add_region_loop].
  destruct (Z.ltb_spec c hi); [|assert (c = hi) as -> by lia; by exists s, F].
  rewrite wsub_small by lia. cbv zeta. rewrite (proj2 (Z.eqb_neq (hi - c) 0)) by lia.
  unfold ilog2. destruct (Z.leb_spec (hi - c) 0); [lia|]. cbn [mbind outcome_bind].
  rewrite (proj2 (Z.eqb_neq c 0)) by lia. rewrite PhysAddr_from_PhysPageNum_mul by lia.
  destruct (region_inv_step s F c Hinv) as (s' & Heq & Hinv'); [lia|].
  change (Z.of_nat MAX_ORDER - 1) with 15. fold (greedy_order c hi). rewrite Heq. cbn [mbind outcome_bind].
  destruct (greedy_order_spec c hi) as (_ & Hend & _); [lia|done|].
  pose proof (Z.log2_nonneg (hi - c)). pose proof (trailing_zeros_nonneg c).
  assert (Hz : Z.min (Z.min (Z.log2 (hi - c)) (Z.min (trailing_zeros c) 15)) 15 = Z.of_nat (greedy_order c hi))
    by (unfold greedy_order; rewrite Z2Nat.id; lia).
  rewrite Hz. set (o := greedy_order c hi) in *. pose proof (pow2_pos (Z.of_nat o) ltac:(lia)).
  rewrite wshl_small, Z.mul_1_l by lia. rewrite wadd_small by lia.
  apply (IH s' (<[c * 4096 := o]> F)); [done|lia|lia].
Qed.
End AddRegion.

Lemma add_free_region_ok s F A lo hi :
  frames_ok s F A -> 0 < lo -> hi <= 2 ^ 52 ->
  (forall a, lo * 4096 - 1 <= a <= hi * 4096 -> ~ covered F a) ->
  (forall a, lo * 4096 <= a < hi * 4096 -> ~ covered A a) ->
  exists s' F', add_free_region s lo hi = Done s' /\ frames_ok s' F' A /\
    forall a, covered F' a <-> covered F a \/ lo * 4096 <= a < hi * 4096.
Proof.
  intros Hok Hlo Hhi Hgap Hunused. unfold add_free_region.
  destruct (Z.leb_spec hi lo) as [Hle|Hlt].
  { exists s, F. split_and!; try done. intros a. assert (~ (lo * 4096 <= a < hi * 4096)) by lia. tauto. }
  destruct (add_region_loop_inv A F lo hi ltac:(lia) Hhi Hgap Hunused (S (Z.to_nat (hi - lo))) s F lo)
    as (s' & F' & Heq & Hok' & Hcov & _); [|lia|lia|by exists s', F'].
  split_and!; [done| |by left]. intros a. assert (~ (lo * 4096 <= a < lo * 4096)) by lia. tauto.
Qed.

(** [add_free_region] terminates and puts exactly the pages of the region
    into the free lists, as aligned disjoint blocks with no two free buddies left
    unmerged. The region must start above page 0, must not be free or in use, and
    must not abut free memory (as two regions handed over by [Memblock] never do). *)
Theorem add_free_region_spec s F A lo hi :
  frames_ok s F A -> 0 < lo <= hi -> hi <= 2 ^ 52 ->
  (forall a, lo * 4096 - 1 <= a <= hi * 4096 -> ~ covered F a) ->
  (forall a, lo * 4096 <= a < hi * 4096 -> ~ covered A a) ->
  exists s' F', add_free_region s lo hi = Done s' /\ frames_ok s' F' A /\
    forall a, covered F' a <-> covered F a \/ lo * 4096 <= a < hi * 4096.
Proof. intros ? []. by apply add_free_region_ok. Qed.

(** ** The theorems of the allocator *)

Lemma bsize_pages o : bsize o = 2 ^ Z.of_nat o * 4096.
Proof. unfold bsize. by rewrite Z.pow_add_r by lia. Qed.

(** C7: [alloc] never faults. If it returns a page number, the block of the
    smallest sufficient power of two of pages was entirely free, overlaps no block
    in use, and exactly its bytes leave the free lists; the lists stay
    well formed. It returns [None], changing nothing, only if the request is too
    large or no free block of the required order or above exists. *)
Theorem alloc_spec s F A pages :
  frames_ok s F A -> 1 <= pages < USIZE ->
  let req := pages_to_order pages in
  exists res s', alloc s pages = Done (res, s') /\
    match res with
    | Some ppn =>
        2 ^ Z.of_nat req / 2 < pages <= 2 ^ Z.of_nat req /\
        A !! (ppn * 4096) = None /\
        exists F', frames_ok s' F' (<[ppn * 4096 := req]> A) /\
          forall a, covered F a <->
            ppn * 4096 <= a < ppn * 4096 + 2 ^ Z.of_nat req * 4096 \/ covered F' a
    | None => s' = s /\ ((MAX_ORDER <= req)%nat \/ forall p o, F !! p = Some o -> (o < req)%nat)
    end.
Proof.
  intros Hok Hpages. cbv zeta.
  destruct (alloc_refines s F A pages Hok) as [[Heq Hnone]|(ppn & k & s' & Heq & Hk & Hp & Hok' & HA)].
  - exists None, s. done.
  - exists (Some ppn), s'. split; [done|]. destruct (fo_refines _ _ _ Hok) as (_ & _ & Hr).
    apply Hr in Hp as Hp'. destruct Hp' as [Hkm _].
    split; [apply pages_to_order_lt; lia|]. split; [done|].
    eexists. split; [exact Hok'|]. intros a. rewrite <- bsize_pages.
    apply split_down_covered; [|done..]. eapply tiling_union_l, Hok.
Qed.

(** C8: [dealloc] of a block in use never faults, returns exactly its bytes to the
    free lists, keeps them well formed, and merges until no two free buddies
    remain (part of [frames_ok]). *)
Theorem dealloc_spec s F A ppn pages :
  frames_ok s F A -> A !! (ppn * 4096) = Some (pages_to_order pages) ->
  exists s' F', dealloc s ppn pages = Done s' /\ frames_ok s' F' (delete (ppn * 4096) A) /\
    forall a, covered F' a <->
      ppn * 4096 <= a < ppn * 4096 + 2 ^ Z.of_nat (pages_to_order pages) * 4096 \/ covered F a.
Proof.
  intros Hok HA. destruct (dealloc_refines s F A ppn pages Hok HA) as (s' & Heq & Hok').
  exists s', (free_block F (ppn * 4096) (pages_to_order pages)). split_and!; try done.
  destruct (frames_ok_used_block _ _ _ _ _ Hok HA) as (HpF & _ & HpA & HT).
  intros a. rewrite <- bsize_pages. apply free_block_covered; [done|].
  eapply tiling_union_l. by rewrite insert_union_l in HT.
Qed.

(** giving back a block right after allocating it restores the free lists to
    the same set of blocks (splitting is undone completely by merging). *)
Theorem alloc_dealloc_roundtrip s F A pages ppn s' :
  frames_ok s F A -> alloc s pages = Done (Some ppn, s') ->
  exists s'', dealloc s' ppn pages = Done s'' /\ frames_ok s'' F A.
Proof.
  intros Hok Heq.
  destruct (alloc_refines s F A pages Hok) as [[Heq' _]|(ppn' & k & s1 & Heq' & Hk & Hp & Hok' & HA)];
    rewrite Heq in Heq'; [done|]. injection Heq' as <- <-.
  destruct (dealloc_refines s' _ _ ppn pages Hok') as (s'' & Heq'' & Hok'').
  { by rewrite lookup_insert_eq. }
  exists s''. split; [done|]. rewrite delete_insert_id in Hok'' by done.
  rewrite (free_split_roundtrip F A) in Hok''; [done|apply Hok..|done|done].
Qed.

(** ** The buddy allocator implements the interface *)

Definition blocks_of (B : gmap Z Z) : Blocks := kmap (fun ppn => ppn * 4096) (pages_to_order <$> B).

#[export] Instance page_addr_inj : Inj (=) (=) (fun ppn : Z => ppn * 4096).
Proof. intros x y. lia. Qed.

(** The blocks in use are [B], and every managed address satisfies [P]. *)
Definition owns_in (P : Z -> Prop) (s : Frames) (B : gmap Z Z) : Prop :=
  (exists F, frames_ok s F (blocks_of B) /\ (forall a, covered F a -> P a) /\ (forall a, covered (blocks_of B) a -> P a)) /\
  forall p n, B !! p = Some n -> 1 <= n < USIZE.

(** Managed memory lies in the part of physical memory the direct map reaches. *)
#[export] Instance buddy_frame_allocator : FrameAllocator Frames := {|
  fa_alloc := alloc;
  fa_dealloc := dealloc;
  fa_owns := owns_in (fun a => a < DIRECT_MAP_PAGES * 4096);
|}.

#[export] Instance buddy_frame_bounds : FrameBounds Frames := {|
  fa_within := fun s B lo hi =>
    owns_in (fun a => lo * 4096 <= a < hi * 4096) s B /\ hi <= DIRECT_MAP_PAGES
|}.

Lemma blocks_of_lookup B ppn : blocks_of B !! (ppn * 4096) = pages_to_order <$> B !! ppn.
Proof.
  unfold blocks_of. etransitivity; [apply (lookup_kmap (fun ppn => ppn * 4096) _ ppn)|].
  apply lookup_fmap.
Qed.

Lemma blocks_of_insert B ppn n :
  blocks_of (<[ppn := n]> B) = <[ppn * 4096 := pages_to_order n]> (blocks_of B).
Proof. unfold blocks_of. by rewrite fmap_insert, (kmap_insert (fun ppn => ppn * 4096)). Qed.

Lemma blocks_of_delete B ppn : blocks_of (delete ppn B) = delete (ppn * 4096) (blocks_of B).
Proof. unfold blocks_of. by rewrite fmap_delete, (kmap_delete (fun ppn => ppn * 4096)). Qed.

Lemma owns_in_mono (P Q : Z -> Prop) s B : (forall a, P a -> Q a) -> owns_in P s B -> owns_in Q s B.
Proof. intros HPQ [(F & Hok & HF & HB) Hn]. split; [|done]. exists F. split_and!; [done|eauto..]. Qed.

Lemma owns_in_alloc P s B pages :
  owns_in P s B -> 1 <= pages < USIZE ->
  exists r s', alloc s pages = Done (r, s') /\
    match r with
    | Some ppn =>
        0 < ppn /\ P (ppn * 4096) /\ P ((ppn + pages) * 4096 - 1) /\ B !! ppn = None /\ owns_in P s' (<[ppn := pages]> B)
    | None => owns_in P s' B
    end.
Proof.
  intros [(F & Hok & HdF & HdB) HB] Hp.
  destruct (alloc_refines s F _ pages Hok) as [[Heq _]|(ppn & k & s' & Heq & Hk & HF & Hok' & HA)].
  { exists None, s. split; [done|]. by split; [exists F|]. }
  exists (Some ppn), s'. split; [done|]. pose proof HA as HA'.
  rewrite blocks_of_lookup in HA. apply fmap_None in HA.
  assert (Hblk : block_ok (ppn * 4096) k).
  { apply (proj1 (fo_tiling _ _ _ Hok)). by apply lookup_union_Some_l. }
  pose proof (fun a => split_down_covered F _ _ _ a (tiling_union_l _ _ (fo_tiling _ _ _ Hok)) HF Hk) as Hcov.
  destruct Hblk as (? & ? & _ & _). pose proof (bsize_pos (pages_to_order pages)).
  destruct (pages_to_order_lt pages Hp) as [_ Hle]; [unfold MAX_ORDER, orders in *; lia|].
  assert (Hblock : forall a, ppn * 4096 <= a < ppn * 4096 + bsize (pages_to_order pages) -> P a)
    by (intros a Ha; apply HdF, Hcov; by left).
  split_and!; [lia|apply Hblock; lia|apply Hblock; rewrite bsize_pages; lia|done|]. split.
  - eexists. rewrite blocks_of_insert. split; [exact Hok'|]. split.
    + intros a Ha. apply HdF, Hcov. by right.
    + intros a [Ha|Ha]%covered_insert; [| |done]; [by apply Hblock|by apply HdB].
  - intros p n Hpn. rewrite lookup_insert in Hpn. case_decide; [by injection Hpn as <-|by eapply HB].
Qed.

Lemma owns_in_dealloc P s B ppn pages :
  owns_in P s B -> B !! ppn = Some pages ->
  exists s', dealloc s ppn pages = Done s' /\ owns_in P s' (delete ppn B).
Proof.
  intros [(F & Hok & HdF & HdB) HB] Hpp.
  assert (HA : blocks_of B !! (ppn * 4096) = Some (pages_to_order pages)) by
    by rewrite blocks_of_lookup, Hpp.
  destruct (dealloc_refines s F (blocks_of B) ppn pages Hok HA) as (s' & Heq & Hok').
  destruct (frames_ok_used_block _ _ _ _ _ Hok HA) as (HpF & _ & HpA & HT).
  exists s'. split; [exact Heq|]. split.
  - eexists. rewrite blocks_of_delete. split; [exact Hok'|]. split.
    + intros a [Ha|Ha]%free_block_covered; [|by apply HdF|done|].
      { apply HdB. by exists (ppn * 4096), (pages_to_order pages). }
      eapply tiling_union_l. by rewrite insert_union_l in HT.
    + intros a (q & o & [_ Hq]%lookup_delete_Some & Ha). apply HdB. by exists q, o.
  - intros p n Hpn. apply lookup_delete_Some in Hpn as [_ ?]. by eapply HB.
Qed.

#[export] Instance buddy_frame_allocator_laws : FrameAllocatorLaws Frames.
Proof.
  split.
  - intros s B pages Hs Hp. destruct (owns_in_alloc _ s B pages Hs Hp) as (r & s' & Heq & Hr).
    exists r, s'. split; [exact Heq|]. destruct r as [ppn|]; [|exact Hr].
    destruct Hr as (? & _ & Hlast & ? & ?). cbv beta in Hlast. split_and!; [done|lia|done|done].
  - intros s B ppn pages. apply owns_in_dealloc.
  - intros s B p n q m [(F & Hok & _) HB] Hp Hq Hne.
    assert (HT : forall x y, B !! x = Some y -> (F ∪ blocks_of B) !! (x * 4096) = Some (pages_to_order y)).
    { intros x y Hx. apply lookup_union_Some_r; [apply Hok|]. by rewrite blocks_of_lookup, Hx. }
    destruct (fo_tiling _ _ _ Hok) as [Hb Hd].
    destruct (Hd _ _ _ _ (HT _ _ Hp) (HT _ _ Hq)) as [Hdis|Hdis]; [lia|left|right].
    + destruct (Hb _ _ (HT _ _ Hp)) as (Ho & _).
      pose proof (pages_to_order_lt n (HB _ _ Hp) Ho). rewrite bsize_pages in Hdis. lia.
    + destruct (Hb _ _ (HT _ _ Hq)) as (Ho & _).
      pose proof (pages_to_order_lt m (HB _ _ Hq) Ho). rewrite bsize_pages in Hdis. lia.
Qed.

(** ** Witnesses *)

Definition empty_frames : Frames := mkFrames ∅ BuddySystemFrameAllocator_new.

Lemma empty_frames_ok : frames_ok empty_frames ∅ ∅.
Proof.
  constructor; try done.
  - split_and!; try done. intros o Ho. exists None, [].
    split_and!; try done; [|constructor|intros p; rewrite lookup_empty; set_solver].
    by apply lookup_replicate_2.
Qed.

(** One free block of 8 pages at 0x80400000. *)
Definition example_frames : Frames :=
  match add_free_block empty_frames 0x80400000 3 with Done s => s | Fault _ => empty_frames end.

Lemma example_frames_ok : frames_ok example_frames {[0x80400000 := 3%nat]} ∅.
Proof.
  destruct (add_free_block_refines empty_frames ∅ 0x80400000 3) as (s & Heq & Hs);
    [apply empty_frames_ok|unfold MAX_ORDER; lia|lia|done|].
  unfold example_frames. rewrite Heq.
  destruct (tiling_insert ∅ 0x80400000 3) as [_ HT].
  - split; [intros p o|intros p o q o']; by rewrite lookup_empty.
  - split_and!; [unfold orders; lia|lia| |done]. by exists 0x10080.
  - intros a _ (p & o & Hp & _). by rewrite lookup_empty in Hp.
  - constructor; [done|apply map_disjoint_empty_r|by rewrite map_union_empty|].
    apply coalesced_insert; [|done|done]. intros p o _ Hp. by rewrite lookup_empty in Hp.
Qed.

Lemma alloc_spec_witness :
  exists res s', alloc example_frames 3 = Done (res, s') /\ res = Some 0x80400 /\
    exists F', frames_ok s' F' {[0x80400000 := 2%nat]}.
Proof.
  destruct (alloc_spec example_frames _ _ 3 example_frames_ok ltac:(lia)) as (res & s' & Heq & Hres).
  exists res, s'. split; [done|].
  assert (Hr : fst <$> alloc example_frames 3 = Done (Some 0x80400)) by (vm_compute; reflexivity).
  rewrite Heq in Hr. injection Hr as ->. split; [done|]. destruct Hres as (_ & _ & F' & Hok & _).
  by exists F'.
Defined.

Lemma dealloc_spec_witness :
  exists s' F', dealloc (mkFrames ∅ BuddySystemFrameAllocator_new) 0x80400 4 = Done s' /\
    frames_ok s' F' ∅.
Proof.
  destruct (dealloc_spec empty_frames ∅ {[0x80400000 := 2%nat]} 0x80400 4) as (s' & F' & Heq & Hok & _).
  - destruct empty_frames_ok as [Href _ HT Hco]. constructor; [done|apply map_disjoint_empty_l| |done].
    rewrite map_empty_union. apply (tiling_insert ∅ 0x80400000 2); [done| |].
    + split_and!; [unfold orders; lia|lia| |done]. by exists 0x20100.
    + intros a _ (p & o & Hp & _). by rewrite lookup_empty in Hp.
  - reflexivity.
  - exists s', F'. split; [done|]. exact Hok.
Defined.

Lemma alloc_dealloc_roundtrip_witness :
  exists s' s'', alloc example_frames 3 = Done (Some 0x80400, s') /\
    dealloc s' 0x80400 3 = Done s'' /\ frames_ok s'' {[0x80400000 := 3%nat]} ∅.
Proof.
  destruct (alloc example_frames 3) as [[res s']|] eqn:Heq; [|by vm_compute in Heq].
  assert (Hr : fst <$> alloc example_frames 3 = Done (Some 0x80400)) by (vm_compute; reflexivity).
  rewrite Heq in Hr. injection Hr as ->.
  destruct (alloc_dealloc_roundtrip example_frames _ _ 3 0x80400 s' example_frames_ok Heq)
    as (s'' & Heq' & Hok). exists s', s''. by split_and!.
Defined.

Lemma add_free_region_spec_witness :
  exists s' F', add_free_region example_frames 0x80500 0x80503 = Done s' /\ frames_ok s' F' ∅ /\
    covered F' 0x80502FFF.
Proof.
  destruct (add_free_region_spec example_frames _ _ 0x80500 0x80503 example_frames_ok)
    as (s' & F' & Heq & Hok & Hcov); [lia|lia| | |].
  - intros a Ha (p & o & Hp & Hpa). apply lookup_singleton_Some in Hp as [<- <-].
    change (bsize 3) with 32768 in Hpa. lia.
  - intros a _ (p & o & Hp & _). by rewrite lookup_empty in Hp.
  - exists s', F'. split_and!; try done. apply Hcov. right. lia.
Defined.

(** handing over page 0 builds a [NonNull] from a null pointer: the special case
    [current_ppn == 0] of [add_free_region] leads to undefined behaviour. *)
Theorem add_free_region_page_zero s hi :
  frames_ok s ∅ ∅ -> 0 < hi < USIZE ->
  add_free_region s 0 hi = undef "NonNull::new_unchecked requires that the pointer is non-null".
Proof.
  intros Hok Hhi. unfold add_free_region. destruct (Z.leb_spec hi 0); [lia|].
  cbn [add_region_loop]. destruct (Z.ltb_spec 0 hi); [|lia]. rewrite wsub_small by lia.
  rewrite Z.sub_0_r. destruct (Z.eqb_spec hi 0); [lia|]. unfold ilog2.
  destruct (Z.leb_spec hi 0); [lia|]. cbn [mbind outcome_bind]. rewrite Z.eqb_refl.
  change (Z.of_nat MAX_ORDER - 1) with 15. pose proof (Z.log2_nonneg hi).
  set (o := Z.to_nat (Z.min (Z.min (Z.log2 hi) 15) 15)).
  destruct (fo_refines _ _ _ Hok) as (Hlen & Hl & _).
  assert (Ho : (o < MAX_ORDER)%nat) by (unfold o, MAX_ORDER; lia).
  destruct (Hl o Ho) as (h & l & Hh & _). unfold add_free_block.
  rewrite decide_False by lia. rewrite (proj2 (index_Done _ _ _) Hh). done.
Qed.

Lemma add_free_region_page_zero_witness :
  add_free_region empty_frames 0 8
    = undef "NonNull::new_unchecked requires that the pointer is non-null".
Proof. apply (add_free_region_page_zero empty_frames 8 empty_frames_ok). split; done. Defined.
