(* ===== verification/BuddyMemory.v ===== *)
(** * The memory of clients of the buddy allocator

    The allocator keeps its lists inside the free blocks: its operations write only to blocks
    that are free before or after them, and a client's writes to its own blocks do
    not disturb the lists. With this the allocator implements [FrameMemory]. *)

From S2P Require Import Prelude Address Memory FrameAllocator Buddy BuddyBlocks BuddyProofs.

Lemma add_free_block_frame s pa o s' a :
  add_free_block s pa o = Done s' -> usize pa -> a <> pa -> read_pa (memory s') a = read_pa (memory s) a.
Proof.
  intros Heq Hpa Ha. unfold add_free_block in Heq. case_decide; [done|]. outcome_simpl. subst s'.
  cbn [memory]. rewrite write_va_direct by done. by apply read_write_other.
Qed.

Lemma split_block_frame cur : forall s p req s' a,
  (cur < MAX_ORDER)%nat -> 0 <= p -> p + bsize cur <= USIZE -> ~ (p <= a < p + bsize cur) ->
  split_block s p req cur = Done s' -> read_pa (memory s') a = read_pa (memory s) a.
Proof.
  induction cur as [|c IH]; intros s p req s' a Hc Hp He Ha; cbn [split_block]; [by intros [= <-]|].
  case_decide; [|by intros [= <-]]. pose proof (bsize_pos c). rewrite block_size_eq by done. rewrite bsize_S in *.
  rewrite Z.mul_comm, Z.div_mul, wadd_small by lia.
  destruct (add_free_block s (p + bsize c) c) as [s1|] eqn:H1; [|done]. cbn [mbind outcome_bind]. intros Hs.
  rewrite (IH s1 p req s' a) by (done || lia). eapply add_free_block_frame; [done|unfold usize; lia|lia].
Qed.

Lemma alloc_from_frame s F A req fuel : forall order r s' a,
  frames_ok s F A -> alloc_from fuel s req order = Done (r, s') -> ~ covered F a ->
  read_pa (memory s') a = read_pa (memory s) a.
Proof.
  induction fuel as [|fuel IH]; intros order r s' a Hok; cbn [alloc_from]; [done|].
  case_decide as Ho; [|intros Heq _; by injection Heq as <- <-].
  pose proof (fo_refines _ _ _ Hok) as (Hlen & Hl & Hr). destruct (Hl order Ho) as (h & l & Hh & Hc & Hnd & Hin).
  rewrite (proj2 (index_Done _ order h) Hh). cbn [mbind outcome_bind]. destruct h as [p|]; [|by apply IH].
  assert (HFp : F !! p = Some order).
  { apply Hin. destruct l as [|q l]; [discriminate Hc|]. destruct Hc as ([= ->] & _). constructor. }
  assert (HTp : (F ∪ A) !! p = Some order) by (by apply lookup_union_Some_l).
  destruct (proj1 (fo_tiling _ _ _ Hok) _ _ HTp) as (_ & Hp0 & _ & Hpe). pose proof (bsize_pos order).
  rewrite index_set_Done by lia. cbn [mbind outcome_bind]. rewrite write_va_direct by (unfold usize; lia). intros Heq Hcov.
  assert (Hout : ~ (p <= a < p + bsize order)) by (intros Hin'; apply Hcov; by exists p, order).
  destruct (split_block _ p req order) as [s1|] eqn:Hs1; [|done]. cbn [mbind outcome_bind] in Heq.
  outcome_simpl. simplify_eq.
  rewrite (split_block_frame order _ p req s' a) by (done || lia). cbn [memory]. apply read_write_other. lia.
Qed.

(** Allocation writes only to blocks that were free. *)
Lemma alloc_frame s F A pages r s' a :
  frames_ok s F A -> Buddy.alloc s pages = Done (r, s') -> ~ covered F a ->
  read_pa (memory s') a = read_pa (memory s) a.
Proof.
  intros Hok. unfold alloc. case_decide; [intros Heq _; by injection Heq as <- <-|]. by apply (alloc_from_frame s F A).
Qed.

Lemma try_remove_frame s F p o b s' a :
  refines s F -> (o < MAX_ORDER)%nat -> try_remove_from_list s p o = Done (b, s') -> F !! a = None ->
  read_pa (memory s') a = read_pa (memory s) a.
Proof.
  intros (Hlen & Hl & Hr) Ho Heq Ha. destruct (Hl o Ho) as (h & l & Hh & Hc & Hnd & Hin).
  assert (Hal : a ∉ l) by (rewrite Hin; congruence).
  unfold try_remove_from_list in Heq. rewrite (proj2 (index_Done _ o h) Hh) in Heq. cbn [mbind outcome_bind] in Heq.
  destruct l as [|c l]; [cbn in Hc; subst h; by injection Heq as <- <-|].
  assert (Hc' := Hc). destruct Hc' as (Hhc & Hcr & _). subst h. revert Heq.
  destruct (Z.eqb_spec c p) as [Hcp|Hne]; intros Heq.
  - rewrite index_set_Done in Heq by lia. cbn [mbind outcome_bind] in Heq. injection Heq as <- <-. cbn [memory].
    rewrite write_va_direct by (unfold usize; lia). apply read_write_other. set_solver.
  - pose proof (chain_length _ _ _ Hc Hnd) as Hsz. cbn in Hsz.
    destruct (remove_after_spec l (size (memory s) + 2) (memory s) c p) as (m' & Heq' & _ & Hfr); [done..|lia|].
    rewrite Heq' in Heq. cbn [mbind outcome_bind] in Heq. injection Heq as <- <-. by apply Hfr.
Qed.

Lemma merge_buddies_frame fuel : forall s F A p o s' p' o' a,
  refines s F -> F ##ₘ A -> F !! p = None -> A !! p = None -> tiling (<[p := o]> (F ∪ A)) ->
  merge_buddies fuel s p (bsize o) o = Done (s', p', o') -> F !! a = None ->
  read_pa (memory s') a = read_pa (memory s) a.
Proof.
  induction fuel as [|fuel IH]; intros s F A p o s' p' o' a HF HFA HpF HpA HT; cbn [merge_buddies]; [done|].
  assert (HT1 : <[p := o]> (F ∪ A) !! p = Some o) by (by rewrite lookup_insert_eq).
  destruct (proj1 HT _ _ HT1) as (Ho & Hp0 & Hdiv & Hend). unfold orders, MAX_ORDER in *.
  case_decide; [|by intros [= <- <- <-]]. fold (buddy_of p o).
  destruct (try_remove_refines s F (buddy_of p o) o) as (s1 & Heq & HF1); [done|unfold MAX_ORDER; lia|].
  rewrite Heq. cbn [mbind outcome_bind]. intros Hm Ha.
  assert (H1 : read_pa (memory s1) a = read_pa (memory s) a) by (eapply try_remove_frame; [done| |done|done]; unfold MAX_ORDER; lia).
  destruct (decide (F !! buddy_of p o = Some o)) as [Hb|Hb];
    [rewrite bool_decide_eq_true_2 in Hm by done|rewrite bool_decide_eq_false_2 in Hm by done; by injection Hm as <- <- <-].
  assert (HbA : A !! buddy_of p o = None) by (by eapply map_disjoint_Some_l).
  pose proof (buddy_of_ne p o). assert (Hjoin := join_once_free F A p o HpF HpA HbA).
  pose proof (bsize_bound (S o) ltac:(unfold orders; lia)). pose proof (bsize_pos o).
  rewrite wmul_small in Hm by (rewrite bsize_S in *; lia). rewrite Z.mul_comm, <- bsize_S, Nat.add_1_r in Hm.
  assert (Hmin : Z.min p (buddy_of p o) = p \/ Z.min p (buddy_of p o) = buddy_of p o) by lia.
  rewrite <- H1. eapply (IH s1 (delete (buddy_of p o) F) A); [done| | | | |exact Hm|].
  - by apply map_disjoint_delete_l.
  - destruct Hmin as [->| ->]; [by rewrite lookup_delete_ne|by rewrite lookup_delete_eq].
  - by destruct Hmin as [->| ->].
  - rewrite <- Hjoin. apply join_once_tiling; [done|done| |unfold orders; lia].
    rewrite lookup_insert_ne by done. by apply lookup_union_Some_l.
  - apply lookup_delete_None. by right.
Qed.

(** The merged block starts at the freed block or at a free one. *)
Lemma merge_up_base fuel : forall F p o, (merge_up fuel F p o).1.2 = p \/ is_Some (F !! (merge_up fuel F p o).1.2).
Proof.
  induction fuel as [|fuel IH]; intros F p o; cbn [merge_up]; [by left|].
  case_decide; [|by left]. case_decide as Hb; [|by left].
  destruct (IH (delete (buddy_of p o) F) (Z.min p (buddy_of p o)) (S o)) as [->|[x Hx]].
  - destruct (Z.min_spec p (buddy_of p o)) as [[_ ->]|[_ ->]]; [by left|right; by eexists].
  - right. exists x. by apply lookup_delete_Some in Hx as [_ ?].
Qed.

(** Deallocation writes only to free blocks and to the start of the freed one. *)
Lemma dealloc_frame s F A ppn pages s' a :
  frames_ok s F A -> A !! (ppn * 4096) = Some (pages_to_order pages) -> dealloc s ppn pages = Done s' ->
  F !! a = None -> a <> ppn * 4096 -> read_pa (memory s') a = read_pa (memory s) a.
Proof.
  intros Hok HpA Heq Ha Hne. destruct (frames_ok_used_block _ _ _ _ _ Hok HpA) as (HpF & HFA & HpA' & HT).
  unfold dealloc in Heq.
  destruct (proj1 HT (ppn * 4096) (pages_to_order pages)) as (Ho & Hp0 & _ & Hend); [by rewrite lookup_insert_eq|].
  pose proof (bsize_pos (pages_to_order pages)).
  rewrite PhysAddr_from_PhysPageNum_mul in Heq by lia. rewrite block_size_eq in Heq by done.
  destruct (merge_buddies_refines (S MAX_ORDER) s F (delete (ppn * 4096) A) (ppn * 4096) (pages_to_order pages))
    as (s1 & Hm & _); try done; [apply Hok|unfold orders, MAX_ORDER; lia|lia|].
  cbv zeta in Heq. rewrite Hm in Heq. cbn [mbind outcome_bind] in Heq.
  assert (H1 : read_pa (memory s1) a = read_pa (memory s) a).
  { eapply (merge_buddies_frame (S MAX_ORDER) s F); [apply Hok|done..]. }
  rewrite <- H1. set (fin := (merge_up (S MAX_ORDER) F (ppn * 4096) (pages_to_order pages)).1.2) in *.
  assert (Hfin : fin = ppn * 4096 \/ is_Some (F !! fin)) by apply merge_up_base.
  eapply add_free_block_frame; [done| |].
  - destruct Hfin as [->|[o Hfo]]; [unfold usize; lia|].
    assert (HTf : (F ∪ A) !! fin = Some o) by (by apply lookup_union_Some_l).
    destruct (proj1 (fo_tiling _ _ _ Hok) _ _ HTf) as (_ & ? & _ & ?). pose proof (bsize_pos o). unfold usize. lia.
  - intros ->. destruct Hfin as [|[o Hfo]]; [done|]. congruence.
Qed.

(** ** The interface *)

#[export] Instance buddy_frame_memory : FrameMemory Frames := {|
  fm_read := fun s a => read_pa (memory s) a;
  fm_write := fun s a v => mkFrames (write_pa (memory s) a v) (buddy s);
|}.

(** Addresses of blocks in use are not covered by free blocks. *)
Lemma used_not_free s F B a :
  frames_ok s F (blocks_of B) -> (forall p n, B !! p = Some n -> 1 <= n < USIZE) -> in_blocks B a -> ~ covered F a.
Proof.
  intros Hok HB (ppn & n & Hp & Ha) (q & o & Hq & Hc).
  assert (HA : blocks_of B !! (ppn * 4096) = Some (pages_to_order n)) by (by rewrite blocks_of_lookup, Hp).
  assert (HT1 : (F ∪ blocks_of B) !! (ppn * 4096) = Some (pages_to_order n))
    by (apply lookup_union_Some_r; [apply Hok|done]).
  assert (HT2 : (F ∪ blocks_of B) !! q = Some o) by (by apply lookup_union_Some_l).
  destruct (fo_tiling _ _ _ Hok) as [Hb Hd]. destruct (Hb _ _ HT1) as (Ho & _).
  destruct (pages_to_order_lt n (HB _ _ Hp) Ho) as [_ Hle].
  assert (Hne : q <> ppn * 4096).
  { intros ->. pose proof (map_disjoint_Some_l _ _ _ _ (fo_disjoint _ _ _ Hok) Hq) as Hn. congruence. }
  destruct (Hd _ _ _ _ HT2 HT1 Hne) as [Hx|Hx]; [lia|]. rewrite bsize_pages in Hx. lia.
Qed.

Lemma not_covered_node s F A a : frames_ok s F A -> ~ covered F a -> F !! a = None.
Proof.
  intros Hok Hc. destruct (F !! a) as [o|] eqn:Ha; [|done]. destruct Hc. exists a, o. pose proof (bsize_pos o).
  split; [done|lia].
Qed.

(** Writing outside of the free blocks keeps the lists. *)
Lemma write_frames_ok s F A a v :
  frames_ok s F A -> F !! a = None -> frames_ok (mkFrames (write_pa (memory s) a v) (buddy s)) F A.
Proof.
  intros [(Hlen & Hl & Hr) Hd Ht Hc] Ha. split; try done. split_and!; try done. cbn [buddy memory] in *.
  intros o Ho. destruct (Hl o Ho) as (h & l & Hh & Hch & Hnd & Hin). exists h, l. split_and!; try done.
  apply chain_write; [|done]. rewrite Hin. congruence.
Qed.

Lemma owns_in_write P s B a v : owns_in P s B -> in_blocks B a -> owns_in P (mkFrames (write_pa (memory s) a v) (buddy s)) B.
Proof.
  intros [(F & Hok & HdF & HdB) HB] Ha. split; [|done]. exists F. split; [|done].
  apply write_frames_ok; [done|]. eapply not_covered_node; [done|]. by eapply used_not_free.
Qed.

#[export] Instance buddy_frame_memory_laws : FrameMemoryLaws Frames.
Proof.
  split; cbn [fm_read fm_write buddy_frame_memory fa_alloc fa_dealloc fa_owns buddy_frame_allocator memory].
  - intros. apply read_write_same.
  - intros. by apply read_write_other.
  - intros s B a v. apply owns_in_write.
  - intros s B pages r s' a [(F & Hok & _) HB] Heq Ha. eapply alloc_frame; [done|done|]. by eapply used_not_free.
  - intros s B ppn pages s' a [(F & Hok & Hdm) HB] Hp Heq Ha.
    assert (HBa : in_blocks B a).
    { destruct Ha as (q & n & [_ Hq]%lookup_delete_Some & Hx). by exists q, n. }
    eapply (dealloc_frame s F (blocks_of B)); [done|by rewrite blocks_of_lookup, Hp|done| |].
    + eapply not_covered_node; [done|]. by eapply used_not_free.
    + intros ->. destruct Ha as (q & n & [Hne Hq]%lookup_delete_Some & Hx).
      pose proof (fa_owned_disjoint s B q n ppn pages) as Hdis.
      cbn [fa_owns buddy_frame_allocator] in Hdis. pose proof (HB _ _ Hp). pose proof (HB _ _ Hq).
      destruct Hdis; [split; [by exists F|done]|done|done|done|lia|lia].
Qed.

#[export] Instance buddy_frame_bounds_laws : FrameBoundsLaws Frames.
Proof.
  split; cbn [fa_within buddy_frame_bounds fa_owns buddy_frame_allocator fa_alloc fa_dealloc fm_write buddy_frame_memory].
  - intros s B lo hi [Hs Hhi]. revert Hs. apply owns_in_mono. intros a. cbv beta. lia.
  - intros s B lo hi pages [Hs Hhi] Hp. destruct (owns_in_alloc _ s B pages Hs Hp) as (r & s' & Heq & Hr).
    exists r, s'. split; [exact Heq|]. destruct r as [ppn|]; [|by split].
    destruct Hr as (? & Hfirst & Hlast & ? & ?). cbv beta in Hfirst, Hlast. split_and!; [lia|lia|done|done|done].
  - intros s B lo hi ppn pages [Hs Hhi] Hp. destruct (owns_in_dealloc _ s B ppn pages Hs Hp) as (s' & Heq & Hs').
    exists s'. by split.
  - intros s B lo hi a v [Hs Hhi] Ha. split; [by apply owns_in_write|done].
Qed.
