(* ===== verification/PageTable.v ===== *)
(** * Page tables

    Models [src/mm/pagetable.rs] and [src/mm/bump.rs]. A page table is 512 words of
    physical memory; a [&mut PageTable] or [&mut [PageTableEntry; 512]] is
    represented by the physical address it refers to, a [&mut PageTableEntry] by the
    address of its word. The code follows table pointers in two ways: the [bump_*]
    functions that create tables at boot use the physical address itself as a
    pointer, the others go through [phys_to_virt], so the address referred to is
    [virt_to_phys] of the pointer.

    The [for i in 0..target_level] loops are structural recursions on the number of
    iterations left, so no fuel is involved. *)

From S2P Require Import Prelude Address Memory Memblock Buddy.

(** ** Flags and entries *)

Module PTEFlags.
Definition V : Z := Z.shiftl 1 0.
Definition R : Z := Z.shiftl 1 1.
Definition W : Z := Z.shiftl 1 2.
Definition X : Z := Z.shiftl 1 3.
Definition U : Z := Z.shiftl 1 4.
Definition G : Z := Z.shiftl 1 5.
Definition A : Z := Z.shiftl 1 6.
Definition D : Z := Z.shiftl 1 7.
End PTEFlags.

(** [flags.contains(f)] of a [bitflags] type. *)
Definition contains (flags f : Z) : bool := Z.land flags f =? f.

Inductive PageSize := FourKB | TwoMB | OneGB.

Abbreviation PageTableEntry := Z.

Definition PTE_new (ppn : PhysPageNum) (flags : Z) : PageTableEntry := Z.lor (wshl ppn 10) flags.
Definition PTE_is_valid (bits : PageTableEntry) : bool := negb (Z.land bits PTEFlags.V =? 0).
Definition PTE_ppn (bits : PageTableEntry) : PhysPageNum :=
  Z.land (wshr bits 10) (wshl 1 PPN_WIDTH_SV39 ⊟ 1).
(** All eight bits of the [u8] are flags, so truncation keeps them all. *)
Definition PTE_flags (bits : PageTableEntry) : Z := Z.land bits 255.
Definition PTE_empty : PageTableEntry := 0.

(** The entry is a leaf: it has a permission to read, write or execute. *)
Definition PTE_has_rwx (bits : PageTableEntry) : bool :=
  contains (PTE_flags bits) PTEFlags.R || contains (PTE_flags bits) PTEFlags.W
  || contains (PTE_flags bits) PTEFlags.X.

(** [&mut entries[index]] of an array of 512 entries. *)
Definition entry_ptr (entries idx : Z) : outcome Z :=
  if idx <? 512 then Done (entries ⊞ 8 ⊠ idx) else panic "index out of bounds".

Definition target_level (page_size : PageSize) : nat :=
  match page_size with OneGB => 1 | TwoMB => 2 | FourKB => 3 end.

(** The contents of a fresh [PageTable]. *)
Definition PageTable_new : list PageTableEntry := replicate 512 PTE_empty.

(** ** Frames *)

(** [FrameTracker::new] clears the frame; dropping the tracker frees it. *)
Definition FrameTracker_new (s : Frames) (ppn : PhysPageNum) : PhysPageNum * Frames :=
  let va := phys_to_virt (PhysAddr_from_PhysPageNum ppn) in
  (ppn, mkFrames (zero_page (memory s) (virt_to_phys va)) (buddy s)).
Definition FrameTracker_drop (s : Frames) (ppn : PhysPageNum) : outcome Frames := Buddy.dealloc s ppn 1.

(** ** The bump allocator *)

Record BumpAllocator := mkBump { bump_start : PhysPageNum; bump_current : PhysPageNum; bump_end : PhysPageNum }.

Definition BumpAllocator_new (start end_ : Z) : BumpAllocator :=
  mkBump (PhysAddr_ceil start) (PhysAddr_ceil start) (PhysAddr_floor end_).

Definition alloc_page (b : BumpAllocator) (m : Memory) : option PhysPageNum * BumpAllocator * Memory :=
  if bump_current b <? bump_end b then
    let current := bump_current b in
    let pa := PhysAddr_from_PhysPageNum current in
    (Some current, mkBump (bump_start b) (bump_current b ⊞ 1) (bump_end b), zero_page m pa)
  else (None, b, m).

(** ** Tables at boot: memory comes from [MEMBLOCK] *)

Record BootMem := mkBootMem { bm_memory : Memory; bm_memblock : Memblock }.

Fixpoint bump_find_loop (n i target : nat) (m : Memory) (entries : Z) (idxs : list Z)
    : outcome (option Z) :=
  match n with
  | O => Done None
  | S n =>
      idx ← index idxs i;
      pte ← entry_ptr entries idx;
      if decide (i = target - 1)%nat then Done (Some pte)
      else
        let bits := read_pa m pte in
        if negb (PTE_is_valid bits) then Done None
        else if PTE_has_rwx bits then Done None
        else
          let virt_addr := phys_to_virt (PhysAddr_from_PhysPageNum (PTE_ppn bits)) in
          bump_find_loop n (S i) target m (virt_to_phys virt_addr) idxs
  end.

Definition bump_find_pte (m : Memory) (self : Z) (vpn : VirtPageNum) (page_size : PageSize)
    : outcome (option Z) :=
  bump_find_loop (target_level page_size) 0 (target_level page_size) m self (indices vpn).

(** A next-level table from [early_alloc], cleared. *)
Definition new_boot_table (b : BootMem) : outcome (PhysPageNum * BootMem) :=
  '(allocated_addr, mb) ← early_alloc (bm_memblock b) PAGE_SIZE PAGE_SIZE;
  allocated_addr ← unwrap "called `Option::unwrap()` on a `None` value" allocated_addr;
  let m := zero_page (bm_memory b) allocated_addr in
  ppn ← PhysPageNum_from_PhysAddr allocated_addr;
  Done (ppn, mkBootMem m mb).

Fixpoint bump_create_loop (n i target : nat) (b : BootMem) (entries : Z) (idxs : list Z)
    : outcome (option Z * BootMem) :=
  match n with
  | O => Done (None, b)
  | S n =>
      idx ← index idxs i;
      pte ← entry_ptr entries idx;
      if decide (i = target - 1)%nat then Done (Some pte, b)
      else
        b ← (if negb (PTE_is_valid (read_pa (bm_memory b) pte)) then
               '(ppn, b) ← new_boot_table b;
               Done (mkBootMem (write_pa (bm_memory b) pte (PTE_new ppn PTEFlags.V)) (bm_memblock b))
             else if PTE_has_rwx (read_pa (bm_memory b) pte) then
               panic "FATAL: Tried to map a small page inside an existing large page"
             else Done b);
        let phys_addr := PhysAddr_from_PhysPageNum (PTE_ppn (read_pa (bm_memory b) pte)) in
        bump_create_loop n (S i) target b phys_addr idxs
  end.

Definition bump_find_create_pte (b : BootMem) (self : Z) (vpn : VirtPageNum) (page_size : PageSize)
    : outcome (option Z * BootMem) :=
  bump_create_loop (target_level page_size) 0 (target_level page_size) b self (indices vpn).

Definition bump_map (b : BootMem) (self : Z) (vpn : VirtPageNum) (ppn : PhysPageNum) (flags : Z)
    (size : PageSize) : outcome BootMem :=
  '(pte, b) ← bump_find_create_pte b self vpn size;
  pte ← unwrap "called `Option::unwrap()` on a `None` value" pte;
  _ ← assert "vpn is mapped before mapping" (negb (PTE_is_valid (read_pa (bm_memory b) pte)));
  Done (mkBootMem (write_pa (bm_memory b) pte (PTE_new ppn (Z.lor flags PTEFlags.V))) (bm_memblock b)).

(** [unmap] clears the entry and flushes the translations of one address, which is
    returned with the memory. *)
Definition unmap (m : Memory) (self : Z) (vpn : VirtPageNum) (size : PageSize)
    : outcome (Memory * VirtAddr) :=
  pte ← bump_find_pte m self vpn size;
  pte ← unwrap "called `Option::unwrap()` on a `None` value" pte;
  _ ← assert "vpn is must be valid before unmapping" (PTE_is_valid (read_pa m pte));
  Done (write_pa m pte PTE_empty, VirtAddr_from_VirtPageNum vpn).

(** ** Tables after boot: memory comes from the buddy allocator *)

Fixpoint find_loop (n i : nat) (m : Memory) (entries : Z) (idxs : list Z) : outcome (option Z) :=
  match n with
  | O => Done None
  | S n =>
      idx ← index idxs i;
      pte ← entry_ptr entries idx;
      if decide (i = 2)%nat then Done (Some pte)
      else
        let bits := read_pa m pte in
        if negb (PTE_is_valid bits) then Done None
        else
          let virt_addr := phys_to_virt (PhysAddr_from_PhysPageNum (PTE_ppn bits)) in
          find_loop n (S i) m (virt_to_phys virt_addr) idxs
  end.

Definition find_pte (m : Memory) (self : Z) (vpn : VirtPageNum) : outcome (option Z) :=
  find_loop 3 0 m self (indices vpn).

(** [frames] is the vector of frame trackers, by page number. *)
Fixpoint find_create_loop (n i : nat) (s : Frames) (frames : list PhysPageNum) (entries : Z)
    (idxs : list Z) : outcome (option Z * Frames * list PhysPageNum) :=
  match n with
  | O => Done (None, s, frames)
  | S n =>
      idx ← index idxs i;
      pte ← entry_ptr entries idx;
      if decide (i = 2)%nat then Done (Some pte, s, frames)
      else
        '(s, frames) ←
          (if negb (PTE_is_valid (read_pa (memory s) pte)) then
             '(ppn, s) ← Buddy.alloc s 1;
             ppn ← unwrap "called `Option::unwrap()` on a `None` value" ppn;
             Done (mkFrames (write_pa (memory s) pte (PTE_new ppn PTEFlags.V)) (buddy s), frames ++ [ppn])
           else Done (s, frames));
        let virt_addr := phys_to_virt (PhysAddr_from_PhysPageNum (PTE_ppn (read_pa (memory s) pte))) in
        find_create_loop n (S i) s frames (virt_to_phys virt_addr) idxs
  end.

Definition find_create_pte (s : Frames) (self : Z) (vpn : VirtPageNum) (frames : list PhysPageNum)
    : outcome (option Z * Frames * list PhysPageNum) :=
  find_create_loop 3 0 s frames self (indices vpn).

Definition PageTable_map (s : Frames) (self : Z) (vpn : VirtPageNum) (ppn : PhysPageNum) (flags : Z)
    (frames : list PhysPageNum) : outcome (Frames * list PhysPageNum) :=
  '(pte, s, frames) ← find_create_pte s self vpn frames;
  pte ← unwrap "called `Option::unwrap()` on a `None` value" pte;
  _ ← assert "vpn is mapped before mapping" (negb (PTE_is_valid (read_pa (memory s) pte)));
  Done (mkFrames (write_pa (memory s) pte (PTE_new ppn (Z.lor flags PTEFlags.V))) (buddy s), frames).
