(* ===== verification/MmSet.v ===== *)
(** * Memory sets

    The declarations of [src/mm/mm_set.rs]: address spaces as a page table and the areas mapped in it. No operation
    on them is implemented, so there is nothing to prove but that the permissions fit the page table. *)

From S2P Require Import Prelude Address Memory PageTable.

(** [bitflags! MapPermission: u8] *)
Module MapPermission.
Definition R : Z := Z.shiftl 1 1.
Definition W : Z := Z.shiftl 1 2.
Definition X : Z := Z.shiftl 1 3.
Definition U : Z := Z.shiftl 1 4.
End MapPermission.

Inductive MapType := Linear | Framed.

#[export] Instance MapType_eq_dec : EqDecision MapType.
Proof. solve_decision. Defined.

Record MapArea := mkMapArea { vpn_range : VPNRange; map_type : MapType; map_perm : Z }.

(** [page_table]: the root table, by its physical address. *)
Record MemorySet := mkMemorySet { page_table : Z; areas : list MapArea }.

(** The permissions of an area are flags of a page table entry, at the same bits; all of them fit a byte, and none makes the entry valid. *)
Lemma MapPermission_flags :
  MapPermission.R = PTEFlags.R /\ MapPermission.W = PTEFlags.W /\ MapPermission.X = PTEFlags.X /\ MapPermission.U = PTEFlags.U /\
  Z.land (Z.lor (Z.lor MapPermission.R MapPermission.W) (Z.lor MapPermission.X MapPermission.U)) PTEFlags.V = 0.
Proof. done. Qed.
