(* ===== verification/PageTree.v ===== *)
(** * Page tables as trees

    The meaning of a page table is what the processor does with it:
    [sv39_translate] is the address translation of the Sv39 scheme (RISC-V privileged
    architecture, section on Sv39). A page table is a tree: [table_at] follows a path of indices
    to a table, and [pt_ok] says that distinct paths reach distinct pages. Under
    this invariant linking an empty table changes no translation and writing a leaf
    changes exactly the translations below it. *)

From S2P Require Import Prelude Address Memory Memblock Buddy PageTable.

(** ** Entries *)

Lemma PTE_ppn_eq bits : PTE_ppn bits = bits / 2 ^ 10 mod 2 ^ 44.
Proof.
  unfold PTE_ppn. change (wshl 1 PPN_WIDTH_SV39 ⊟ 1) with (2 ^ 44 - 1).
  by rewrite land_low_mask, wshr_div by lia.
Qed.

Lemma PTE_flags_eq bits : PTE_flags bits = bits mod 256.
Proof. apply (land_low_mask bits 8). lia. Qed.

Lemma PTE_is_valid_eq bits : PTE_is_valid bits = Z.testbit bits 0.
Proof. unfold PTE_is_valid. change PTEFlags.V with (2 ^ 0). by rewrite land_pow2_test, negb_involutive. Qed.

Lemma contains_pow2 flags k : 0 <= k -> contains flags (2 ^ k) = Z.testbit flags k.
Proof.
  intros Hk. unfold contains. pose proof (land_pow2_test flags k Hk) as Ht.
  destruct (Z.testbit flags k) eqn:Hb.
  - apply Z.eqb_eq, Z.bits_inj'. intros i Hi. rewrite Z.land_spec, Z.pow2_bits_eqb by lia.
    destruct (Z.eqb_spec k i) as [<-|]; [by rewrite Hb|by rewrite andb_false_r].
  - cbn in Ht. apply Z.eqb_eq in Ht. rewrite Ht. apply Z.eqb_neq. pose proof (pow2_pos k Hk). lia.
Qed.

Lemma PTE_has_rwx_eq bits :
  PTE_has_rwx bits = Z.testbit bits 1 || Z.testbit bits 2 || Z.testbit bits 3.
Proof.
  unfold PTE_has_rwx. change PTEFlags.R with (2 ^ 1). change PTEFlags.W with (2 ^ 2).
  change PTEFlags.X with (2 ^ 3). rewrite !contains_pow2 by lia. rewrite PTE_flags_eq.
  change 256 with (2 ^ 8). by rewrite !Z.mod_pow2_bits_low by lia.
Qed.

Lemma lor_disjoint a b k : 0 <= k -> 0 <= b < 2 ^ k -> Z.lor (a * 2 ^ k) b = a * 2 ^ k + b.
Proof.
  intros Hk Hb. rewrite <- Z.shiftl_mul_pow2 by lia.
  assert (Hl : Z.land (Z.shiftl a k) b = 0).
  { apply Z.bits_inj'. intros i Hi. rewrite Z.land_spec, Z.bits_0, Z.shiftl_spec by lia.
    destruct (Z.lt_ge_cases i k).
    - by rewrite Z.testbit_neg_r by lia.
    - rewrite (testbit_high b k i) by lia. apply andb_false_r. }
  rewrite <- Z.lxor_lor by done. symmetry. by apply Z.add_nocarry_lxor.
Qed.

Lemma PTE_new_eq ppn flags :
  0 <= ppn < 2 ^ 44 -> 0 <= flags < 256 -> PTE_new ppn flags = ppn * 2 ^ 10 + flags.
Proof. intros Hp Hf. unfold PTE_new. rewrite wshl_small by lia. apply lor_disjoint; lia. Qed.

(** An entry gives back the page number and the flags it was made of. *)
Lemma PTE_ppn_new ppn flags : 0 <= ppn < 2 ^ 44 -> 0 <= flags < 256 -> PTE_ppn (PTE_new ppn flags) = ppn.
Proof.
  intros. rewrite PTE_new_eq, PTE_ppn_eq by done. rewrite Z.div_add_l, (Z.div_small flags) by lia.
  rewrite Z.mod_small; lia.
Qed.

Lemma PTE_flags_new ppn flags : 0 <= ppn < 2 ^ 44 -> 0 <= flags < 256 -> PTE_flags (PTE_new ppn flags) = flags.
Proof.
  intros. rewrite PTE_new_eq, PTE_flags_eq by done.
  replace (ppn * 2 ^ 10 + flags) with (flags + ppn * 4 * 256) by lia. rewrite Z.mod_add, Z.mod_small; lia.
Qed.

(** The low bits of an entry are those of its flags. *)
Lemma PTE_testbit bits k : 0 <= k < 8 -> Z.testbit bits k = Z.testbit (PTE_flags bits) k.
Proof. intros. rewrite PTE_flags_eq. change 256 with (2 ^ 8). by rewrite Z.mod_pow2_bits_low by lia. Qed.

(** Flags of a leaf: some permission. *)
Definition flags_rwx (flags : Z) : bool := Z.testbit flags 1 || Z.testbit flags 2 || Z.testbit flags 3.

Lemma PTE_new_valid ppn flags :
  0 <= ppn < 2 ^ 44 -> 0 <= flags < 256 -> PTE_is_valid (PTE_new ppn flags) = Z.testbit flags 0.
Proof. intros. rewrite PTE_is_valid_eq, PTE_testbit by lia. by rewrite PTE_flags_new. Qed.

Lemma PTE_new_rwx ppn flags :
  0 <= ppn < 2 ^ 44 -> 0 <= flags < 256 -> PTE_has_rwx (PTE_new ppn flags) = flags_rwx flags.
Proof.
  intros. rewrite PTE_has_rwx_eq, (PTE_testbit _ 1), (PTE_testbit _ 2), (PTE_testbit _ 3) by lia.
  by rewrite PTE_flags_new.
Qed.

(** The entry points to a table of the next level. *)
Definition is_table (bits : Z) : bool := PTE_is_valid bits && negb (PTE_has_rwx bits).

Lemma is_table_empty : is_table 0 = false.
Proof. reflexivity. Qed.

Lemma is_table_new ppn : 0 <= ppn < 2 ^ 44 -> is_table (PTE_new ppn PTEFlags.V) = true.
Proof. intros. unfold is_table. by rewrite PTE_new_valid, PTE_new_rwx by (done || by split). Qed.

(** ** Address translation *)

(** The walk of the Sv39 scheme from a table of level [n - 1]: an invalid entry, a writable
    entry that is not readable, and a misaligned superpage fault. *)
Fixpoint sv39_walk (n : nat) (m : Memory) (table va : Z) : option (Z * Z) :=
  match n with
  | O => None
  | S level =>
      let l := Z.of_nat level in
      let bits := read_pa m (table + 8 * (va / 2 ^ (12 + 9 * l) mod 512)) in
      if negb (PTE_is_valid bits) then None
      else if is_table bits then sv39_walk level m (PTE_ppn bits * 4096) va
      else if Z.testbit bits 2 && negb (Z.testbit bits 1) then None
      else if PTE_ppn bits mod 2 ^ (9 * l) =? 0
      then Some (PTE_ppn bits * 4096 + va mod 2 ^ (12 + 9 * l), PTE_flags bits)
      else None
  end.

(** The physical address and the flags a virtual address is translated to; a non-canonical address faults. *)
Definition sv39_translate (m : Memory) (root va : Z) : option (Z * Z) :=
  if VirtAddr_from_usize va =? va then sv39_walk 3 m root va else None.

(** ** The tree of tables *)

(** Zeroed pages. *)
Lemma zero_words_read m pa a l :
  read_pa (foldr (fun i m => write_pa m (pa + 8 * i) 0) m l) a =
  if existsb (fun i => pa + 8 * i =? a) l then 0 else read_pa m a.
Proof.
  induction l as [|i l IH]; cbn [foldr existsb]; [done|].
  destruct (Z.eqb_spec (pa + 8 * i) a) as [<-|Hne]; cbn [orb]; [apply read_write_same|].
  by rewrite read_write_other by done.
Qed.

Lemma zero_page_in m pa i : 0 <= i < 512 -> read_pa (zero_page m pa) (pa + 8 * i) = 0.
Proof.
  intros Hi. unfold zero_page. rewrite zero_words_read.
  replace (existsb _ _) with true; [done|]. symmetry. apply existsb_exists.
  exists i. rewrite <- list_elem_of_In, elem_of_seqZ, Z.eqb_refl. split; [lia|done].
Qed.

Lemma zero_page_out m pa a :
  (forall i, 0 <= i < 512 -> a <> pa + 8 * i) -> read_pa (zero_page m pa) a = read_pa m a.
Proof.
  intros Ha. unfold zero_page. rewrite zero_words_read.
  replace (existsb _ _) with false; [done|]. symmetry. apply not_true_is_false.
  intros (i & Hi & Heq)%existsb_exists. rewrite <- list_elem_of_In, elem_of_seqZ in Hi.
  apply Z.eqb_eq in Heq. apply (Ha i); lia.
Qed.

(** The table reached from [table] along a path of indices. *)
Fixpoint table_at (m : Memory) (table : Z) (path : list Z) : option Z :=
  match path with
  | [] => Some table
  | i :: path =>
      let bits := read_pa m (table + 8 * i) in
      if is_table bits then table_at m (PTE_ppn bits * 4096) path else None
  end.

(** The first entry along a path that is not a table, with the rest of the path. *)
Fixpoint leaf_walk (m : Memory) (table : Z) (path : list Z) : option (list Z * Z) :=
  match path with
  | [] => None
  | i :: path =>
      let bits := read_pa m (table + 8 * i) in
      if is_table bits then leaf_walk m (PTE_ppn bits * 4096) path
      else if PTE_is_valid bits then Some (path, bits) else None
  end.

Lemma table_at_snoc m table p i :
  table_at m table (p ++ [i]) =
  (t ← table_at m table p;
   if is_table (read_pa m (t + 8 * i)) then Some (PTE_ppn (read_pa m (t + 8 * i)) * 4096) else None).
Proof. revert table. induction p as [|j p IH]; intros table; cbn; [done|]. case_match; [apply IH|done]. Qed.

Lemma table_at_app m table p r :
  table_at m table (p ++ r) = (t ← table_at m table p; table_at m t r).
Proof. revert table. induction p as [|j p IH]; intros table; cbn; [done|]. case_match; [apply IH|done]. Qed.

Lemma leaf_walk_app m table p t r :
  table_at m table p = Some t -> leaf_walk m table (p ++ r) = leaf_walk m t r.
Proof.
  revert table. induction p as [|j p IH]; intros table; cbn; [by intros [= ->]|].
  case_match; [apply IH|done].
Qed.

(** Translation is decided by the leaf on the path of the address. *)
Definition va_path (va : Z) : list Z := [va / 2 ^ 30 mod 512; va / 2 ^ 21 mod 512; va / 2 ^ 12 mod 512].

Definition leaf_translate (va : Z) (leaf : list Z * Z) : option (Z * Z) :=
  let '(rest, bits) := leaf in
  let l := Z.of_nat (length rest) in
  if Z.testbit bits 2 && negb (Z.testbit bits 1) then None
  else if PTE_ppn bits mod 2 ^ (9 * l) =? 0
  then Some (PTE_ppn bits * 4096 + va mod 2 ^ (12 + 9 * l), PTE_flags bits)
  else None.

Lemma sv39_walk_leaf m root va : sv39_walk 3 m root va = leaf_walk m root (va_path va) ≫= leaf_translate va.
Proof.
  unfold va_path. cbn [sv39_walk leaf_walk].
  change (12 + 9 * Z.of_nat 2) with 30. change (12 + 9 * Z.of_nat 1) with 21. change (12 + 9 * Z.of_nat 0) with 12.
  assert (Hv : forall e, is_table e = true -> PTE_is_valid e = true) by (intros e; unfold is_table; by destruct (PTE_is_valid e)).
  repeat match goal with
  | |- context [if negb (PTE_is_valid ?e) then _ else _] =>
      let H := fresh in destruct (is_table e) eqn:H; [rewrite (Hv e H); cbn [negb]|destruct (PTE_is_valid e); cbn [negb]; try reflexivity]
  end; try reflexivity.
Qed.

(** Valid paths lead to a table of one of the three levels. *)
Definition valid_path (p : list Z) : Prop := Forall (fun i => 0 <= i < 512) p /\ (length p <= 2)%nat.

(** The pages in [owned] hold the tables; every table is a page of its own. *)
Record pt_ok (owned : Z -> Prop) (m : Memory) (root : Z) : Prop := {
  pt_page p t : valid_path p -> table_at m root p = Some t ->
    owned t /\ (4096 | t) /\ 0 <= t < 2 ^ 56;
  pt_inj p q t : valid_path p -> valid_path q ->
    table_at m root p = Some t -> table_at m root q = Some t -> p = q
}.

Lemma valid_path_nil : valid_path [].
Proof. split; [constructor|cbn; lia]. Qed.

Lemma valid_path_snoc p i : valid_path (p ++ [i]) <-> valid_path p /\ 0 <= i < 512 /\ (length p <= 1)%nat.
Proof.
  unfold valid_path. rewrite Forall_app, Forall_singleton, length_app. cbn [length]. split; intros; split_and!; naive_solver lia.
Qed.

(** Entries of two tables coincide only if table and index do. *)
Lemma entry_inj t u i j :
  (4096 | t) -> (4096 | u) -> 0 <= i < 512 -> 0 <= j < 512 -> t + 8 * i = u + 8 * j -> t = u /\ i = j.
Proof. intros [a ->] [b ->] Hi Hj Heq. lia. Qed.

Lemma pt_ok_root owned m root : pt_ok owned m root -> owned root /\ (4096 | root) /\ 0 <= root < 2 ^ 56.
Proof. intros Hok. by apply (pt_page _ _ _ Hok []); [apply valid_path_nil|]. Qed.

(** The entry for a table at page address [n]. *)
Lemma link_ppn n : (4096 | n) -> 0 <= n < 2 ^ 56 -> PTE_ppn (PTE_new (n / 4096) PTEFlags.V) * 4096 = n.
Proof.
  intros [c ->] Hn. rewrite Z.div_mul by lia. by rewrite PTE_ppn_new by (lia || by split).
Qed.

Lemma link_is_table n : 0 <= n < 2 ^ 56 -> is_table (PTE_new (n / 4096) PTEFlags.V) = true.
Proof. intros. apply is_table_new. split; [apply Z.div_pos; lia|apply Z.div_lt_upper_bound; lia]. Qed.

(** A cleared root page is an empty table. *)
Lemma pt_ok_empty (owned : Z -> Prop) m root :
  (forall j, 0 <= j < 512 -> read_pa m (root + 8 * j) = 0) ->
  owned root -> (4096 | root) -> 0 <= root < 2 ^ 56 -> pt_ok owned m root.
Proof.
  intros Hz Ho Hd Hb.
  assert (Hnil : forall q u, valid_path q -> table_at m root q = Some u -> q = [] /\ u = root).
  { intros [|j q] u [HF _]; cbn [table_at]; [by intros [= <-]|].
    apply Forall_cons in HF as [Hj _]. by rewrite Hz. }
  split.
  - intros q u Hq [_ ->]%Hnil; done.
  - intros q r u Hq Hr [-> _]%Hnil [-> _]%Hnil; done.
Qed.

Definition index_ok (j : Z) : Prop := 0 <= j < 512.

(** The slot at the end of a path is free: nothing is mapped there. *)
Fixpoint slot_free (m : Memory) (table : Z) (path : list Z) (last : Z) : bool :=
  match path with
  | [] => negb (PTE_is_valid (read_pa m (table + 8 * last)))
  | i :: path =>
      let bits := read_pa m (table + 8 * i) in
      if PTE_is_valid bits then negb (PTE_has_rwx bits) && slot_free m (PTE_ppn bits * 4096) path last
      else true
  end.

Lemma slot_free_empty m n r l :
  (forall j, 0 <= j < 512 -> read_pa m (n + 8 * j) = 0) ->
  Forall (fun j => 0 <= j < 512) (r ++ [l]) -> slot_free m n r l = true.
Proof.
  intros Hz Hr. destruct r as [|j r]; cbn [slot_free app] in *; apply Forall_cons in Hr as [Hj _]; by rewrite Hz.
Qed.

(** *** Changing one entry *)

Section Entry.
Context (owned : Z -> Prop) (m : Memory) (root : Z) (Hok : pt_ok owned m root).
Context (p : list Z) (t i : Z).
Context (Hp : valid_path p) (Ht : table_at m root p = Some t) (Hi : 0 <= i < 512).

Lemma same_entry q u j :
  valid_path q -> table_at m root q = Some u -> 0 <= j < 512 -> u + 8 * j = t + 8 * i ->
  q = p /\ u = t /\ j = i.
Proof.
  intros Hq Hu Hj Heq. destruct (pt_page _ _ _ Hok p t Hp Ht) as (_ & Hdt & _).
  destruct (pt_page _ _ _ Hok q u Hq Hu) as (_ & Hdu & _).
  destruct (entry_inj u t j i) as [-> ->]; try done.
  split; [|done]. by apply (pt_inj _ _ _ Hok q p t).
Qed.

(** Writing an entry that is not, and does not become, a pointer to a table. *)
Section Leaf.
Context (e : Z) (Hold : is_table (read_pa m (t + 8 * i)) = false).
Context (Hnew : is_table e = false \/ length p = 2%nat).
Let m' : Memory := write_pa m (t + 8 * i) e.

Lemma leaf_table_at q : valid_path q -> table_at m' root q = table_at m root q.
Proof.
  induction q as [|j q IH] using rev_ind; [done|]. intros (Hq & Hj & Hl)%valid_path_snoc.
  rewrite !table_at_snoc, IH by done. destruct (table_at m root q) as [u|] eqn:Hu; [|done].
  cbn [mbind option_bind]. unfold m'. destruct (decide (t + 8 * i = u + 8 * j)) as [Heq|Hne].
  - destruct (same_entry q u j) as (-> & -> & ->); try done.
    rewrite read_write_same, Hold. destruct Hnew as [->|]; [done|lia].
  - by rewrite read_write_other.
Qed.

Lemma leaf_pt_ok : pt_ok owned m' root.
Proof.
  split.
  - intros q u Hq. rewrite leaf_table_at by done. by apply Hok.
  - intros q r u Hq Hr. rewrite !leaf_table_at by done. by apply Hok.
Qed.

Lemma leaf_walk_other q u r :
  valid_path q -> table_at m root q = Some u -> Forall (fun j => 0 <= j < 512) r ->
  (length q + length r = 3)%nat -> ~ (p ++ [i]) `prefix_of` (q ++ r) ->
  leaf_walk m' u r = leaf_walk m u r.
Proof.
  revert q u. induction r as [|j r IH]; intros q u Hq Hu Hr Hlen Hpre; cbn [leaf_walk]; [done|].
  apply Forall_cons in Hr as [Hj Hr]. cbn [length] in Hlen.
  assert (Hread : read_pa m' (u + 8 * j) = read_pa m (u + 8 * j)).
  { apply read_write_other. intros Heq. destruct (same_entry q u j) as (-> & _ & ->); try done.
    apply Hpre. exists r. by rewrite <- app_assoc. }
  rewrite Hread. destruct (is_table (read_pa m (u + 8 * j))) eqn:Htab; [|reflexivity].
  destruct r as [|k r]; [done|]. apply (IH (q ++ [j])); try done.
  - apply valid_path_snoc. cbn [length] in Hlen. split_and!; [done|lia..].
  - by rewrite table_at_snoc, Hu; cbn [mbind option_bind]; rewrite Htab.
  - rewrite length_app. cbn [length] in *. lia.
  - by rewrite <- app_assoc.
Qed.

Lemma leaf_slot_free q u r l :
  valid_path q -> table_at m root q = Some u -> Forall index_ok r -> index_ok l ->
  (length q + length r <= 2)%nat -> ~ (p ++ [i]) `prefix_of` (q ++ r ++ [l]) ->
  slot_free m' u r l = slot_free m u r l.
Proof.
  revert q u. induction r as [|j r IH]; intros q u Hq Hu Hr Hl Hlen Hpre; cbn [slot_free length] in *.
  - unfold m'. rewrite read_write_other; [done|]. intros Heq.
    destruct (same_entry q u l) as (-> & _ & ->); try done.
  - apply Forall_cons in Hr as [Hj Hr].
    assert (Hread : read_pa m' (u + 8 * j) = read_pa m (u + 8 * j)).
    { apply read_write_other. intros Heq. destruct (same_entry q u j) as (-> & _ & ->); try done.
      apply Hpre. exists (r ++ [l]). by rewrite <- app_assoc. }
    rewrite Hread. destruct (PTE_is_valid (read_pa m (u + 8 * j))) eqn:Hval; [|reflexivity].
    destruct (PTE_has_rwx (read_pa m (u + 8 * j))) eqn:Hrwx; [reflexivity|]. cbn [negb andb].
    apply (IH (q ++ [j])); try done.
    + apply valid_path_snoc. split_and!; [done|apply Hj..|lia].
    + rewrite table_at_snoc, Hu. cbn [mbind option_bind]. unfold is_table. by rewrite Hval, Hrwx.
    + rewrite length_app. cbn [length]. lia.
    + by rewrite <- app_assoc.
Qed.

(** Paths through the entry end there; all others are unchanged. *)
Lemma leaf_walk_write path :
  Forall (fun j => 0 <= j < 512) path -> length path = 3%nat ->
  leaf_walk m' root path =
  (if decide ((p ++ [i]) `prefix_of` path) then
     if is_table e then None else if PTE_is_valid e then Some (drop (S (length p)) path, e) else None
   else leaf_walk m root path).
Proof.
  intros Hr Hlen. case_decide as Hpre; [|by apply (leaf_walk_other []); [apply valid_path_nil|..]].
  destruct Hpre as [r ->]. rewrite <- app_assoc.
  rewrite (leaf_walk_app m' root p t) by (by rewrite leaf_table_at). cbn [app leaf_walk].
  unfold m'. rewrite read_write_same.
  replace (drop (S (length p)) (p ++ i :: r)) with r.
  - destruct (is_table e) eqn:He; [|done].
    destruct Hnew as [?|H2]; [congruence|].
    rewrite !length_app in Hlen. cbn [length] in Hlen. assert (length r = 0)%nat by lia.
    by destruct r.
  - change (i :: r) with ([i] ++ r). rewrite app_assoc, drop_app_length'; [done|].
    rewrite length_app. cbn. lia.
Qed.
End Leaf.

(** Linking a fresh, cleared page as a table. *)
Section Link.
Context (n : Z) (Hlp : (length p <= 1)%nat) (Hinv : PTE_is_valid (read_pa m (t + 8 * i)) = false).
Context (Hna : (4096 | n)) (Hnb : 0 <= n < 2 ^ 56).
Context (Hfresh : forall q u, valid_path q -> table_at m root q = Some u -> u <> n).
Let m' : Memory := write_pa (zero_page m n) (t + 8 * i) (PTE_new (n / 4096) PTEFlags.V).

Lemma link_read_entry : read_pa m' (t + 8 * i) = PTE_new (n / 4096) PTEFlags.V.
Proof. apply read_write_same. Qed.

Lemma link_read q u j :
  valid_path q -> table_at m root q = Some u -> 0 <= j < 512 -> u + 8 * j <> t + 8 * i ->
  read_pa m' (u + 8 * j) = read_pa m (u + 8 * j).
Proof.
  intros Hq Hu Hj Hne. unfold m'. rewrite read_write_other by done. apply zero_page_out.
  intros k Hk Heq. destruct (pt_page _ _ _ Hok q u Hq Hu) as (_ & Hdu & _).
  destruct (entry_inj u n j k) as [-> _]; try done. by apply (Hfresh q n).
Qed.

Lemma link_read_new j : 0 <= j < 512 -> read_pa m' (n + 8 * j) = 0.
Proof.
  intros Hj. unfold m'. rewrite read_write_other; [by apply zero_page_in|].
  intros Heq. destruct (pt_page _ _ _ Hok p t Hp Ht) as (_ & Hdt & _).
  destruct (entry_inj t n i j) as [-> _]; try done. by apply (Hfresh p n).
Qed.

Lemma link_table_at q u : valid_path q -> table_at m root q = Some u -> table_at m' root q = Some u.
Proof.
  revert u. induction q as [|j q IH] using rev_ind; [done|]. intros u (Hq & Hj & Hlen)%valid_path_snoc.
  rewrite !table_at_snoc. destruct (table_at m root q) as [v|] eqn:Hv; [|done].
  rewrite (IH v) by done. cbn [mbind option_bind].
  destruct (decide (v + 8 * j = t + 8 * i)) as [Heq|Hne]; [|by rewrite (link_read q v)].
  destruct (same_entry q v j) as (-> & -> & ->); try done. unfold is_table at 1. by rewrite Hinv.
Qed.

Lemma link_table_at_new : table_at m' root (p ++ [i]) = Some n.
Proof.
  rewrite table_at_snoc, (link_table_at p t) by done. cbn [mbind option_bind].
  by rewrite link_read_entry, link_is_table, link_ppn by done.
Qed.

Lemma link_table_at_inv q u :
  valid_path q -> table_at m' root q = Some u -> table_at m root q = Some u \/ q = p ++ [i] /\ u = n.
Proof.
  revert u. induction q as [|j q IH] using rev_ind; [by left|]. intros u (Hq & Hj & Hlen)%valid_path_snoc.
  rewrite !table_at_snoc. destruct (table_at m' root q) as [v|] eqn:Hv; [|done]. cbn [mbind option_bind].
  destruct (IH v Hq eq_refl) as [Hmv|[-> ->]].
  - rewrite Hmv. cbn [mbind option_bind]. destruct (decide (v + 8 * j = t + 8 * i)) as [Heq|Hne].
    + destruct (same_entry q v j) as (-> & -> & ->); try done.
      rewrite link_read_entry, link_is_table, link_ppn by done. intros [= <-]. by right.
    + rewrite (link_read q v) by done. by left.
  - by rewrite link_read_new.
Qed.

Lemma link_pt_ok (owned' : Z -> Prop) : (forall a, owned a -> owned' a) -> owned' n -> pt_ok owned' m' root.
Proof.
  intros Hmono Hn. split.
  - intros q u Hq [Hu|[-> ->]]%link_table_at_inv; [|done|done].
    destruct (pt_page _ _ _ Hok q u Hq Hu) as (? & ? & ?). auto.
  - intros q r u Hq Hr Hu Hv. apply link_table_at_inv in Hu, Hv; try done.
    destruct Hu as [Hu|[-> ->]], Hv as [Hv|[-> Heq]]; [by apply (pt_inj _ _ _ Hok q r u)| | |done].
    + subst u. by destruct (Hfresh q n).
    + by destruct (Hfresh r n).
Qed.

Lemma link_leaf_walk_sub q u r :
  valid_path q -> table_at m root q = Some u -> Forall (fun j => 0 <= j < 512) r ->
  (length q + length r = 3)%nat -> leaf_walk m' u r = leaf_walk m u r.
Proof.
  revert q u. induction r as [|j r IH]; intros q u Hq Hu Hr Hlen; cbn [leaf_walk]; [done|].
  apply Forall_cons in Hr as [Hj Hr]. cbn [length] in Hlen.
  destruct (decide (u + 8 * j = t + 8 * i)) as [Heq|Hne].
  - destruct (same_entry q u j) as (-> & -> & ->); try done.
    rewrite link_read_entry, link_is_table, link_ppn by done. unfold is_table. rewrite Hinv. cbn [andb].
    destruct r as [|k r]; [done|]. apply Forall_cons in Hr as [Hk _]. cbn [leaf_walk]. by rewrite link_read_new.
  - rewrite (link_read q u) by done. destruct (is_table _) eqn:Htab; [|done].
    destruct r as [|k r]; [done|]. apply (IH (q ++ [j])); try done.
    + apply valid_path_snoc. cbn [length] in Hlen. split_and!; [done|lia..].
    + by rewrite table_at_snoc, Hu; cbn [mbind option_bind]; rewrite Htab.
    + rewrite length_app. cbn [length] in *. lia.
Qed.

Lemma link_slot_free q u r l :
  valid_path q -> table_at m root q = Some u -> Forall index_ok r -> index_ok l ->
  (length q + length r <= 2)%nat -> p ++ [i] <> q ++ r ++ [l] ->
  slot_free m' u r l = slot_free m u r l.
Proof.
  revert q u. induction r as [|j r IH]; intros q u Hq Hu Hr Hl Hlen Hne; cbn [slot_free length] in *.
  - rewrite (link_read q u); [done..|]. intros Heq.
    destruct (same_entry q u l) as (-> & _ & ->); try done.
  - apply Forall_cons in Hr as [Hj Hr].
    destruct (decide (u + 8 * j = t + 8 * i)) as [Heq|Hdiff].
    + destruct (same_entry q u j) as (-> & -> & ->); try done.
      rewrite link_read_entry, Hinv. pose proof (link_is_table n Hnb) as Htab. unfold is_table in Htab.
      apply andb_true_iff in Htab as [-> ->]. cbn [andb]. rewrite link_ppn by done.
      apply slot_free_empty; [apply link_read_new|]. apply Forall_app. split; [done|by apply Forall_singleton].
    + rewrite (link_read q u) by done. destruct (PTE_is_valid (read_pa m (u + 8 * j))) eqn:Hval; [|reflexivity].
      destruct (PTE_has_rwx (read_pa m (u + 8 * j))) eqn:Hrwx; [reflexivity|]. cbn [negb andb].
      apply (IH (q ++ [j])); try done.
      * apply valid_path_snoc. split_and!; [done|apply Hj..|lia].
      * rewrite table_at_snoc, Hu. cbn [mbind option_bind]. unfold is_table. by rewrite Hval, Hrwx.
      * rewrite length_app. cbn [length]. lia.
      * by rewrite <- app_assoc.
Qed.

Lemma link_leaf_walk path :
  Forall (fun j => 0 <= j < 512) path -> length path = 3%nat -> leaf_walk m' root path = leaf_walk m root path.
Proof. intros Hr Hlen. by apply (link_leaf_walk_sub []); [apply valid_path_nil|..]. Qed.
End Link.
End Entry.
