(* ===== verification/PageTableProofs.v ===== *)
(** * Correctness of the page-table operations

    [boot_ok] is the invariant of the boot-time tables: the tables form a tree of pages
    that [MEMBLOCK] no longer hands out. The operations of [src/mm/pagetable.rs] are
    specified by their effect on the translation of addresses, [sv39_translate]. *)

From S2P Require Import Prelude Address Memory Memblock Buddy PageTable PageTree.

(** ** Mapping at boot *)

(** The tables lie outside the memory that [MEMBLOCK] still hands out. *)
Definition table_page (mb : Memblock) (t : Z) : Prop :=
  forall a, t <= a < t + 4096 -> ~ covers (active (available mb)) a.

Definition boot_ok (b : BootMem) (root : Z) : Prop :=
  memblock_ok (bm_memblock b) /\ pt_ok (table_page (bm_memblock b)) (bm_memory b) root.

(** [MEMBLOCK] can hand out [n] more pages one after the other. *)
Fixpoint page_supply (n : nat) (mb : Memblock) : Prop :=
  match n with
  | O => True
  | S n =>
      has_room mb /\ Forall (fun r => 4096 <= rend r <= 2 ^ 56) (active (available mb)) /\
      match early_alloc mb PAGE_SIZE PAGE_SIZE with
      | Done (Some _, mb) => page_supply n mb
      | _ => False
      end
  end.

#[export] Instance page_supply_dec n : forall mb, Decision (page_supply n mb).
Proof.
  induction n as [|n IH]; intros mb; cbn [page_supply]; [apply _|].
  unfold has_room. repeat apply and_dec; try apply _.
  destruct (early_alloc mb PAGE_SIZE PAGE_SIZE) as [[[x|] mb']|]; apply _.
Defined.

Lemma page_supply_le n k mb : (k <= n)%nat -> page_supply n mb -> page_supply k mb.
Proof.
  revert k mb. induction n as [|n IH]; intros [|k] mb Hk; [done..|lia|done|].
  cbn [page_supply]. intros (? & ? & Hs). split_and!; [done..|].
  destruct (early_alloc mb PAGE_SIZE PAGE_SIZE) as [[[x|] mb']|]; try done. apply IH; [lia|done].
Qed.

(** A fresh table page is taken from the available memory. *)
Lemma new_boot_table_ok b root k :
  boot_ok b root -> page_supply (S k) (bm_memblock b) ->
  exists n mb', new_boot_table b = Done (n / 4096, mkBootMem (zero_page (bm_memory b) n) mb') /\
    memblock_ok mb' /\ page_supply k mb' /\ (4096 | n) /\ 0 <= n < 2 ^ 56 /\
    (forall q u, valid_path q -> table_at (bm_memory b) root q = Some u -> u <> n) /\
    (forall t, table_page (bm_memblock b) t -> table_page mb' t) /\ table_page mb' n.
Proof.
  intros [Hmb Hpt] (Hroom & Hends & Hs). unfold new_boot_table.
  destruct (early_alloc_ok (bm_memblock b) 4096 12) as (res & mb' & Heq & Hmb' & _ & Hres); try done.
  { eapply Forall_impl; [done|]. cbn. lia. }
  change PAGE_SIZE with 4096 in *. change (2 ^ 12) with 4096 in *. rewrite Heq in Hs |- *.
  destruct res as [n|]; [|done]. destruct Hres as (Hdiv & Hin & Hav & _).
  destruct Hdiv as [c ->]. cbn [mbind outcome_bind unwrap].
  destruct (Hin (c * 4096) ltac:(lia)) as (r & Hr & Hcr). rewrite Forall_forall in Hends.
  specialize (Hends r Hr).
  assert (Hr0 : 0 <= rg_base r).
  { destruct Hmb as ((_ & _ & [Hok _] & _) & _). rewrite Forall_forall in Hok. by apply Hok. }
  rewrite PhysPageNum_from_PhysAddr_mul by lia. cbn [mbind outcome_bind].
  exists (c * 4096), mb'. rewrite Z.div_mul by lia. split_and!; [done..|by exists c|lia|lia| | |].
  - intros q u Hq Hu ->. destruct (pt_page _ _ _ Hpt q _ Hq Hu) as (Hown & _).
    apply (Hown (c * 4096)); [lia|apply Hin; lia].
  - intros t Ht a Ha [Hc _]%Hav. by apply (Ht a).
  - intros a Ha [_ Hc]%Hav. lia.
Qed.

Lemma entry_ptr_ok t i : 0 <= t < 2 ^ 56 -> 0 <= i < 512 -> entry_ptr t i = Done (t + 8 * i).
Proof.
  intros Ht Hi. unfold entry_ptr. destruct (Z.ltb_spec i 512); [|lia].
  by rewrite (wmul_small 8), wadd_small by lia.
Qed.

Lemma PTE_ppn_bound bits : 0 <= PTE_ppn bits < 2 ^ 44.
Proof. rewrite PTE_ppn_eq. by apply Z.mod_pos_bound. Qed.

Lemma next_table bits : PhysAddr_from_PhysPageNum (PTE_ppn bits) = PTE_ppn bits * 4096.
Proof. pose proof (PTE_ppn_bound bits). apply PhysAddr_from_PhysPageNum_mul. lia. Qed.

Lemma next_table_direct bits :
  virt_to_phys (phys_to_virt (PhysAddr_from_PhysPageNum (PTE_ppn bits))) = PTE_ppn bits * 4096.
Proof.
  pose proof (PTE_ppn_bound bits). rewrite virt_to_phys_to_virt; rewrite next_table; [done|].
  unfold usize. lia.
Qed.

(** Translations are the same in both memories. *)
Definition same_leaves (root : Z) (m m' : Memory) : Prop :=
  forall path, Forall index_ok path -> length path = 3%nat -> leaf_walk m' root path = leaf_walk m root path.

Lemma lookup_middle_done {A} (p : list A) x l : index (p ++ x :: l) (length p) = Done x.
Proof. apply index_Done. by apply list_lookup_middle. Qed.

(** One iteration of the loop that is not the last, and the last one. *)
Lemma bump_create_step n p j l target b entries :
  0 <= entries < 2 ^ 56 -> index_ok j -> (length p <> target - 1)%nat ->
  bump_create_loop (S n) (length p) target b entries (p ++ j :: l) =
  (b ← (if negb (PTE_is_valid (read_pa (bm_memory b) (entries + 8 * j))) then
          '(ppn, b) ← new_boot_table b;
          Done (mkBootMem (write_pa (bm_memory b) (entries + 8 * j) (PTE_new ppn PTEFlags.V)) (bm_memblock b))
        else if PTE_has_rwx (read_pa (bm_memory b) (entries + 8 * j)) then
          panic "FATAL: Tried to map a small page inside an existing large page"
        else Done b);
   bump_create_loop n (length (p ++ [j])) target b
     (PTE_ppn (read_pa (bm_memory b) (entries + 8 * j)) * 4096) ((p ++ [j]) ++ l)).
Proof.
  intros He Hj Hlast. cbn [bump_create_loop]. rewrite lookup_middle_done. cbn [mbind outcome_bind].
  rewrite entry_ptr_ok by done. cbn [mbind outcome_bind]. rewrite decide_False by done.
  rewrite length_app, Nat.add_1_r, <- app_assoc. cbn [app].
  destruct (if negb _ then _ else _) as [b'|]; cbn [mbind outcome_bind]; [|done]. by rewrite next_table.
Qed.

Lemma bump_create_last n p j l b entries :
  0 <= entries < 2 ^ 56 -> index_ok j ->
  bump_create_loop (S n) (length p) (S (length p)) b entries (p ++ j :: l) = Done (Some (entries + 8 * j), b).
Proof.
  intros He Hj. cbn [bump_create_loop]. rewrite lookup_middle_done. cbn [mbind outcome_bind].
  rewrite entry_ptr_ok by done. cbn [mbind outcome_bind]. by rewrite decide_True by (cbn; lia).
Qed.

Lemma valid_path_middle p j r : valid_path (p ++ j :: r) ->
  valid_path p /\ index_ok j /\ (length p <= 1)%nat /\ valid_path ((p ++ [j]) ++ r) /\ Forall index_ok r.
Proof.
  intros Hv. split_and!; [| | |by rewrite <- app_assoc|];
    destruct Hv as [HF Hlen]; rewrite Forall_app, Forall_cons in HF; rewrite length_app in Hlen;
    cbn [length] in Hlen; unfold valid_path; try split; try apply HF; lia.
Qed.

(** The table for a free slot is found or created; no translation changes. *)
Lemma bump_create_ok root r : forall p l tail b entries k,
  boot_ok b root -> valid_path (p ++ r) -> index_ok l ->
  table_at (bm_memory b) root p = Some entries -> page_supply (length r + k) (bm_memblock b) ->
  slot_free (bm_memory b) entries r l = true ->
  exists b' t,
    bump_create_loop (S (length r)) (length p) (length p + S (length r)) b entries (p ++ r ++ l :: tail)
      = Done (Some (t + 8 * l), b') /\
    boot_ok b' root /\ page_supply k (bm_memblock b') /\
    table_at (bm_memory b') root (p ++ r) = Some t /\
    PTE_is_valid (read_pa (bm_memory b') (t + 8 * l)) = false /\
    same_leaves root (bm_memory b) (bm_memory b') /\
    (forall q k, valid_path q -> index_ok k -> ~ q ++ [k] `prefix_of` p ++ r ->
       slot_free (bm_memory b') root q k = slot_free (bm_memory b) root q k).
Proof.
  induction r as [|j r IH]; intros p l tail b entries k Hok Hv Hl Htab Hs Hfree; destruct Hok as [Hmb Hpt].
  - rewrite app_nil_r in *. cbn [length app]. rewrite Nat.add_1_r.
    destruct (pt_page _ _ _ Hpt p entries Hv Htab) as (_ & _ & ?). rewrite bump_create_last by done.
    exists b, entries. cbn [slot_free] in Hfree. apply negb_true_iff in Hfree. by split_and!.
  - destruct (valid_path_middle _ _ _ Hv) as (Hp & Hj & Hlp & Hv' & Hr).
    destruct (pt_page _ _ _ Hpt p entries Hp Htab) as (_ & _ & He).
    cbn [app]. rewrite bump_create_step by (done || cbn; lia).
    replace (length p + S (length (j :: r)))%nat with (length (p ++ [j]) + S (length r))%nat
      by (rewrite length_app; cbn; lia).
    replace (p ++ j :: r) with ((p ++ [j]) ++ r) by (by rewrite <- app_assoc).
    cbn [slot_free] in Hfree. change (length (j :: r)) with (S (length r)) in *.
    destruct (PTE_is_valid (read_pa (bm_memory b) (entries + 8 * j))) eqn:Hval; cbn [negb].
    + apply andb_true_iff in Hfree as [Hrwx Hfree]. apply negb_true_iff in Hrwx. rewrite Hrwx.
      cbn [mbind outcome_bind]. apply IH; try done.
      * rewrite table_at_snoc, Htab. cbn [mbind option_bind]. unfold is_table. by rewrite Hval, Hrwx.
      * eapply page_supply_le; [|done]. lia.
    + destruct (new_boot_table_ok b root (length r + k)) as
        (n & mb' & Heq & Hmb' & Hs' & Hna & Hnb & Hfresh & Hmono & Hown); [by split|done|].
      rewrite Heq. cbn [mbind outcome_bind bm_memory bm_memblock]. rewrite read_write_same, link_ppn by done.
      edestruct (IH (p ++ [j]) l tail
        (mkBootMem (write_pa (zero_page (bm_memory b) n) (entries + 8 * j) (PTE_new (n / 4096) PTEFlags.V)) mb')
        n k) as (b' & t & Heq' & Hok' & Hsk & Htab' & Hinv & Hleaf & Hslot); cbn [bm_memory bm_memblock]; try done.
      * split; [done|]. by eapply (link_pt_ok _ _ _ Hpt p entries j).
      * by eapply (link_table_at_new _ _ _ Hpt p entries j).
      * apply slot_free_empty; [intros; by eapply (link_read_new _ _ _ Hpt p entries j)|].
        apply Forall_app. split; [done|by apply Forall_singleton].
      * exists b', t. split_and!; try done.
        { intros path HF Hlen. rewrite Hleaf by done. by eapply (link_leaf_walk _ _ _ Hpt p entries j). }
        intros q i [HF Hq] Hi Hpre. rewrite Hslot by done.
        apply (link_slot_free _ _ _ Hpt p entries j Hp Htab Hj n Hlp Hval Hna Hnb Hfresh []); try done; [apply valid_path_nil|].
        cbn [app]. intros Heqp. apply Hpre. rewrite <- Heqp. by exists r.
Qed.

(** A slot that is not free: the walk meets a large page or ends at a valid entry. *)
Lemma bump_create_taken root r : forall p l tail b entries,
  boot_ok b root -> valid_path (p ++ r) -> index_ok l ->
  table_at (bm_memory b) root p = Some entries -> slot_free (bm_memory b) entries r l = false ->
  bump_create_loop (S (length r)) (length p) (length p + S (length r)) b entries (p ++ r ++ l :: tail)
    = panic "FATAL: Tried to map a small page inside an existing large page" \/
  exists t, bump_create_loop (S (length r)) (length p) (length p + S (length r)) b entries (p ++ r ++ l :: tail)
      = Done (Some (t + 8 * l), b) /\ PTE_is_valid (read_pa (bm_memory b) (t + 8 * l)) = true.
Proof.
  induction r as [|j r IH]; intros p l tail b entries Hok Hv Hl Htab Hfree; pose proof (proj2 Hok) as Hpt.
  - rewrite app_nil_r in *. cbn [length app]. rewrite Nat.add_1_r.
    destruct (pt_page _ _ _ Hpt p entries Hv Htab) as (_ & _ & ?). rewrite bump_create_last by done.
    right. exists entries. cbn [slot_free] in Hfree. by apply negb_false_iff in Hfree.
  - destruct (valid_path_middle _ _ _ Hv) as (Hp & Hj & Hlp & Hv' & Hr).
    destruct (pt_page _ _ _ Hpt p entries Hp Htab) as (_ & _ & He).
    cbn [app]. rewrite bump_create_step by (done || cbn; lia). cbn [slot_free] in Hfree.
    destruct (PTE_is_valid (read_pa (bm_memory b) (entries + 8 * j))) eqn:Hval; [|done]. cbn [negb].
    destruct (PTE_has_rwx (read_pa (bm_memory b) (entries + 8 * j))) eqn:Hrwx; [by left|].
    cbn [mbind outcome_bind]. change (length (j :: r)) with (S (length r)).
    replace (length p + S (S (length r)))%nat with (length (p ++ [j]) + S (length r))%nat
      by (rewrite length_app; cbn; lia).
    apply IH; try done. rewrite table_at_snoc, Htab. cbn [mbind option_bind]. unfold is_table. by rewrite Hval, Hrwx.
Qed.

(** The path of a page: the tables to follow and the index in the last one. *)
Definition page_path (vpn : Z) (size : PageSize) : list Z := take (target_level size - 1) (indices vpn).
Definition page_slot (vpn : Z) (size : PageSize) : Z := nth (target_level size - 1) (indices vpn) 0.

Lemma indices_ok vpn : Forall index_ok (indices vpn).
Proof. rewrite indices_eq. repeat constructor; by apply Z.mod_pos_bound. Qed.

Lemma indices_split vpn size :
  exists tail, indices vpn = page_path vpn size ++ page_slot vpn size :: tail /\
  length (page_path vpn size) = (target_level size - 1)%nat /\
  valid_path (page_path vpn size) /\ index_ok (page_slot vpn size).
Proof.
  pose proof (indices_ok vpn) as HF. unfold page_path, page_slot. rewrite indices_eq in *.
  rewrite !Forall_cons in HF. destruct HF as (? & ? & ? & _). unfold valid_path.
  destruct size; cbn; eexists; (split; [reflexivity|]); split_and!; try done; try lia; by rewrite ?Forall_cons.
Qed.

Lemma lor_bound a b k : 0 <= k -> 0 <= a < 2 ^ k -> 0 <= b < 2 ^ k -> 0 <= Z.lor a b < 2 ^ k.
Proof.
  intros Hk Ha Hb. split; [apply Z.lor_nonneg; lia|].
  apply Z.bounded_iff_bits_nonneg; [done|apply Z.lor_nonneg; lia|]. intros l Hl.
  by rewrite Z.lor_spec, (testbit_high a k), (testbit_high b k) by lia.
Qed.

Lemma flags_valid flags : Z.testbit (Z.lor flags PTEFlags.V) 0 = true.
Proof. rewrite Z.lor_spec. apply orb_true_r. Qed.

Lemma flags_valid_other flags k : 0 < k -> Z.testbit (Z.lor flags PTEFlags.V) k = Z.testbit flags k.
Proof.
  intros. rewrite Z.lor_spec. change PTEFlags.V with (2 ^ 0). rewrite Z.pow2_bits_eqb by lia.
  destruct (Z.eqb_spec 0 k); [lia|]. apply orb_false_r.
Qed.

Lemma flags_valid_bound flags : 0 <= flags < 256 -> 0 <= Z.lor flags PTEFlags.V < 256.
Proof. intros. by apply (lor_bound _ _ 8). Qed.

Lemma leaf_entry ppn flags :
  0 <= ppn < 2 ^ 44 -> 0 <= flags < 256 -> flags_rwx flags = true ->
  PTE_is_valid (PTE_new ppn (Z.lor flags PTEFlags.V)) = true /\
  is_table (PTE_new ppn (Z.lor flags PTEFlags.V)) = false.
Proof.
  intros Hp Hf Hrwx. pose proof (flags_valid_bound flags Hf). unfold is_table.
  rewrite PTE_new_valid, PTE_new_rwx, flags_valid by done. split; [done|].
  unfold flags_rwx in *. rewrite !flags_valid_other by lia. by rewrite Hrwx.
Qed.

(** What [bump_map] does, on a free and on a taken slot. *)
Lemma bump_map_ok b root vpn ppn flags size k :
  boot_ok b root -> page_supply (2 + k) (bm_memblock b) ->
  0 <= ppn < 2 ^ 44 -> 0 <= flags < 256 -> flags_rwx flags = true ->
  if slot_free (bm_memory b) root (page_path vpn size) (page_slot vpn size) then
    exists b', bump_map b root vpn ppn flags size = Done b' /\ boot_ok b' root /\
      page_supply k (bm_memblock b') /\
      (forall path, Forall index_ok path -> length path = 3%nat ->
        leaf_walk (bm_memory b') root path =
        if decide (page_path vpn size ++ [page_slot vpn size] `prefix_of` path)
        then Some (drop (target_level size) path, PTE_new ppn (Z.lor flags PTEFlags.V))
        else leaf_walk (bm_memory b) root path) /\
      (forall q i, valid_path q -> index_ok i -> ~ q ++ [i] `prefix_of` page_path vpn size ++ [page_slot vpn size] ->
         ~ page_path vpn size ++ [page_slot vpn size] `prefix_of` q ++ [i] ->
         slot_free (bm_memory b') root q i = slot_free (bm_memory b) root q i)
  else exists msg, bump_map b root vpn ppn flags size = panic msg.
Proof.
  intros Hok Hs Hppn Hfl Hrwx. destruct (indices_split vpn size) as (tail & Hidx & Hlen & Hv & Hl).
  assert (Htl : target_level size = S (length (page_path vpn size))) by (rewrite Hlen; by destruct size).
  unfold bump_map, bump_find_create_pte. rewrite Hidx, Htl.
  destruct (slot_free _ _ _ _) eqn:Hfree.
  - destruct (bump_create_ok root (page_path vpn size) [] (page_slot vpn size) tail b root k)
      as (b' & t & Heq & Hok' & Hs' & Htab & Hinv & Hsame & Hslot); try done.
    { eapply page_supply_le; [|done]. destruct Hv. lia. }
    cbn [length app Nat.add] in Heq. rewrite Heq. cbn [mbind outcome_bind unwrap]. rewrite Hinv.
    cbn [negb assert mbind outcome_bind]. eexists. split; [done|]. destruct Hok' as [Hmb Hpt].
    cbn [app] in Htab. destruct (leaf_entry ppn flags) as [Hev Het]; try done.
    assert (Hold : is_table (read_pa (bm_memory b') (t + 8 * page_slot vpn size)) = false)
      by (unfold is_table; by rewrite Hinv).
    cbn [bm_memory bm_memblock]. split; [split; [done|]|split; [done|split]].
    + by apply (leaf_pt_ok _ _ _ Hpt (page_path vpn size) t); [..|by left].
    + intros path HF Hpl.
      rewrite (leaf_walk_write _ _ _ Hpt (page_path vpn size) t) by (try done; by left).
      case_decide; [by rewrite Het, Hev|by apply Hsame].
    + intros q i Hq Hi Hpre1 Hpre2. cbn [app] in Hslot. rewrite <- (Hslot q i); [|done..|].
      * apply (leaf_slot_free _ _ _ Hpt (page_path vpn size) t _ Hv Htab Hl _ (or_introl Het) [] root); try done;
          [apply valid_path_nil|apply Hq|apply Hq].
      * intros Hp. apply Hpre1. etrans; [done|]. by eexists.
  - destruct (bump_create_taken root (page_path vpn size) [] (page_slot vpn size) tail b root)
      as [Heq|(t & Heq & Hval)]; try done; cbn [length app Nat.add] in Heq; rewrite Heq.
    + by eexists.
    + cbn [mbind outcome_bind unwrap]. rewrite Hval. by eexists.
Qed.

(** ** From paths to addresses *)

(** Number of address bits below a page of the given size. *)
Definition page_bits (size : PageSize) : Z := match size with FourKB => 12 | TwoMB => 21 | OneGB => 30 end.
Definition page_bytes (size : PageSize) : Z := 2 ^ page_bits size.

Lemma va_path_indices va : va_path va = indices (va / 4096).
Proof.
  rewrite indices_eq. unfold va_path. change 4096 with (2 ^ 12).
  by rewrite !Z.div_div by lia.
Qed.

(** Two page numbers have the same path for a size if they agree above its bits. *)
Lemma take_indices v w size :
  take (target_level size) (indices v) = take (target_level size) (indices w) <->
  v / 2 ^ (page_bits size - 12) mod 2 ^ (39 - page_bits size) =
  w / 2 ^ (page_bits size - 12) mod 2 ^ (39 - page_bits size).
Proof.
  assert (Hd : forall x, x / 2 ^ 9 = x / 512 /\ x / 2 ^ 18 = x / 512 / 512 /\ x mod 2 ^ 27 = x / 512 / 512 mod 512 * 2 ^ 18 + x / 512 mod 512 * 2 ^ 9 + x mod 512 /\
    x / 512 mod 2 ^ 18 = x / 512 / 512 mod 512 * 512 + x / 512 mod 512).
  { intros x. rewrite Z.div_div by lia. split_and!; [done..| |].
    - change (2 ^ 27) with (512 * (512 * 512)). rewrite !Z.rem_mul_r, Z.div_div by lia. lia.
    - change (2 ^ 18) with (512 * 512). rewrite Z.rem_mul_r by lia. rewrite Z.div_div by lia. lia. }
  destruct (Hd v) as (Hv1 & Hv2 & Hv3 & Hv4), (Hd w) as (Hw1 & Hw2 & Hw3 & Hw4).
  rewrite !indices_eq.
  pose proof (Z.mod_pos_bound v 512). pose proof (Z.mod_pos_bound w 512).
  pose proof (Z.mod_pos_bound (v / 512) 512). pose proof (Z.mod_pos_bound (w / 512) 512).
  pose proof (Z.mod_pos_bound (v / 512 / 512) 512). pose proof (Z.mod_pos_bound (w / 512 / 512) 512).
  destruct size; cbn [target_level page_bits take].
  - change (2 ^ (12 - 12)) with 1. change (2 ^ (39 - 12)) with (2 ^ 27). rewrite !Z.div_1_r, Hv3, Hw3, Hv1, Hw1, Hv2, Hw2.
    split; [by intros [= -> -> ->]|]. intros. f_equal; [lia|]. f_equal; [lia|]. f_equal; lia.
  - change (2 ^ (21 - 12)) with 512. change (2 ^ (39 - 21)) with (2 ^ 18). rewrite Hv4, Hw4, Hv1, Hw1, Hv2, Hw2.
    split; [by intros [= -> ->]|]. intros. f_equal; [lia|]. f_equal; lia.
  - change (2 ^ (30 - 12)) with (2 ^ 18). change (2 ^ (39 - 30)) with 512. rewrite Hv2, Hw2.
    split; [by intros [= ->]|by intros ->].
Qed.

Lemma page_bits_bound size : 12 <= page_bits size <= 30.
Proof. destruct size; cbn; lia. Qed.

(** Canonical addresses are determined by their low 39 bits. *)
Lemma canonical_div va va0 s :
  12 <= s <= 30 -> canonical va -> canonical va0 ->
  va / 2 ^ s mod 2 ^ (39 - s) = va0 / 2 ^ s mod 2 ^ (39 - s) <-> va / 2 ^ s = va0 / 2 ^ s.
Proof.
  intros Hs Hc Hc0. split; [|by intros ->]. pose proof (pow2_pos s ltac:(lia)).
  assert (Hp39 : 2 ^ 39 = 2 ^ (39 - s) * 2 ^ s) by (rewrite <- Z.pow_add_r by lia; f_equal; lia).
  assert (Hp38 : 2 ^ 38 = 2 ^ (38 - s) * 2 ^ s) by (rewrite <- Z.pow_add_r by lia; f_equal; lia).
  assert (Hp64 : USIZE = 2 ^ (64 - s) * 2 ^ s) by (rewrite <- Z.pow_add_r by lia; by replace (64 - s + s) with 64 by lia).
  assert (Hp : 2 ^ (39 - s) = 2 * 2 ^ (38 - s)) by (rewrite <- pow2_succ by lia; f_equal; lia).
  assert (Hp' : 2 ^ (64 - s) = 2 ^ 25 * 2 ^ (39 - s)) by (rewrite <- Z.pow_add_r by lia; f_equal; lia).
  pose proof (pow2_pos (38 - s) ltac:(lia)).
  assert (Hr : forall x, canonical x -> 0 <= x / 2 ^ s < 2 ^ (38 - s) \/
    2 ^ (64 - s) - 2 ^ (38 - s) <= x / 2 ^ s < 2 ^ (64 - s)).
  { intros x [Hx|Hx]; [left|right]; split.
    - apply Z.div_pos; lia.
    - apply Z.div_lt_upper_bound; lia.
    - apply Z.div_le_lower_bound; [lia|]. rewrite Z.mul_sub_distr_l. lia.
    - apply Z.div_lt_upper_bound; lia. }
  intros Heq. apply Hr in Hc, Hc0.
  rewrite !Z.mod_eq in Heq by lia.
  assert (Hmod : va / 2 ^ s mod 2 ^ (39 - s) = va0 / 2 ^ s mod 2 ^ (39 - s)) by (rewrite !Z.mod_eq by lia; done).
  clear Heq. revert Hc Hc0 Hmod. generalize (va / 2 ^ s) (va0 / 2 ^ s). intros x y Hx Hy Hmod.
  assert (Hm : forall z, 2 ^ (64 - s) - 2 ^ (38 - s) <= z < 2 ^ (64 - s) -> z mod 2 ^ (39 - s) = z - 2 ^ (64 - s) + 2 ^ (39 - s)).
  { intros z Hz. symmetry. apply (Z.mod_unique_pos _ _ (2 ^ 25 - 1)); [lia|].
    rewrite Z.mul_sub_distr_l. lia. }
  destruct Hx as [Hx|Hx], Hy as [Hy|Hy]; rewrite ?(Z.mod_small x), ?(Z.mod_small y), ?(Hm x), ?(Hm y) in Hmod by lia; lia.
Qed.

(** The paths below a page are those of the addresses of the page. *)
Lemma page_prefix va va0 size :
  canonical va -> canonical va0 -> (page_bytes size | va0) ->
  page_path (va0 / 4096) size ++ [page_slot (va0 / 4096) size] `prefix_of` va_path va <->
  va0 <= va < va0 + page_bytes size.
Proof.
  intros Hc Hc0 [c Hdiv]. pose proof (page_bits_bound size). unfold page_bytes in *.
  pose proof (pow2_pos (page_bits size) ltac:(lia)).
  trans (take (target_level size) (indices (va0 / 4096)) = take (target_level size) (indices (va / 4096))).
  - rewrite va_path_indices. unfold page_path, page_slot. rewrite !indices_eq.
    unfold prefix. destruct size; cbn; split; try (by intros [k [= -> -> ->]] || by intros [k [= -> ->]] || by intros [k [= ->]]).
    + intros [= -> -> ->]. by exists [].
    + intros [= -> ->]. by eexists [_].
    + intros [= ->]. by eexists [_; _].
  - rewrite take_indices. change 4096 with (2 ^ 12). rewrite !Z.div_div, <- !Z.pow_add_r by lia.
    replace (12 + (page_bits size - 12)) with (page_bits size) by lia. rewrite canonical_div by (lia || done).
    rewrite Hdiv, Z.div_mul by lia. split.
    + intros Heq. pose proof (Z.div_mod va (2 ^ page_bits size)). pose proof (Z.mod_pos_bound va (2 ^ page_bits size)). lia.
    + intros. apply (Z.div_unique_pos _ _ _ (va - c * 2 ^ page_bits size)); lia.
Qed.

(** Permissions of a leaf that the processor accepts. *)
Definition leaf_flags (flags : Z) : Prop :=
  0 <= flags < 256 /\ flags_rwx flags = true /\ (Z.testbit flags 2 = true -> Z.testbit flags 1 = true).

Lemma sv39_translate_eq m root va :
  canonical va -> usize va -> sv39_translate m root va = leaf_walk m root (va_path va) ≫= leaf_translate va.
Proof.
  intros Hc Hu. unfold sv39_translate. rewrite VirtAddr_from_usize_id, Z.eqb_refl by done. apply sv39_walk_leaf.
Qed.

Lemma sv39_translate_noncanonical m root va : usize va -> ~ canonical va -> sv39_translate m root va = None.
Proof.
  intros Hu Hc. unfold sv39_translate. destruct (Z.eqb_spec (VirtAddr_from_usize va) va) as [Heq|]; [|done].
  destruct Hc. rewrite <- Heq, VirtAddr_from_usize_eq. cbv zeta. unfold canonical.
  pose proof (Z.mod_pos_bound va (2 ^ 39)). destruct (Z.ltb_spec (va mod 2 ^ 39) (2 ^ 38)); lia.
Qed.

Lemma va_path_ok va : Forall index_ok (va_path va) /\ length (va_path va) = 3%nat.
Proof. rewrite va_path_indices. split; [apply indices_ok|by rewrite indices_eq]. Qed.

#[export] Instance canonical_dec va : Decision (canonical va).
Proof. unfold canonical. apply _. Defined.

Definition target_rest (size : PageSize) : Z := 3 - Z.of_nat (target_level size).

Lemma page_bits_rest size : page_bits size = 12 + 9 * target_rest size.
Proof. by destruct size. Qed.

(** The translation of the addresses of a page by its leaf. *)
Lemma leaf_translate_page va va0 size ppn flags :
  va0 <= va < va0 + page_bytes size -> (page_bytes size | va0) ->
  0 <= ppn < 2 ^ 44 -> (page_bytes size | ppn * 4096) -> leaf_flags flags ->
  leaf_translate va (drop (target_level size) (va_path va), PTE_new ppn (Z.lor flags PTEFlags.V)) =
  Some (ppn * 4096 + (va - va0), Z.lor flags PTEFlags.V).
Proof.
  intros Hva [c Hc] Hp Hpd (Hf & Hrwx & Hrw). pose proof (flags_valid_bound flags Hf) as Hf'.
  unfold leaf_translate. rewrite length_drop, (proj2 (va_path_ok va)).
  replace (Z.of_nat (3 - target_level size)) with (target_rest size) by (by destruct size).
  rewrite !(PTE_testbit (PTE_new _ _)), PTE_ppn_new, PTE_flags_new by (done || lia).
  rewrite !flags_valid_other by lia.
  replace (Z.testbit flags 2 && negb (Z.testbit flags 1)) with false by (destruct (Z.testbit flags 2); [by rewrite Hrw|done]).
  assert (0 <= target_rest size) by (by destruct size).
  rewrite <- page_bits_rest. fold (page_bytes size).
  assert (Hpm : ppn mod 2 ^ (9 * target_rest size) = 0).
  { apply Z.mod_divide; [pose proof (pow2_pos (9 * target_rest size)); lia|].
    unfold page_bytes in Hpd. rewrite page_bits_rest, Z.pow_add_r in Hpd by lia.
    apply (Z.mul_divide_cancel_l _ _ (2 ^ 12)); [lia|]. by rewrite (Z.mul_comm (2 ^ 12) ppn). }
  rewrite Hpm, Z.eqb_refl. do 2 f_equal. rewrite Hc in *.
  f_equal. symmetry. apply (Z.mod_unique_pos _ _ c); lia.
Qed.

Lemma canonical_page va va0 size :
  canonical va0 -> (page_bytes size | va0) -> va0 <= va < va0 + page_bytes size -> canonical va.
Proof.
  intros Hc [c Hd] Hva. unfold canonical in *. destruct size.
  - change (page_bytes FourKB) with 4096 in *. lia.
  - change (page_bytes TwoMB) with 2097152 in *. lia.
  - change (page_bytes OneGB) with 1073741824 in *. lia.
Qed.

(** A change of the leaves below a page is a change of the translations of its
    addresses. *)
Lemma translate_page m m' root va0 size (L : list Z -> option (list Z * Z)) :
  canonical va0 -> (page_bytes size | va0) ->
  (forall path, Forall index_ok path -> length path = 3%nat ->
     leaf_walk m' root path =
     if decide (page_path (va0 / 4096) size ++ [page_slot (va0 / 4096) size] `prefix_of` path)
     then L path else leaf_walk m root path) ->
  forall va, usize va -> sv39_translate m' root va =
    if decide (va0 <= va < va0 + page_bytes size) then L (va_path va) ≫= leaf_translate va
    else sv39_translate m root va.
Proof.
  intros Hc0 Hd0 Hleaf va Hu. destruct (decide (canonical va)) as [Hc|Hc].
  - rewrite !sv39_translate_eq by done. destruct (va_path_ok va) as [HF Hlen]. rewrite Hleaf by done.
    pose proof (page_prefix va va0 size Hc Hc0 Hd0). repeat case_decide; tauto.
  - rewrite !sv39_translate_noncanonical by done. case_decide as Hva; [|done].
    destruct Hc. by eapply canonical_page.
Qed.

(** Disjoint pages have incomparable paths. *)
Lemma page_path_disjoint va0 size va1 size1 :
  canonical va0 -> canonical va1 -> (page_bytes size | va0) -> (page_bytes size1 | va1) ->
  va1 + page_bytes size1 <= va0 \/ va0 + page_bytes size <= va1 ->
  ~ page_path (va0 / 4096) size ++ [page_slot (va0 / 4096) size] `prefix_of`
      page_path (va1 / 4096) size1 ++ [page_slot (va1 / 4096) size1].
Proof.
  intros Hc0 Hc1 Hd0 Hd1 Hdis Hpre.
  assert (Hself : page_path (va1 / 4096) size1 ++ [page_slot (va1 / 4096) size1] `prefix_of` va_path va1).
  { rewrite va_path_indices. destruct (indices_split (va1 / 4096) size1) as (tail & -> & _).
    exists tail. by rewrite <- app_assoc. }
  assert (Hin : page_path (va0 / 4096) size ++ [page_slot (va0 / 4096) size] `prefix_of` va_path va1) by (by etrans).
  apply page_prefix in Hin; [|done..].
  pose proof (pow2_pos (page_bits size1)). pose proof (page_bits_bound size1). unfold page_bytes in *. lia.
Qed.

Lemma bump_map_page b root va0 ppn flags size k :
  boot_ok b root -> page_supply (2 + k) (bm_memblock b) ->
  usize va0 -> canonical va0 -> (page_bytes size | va0) ->
  0 <= ppn < 2 ^ 44 -> (page_bytes size | ppn * 4096) -> leaf_flags flags ->
  if slot_free (bm_memory b) root (page_path (va0 / 4096) size) (page_slot (va0 / 4096) size) then
    exists b', bump_map b root (va0 / 4096) ppn flags size = Done b' /\ boot_ok b' root /\
      page_supply k (bm_memblock b') /\
      (forall va, usize va ->
        sv39_translate (bm_memory b') root va =
        if decide (va0 <= va < va0 + page_bytes size)
        then Some (ppn * 4096 + (va - va0), Z.lor flags PTEFlags.V)
        else sv39_translate (bm_memory b) root va) /\
      (forall va1 size1, canonical va1 -> (page_bytes size1 | va1) ->
         va1 + page_bytes size1 <= va0 \/ va0 + page_bytes size <= va1 ->
         slot_free (bm_memory b') root (page_path (va1 / 4096) size1) (page_slot (va1 / 4096) size1) =
         slot_free (bm_memory b) root (page_path (va1 / 4096) size1) (page_slot (va1 / 4096) size1))
  else exists msg, bump_map b root (va0 / 4096) ppn flags size = panic msg.
Proof.
  intros Hok Hs Hu0 Hc0 Hd0 Hp Hpd Hfl.
  pose proof (bump_map_ok b root (va0 / 4096) ppn flags size k Hok Hs Hp (proj1 Hfl) (proj1 (proj2 Hfl))) as Hmap.
  destruct (slot_free _ _ _ _); [|done]. destruct Hmap as (b' & Heq & Hok' & Hs' & Hleaf & Hslot).
  exists b'. split_and!; try done.
  - intros va Hu. rewrite (translate_page _ _ _ _ _ _ Hc0 Hd0 Hleaf) by done. case_decide; [|done].
    by apply leaf_translate_page.
  - intros va1 size1 Hc1 Hd1 Hdis. destruct (indices_split (va1 / 4096) size1) as (_ & _ & _ & Hv1 & Hl1).
    apply Hslot; try done; apply page_path_disjoint; try done; lia.
Qed.

(** C9: on a well-formed table [bump_map] of a page that is not yet mapped succeeds (given
    memory for two more tables), keeps the table well formed, makes exactly the
    addresses of that page translate to the given frame with the given
    permissions, and changes no other translation; on a page that overlaps a mapping it panics. *)
Theorem bump_map_spec b root va0 ppn flags size k :
  boot_ok b root -> page_supply (2 + k) (bm_memblock b) ->
  usize va0 -> canonical va0 -> (page_bytes size | va0) ->
  0 <= ppn < 2 ^ 44 -> (page_bytes size | ppn * 4096) -> leaf_flags flags ->
  if slot_free (bm_memory b) root (page_path (va0 / 4096) size) (page_slot (va0 / 4096) size) then
    exists b', bump_map b root (va0 / 4096) ppn flags size = Done b' /\ boot_ok b' root /\
      page_supply k (bm_memblock b') /\
      forall va, usize va ->
        sv39_translate (bm_memory b') root va =
        if decide (va0 <= va < va0 + page_bytes size)
        then Some (ppn * 4096 + (va - va0), Z.lor flags PTEFlags.V)
        else sv39_translate (bm_memory b) root va
  else exists msg, bump_map b root (va0 / 4096) ppn flags size = panic msg.
Proof.
  intros Hok Hs Hu0 Hc0 Hd0 Hp Hpd Hfl.
  pose proof (bump_map_page b root va0 ppn flags size k Hok Hs Hu0 Hc0 Hd0 Hp Hpd Hfl) as Hmap.
  destruct (slot_free _ _ _ _); [|done]. destruct Hmap as (b' & Heq & Hok' & Hs' & Htr & _). by exists b'.
Qed.

(** ** Finding and removing entries *)

(** [bump_find_pte] finds the entry of a page if the tables on its path exist. *)
Lemma bump_find_loop_ok owned m root r : forall p l tail entries,
  pt_ok owned m root -> valid_path (p ++ r) -> index_ok l -> table_at m root p = Some entries ->
  bump_find_loop (S (length r)) (length p) (length p + S (length r)) m entries (p ++ r ++ l :: tail)
  = Done ((fun t => t + 8 * l) <$> table_at m root (p ++ r)).
Proof.
  induction r as [|j r IH]; intros p l tail entries Hpt Hv Hl Htab.
  - rewrite app_nil_r in *. destruct (pt_page _ _ _ Hpt p entries Hv Htab) as (_ & _ & He).
    cbn [length app bump_find_loop]. rewrite lookup_middle_done. cbn [mbind outcome_bind].
    rewrite entry_ptr_ok by done. cbn [mbind outcome_bind]. rewrite decide_True by lia. by rewrite Htab.
  - destruct (valid_path_middle _ _ _ Hv) as (Hp & Hj & Hlp & Hv' & Hr).
    destruct (pt_page _ _ _ Hpt p entries Hp Htab) as (_ & _ & He).
    change (length (j :: r)) with (S (length r)). remember (S (length r)) as n eqn:Hn.
    cbn [bump_find_loop app]. rewrite lookup_middle_done. cbn [mbind outcome_bind].
    rewrite entry_ptr_ok by done. cbn [mbind outcome_bind]. rewrite decide_False by lia. subst n.
    replace (S (length p)) with (length (p ++ [j])) by (rewrite length_app; cbn; lia).
    replace (length p + S (S (length r)))%nat with (length (p ++ [j]) + S (length r))%nat
      by (rewrite length_app; cbn; lia).
    replace (p ++ j :: r ++ l :: tail) with ((p ++ [j]) ++ r ++ l :: tail) by (by rewrite <- app_assoc).
    replace (p ++ j :: r) with ((p ++ [j]) ++ r) by (by rewrite <- app_assoc).
    assert (Hsn := table_at_snoc m root p j). rewrite Htab in Hsn. cbn [mbind option_bind] in Hsn.
    unfold is_table in Hsn. rewrite next_table_direct.
    destruct (PTE_is_valid (read_pa m (entries + 8 * j))); cbn [negb andb] in *;
      [|by rewrite table_at_app, Hsn].
    destruct (PTE_has_rwx (read_pa m (entries + 8 * j))); cbn [negb] in *; [by rewrite table_at_app, Hsn|].
    by apply IH.
Qed.

Lemma bump_find_pte_ok owned m root vpn size :
  pt_ok owned m root ->
  bump_find_pte m root vpn size =
  Done ((fun t => t + 8 * page_slot vpn size) <$> table_at m root (page_path vpn size)).
Proof.
  intros Hpt. destruct (indices_split vpn size) as (tail & Hidx & Hlen & Hv & Hl).
  assert (Htl : target_level size = S (length (page_path vpn size))) by (rewrite Hlen; by destruct size).
  unfold bump_find_pte. rewrite Hidx, Htl.
  by apply (bump_find_loop_ok owned m root (page_path vpn size) [] (page_slot vpn size) tail root).
Qed.

(** The page is mapped by one leaf of its size. *)
Definition page_mapped (m : Memory) (root va0 : Z) (size : PageSize) : Prop :=
  exists rest e, leaf_walk m root (va_path va0) = Some (rest, e) /\ length rest = (3 - target_level size)%nat.

(** The first non-table entry on a path lies in the table before it. *)
Lemma leaf_walk_inv m root path rest e :
  leaf_walk m root path = Some (rest, e) ->
  exists p i t, path = p ++ i :: rest /\ table_at m root p = Some t /\ read_pa m (t + 8 * i) = e /\
    is_table e = false /\ PTE_is_valid e = true.
Proof.
  revert root. induction path as [|i path IH]; intros root; cbn [leaf_walk]; [done|].
  destruct (is_table (read_pa m (root + 8 * i))) eqn:Htab.
  - intros (p & j & t & -> & Ht & Hr)%IH. exists (i :: p), j, t. split; [done|].
    split; [|done]. cbn. by rewrite Htab.
  - destruct (PTE_is_valid (read_pa m (root + 8 * i))) eqn:Hval; [|done]. intros [= -> <-].
    by exists [], i, root.
Qed.

Lemma page_mapped_inv m root va0 size :
  page_mapped m root va0 size ->
  exists t, table_at m root (page_path (va0 / 4096) size) = Some t /\
    let e := read_pa m (t + 8 * page_slot (va0 / 4096) size) in
    is_table e = false /\ PTE_is_valid e = true.
Proof.
  intros (rest & e & (p & i & t & Hpath & Ht & He & Htab & Hval)%leaf_walk_inv & Hlen). exists t.
  assert (Hp : length p = (target_level size - 1)%nat).
  { pose proof (proj2 (va_path_ok va0)) as H3. rewrite Hpath, length_app in H3. cbn in H3. destruct size; cbn in *; lia. }
  rewrite va_path_indices in Hpath. unfold page_path, page_slot. rewrite Hpath, <- Hp.
  rewrite take_app_length, nth_middle. cbv zeta. by rewrite He.
Qed.

(** [unmap] of a mapped page, on paths. *)
Lemma unmap_ok owned m root va0 size :
  pt_ok owned m root -> page_mapped m root va0 size ->
  exists m', unmap m root (va0 / 4096) size = Done (m', VirtAddr_from_VirtPageNum (va0 / 4096)) /\
    pt_ok owned m' root /\
    forall path, Forall index_ok path -> length path = 3%nat ->
      leaf_walk m' root path =
      if decide (page_path (va0 / 4096) size ++ [page_slot (va0 / 4096) size] `prefix_of` path)
      then None else leaf_walk m root path.
Proof.
  intros Hpt (t & Ht & Htab & Hval)%page_mapped_inv.
  destruct (indices_split (va0 / 4096) size) as (tail & _ & _ & Hv & Hl).
  unfold unmap. rewrite (bump_find_pte_ok owned), Ht by done. cbn [fmap option_fmap option_map mbind outcome_bind unwrap].
  rewrite Hval. cbn [assert mbind outcome_bind]. eexists. split; [done|].
  assert (Hz : is_table PTE_empty = false \/ length (page_path (va0 / 4096) size) = 2%nat) by by left.
  split; [by apply (leaf_pt_ok _ _ _ Hpt (page_path (va0 / 4096) size) t)|].
  intros path HF Hlen. by rewrite (leaf_walk_write _ _ _ Hpt (page_path (va0 / 4096) size) t).
Qed.

Lemma slot_free_table m r : forall table l t,
  slot_free m table r l = true -> table_at m table r = Some t -> PTE_is_valid (read_pa m (t + 8 * l)) = false.
Proof.
  induction r as [|j r IH]; intros table l t; cbn [slot_free table_at].
  - intros Hf [= <-]. by apply negb_true_iff.
  - unfold is_table. destruct (PTE_is_valid (read_pa m (table + 8 * j))); [|done].
    destruct (PTE_has_rwx (read_pa m (table + 8 * j))); [done|]. apply IH.
Qed.

Lemma slot_free_leaf m r : forall table l rest,
  slot_free m table r l = true -> leaf_walk m table (r ++ l :: rest) = None.
Proof.
  induction r as [|j r IH]; intros table l rest; cbn [slot_free leaf_walk app]; unfold is_table.
  - intros ->%negb_true_iff. done.
  - destruct (PTE_is_valid (read_pa m (table + 8 * j))); [|done].
    destruct (PTE_has_rwx (read_pa m (table + 8 * j))); [done|]. apply IH.
Qed.

Lemma page_aligned va size : (page_bytes size | va) -> va mod 4096 = 0.
Proof.
  intros Hd. apply Z.mod_divide; [lia|]. etrans; [|exact Hd]. change 4096 with (2 ^ 12).
  apply pow2_divide. pose proof (page_bits_bound size). lia.
Qed.

(** [unmap] of a page that is mapped with the given size succeeds, removes exactly the
    translations of that page, keeps the table well formed and flushes the page's own address;
    if no table for the page exists, or nothing is mapped there, it panics. *)
Theorem unmap_spec owned m root va0 size :
  pt_ok owned m root -> usize va0 -> canonical va0 -> (page_bytes size | va0) ->
  (page_mapped m root va0 size ->
     exists m', unmap m root (va0 / 4096) size = Done (m', va0) /\ pt_ok owned m' root /\
       forall va, usize va -> sv39_translate m' root va =
         if decide (va0 <= va < va0 + page_bytes size) then None else sv39_translate m root va) /\
  (slot_free m root (page_path (va0 / 4096) size) (page_slot (va0 / 4096) size) = true ->
     exists msg, unmap m root (va0 / 4096) size = panic msg).
Proof.
  intros Hpt Hu0 Hc0 Hd0. split.
  - intros (m' & Heq & Hpt' & Hleaf)%(unmap_ok owned); [|done].
    exists m'. rewrite Heq. split_and!; [|done|].
    + by rewrite VirtAddr_from_VirtPageNum_id by (try done; by eapply page_aligned).
    + intros va Hu. by rewrite (translate_page _ _ _ _ _ (fun _ => None) Hc0 Hd0 Hleaf) by done.
  - intros Hfree. unfold unmap. rewrite (bump_find_pte_ok owned) by done.
    destruct (table_at m root _) as [t|] eqn:Ht; cbn [fmap option_fmap option_map mbind outcome_bind unwrap]; [|by eexists].
    rewrite (slot_free_table _ _ _ _ _ Hfree Ht). by eexists.
Qed.

(** After [bump_map] the page is mapped by one leaf. *)
Lemma bump_map_mapped b root va0 ppn flags size b' :
  canonical va0 -> (page_bytes size | va0) ->
  (forall path, Forall index_ok path -> length path = 3%nat ->
     leaf_walk (bm_memory b') root path =
     if decide (page_path (va0 / 4096) size ++ [page_slot (va0 / 4096) size] `prefix_of` path)
     then Some (drop (target_level size) path, PTE_new ppn (Z.lor flags PTEFlags.V))
     else leaf_walk (bm_memory b) root path) ->
  page_mapped (bm_memory b') root va0 size.
Proof.
  intros Hc0 Hd0 Hleaf. destruct (va_path_ok va0) as [HF Hlen].
  eexists _, _. rewrite Hleaf by done. rewrite decide_True; [split; [done|by rewrite length_drop, Hlen]|].
  apply page_prefix; try done. assert (0 < page_bytes size) by (by apply pow2_pos; pose proof (page_bits_bound size); lia). lia.
Qed.

(** C23: unmapping a page right after mapping it restores every translation. *)
Theorem map_unmap_roundtrip b root va0 ppn flags size :
  boot_ok b root -> page_supply 2 (bm_memblock b) ->
  usize va0 -> canonical va0 -> (page_bytes size | va0) -> 0 <= ppn < 2 ^ 44 -> leaf_flags flags ->
  slot_free (bm_memory b) root (page_path (va0 / 4096) size) (page_slot (va0 / 4096) size) = true ->
  exists b' m', bump_map b root (va0 / 4096) ppn flags size = Done b' /\
    unmap (bm_memory b') root (va0 / 4096) size = Done (m', va0) /\
    forall va, usize va -> sv39_translate m' root va = sv39_translate (bm_memory b) root va.
Proof.
  intros Hok Hs Hu0 Hc0 Hd0 Hp Hfl Hfree.
  pose proof (bump_map_ok b root (va0 / 4096) ppn flags size 0 Hok Hs Hp (proj1 Hfl) (proj1 (proj2 Hfl))) as Hmap.
  rewrite Hfree in Hmap. destruct Hmap as (b' & Heq & [_ Hpt] & _ & Hleaf & _).
  destruct (unmap_ok _ _ _ va0 size Hpt) as (m' & Heq' & _ & Hleaf'); [by eapply bump_map_mapped|].
  exists b', m'. rewrite Heq'. rewrite VirtAddr_from_VirtPageNum_id by (try done; by eapply page_aligned).
  split_and!; try done. intros va Hu. destruct (decide (canonical va)) as [Hc|Hc].
  - rewrite !sv39_translate_eq by done. destruct (va_path_ok va) as [HF Hlen]. rewrite Hleaf' by done.
    case_decide as Hpre; [|by rewrite Hleaf, decide_False by done].
    destruct Hpre as [rest ->]. rewrite <- app_assoc. cbn [app]. by rewrite (slot_free_leaf _ _ _ _ _ Hfree).
  - by rewrite !sv39_translate_noncanonical.
Qed.


(** ** Finding entries after boot *)

(** A large page covers the page number. *)
Definition in_large_page (m : Memory) (root vpn : Z) : Prop :=
  exists p t i, p ++ [i] `prefix_of` page_path vpn FourKB /\ table_at m root p = Some t /\
    PTE_is_valid (read_pa m (t + 8 * i)) = true /\ PTE_has_rwx (read_pa m (t + 8 * i)) = true.

(** C22: [find_pte], which does not look at permissions, agrees with [bump_find_pte] for 4 KiB
    pages wherever no large page covers the address: it finds the entry of the page, or
    nothing when a table on the way is missing. *)
Theorem find_pte_equiv owned m root vpn :
  pt_ok owned m root -> ~ in_large_page m root vpn ->
  find_pte m root vpn = bump_find_pte m root vpn FourKB.
Proof.
  intros Hpt Hno. pose proof (pt_ok_root _ _ _ Hpt) as (_ & _ & Hroot).
  pose proof (indices_ok vpn) as HF. unfold find_pte, bump_find_pte, in_large_page, page_path in *.
  rewrite indices_eq in *. rewrite !Forall_cons in HF. destruct HF as (H0 & H1 & H2 & _).
  set (i0 := vpn / 2 ^ 18 mod 512) in *. set (i1 := vpn / 2 ^ 9 mod 512) in *. set (i2 := vpn mod 512) in *.
  cbn [target_level Nat.sub take] in *.
  cbn [find_loop bump_find_loop index lookup list_lookup unwrap mbind outcome_bind].
  rewrite (entry_ptr_ok root i0) by done. cbn [mbind outcome_bind]. rewrite !decide_False by lia.
  destruct (PTE_is_valid (read_pa m (root + 8 * i0))) eqn:Hv0; cbn [negb]; [|done].
  destruct (PTE_has_rwx (read_pa m (root + 8 * i0))) eqn:Hr0.
  { destruct Hno. exists [], root, i0. split_and!; try done. by exists [i1]. }
  rewrite !next_table_direct.
  pose proof (PTE_ppn_bound (read_pa m (root + 8 * i0))). set (t1 := PTE_ppn (read_pa m (root + 8 * i0)) * 4096).
  rewrite (entry_ptr_ok t1 i1) by (unfold t1; done || lia). cbn [mbind outcome_bind].
  destruct (PTE_is_valid (read_pa m (t1 + 8 * i1))) eqn:Hv1; cbn [negb]; [|by rewrite !decide_False by lia].
  destruct (PTE_has_rwx (read_pa m (t1 + 8 * i1))) eqn:Hr1; [|by rewrite !decide_False by lia].
  destruct Hno. exists [i0], t1, i1. split_and!; try done. cbn. unfold is_table. by rewrite Hv0, Hr0.
Qed.

(** ** Witnesses *)

(** A machine with 128 MiB at 0x80000000 whose root table is the last page. *)
Definition example_root : Z := 0x87FFF000.
Definition example_memblock : Memblock :=
  match early_alloc (mkMemblock example_array RegionArray_new RegionArray_new) PAGE_SIZE PAGE_SIZE with
  | Done (_, mb) => mb
  | _ => MEMBLOCK_init
  end.
Definition example_boot : BootMem := mkBootMem ∅ example_memblock.

#[local] Opaque example_memblock.

Lemma example_boot_ok : boot_ok example_boot example_root.
Proof.
  destruct (early_alloc_ok (mkMemblock example_array RegionArray_new RegionArray_new) 4096 12)
    as (res & mb' & Heq & Hmb' & _ & Hres); try apply example_memblock_ok; try lia; [by repeat constructor|].
  assert (Hv : early_alloc (mkMemblock example_array RegionArray_new RegionArray_new) 4096 (2 ^ 12)
    = Done (Some example_root, example_memblock)) by (vm_compute; reflexivity).
  rewrite Hv in Heq. injection Heq as <- <-. destruct Hres as (_ & _ & Hav & _).
  split; [done|]. apply pt_ok_empty; [done| |by exists 0x87FFF|by split].
  intros a Ha [_ Hn]%Hav. done.
Qed.

Lemma example_supply : page_supply 3 example_memblock.
Proof. apply (bool_decide_unpack _). vm_compute. exact I. Qed.

(** Mapping the 2 MiB page of the kernel image in the upper half. *)
Lemma bump_map_spec_witness :
  exists b', bump_map example_boot example_root (0xFFFFFFFF80200000 / 4096) 0x80200
      (Z.lor PTEFlags.R PTEFlags.X) TwoMB = Done b' /\
    sv39_translate (bm_memory b') example_root 0xFFFFFFFF80212345 =
      Some (0x80212345, Z.lor (Z.lor PTEFlags.R PTEFlags.X) PTEFlags.V).
Proof.
  pose proof (bump_map_spec example_boot example_root 0xFFFFFFFF80200000 0x80200
    (Z.lor PTEFlags.R PTEFlags.X) TwoMB 0 example_boot_ok (page_supply_le 3 2 _ ltac:(lia) example_supply)
    ltac:(done) ltac:(right; done) ltac:(by exists 0x7FFFFFFFC01) ltac:(done)
    ltac:(by exists 0x401) ltac:(done)) as Hmap.
  assert (Hfree : slot_free (bm_memory example_boot) example_root
    (page_path (0xFFFFFFFF80200000 / 4096) TwoMB) (page_slot (0xFFFFFFFF80200000 / 4096) TwoMB) = true)
    by (vm_compute; reflexivity).
  rewrite Hfree in Hmap. destruct Hmap as (b' & Heq & _ & _ & Htr). exists b'. split; [exact Heq|].
  etransitivity; [apply Htr; split; lia|]. apply decide_True. change (page_bytes TwoMB) with 2097152. lia.
Defined.

Lemma map_unmap_roundtrip_witness :
  exists b' m', bump_map example_boot example_root (0x80200000 / 4096) 0x80200 PTEFlags.R FourKB = Done b' /\
    unmap (bm_memory b') example_root (0x80200000 / 4096) FourKB = Done (m', 0x80200000) /\
    sv39_translate m' example_root 0x80200000 = sv39_translate ∅ example_root 0x80200000.
Proof.
  destruct (map_unmap_roundtrip example_boot example_root 0x80200000 0x80200 PTEFlags.R FourKB
    example_boot_ok (page_supply_le 3 2 _ ltac:(lia) example_supply)
    ltac:(done) ltac:(left; done) ltac:(by exists 0x80200) ltac:(done) ltac:(done)
    ltac:(vm_compute; reflexivity)) as (b' & m' & Heq & Heq' & Htr).
  exists b', m'. split; [exact Heq|]. split; [exact Heq'|]. apply Htr. split; lia.
Defined.

Lemma find_pte_equiv_witness : find_pte ∅ example_root 0x80200 = bump_find_pte ∅ example_root 0x80200 FourKB.
Proof.
  apply (find_pte_equiv (table_page example_memblock)); [apply example_boot_ok|].
  intros (p & t & i & _ & _ & Hv & _). done.
Defined.

(** The example table with the page of the UART mapped. *)
Lemma example_mapped :
  exists b', bump_map example_boot example_root (0xFFFFFFFF10000000 / 4096) 0x10000 6 FourKB = Done b' /\
    boot_ok b' example_root /\ page_mapped (bm_memory b') example_root 0xFFFFFFFF10000000 FourKB.
Proof.
  pose proof (bump_map_ok example_boot example_root (0xFFFFFFFF10000000 / 4096) 0x10000 6 FourKB 0 example_boot_ok
    (page_supply_le 3 2 _ ltac:(lia) example_supply) ltac:(done) ltac:(done) ltac:(done)) as Hmap.
  assert (Hfree : slot_free (bm_memory example_boot) example_root
    (page_path (0xFFFFFFFF10000000 / 4096) FourKB) (page_slot (0xFFFFFFFF10000000 / 4096) FourKB) = true)
    by (vm_compute; reflexivity).
  rewrite Hfree in Hmap. destruct Hmap as (b' & Heq & Hok & _ & Hleaf & _). exists b'. split; [exact Heq|].
  split; [exact Hok|]. apply (bump_map_mapped example_boot example_root 0xFFFFFFFF10000000 0x10000 6 FourKB b');
    [right; lia|exists 0xFFFFFFFF10000; reflexivity|exact Hleaf].
Qed.

Lemma unmap_spec_witness :
  exists b m', boot_ok b example_root /\
    unmap (bm_memory b) example_root (0xFFFFFFFF10000000 / 4096) FourKB = Done (m', 0xFFFFFFFF10000000) /\
    sv39_translate m' example_root 0xFFFFFFFF10000005 = None.
Proof.
  destruct example_mapped as (b & _ & Hok & Hm).
  destruct (proj1 (unmap_spec _ (bm_memory b) example_root 0xFFFFFFFF10000000 FourKB (proj2 Hok)
    ltac:(split; lia) ltac:(right; lia) ltac:(exists 0xFFFFFFFF10000; reflexivity)) Hm) as (m' & Heq & _ & Htr).
  exists b, m'. split; [exact Hok|]. split; [exact Heq|].
  etransitivity; [apply Htr; split; lia|]. apply decide_True. change (page_bytes FourKB) with 4096. lia.
Defined.

(** ** Defects *)

(** [find_pte] does not test for large pages: below a 2 MiB page it takes the mapped
    frame itself for a table and returns a pointer into the data of that frame, while
    [bump_find_pte] reports that there is no entry. *)
Theorem find_pte_enters_large_page owned m root vpn t :
  pt_ok owned m root -> table_at m root [vpn / 2 ^ 18 mod 512] = Some t ->
  PTE_is_valid (read_pa m (t + 8 * (vpn / 2 ^ 9 mod 512))) = true ->
  PTE_has_rwx (read_pa m (t + 8 * (vpn / 2 ^ 9 mod 512))) = true ->
  let frame := PTE_ppn (read_pa m (t + 8 * (vpn / 2 ^ 9 mod 512))) * 4096 in
  find_pte m root vpn = Done (Some (frame + 8 * (vpn mod 512))) /\
  bump_find_pte m root vpn FourKB = Done None.
Proof.
  intros Hpt Ht Hval Hrwx frame. pose proof (pt_ok_root _ _ _ Hpt) as (_ & _ & Hroot).
  pose proof (indices_ok vpn) as HF. rewrite indices_eq in HF. rewrite !Forall_cons in HF.
  destruct HF as (H0 & H1 & H2 & _). split.
  - unfold find_pte. rewrite indices_eq.
    cbn [find_loop index lookup list_lookup unwrap mbind outcome_bind].
    rewrite entry_ptr_ok by done. cbn [mbind outcome_bind]. rewrite decide_False by lia.
    cbn [table_at] in Ht. unfold is_table in Ht.
    destruct (PTE_is_valid (read_pa m (root + 8 * (vpn / 2 ^ 18 mod 512)))); [|done].
    destruct (PTE_has_rwx (read_pa m (root + 8 * (vpn / 2 ^ 18 mod 512)))); [done|].
    injection Ht as Ht. cbn [negb]. rewrite next_table_direct, Ht.
    pose proof (PTE_ppn_bound (read_pa m (root + 8 * (vpn / 2 ^ 18 mod 512)))).
    pose proof (PTE_ppn_bound (read_pa m (t + 8 * (vpn / 2 ^ 9 mod 512)))).
    rewrite entry_ptr_ok by (done || lia). cbn [mbind outcome_bind]. rewrite decide_False, Hval by lia.
    cbn [negb]. rewrite next_table_direct, entry_ptr_ok by (done || lia). cbn [mbind outcome_bind].
    by rewrite decide_True by done.
  - rewrite (bump_find_pte_ok owned) by done. unfold page_path. rewrite indices_eq.
    cbn [target_level Nat.sub take]. change [vpn / 2 ^ 18 mod 512; vpn / 2 ^ 9 mod 512] with
      ([vpn / 2 ^ 18 mod 512] ++ [vpn / 2 ^ 9 mod 512]).
    rewrite table_at_snoc, Ht. cbn [mbind option_bind]. unfold is_table. by rewrite Hval, Hrwx.
Qed.

(** The page at 0x80200000 as one large page, and what is found for the page after it. *)
Lemma find_pte_enters_large_page_witness :
  exists b', bump_map example_boot example_root 0x80200 0x80200 6 TwoMB = Done b' /\
    find_pte (bm_memory b') example_root 0x80201 = Done (Some 0x80200008).
Proof.
  pose proof (bump_map_ok example_boot example_root 0x80200 0x80200 6 TwoMB 0 example_boot_ok
    (page_supply_le 3 2 _ ltac:(lia) example_supply) ltac:(done) ltac:(done) ltac:(done)) as Hmap.
  assert (Hfree : slot_free (bm_memory example_boot) example_root (page_path 0x80200 TwoMB) (page_slot 0x80200 TwoMB) = true)
    by (vm_compute; reflexivity).
  rewrite Hfree in Hmap. destruct Hmap as (b' & Heq & [_ Hpt] & _). exists b'. split; [exact Heq|].
  assert (Hc : (fun b => (table_at (bm_memory b) example_root [0x80201 / 2 ^ 18 mod 512],
      read_pa (bm_memory b) (0x87FFE000 + 8 * (0x80201 / 2 ^ 9 mod 512)))) <$>
    bump_map example_boot example_root 0x80200 0x80200 6 TwoMB = Done (Some 0x87FFE000, PTE_new 0x80200 7))
    by (vm_compute; reflexivity).
  rewrite Heq in Hc. injection Hc as Ht He.
  destruct (find_pte_enters_large_page _ (bm_memory b') example_root 0x80201 0x87FFE000 Hpt Ht) as [Hf _].
  - rewrite He. vm_compute. reflexivity.
  - rewrite He. vm_compute. reflexivity.
  - rewrite He in Hf. exact Hf.
Defined.

(** Two free frames, one of which holds a word left by its previous user. *)
Definition stale_frames : outcome Frames :=
  add_free_region (mkFrames (write_pa ∅ 0x80001038 (PTE_new 0x12345 7)) BuddySystemFrameAllocator_new) 0x80001 0x80003.

(** [find_create_pte] does not clear the tables it allocates (it builds the [FrameTracker]
    directly, not with [FrameTracker::new]): after mapping page 0 alone, a stale word of a recycled frame makes
    page 7, which was never mapped, translate to an arbitrary frame. *)
Theorem map_keeps_stale_entries :
  exists s s' frames, stale_frames = Done s /\
    sv39_translate (memory s) 0x80000000 0x7000 = None /\
    PageTable_map s 0x80000000 0 0x90000 PTEFlags.R [] = Done (s', frames) /\
    sv39_translate (memory s') 0x80000000 0 = Some (0x90000000, 3) /\
    sv39_translate (memory s') 0x80000000 0x7000 = Some (0x12345000, 7).
Proof.
  assert (Hc : (s ← stale_frames; '(s', fr) ← PageTable_map s 0x80000000 0 0x90000 PTEFlags.R [];
    Done (sv39_translate (memory s) 0x80000000 0x7000, sv39_translate (memory s') 0x80000000 0,
      sv39_translate (memory s') 0x80000000 0x7000))
    = Done (None, Some (0x90000000, 3), Some (0x12345000, 7))) by (vm_compute; reflexivity).
  destruct stale_frames as [s|]; [|discriminate Hc]. cbn [mbind outcome_bind] in Hc.
  destruct (PageTable_map s 0x80000000 0 0x90000 PTEFlags.R []) as [[s' fr]|] eqn:Hm; [|discriminate Hc].
  cbn [mbind outcome_bind] in Hc. injection Hc as H1 H2 H3. exists s, s', fr. by split_and!.
Qed.
