(* ===== verification/MemMap.v ===== *)
(** * The memory map

    [MEM_MAP] of [src/mm/mod.rs]: one [Page] for every page of RAM, with what the page is used for.
    The pointer of a slab to its cache is the index of the cache in [SLUB_ALLOCATOR]. *)

From S2P Require Import Prelude Address.

Inductive Slab :=
| Slub (freelist : VirtAddr) (inuse : Z) (cache : nat) (has_next : bool) (next_partial : PhysPageNum)
| SlubTail (head_page_ppn : PhysPageNum).

Inductive PageState := Reserved | SlabPage (s : Slab) | Free | PageTableState.

Record Page := mkPage { ref_count : Z; state : PageState }.

(** The globals [MEM_MAP] and [RAM_START_PPN]. *)
Record MemMap := mkMemMap { MEM_MAP : list Page; RAM_START_PPN : Z }.

(** [get_page_state] indexes [MEM_MAP] with [ppn - RAM_START_PPN], which wraps around below the
    start of RAM; out of bounds it panics. *)
Definition page_index (mm : MemMap) (ppn : PhysPageNum) : nat := Z.to_nat (ppn ⊟ RAM_START_PPN mm).

Definition get_page_state (mm : MemMap) (ppn : PhysPageNum) : outcome Page :=
  index (MEM_MAP mm) (page_index mm ppn).

(** Assignment through the reference that [get_page_state] returns. *)
Definition set_page_state (mm : MemMap) (ppn : PhysPageNum) (p : Page) : outcome MemMap :=
  l ← index_set (MEM_MAP mm) (page_index mm ppn) p;
  Done (mkMemMap l (RAM_START_PPN mm)).
