(* ===== verification/Slub.v ===== *)
(** * The SLUB allocator

    Models [src/mm/slub.rs]: caches of objects of one size ([KmemCache]) and the global
    allocator that chooses a cache by size. A slab is one page from the frame allocator (a power
    of two of pages for objects of a page or more); its free objects are linked through their
    first words, and the slabs with free objects of a cache through their entries in [MEM_MAP].

    The frame allocator and the memory behind it are the interface [FrameAllocator] and
    [FrameMemory], which [BUDDY_ALLOCATOR] implements. The [NonNull<KmemCache>] of a slab is the index of the cache.
    The loop of [alloc] runs with fuel given by the caller, since it need not terminate; the walk of
    [remove_from_partial] has fuel for one step per page of [MEM_MAP] and two more, so that only a cyclic list can
    exhaust it. Carving a slab has fuel for one step per object and one more. *)

From S2P Require Import Prelude Address FrameAllocator MemMap.

Record KmemCache := mkKmemCache {
  object_size : Z;
  active_slab_ppn : option PhysPageNum;
  partial_slabs_head : option PhysPageNum
}.

Definition KmemCache_new (requested_size : Z) : KmemCache :=
  let align := 8 in
  let min_size := align in
  let actual_size := Z.land (requested_size ⊞ align ⊟ 1) (wnot (align ⊟ 1)) in
  mkKmemCache (if actual_size <? min_size then min_size else actual_size) None None.

(** A cache with what it works on: the frames and [MEM_MAP]. *)
Record Heap (FA : Type) := mkHeap { h_frames : FA; h_map : MemMap; h_cache : KmemCache }.
Arguments mkHeap {FA} _ _ _.
Arguments h_frames {FA} _.
Arguments h_map {FA} _.
Arguments h_cache {FA} _.

Section Slub.
Context {FA : Type} `{FrameAllocator FA} `{FrameMemory FA}.

Definition set_frames (h : Heap FA) (fs : FA) : Heap FA := mkHeap fs (h_map h) (h_cache h).
Definition set_map (h : Heap FA) (mm : MemMap) : Heap FA := mkHeap (h_frames h) mm (h_cache h).
Definition set_active (h : Heap FA) (a : option PhysPageNum) : Heap FA :=
  mkHeap (h_frames h) (h_map h) (mkKmemCache (object_size (h_cache h)) a (partial_slabs_head (h_cache h))).
Definition set_partial (h : Heap FA) (p : option PhysPageNum) : Heap FA :=
  mkHeap (h_frames h) (h_map h) (mkKmemCache (object_size (h_cache h)) (active_slab_ppn (h_cache h)) p).

Definition read_word (fs : FA) (va : Z) : Z := fm_read fs (virt_to_phys va).
Definition write_word (fs : FA) (va v : Z) : FA := fm_write fs (virt_to_phys va) v.

(** ** A new slab *)

(** [while va < end]: links every object to the next one, the last to 0. *)
Fixpoint carve (fuel : nat) (fs : FA) (va end_ size : Z) : outcome FA :=
  match fuel with
  | O => Fault FuelF
  | S fuel =>
      if va <? end_ then
        let next_va := va ⊞ size in
        let next_addr := if next_va <? end_ then next_va else 0 in
        carve fuel (write_word fs va next_addr) (va ⊞ size) end_ size
      else Done fs
  end.

(** [while va + self.object_size <= end], for objects of a page or more. *)
Fixpoint carve_large (fuel : nat) (fs : FA) (va end_ size : Z) : outcome FA :=
  match fuel with
  | O => Fault FuelF
  | S fuel =>
      if va ⊞ size <=? end_ then
        let next_va := va ⊞ size in
        let next_addr := if next_va ⊞ size <=? end_ then next_va else 0 in
        carve_large fuel (write_word fs va next_addr) (va ⊞ size) end_ size
      else Done fs
  end.

(** The entry of a new slab: it becomes the head of the partial list. *)
Definition new_slab (id : nat) (h : Heap FA) (start_va : Z) : Slab :=
  let '(has_next, next_partial) :=
    match partial_slabs_head (h_cache h) with Some head_ppn => (true, head_ppn) | None => (false, 0) end in
  Slub (VirtAddr_from_usize start_va) 0 id has_next next_partial.

(** The [for i in 1..allocate_pages] loop over the tail pages; [n] are left. *)
Fixpoint mark_tails (n : nat) (mm : MemMap) (ppn i : Z) : outcome MemMap :=
  match n with
  | O => Done mm
  | S n =>
      let current_ppn := ppn ⊞ i in
      _ ← get_page_state mm current_ppn;
      mm ← set_page_state mm current_ppn (mkPage 1 (SlabPage (SlubTail ppn)));
      mark_tails n mm ppn (i + 1)
  end.

(** [Ok(ppn)] is [Some ppn], [Err(OutOfMemory)] is [None]. *)
Definition alloc_new_slab (id : nat) (h : Heap FA) : outcome (option PhysPageNum * Heap FA) :=
  let size := object_size (h_cache h) in
  if size <? PAGE_SIZE then
    '(r, fs) ← fa_alloc (h_frames h) 1;
    match r with
    | None => Done (None, set_frames h fs)
    | Some ppn =>
        let start_va := phys_to_virt (PhysAddr_from_PhysPageNum ppn) in
        let end_ := start_va ⊞ PAGE_SIZE in
        fs ← carve (Z.to_nat (PAGE_SIZE / size) + 1) fs start_va end_ size;
        let h := set_frames h fs in
        let slab := new_slab id h start_va in
        let h := set_partial h (Some ppn) in
        _ ← get_page_state (h_map h) ppn;
        mm ← set_page_state (h_map h) ppn (mkPage 1 (SlabPage slab));
        Done (Some ppn, set_map h mm)
    end
  else
    let required_pages := wshr (size ⊞ PAGE_SIZE ⊟ 1) PAGE_SIZE_BITS in
    let allocate_pages := next_power_of_two required_pages in
    '(r, fs) ← fa_alloc (h_frames h) allocate_pages;
    match r with
    | None => Done (None, set_frames h fs)
    | Some ppn =>
        let start_va := phys_to_virt (PhysAddr_from_PhysPageNum ppn) in
        let end_ := start_va ⊞ wshl allocate_pages PAGE_SIZE_BITS in
        fs ← carve_large (Z.to_nat (wshl allocate_pages PAGE_SIZE_BITS / size) + 1) fs start_va end_ size;
        let h := set_frames h fs in
        let slab := new_slab id h start_va in
        let h := set_partial h (Some ppn) in
        _ ← get_page_state (h_map h) ppn;
        mm ← set_page_state (h_map h) ppn (mkPage 1 (SlabPage slab));
        mm ← mark_tails (Z.to_nat (allocate_pages - 1)) mm ppn 1;
        Done (Some ppn, set_map h mm)
    end.

(** ** Allocation *)

(** [inuse] is a [u16]. *)
Definition wrap16 (z : Z) : Z := z mod 65536.

Fixpoint kmem_alloc (fuel : nat) (id : nat) (h : Heap FA) : outcome (Z * Heap FA) :=
  match fuel with
  | O => Fault FuelF
  | S fuel =>
      match active_slab_ppn (h_cache h) with
      | Some ppn =>
          page ← get_page_state (h_map h) ppn;
          match state page with
          | SlabPage (Slub freelist inuse cache has_next next_partial) =>
              if freelist =? 0 then kmem_alloc fuel id (set_active h None)
              else
                let next_free_addr := read_word (h_frames h) freelist in
                mm ← set_page_state (h_map h) ppn
                  (mkPage (ref_count page) (SlabPage (Slub next_free_addr (wrap16 (inuse + 1)) cache has_next next_partial)));
                Done (freelist, set_map h mm)
          | _ => panic "FATAL: active_slab_ppn does not point to a Slub Head!"
          end
      | None =>
          match partial_slabs_head (h_cache h) with
          | Some partial_head =>
              let h := set_partial h None in
              page ← get_page_state (h_map h) partial_head;
              match state page with
              | SlabPage (Slub _ _ _ has_next next_partial) =>
                  let h := if has_next then set_partial h (Some next_partial) else h in
                  kmem_alloc fuel id (set_active h (Some partial_head))
              | _ => panic "FATAL: Memory corruption! Found non-Head page in partial_slabs_head"
              end
          | None =>
              '(r, h) ← alloc_new_slab id h;
              match r with
              | Some new_ppn => kmem_alloc fuel id (set_active h (Some new_ppn))
              | None => Done (0, h)
              end
          end
      end
  end.

(** ** Freeing *)

Fixpoint remove_loop_partial (fuel : nat) (h : Heap FA) (target_ppn : PhysPageNum)
    (current_opt prev_opt : option PhysPageNum) : outcome (Heap FA) :=
  match fuel with
  | O => Fault FuelF
  | S fuel =>
      match current_opt with
      | None => panic "FATAL: Tried to remove PPN but it was not in the partial list!"
      | Some current_ppn =>
          current_page ← get_page_state (h_map h) current_ppn;
          match state current_page with
          | SlabPage (Slub _ _ _ has_next next_partial) =>
              let next_opt := if has_next then Some next_partial else None in
              if current_ppn =? target_ppn then
                match prev_opt with
                | Some prev_ppn =>
                    prev_page ← get_page_state (h_map h) prev_ppn;
                    match state prev_page with
                    | SlabPage (Slub f i c _ np) =>
                        let slab := match next_opt with Some n => Slub f i c true n | None => Slub f i c false np end in
                        mm ← set_page_state (h_map h) prev_ppn (mkPage (ref_count prev_page) (SlabPage slab));
                        Done (set_map h mm)
                    | _ => Done h
                    end
                | None => Done (set_partial h next_opt)
                end
              else remove_loop_partial fuel h target_ppn next_opt (Some current_ppn)
          | _ => panic "FATAL: Non-Slub page found in partial_slabs_head!"
          end
      end
  end.

Definition remove_from_partial (h : Heap FA) (target_ppn : PhysPageNum) : outcome (Heap FA) :=
  remove_loop_partial (length (MEM_MAP (h_map h)) + 2) h target_ppn (partial_slabs_head (h_cache h)) None.

(** The loop that marks the pages of a returned slab free; [n] are left. *)
Fixpoint mark_returned (n : nat) (mm : MemMap) (ppn i : Z) : outcome MemMap :=
  match n with
  | O => Done mm
  | S n =>
      let current_ppn := ppn ⊞ i in
      _ ← get_page_state mm current_ppn;
      mm ← set_page_state mm current_ppn (mkPage 0 Free);
      mark_returned n mm ppn (i + 1)
  end.

Definition free_object (h : Heap FA) (ptr : Z) (slab_ppn : PhysPageNum) : outcome (Heap FA) :=
  page ← get_page_state (h_map h) slab_ppn;
  match state page with
  | SlabPage (Slub freelist inuse cache has_next next_partial) =>
      let was_full := freelist =? 0 in
      let is_active := bool_decide (active_slab_ppn (h_cache h) = Some slab_ppn) in
      let h := set_frames h (write_word (h_frames h) ptr freelist) in
      let inuse := wrap16 (inuse - 1) in
      let freelist := VirtAddr_from_usize ptr in
      mm ← set_page_state (h_map h) slab_ppn
        (mkPage (ref_count page) (SlabPage (Slub freelist inuse cache has_next next_partial)));
      let h := set_map h mm in
      if inuse =? 0 then
        h ← (if is_active then Done (set_active h None) else remove_from_partial h slab_ppn);
        let required_pages := wshr (object_size (h_cache h) ⊞ PAGE_SIZE ⊟ 1) PAGE_SIZE_BITS in
        let allocate_pages := next_power_of_two (Z.max required_pages 1) in
        mm ← mark_returned (Z.to_nat allocate_pages) (h_map h) slab_ppn 0;
        fs ← fa_dealloc (h_frames h) slab_ppn allocate_pages;
        Done (mkHeap fs mm (h_cache h))
      else if was_full && negb is_active then
        let '(has_next, next_partial) :=
          match partial_slabs_head (h_cache h) with Some old_ppn => (true, old_ppn) | None => (false, next_partial) end in
        mm ← set_page_state (h_map h) slab_ppn
          (mkPage (ref_count page) (SlabPage (Slub freelist inuse cache has_next next_partial)));
        Done (set_partial (set_map h mm) (Some slab_ppn))
      else Done h
  | _ => panic "FATAL: free_object called on a non-Slub page!"
  end.

(** ** The global allocator *)

Record SlubAllocator := mkSlubAllocator { sl_frames : FA; sl_map : MemMap; caches : list KmemCache }.

(** [SLUB_ALLOCATOR]. *)
Definition SLUB_CACHES : list KmemCache := KmemCache_new <$> [8; 16; 32; 64; 128; 256; 512; 1024; 2048].

(** [layout.size().max(layout.align()).next_power_of_two().max(8)] *)
Definition actual_size (size align : Z) : Z := Z.max (next_power_of_two (Z.max size align)) 8.

(** Runs an operation of the cache with the given index. *)
Definition on_cache {A} (s : SlubAllocator) (idx : nat) (f : Heap FA -> outcome (A * Heap FA)) : outcome (A * SlubAllocator) :=
  cache ← index (caches s) idx;
  '(a, h) ← f (mkHeap (sl_frames s) (sl_map s) cache);
  Done (a, mkSlubAllocator (h_frames h) (h_map h) (<[idx := h_cache h]> (caches s))).

Definition GlobalAlloc_alloc (fuel : nat) (s : SlubAllocator) (size align : Z) : outcome (Z * SlubAllocator) :=
  let actual_size := actual_size size align in
  if actual_size <=? 2048 then
    let idx := Z.to_nat (trailing_zeros actual_size - 3) in
    on_cache s idx (kmem_alloc fuel idx)
  else panic "not implemented".

Definition free_in (s : SlubAllocator) (cache : nat) (ptr : Z) (ppn : PhysPageNum) : outcome SlubAllocator :=
  '(_, s) ← on_cache s cache (fun h => h ← free_object h ptr ppn; Done ((), h));
  Done s.

Definition GlobalAlloc_dealloc (s : SlubAllocator) (ptr size align : Z) : outcome SlubAllocator :=
  let actual_size := actual_size size align in
  let pa := virt_to_phys ptr in
  if 2048 <? actual_size then
    let ppn := PhysPageNum_from_usize pa in
    let pages := wshr actual_size PAGE_SIZE_BITS in
    mm ← mark_returned (Z.to_nat pages) (sl_map s) ppn 0;
    _ ← assert "called `Option::unwrap()` on a `None` value" (negb (pages =? 0));
    fs ← fa_dealloc (sl_frames s) ppn pages;
    Done (mkSlubAllocator fs mm (caches s))
  else
    let ppn := PhysPageNum_from_usize pa in
    page ← get_page_state (sl_map s) ppn;
    match state page with
    | SlabPage (Slub _ _ cache _ _) => free_in s cache ptr ppn
    | SlabPage (SlubTail head_page_ppn) =>
        head_page ← get_page_state (sl_map s) head_page_ppn;
        match state head_page with
        | SlabPage (Slub _ _ cache _ _) => free_in s cache ptr head_page_ppn
        | _ => panic "FATAL: SlubTail does not point to a Slub Head!"
        end
    | _ => panic "FATAL: Tried to dealloc a pointer not belonging to SLUB!"
    end.
End Slub.
Arguments SlubAllocator FA : clear implicits.
Arguments mkSlubAllocator {FA} _ _ _.
Arguments sl_frames {FA} _.
Arguments sl_map {FA} _.
Arguments caches {FA} _.
