(* ===== verification/SlubProofs.v ===== *)
(** * Correctness of the SLUB allocator

    A cache is described by its slabs: a map from the page number of a slab to the list of its free objects, in
    the order of the free list, and the list of the partial slabs. [kmem_alloc] takes an object off one of these lists;
    it terminates because it visits every partial slab at most once. [free_object] puts an object back, provided
    that every slab is placed as its comments say: a slab that is not active is on the partial list exactly
    when it has a free object, and the active slab is not on it. *)

From S2P Require Import Prelude Address FrameAllocator MemMap Slub.

(** ** Objects *)

(** The sizes of the nine caches. *)
Definition size_ok (size : Z) : Prop := exists k, 3 <= k <= 11 /\ size = 2 ^ k.

Definition slab_base (ppn : PhysPageNum) : Z := PHYS_VIRT_OFFSET + ppn * 4096.
Definition slab_cap (size : Z) : nat := Z.to_nat (4096 / size).
Definition object (size : Z) (ppn : PhysPageNum) (i : nat) : Z := slab_base ppn + Z.of_nat i * size.
Definition objects (size : Z) (ppn : PhysPageNum) : list Z := object size ppn <$> seq 0 (slab_cap size).

Lemma size_ok_cap size : size_ok size -> 8 <= size <= 2048 /\ Z.of_nat (slab_cap size) * size = 4096 /\ (2 <= slab_cap size)%nat.
Proof.
  intros (k & Hk & ->). pose proof (pow2_le_mono 3 k ltac:(lia)). pose proof (pow2_le_mono k 11 ltac:(lia)).
  assert (H4 : 4096 = 2 ^ (12 - k) * 2 ^ k) by (rewrite <- Z.pow_add_r by lia; by replace (12 - k + k) with 12 by lia).
  unfold slab_cap. rewrite H4, Z.div_mul by lia. pose proof (pow2_le_mono 1 (12 - k) ltac:(lia)). lia.
Qed.

(** The physical address of an object's first word. *)
Lemma object_phys size ppn i :
  size_ok size -> 0 <= ppn < DIRECT_MAP_PAGES -> (i < slab_cap size)%nat ->
  virt_to_phys (object size ppn i) = ppn * 4096 + Z.of_nat i * size /\ 0 <= Z.of_nat i * size < 4096.
Proof.
  intros Hs Hp Hi. destruct (size_ok_cap size Hs) as (? & ? & ?).
  assert (Hb : 0 <= Z.of_nat i * size < 4096) by nia. split; [|done].
  unfold virt_to_phys, object, slab_base, PHYS_VIRT_OFFSET, DIRECT_MAP_PAGES in *. rewrite wsub_small by lia. lia.
Qed.

Lemma object_inj size ppn i j : size_ok size -> object size ppn i = object size ppn j -> i = j.
Proof. intros Hs%size_ok_cap. unfold object. nia. Qed.

Lemma object_page size ppn qpn o :
  size_ok size -> o ∈ objects size ppn -> o ∈ objects size qpn -> ppn = qpn.
Proof.
  intros Hs (i & -> & Hi%elem_of_seq)%list_elem_of_fmap (j & Hj & Hj'%elem_of_seq)%list_elem_of_fmap.
  destruct (size_ok_cap size Hs) as (? & ? & ?). unfold object, slab_base in Hj.
  assert (0 <= Z.of_nat i * size < 4096) by nia. assert (0 <= Z.of_nat j * size < 4096) by nia. lia.
Qed.

Lemma objects_NoDup size ppn : size_ok size -> NoDup (objects size ppn).
Proof.
  intros Hs. apply NoDup_fmap_2_strong; [|apply NoDup_seq]. intros i j _ _. by apply object_inj.
Qed.

Lemma objects_length size ppn : length (objects size ppn) = slab_cap size.
Proof. unfold objects. by rewrite length_fmap, length_seq. Qed.

Lemma objects_nonzero size ppn o : size_ok size -> 0 <= ppn -> o ∈ objects size ppn -> 0 < o.
Proof.
  intros Hs%size_ok_cap Hp (i & -> & _)%list_elem_of_fmap. unfold object, slab_base, PHYS_VIRT_OFFSET. nia.
Qed.

(** ** [MEM_MAP] *)

Section mem_map.
Context (lo hi : Z).

Definition map_ok (mm : MemMap) : Prop :=
  RAM_START_PPN mm = lo /\ length (MEM_MAP mm) = Z.to_nat (hi - lo).

Definition page_set (mm : MemMap) (p : PhysPageNum) (v : Page) : MemMap :=
  mkMemMap (<[page_index mm p := v]> (MEM_MAP mm)) (RAM_START_PPN mm).

Context (Hlo : 0 < lo) (Hhi : hi < DIRECT_MAP_PAGES).

Lemma page_index_eq mm p : map_ok mm -> lo <= p < hi -> page_index mm p = Z.to_nat (p - lo).
Proof using Hlo Hhi.
  intros [Hrs _] Hp. unfold page_index. rewrite Hrs. unfold DIRECT_MAP_PAGES in *. by rewrite wsub_small by lia.
Qed.

Lemma page_set_ok mm p v : map_ok mm -> lo <= p < hi -> set_page_state mm p v = Done (page_set mm p v) /\ map_ok (page_set mm p v).
Proof using Hlo Hhi.
  intros Hmm Hp. unfold set_page_state, page_set. rewrite page_index_eq by done. destruct Hmm as [Hrs Hl].
  rewrite index_set_Done by lia. split; [done|]. split; [done|]. cbn [MEM_MAP]. by rewrite length_insert.
Qed.

Lemma get_page_set mm p v q :
  map_ok mm -> lo <= p < hi -> lo <= q < hi ->
  get_page_state (page_set mm p v) q = if decide (q = p) then Done v else get_page_state mm q.
Proof using Hlo Hhi.
  intros Hmm Hp Hq. destruct (page_set_ok mm p v Hmm Hp) as [_ Hmm'].
  unfold get_page_state. rewrite (page_index_eq (page_set mm p v)), (page_index_eq mm q) by done.
  unfold page_set, index. cbn [MEM_MAP]. rewrite (page_index_eq mm p) by done. destruct Hmm as [_ Hl].
  case_decide as Hqp; [subst q; by rewrite list_lookup_insert_eq by lia|].
  by rewrite list_lookup_insert_ne by lia.
Qed.

Lemma get_page_Some mm p : map_ok mm -> lo <= p < hi -> exists v, get_page_state mm p = Done v.
Proof using Hlo Hhi.
  intros Hmm Hp. unfold get_page_state. rewrite page_index_eq by done. destruct Hmm as [_ Hl].
  destruct (lookup_lt_is_Some_2 (MEM_MAP mm) (Z.to_nat (p - lo))) as [v Hv]; [lia|].
  exists v. by apply index_Done.
Qed.
End mem_map.

(** What an entry says of the slab's objects and of its place in the partial list. *)
Definition slab_view (mm : MemMap) (p : PhysPageNum) : option (VirtAddr * Z * nat) :=
  match get_page_state mm p with
  | Done (mkPage _ (SlabPage (Slub freelist inuse cache _ _))) => Some (freelist, inuse, cache)
  | _ => None
  end.

Definition next_of (mm : MemMap) (p : PhysPageNum) : option (option PhysPageNum) :=
  match get_page_state mm p with
  | Done (mkPage _ (SlabPage (Slub _ _ _ has_next next_partial))) => Some (if has_next then Some next_partial else None)
  | _ => None
  end.

(** The pages from [hd] on along [next_partial] are [l]. *)
Fixpoint partial_list (mm : MemMap) (hd : option PhysPageNum) (l : list PhysPageNum) : Prop :=
  match l with
  | [] => hd = None
  | p :: l => hd = Some p /\ exists n, next_of mm p = Some n /\ partial_list mm n l
  end.

Lemma partial_list_ext mm mm' l : forall hd,
  (forall p, p ∈ l -> next_of mm' p = next_of mm p) -> partial_list mm hd l -> partial_list mm' hd l.
Proof.
  induction l as [|p l IH]; intros hd Hext; cbn [partial_list]; [done|].
  intros (-> & n & Hn & Hl). split; [done|]. exists n. split; [rewrite Hext; [done|constructor]|].
  apply IH; [|done]. intros q Hq. apply Hext. by constructor.
Qed.

Lemma slab_view_entry mm p fl iu c :
  slab_view mm p = Some (fl, iu, c) ->
  exists rc hn np, get_page_state mm p = Done (mkPage rc (SlabPage (Slub fl iu c hn np))) /\
    next_of mm p = Some (if hn then Some np else None).
Proof.
  unfold slab_view, next_of. destruct (get_page_state mm p) as [[rc [|[]| |]]|]; try done.
  intros [= -> -> ->]. by eexists _, _, _.
Qed.

Lemma partial_list_unlink mm mm' hd l0 p t l2 n : forall (Hnd : NoDup (l0 ++ p :: t :: l2)),
  partial_list mm hd (l0 ++ p :: t :: l2) -> next_of mm t = Some n ->
  (forall q, q ∈ l0 ++ p :: l2 -> next_of mm' q = if decide (q = p) then Some n else next_of mm q) ->
  partial_list mm' hd (l0 ++ p :: l2).
Proof.
  revert hd. induction l0 as [|q l0 IH]; intros hd Hnd; cbn [app partial_list].
  - intros (-> & n1 & Hn1 & -> & n2 & Hn2 & Hl2) Hn Hext. rewrite Hn in Hn2. injection Hn2 as <-. split; [done|].
    exists n. rewrite Hext, decide_True by set_solver. split; [done|]. revert Hl2. apply partial_list_ext.
    intros q Hq. rewrite Hext, decide_False; [done| |set_solver]. intros ->. cbn in Hnd. rewrite !NoDup_cons in Hnd. set_solver.
  - cbn [app] in Hnd. apply NoDup_cons in Hnd as [Hq Hnd]. intros (-> & n1 & Hn1 & Hl) Hn Hext. split; [done|]. exists n1.
    rewrite Hext, decide_False; [|set_solver|set_solver]. split; [done|]. apply IH; [done|done|done|]. intros q' Hq'. apply Hext. set_solver.
Qed.

Section Slub.
Context {FA : Type} `{!FrameAllocator FA} `{!FrameMemory FA} `{!FrameBounds FA}.
Context `{!FrameAllocatorLaws FA} `{!FrameMemoryLaws FA} `{!FrameBoundsLaws FA}.

(** The objects from [hd] on, each linked to the next by its first word, are [l]. *)
Fixpoint free_list (fs : FA) (hd : Z) (l : list Z) : Prop :=
  match l with
  | [] => hd = 0
  | o :: l => hd = o /\ free_list fs (read_word fs o) l
  end.

Lemma free_list_ext fs fs' l : forall hd,
  (forall o, o ∈ l -> read_word fs' o = read_word fs o) -> free_list fs hd l -> free_list fs' hd l.
Proof using.
  induction l as [|o l IH]; intros hd Hext; cbn [free_list]; [done|].
  intros [-> Hl]. split; [done|]. rewrite Hext by constructor. apply IH; [|done]. intros o' Ho'. apply Hext. by constructor.
Qed.

Context (lo hi : Z) (Hlo : 0 < lo) (Hhi : hi < DIRECT_MAP_PAGES).

(** ** Carving a slab *)

(** Carving from object [i] on, with [n] objects left, links them into a list and writes only
    their first words. *)
Lemma carve_ok size ppn B (n : nat) : forall (i : nat) fs,
  size_ok size -> lo <= ppn < hi -> B !! ppn = Some 1 -> fa_within fs B lo hi -> (i + n = slab_cap size)%nat ->
  exists fs', carve (n + 1) fs (object size ppn i) (slab_base ppn + 4096) size = Done fs' /\ fa_within fs' B lo hi /\
    free_list fs' (if decide (n = 0)%nat then 0 else object size ppn i) (object size ppn <$> seq i n) /\
    forall a, ~ (ppn * 4096 + Z.of_nat i * size <= a < (ppn + 1) * 4096) -> fm_read fs' a = fm_read fs a.
Proof using All.
  intros i fs Hs Hp HB. destruct (size_ok_cap size Hs) as (Hsz & Hcap & _). revert i fs.
  assert (Hbase : 0 <= slab_base ppn /\ slab_base ppn + 8192 <= USIZE).
  { unfold slab_base, PHYS_VIRT_OFFSET, DIRECT_MAP_PAGES in *. lia. }
  induction n as [|n IH]; intros i fs Hw Hin; cbn [Nat.add carve].
  { unfold object. destruct (Z.ltb_spec (slab_base ppn + Z.of_nat i * size) (slab_base ppn + 4096)); [nia|].
    exists fs. by rewrite decide_True. }
  unfold object at 1. destruct (Z.ltb_spec (slab_base ppn + Z.of_nat i * size) (slab_base ppn + 4096)); [|nia].
  assert (Hi : (i < slab_cap size)%nat) by lia.
  destruct (object_phys size ppn i Hs ltac:(lia) Hi) as [Hpa Hib].
  assert (Hnext : object size ppn i ⊞ size = object size ppn (S i)) by (unfold object; rewrite wadd_small by nia; lia).
  fold (object size ppn i). rewrite Hnext. set (nx := if _ <? _ then _ else 0).
  destruct (IH (S i) (write_word fs (object size ppn i) nx)) as (fs' & Heq & Hw' & Hfl & Hfr); [|lia|].
  { unfold write_word. apply fa_within_write; [done|]. exists ppn, 1. rewrite Hpa. split; [done|lia]. }
  exists fs'. split; [exact Heq|]. split; [done|].
  assert (Hrd : read_word fs' (object size ppn i) = nx).
  { unfold read_word. rewrite Hfr by (rewrite Hpa; lia). unfold write_word. apply fm_read_write. }
  split.
  - rewrite decide_False by done. cbn [seq fmap list_fmap free_list]. split; [done|]. rewrite Hrd. revert Hfl.
    assert (nx = if decide (n = 0)%nat then 0 else object size ppn (S i)) as ->; [|done].
    unfold nx, object. destruct (Z.ltb_spec (slab_base ppn + Z.of_nat (S i) * size) (slab_base ppn + 4096)); case_decide; [nia|done|done|nia].
  - intros a Ha. rewrite Hfr by lia. unfold write_word. apply fm_read_write_ne. rewrite Hpa. lia.
Qed.

(** ** The invariant *)

Record slab_ok (id : nat) (size : Z) (mm : MemMap) (fs : FA) (B : gmap Z Z) (p : PhysPageNum) (free : list Z) : Prop := {
  so_page : lo <= p < hi;
  so_block : B !! p = Some 1;
  so_nodup : NoDup free;
  so_free : free ⊆ objects size p;
  so_entry : exists fl, slab_view mm p = Some (fl, Z.of_nat (slab_cap size - length free), id) /\ free_list fs fl free
}.

Record heap_ok (id : nat) (B : gmap Z Z) (S : gmap PhysPageNum (list Z)) (l : list PhysPageNum) (h : Heap FA) : Prop := {
  ho_size : size_ok (object_size (h_cache h));
  ho_frames : fa_within (h_frames h) B lo hi;
  ho_map : map_ok lo hi (h_map h);
  ho_slabs p free : S !! p = Some free -> slab_ok id (object_size (h_cache h)) (h_map h) (h_frames h) B p free;
  ho_active p : active_slab_ppn (h_cache h) = Some p -> is_Some (S !! p);
  ho_partial : partial_list (h_map h) (partial_slabs_head (h_cache h)) l;
  ho_partial_nodup : NoDup l;
  ho_partial_slabs p : p ∈ l -> is_Some (S !! p)
}.

Lemma slab_capacity id size mm fs B p free :
  size_ok size -> slab_ok id size mm fs B p free -> (length free <= slab_cap size)%nat.
Proof using.
  intros Hs [_ _ Hnd Hin _]. rewrite <- (objects_length size p). by apply submseteq_length, NoDup_submseteq.
Qed.

(** The words of free objects lie in the block of their slab. *)
Lemma object_in_block size B p o :
  size_ok size -> lo <= p < hi -> B !! p = Some 1 -> o ∈ objects size p ->
  in_blocks B (virt_to_phys o) /\ p * 4096 <= virt_to_phys o < (p + 1) * 4096.
Proof using Hlo Hhi.
  intros Hs Hp HB (i & -> & Hi%elem_of_seq)%list_elem_of_fmap.
  destruct (object_phys size p i Hs ltac:(lia) ltac:(lia)) as [-> ?].
  split; [exists p, 1; split; [done|lia]|lia].
Qed.

(** A slab is as it was when its entry, its block and its words are. *)
Lemma slab_ok_ext id size mm mm' fs fs' B B' p free :
  size_ok size -> slab_ok id size mm fs B p free ->
  slab_view mm' p = slab_view mm p -> B' !! p = Some 1 ->
  (forall o, o ∈ free -> fm_read fs' (virt_to_phys o) = fm_read fs (virt_to_phys o)) ->
  slab_ok id size mm' fs' B' p free.
Proof using.
  intros Hs [Hp HB Hnd Hin (fl & Hv & Hfl)] Hview HB' Hrd. split; try done. exists fl. rewrite Hview. split; [done|].
  revert Hfl. apply free_list_ext. intros o Ho. by apply Hrd.
Qed.

Lemma set_entry_view mm p q rc fl iu c hn np :
  map_ok lo hi mm -> lo <= p < hi -> lo <= q < hi ->
  slab_view (page_set mm p (mkPage rc (SlabPage (Slub fl iu c hn np)))) q =
    (if decide (q = p) then Some (fl, iu, c) else slab_view mm q) /\
  next_of (page_set mm p (mkPage rc (SlabPage (Slub fl iu c hn np)))) q =
    (if decide (q = p) then Some (if hn then Some np else None) else next_of mm q).
Proof using Hlo Hhi.
  intros Hmm Hp Hq. unfold slab_view, next_of. rewrite (get_page_set lo hi) by done. by case_decide.
Qed.

Definition set_entry (h : Heap FA) (p : PhysPageNum) (v : Page) : Heap FA := set_map h (page_set (h_map h) p v).

(** Replacing the free list of one slab: the entry of the slab keeps its place in the partial list, the words of the
    objects in the other slabs are kept. *)
Lemma heap_ok_update id B S l h p free fs rc fl (hn : bool) np :
  heap_ok id B S l h -> slab_ok id (object_size (h_cache h)) (h_map h) (h_frames h) B p free ->
  S !! p = Some free -> next_of (h_map h) p = Some (if hn then Some np else None) ->
  forall free', NoDup free' -> free' ⊆ objects (object_size (h_cache h)) p -> free_list fs fl free' ->
  fa_within fs B lo hi ->
  (forall q o, q <> p -> lo <= q < hi -> o ∈ objects (object_size (h_cache h)) q -> read_word fs o = read_word (h_frames h) o) ->
  heap_ok id B (<[p := free']> S) l
    (set_entry (set_frames h fs) p
       (mkPage rc (SlabPage (Slub fl (Z.of_nat (slab_cap (object_size (h_cache h)) - length free')) id hn np)))).
Proof using Hlo Hhi.
  intros [Hs Hw Hmm Hsl Hact Hpl Hnd Hps] [Hp HB Hn Hin _] HSp Hnx free' Hn' Hin' Hfl Hw' Hrd.
  destruct (page_set_ok lo hi Hlo Hhi (h_map h) p
    (mkPage rc (SlabPage (Slub fl (Z.of_nat (slab_cap (object_size (h_cache h)) - length free')) id hn np))) Hmm Hp) as [_ Hmm'].
  pose proof (fun q Hq => set_entry_view (h_map h) p q rc fl
    (Z.of_nat (slab_cap (object_size (h_cache h)) - length free')) id hn np Hmm Hp Hq) as Hv.
  split; cbn [set_entry set_map set_frames h_cache h_map h_frames]; try done.
  - intros q fr Hq. apply lookup_insert_Some in Hq as [[<- <-]|[Hne Hq]].
    + split; try done. exists fl. destruct (Hv p Hp) as [-> _]. by rewrite decide_True.
    + pose proof (Hsl q fr Hq) as Hso. destruct (Hso) as [Hqp HBq _ Hqin _].
      apply (slab_ok_ext id _ (h_map h) _ (h_frames h) _ B); [done|done| |done|].
      * destruct (Hv q Hqp) as [-> _]. by rewrite decide_False.
      * intros o Ho. apply (Hrd q o); [done|done|by apply Hqin].
  - intros q Hq. rewrite lookup_insert. case_decide; [done|]. by apply Hact.
  - revert Hpl. apply partial_list_ext. intros q Hq. destruct (Hps q Hq) as [fr Hfr].
    destruct (Hv q (so_page _ _ _ _ _ _ _ (Hsl q fr Hfr))) as [_ ->]. case_decide; [by subst q|done].
  - intros q Hq. rewrite lookup_insert. case_decide; [done|]. by apply Hps.
Qed.

Lemma set_frames_id (h : Heap FA) : set_frames h (h_frames h) = h.
Proof using. by destruct h. Qed.

(** ** The steps of [alloc] *)

Lemma kmem_alloc_take f id B S l h p o free :
  heap_ok id B S l h -> active_slab_ppn (h_cache h) = Some p -> S !! p = Some (o :: free) ->
  exists h', kmem_alloc (Datatypes.S f) id h = Done (o, h') /\ heap_ok id B (<[p := free]> S) l h' /\
    h_frames h' = h_frames h /\ h_cache h' = h_cache h /\
    forall q, lo <= q < hi -> q <> p -> get_page_state (h_map h') q = get_page_state (h_map h) q.
Proof using All.
  intros Hok Hact HS. pose proof (ho_slabs _ _ _ _ _ Hok p _ HS) as Hso. pose proof Hso as [Hp HB Hnd Hin (fl & Hv & Hfl & Hrest)].
  subst fl. pose proof (ho_size _ _ _ _ _ Hok) as Hs. pose proof (ho_map _ _ _ _ _ Hok) as Hmm.
  pose proof (slab_capacity _ _ _ _ _ _ _ Hs Hso) as Hcap. cbn [length] in Hcap, Hv.
  destruct (slab_view_entry _ _ _ _ _ Hv) as (rc & hn & np & Hget & Hnx).
  assert (Ho : 0 < o) by (eapply objects_nonzero; [done| |apply Hin; constructor]; lia).
  cbn [kmem_alloc]. rewrite Hact, Hget. cbn [mbind outcome_bind state ref_count].
  destruct (Z.eqb_spec o 0); [lia|].
  assert (wrap16 (Z.of_nat (slab_cap (object_size (h_cache h)) - Datatypes.S (length free)) + 1) =
    Z.of_nat (slab_cap (object_size (h_cache h)) - length free)) as ->.
  { destruct (size_ok_cap _ Hs) as (? & ? & ?). unfold wrap16. rewrite Z.mod_small; [lia|nia]. }
  destruct (page_set_ok lo hi Hlo Hhi (h_map h) p (mkPage rc (SlabPage (Slub (read_word (h_frames h) o)
    (Z.of_nat (slab_cap (object_size (h_cache h)) - length free)) id hn np))) Hmm Hp) as [-> _].
  cbn [mbind outcome_bind]. eexists. split; [reflexivity|]. split_and!; try done.
  - apply NoDup_cons in Hnd as [_ Hnd].
    pose proof (heap_ok_update id B S l h p (o :: free) (h_frames h) rc (read_word (h_frames h) o) hn np
      Hok Hso HS Hnx free Hnd ltac:(set_solver) Hrest (ho_frames _ _ _ _ _ Hok) ltac:(done)) as Hok'.
    by rewrite set_frames_id in Hok'.
  - intros q Hq Hne. cbn [h_map set_map]. rewrite (get_page_set lo hi) by done. by rewrite decide_False.
Qed.

Lemma kmem_alloc_full f id B S l h p :
  heap_ok id B S l h -> active_slab_ppn (h_cache h) = Some p -> S !! p = Some [] ->
  kmem_alloc (Datatypes.S f) id h = kmem_alloc f id (set_active h None) /\ heap_ok id B S l (set_active h None).
Proof using All.
  intros Hok Hact HS. destruct (ho_slabs _ _ _ _ _ Hok p _ HS) as [Hp HB Hnd Hin (fl & Hv & Hfl)]. cbn in Hfl. subst fl.
  destruct (slab_view_entry _ _ _ _ _ Hv) as (rc & hn & np & Hget & Hnx).
  split; [cbn [kmem_alloc]; by rewrite Hact, Hget|]. by destruct Hok; split.
Qed.

Lemma kmem_alloc_partial f id B S l h p :
  heap_ok id B S (p :: l) h -> active_slab_ppn (h_cache h) = None ->
  exists h', kmem_alloc (Datatypes.S f) id h = kmem_alloc f id h' /\ heap_ok id B S l h' /\
    active_slab_ppn (h_cache h') = Some p /\ h_frames h' = h_frames h /\ h_map h' = h_map h /\
    object_size (h_cache h') = object_size (h_cache h).
Proof using All.
  intros Hok Hact. pose proof (ho_partial _ _ _ _ _ Hok) as (Hhd & n & Hn & Hl).
  destruct (ho_partial_slabs _ _ _ _ _ Hok p ltac:(constructor)) as [free Hfree].
  destruct (ho_slabs _ _ _ _ _ Hok p _ Hfree) as [Hp HB Hnd Hin (fl & Hv & Hfl)].
  destruct (slab_view_entry _ _ _ _ _ Hv) as (rc & hn & np & Hget & Hnx). rewrite Hn in Hnx. injection Hnx as ->.
  cbn [kmem_alloc]. rewrite Hact, Hhd. cbn [h_map set_partial]. rewrite Hget. cbn [mbind outcome_bind state].
  eexists. split; [reflexivity|]. destruct Hok as [? ? ? ? ? ? Hnd' Hps]. apply NoDup_cons in Hnd' as [_ Hnd'].
  split; [|by destruct hn]. split; try (by destruct hn).
  - destruct hn; cbn [set_active set_partial h_cache active_slab_ppn]; intros q [= <-]; by exists free.
  - intros q Hq. apply Hps. by constructor.
Qed.

(** The words of the blocks [B] and the entries of pages that are not slabs of the cache are as before. *)
Definition kept (B : gmap Z Z) (S : gmap PhysPageNum (list Z)) (h h' : Heap FA) : Prop :=
  (forall a, in_blocks B a -> fm_read (h_frames h') a = fm_read (h_frames h) a) /\
  (forall q, lo <= q < hi -> S !! q = None -> get_page_state (h_map h') q = get_page_state (h_map h) q) /\
  object_size (h_cache h') = object_size (h_cache h).

(** A new block is a page of its own. *)
Lemma new_block_apart fs B ppn a :
  fa_within fs (<[ppn := 1]> B) lo hi -> B !! ppn = None -> in_blocks B a -> ~ (ppn * 4096 <= a < (ppn + 1) * 4096).
Proof using All.
  intros Hw HB (q & n & Hq & Ha) Hin. assert (Hne : q <> ppn) by congruence.
  destruct (fa_owned_disjoint fs (<[ppn := 1]> B) q n ppn 1) as [Hd|Hd]; try lia;
    [by apply (fa_within_owns _ _ lo hi)|by rewrite lookup_insert_ne|by rewrite lookup_insert_eq].
Qed.

Lemma slab_base_va ppn :
  lo <= ppn < hi -> phys_to_virt (PhysAddr_from_PhysPageNum ppn) = slab_base ppn /\
    VirtAddr_from_usize (slab_base ppn) = slab_base ppn /\ slab_base ppn ⊞ PAGE_SIZE = slab_base ppn + 4096.
Proof using Hlo Hhi.
  intros Hp. unfold DIRECT_MAP_PAGES in Hhi. rewrite PhysAddr_from_PhysPageNum_mul, phys_to_virt_small by lia.
  rewrite PAGE_SIZE_eq. unfold slab_base, PHYS_VIRT_OFFSET. split; [lia|]. rewrite wadd_small by lia. split; [|done].
  apply VirtAddr_from_usize_id; [unfold usize; lia|right; lia].
Qed.

(** A heap with one more slab, the only one on the partial list. *)
Lemma heap_ok_new id B S h fs ppn :
  heap_ok id B S [] h -> partial_slabs_head (h_cache h) = None -> lo <= ppn < hi -> B !! ppn = None ->
  fa_within fs (<[ppn := 1]> B) lo hi ->
  free_list fs (slab_base ppn) (objects (object_size (h_cache h)) ppn) ->
  (forall a, in_blocks B a -> fm_read fs a = fm_read (h_frames h) a) ->
  heap_ok id (<[ppn := 1]> B) (<[ppn := objects (object_size (h_cache h)) ppn]> S) [ppn]
    (set_active (set_partial (set_entry (set_frames h fs) ppn (mkPage 1 (SlabPage (Slub (slab_base ppn) 0 id false 0)))) (Some ppn))
       (Some ppn)).
Proof using All.
  intros [Hs Hw Hmm Hsl Hact Hpl Hnd Hps] Hhd Hp HB Hw' Hfl Hfr.
  destruct (page_set_ok lo hi Hlo Hhi (h_map h) ppn (mkPage 1 (SlabPage (Slub (slab_base ppn) 0 id false 0))) Hmm Hp) as [_ Hmm'].
  pose proof (fun q Hq => set_entry_view (h_map h) ppn q 1 (slab_base ppn) 0 id false 0 Hmm Hp Hq) as Hv.
  split; cbn [set_active set_partial set_entry set_map set_frames h_cache h_map h_frames object_size active_slab_ppn partial_slabs_head];
    try done.
  - intros q fr Hq. apply lookup_insert_Some in Hq as [[<- <-]|[Hne Hq]].
    + split; try done; [by rewrite lookup_insert_eq|by apply objects_NoDup|]. exists (slab_base ppn).
      destruct (Hv ppn Hp) as [-> _]. by rewrite decide_True, objects_length, Nat.sub_diag by done.
    + pose proof (Hsl q fr Hq) as Hso. destruct Hso as [Hqp HBq _ Hqin _].
      apply (slab_ok_ext id _ (h_map h) _ (h_frames h) _ B); [done|by apply Hsl| |by rewrite lookup_insert_ne|].
      * destruct (Hv q Hqp) as [-> _]. by rewrite decide_False.
      * intros o Ho. apply Hfr. eapply object_in_block; [exact Hs|exact Hqp|exact HBq|by apply Hqin].
  - intros q [= <-]. by rewrite lookup_insert_eq.
  - split; [done|]. exists None. destruct (Hv ppn Hp) as [_ ->]. by rewrite decide_True.
  - apply NoDup_singleton.
  - intros q ->%list_elem_of_singleton. by rewrite lookup_insert_eq.
Qed.

Lemma kmem_alloc_new f id B S h :
  heap_ok id B S [] h -> active_slab_ppn (h_cache h) = None ->
  (exists fs, fa_alloc (h_frames h) 1 = Done (None, fs) /\ kmem_alloc (Datatypes.S f) id h = Done (0, set_frames h fs) /\
     heap_ok id B S [] (set_frames h fs) /\ kept B S h (set_frames h fs)) \/
  (exists p h', kmem_alloc (Datatypes.S f) id h = kmem_alloc f id h' /\ B !! p = None /\ S !! p = None /\
     heap_ok id (<[p := 1]> B) (<[p := objects (object_size (h_cache h)) p]> S) [p] h' /\
     active_slab_ppn (h_cache h') = Some p /\
     kept B (<[p := objects (object_size (h_cache h)) p]> S) h h').
Proof using All.
  intros Hok Hact. pose proof (ho_size _ _ _ _ _ Hok) as Hs. pose proof (ho_frames _ _ _ _ _ Hok) as Hw.
  pose proof (ho_partial _ _ _ _ _ Hok) as Hhd. cbn in Hhd. pose proof (ho_map _ _ _ _ _ Hok) as Hmm.
  destruct (fa_within_alloc (h_frames h) B lo hi 1 Hw ltac:(lia)) as (r & fs & Hal & Hr).
  assert (Hfr : forall a, in_blocks B a -> fm_read fs a = fm_read (h_frames h) a).
  { intros a Ha. apply (fm_alloc_keeps (h_frames h) B 1 r); [by apply (fa_within_owns _ _ lo hi)|done|done]. }
  destruct (size_ok_cap _ Hs) as (Hsz & Hcap & Hc2).
  cbn [kmem_alloc]. rewrite Hact, Hhd. unfold alloc_new_slab. cbv zeta.
  change (object_size (h_cache h) <? PAGE_SIZE) with (object_size (h_cache h) <? 4096).
  destruct (Z.ltb_spec (object_size (h_cache h)) 4096); [|lia]. rewrite Hal. cbn [mbind outcome_bind].
  destruct r as [p|].
  2:{ left. exists fs. split; [done|]. split; [done|]. split.
      - pose proof Hok as [? ? ? Hsl ? ? ? ?]. split; try done. intros q fr Hq. pose proof (Hsl q fr Hq) as Hso.
        destruct Hso as [Hqp HBq _ Hqin _].
        apply (slab_ok_ext id _ (h_map h) _ (h_frames h) _ B); [done|by apply Hsl|done|done|].
        intros o Ho. apply Hfr. eapply object_in_block; [exact Hs|exact Hqp|exact HBq|by apply Hqin].
      - by split. }
  right. destruct Hr as (Hp1 & Hp2 & HBp & Hw'). assert (Hp : lo <= p < hi) by lia.
  destruct (slab_base_va p Hp) as (Hva & Hcan & Hend). rewrite Hva, Hend.
  change (PAGE_SIZE / object_size (h_cache h)) with (4096 / object_size (h_cache h)). fold (slab_cap (object_size (h_cache h))).
  destruct (carve_ok (object_size (h_cache h)) p (<[p := 1]> B) (slab_cap (object_size (h_cache h))) 0 fs)
    as (fs' & Hcv & Hw'' & Hfl & Hfr'); [done|done|by rewrite lookup_insert_eq|done|done|].
  unfold object at 1 in Hcv. rewrite Z.add_0_r in Hcv. rewrite Hcv. cbn [mbind outcome_bind].
  unfold new_slab. cbn [set_partial set_frames h_map h_cache partial_slabs_head]. rewrite Hhd, Hcan.
  destruct (get_page_Some lo hi Hlo Hhi (h_map h) p Hmm Hp) as [v ->]. cbn [mbind outcome_bind].
  destruct (page_set_ok lo hi Hlo Hhi (h_map h) p (mkPage 1 (SlabPage (Slub (slab_base p) 0 id false 0))) Hmm Hp) as [-> _].
  cbn [mbind outcome_bind]. eexists p, _. split; [reflexivity|]. split; [done|].
  assert (Hfr2 : forall a, in_blocks B a -> fm_read fs' a = fm_read (h_frames h) a).
  { intros a Ha. rewrite Hfr'; [by apply Hfr|]. pose proof (new_block_apart _ _ _ _ Hw' HBp Ha). lia. }
  split.
  { destruct (S !! p) as [fr|] eqn:HSp; [|done]. apply (ho_slabs _ _ _ _ _ Hok) in HSp as [_ HB' _ _ _]. congruence. }
  split; [|split; [done|split; [done|split; [|done]]]].
  - apply (heap_ok_new id B S h fs' p Hok Hhd Hp HBp Hw''); [|done]. rewrite decide_False in Hfl by lia.
    unfold object in Hfl at 1. by rewrite Z.add_0_r in Hfl.
  - intros q Hq HSq. cbn [set_active set_map set_partial set_frames h_map]. rewrite (get_page_set lo hi) by done.
    rewrite decide_False; [done|]. intros ->. by rewrite lookup_insert_eq in HSq.
Qed.

(** Object [r] was taken off the free list of a slab, perhaps of a new one. *)
Definition taken (size : Z) (B : gmap Z Z) (S : gmap PhysPageNum (list Z)) (r : Z) (B' : gmap Z Z) (S' : gmap PhysPageNum (list Z)) : Prop :=
  exists p free', S' = <[p := free']> S /\
    ((S !! p = Some (r :: free') /\ B' = B) \/
     (S !! p = None /\ B !! p = None /\ objects size p = r :: free' /\ B' = <[p := 1]> B)).

Lemma kept_refl B S h : kept B S h h.
Proof using. done. Qed.

Lemma kept_take B S h h' h'' p free :
  kept B S h h' -> (exists free0, S !! p = Some free0) -> h_frames h'' = h_frames h' ->
  h_cache h'' = h_cache h' ->
  (forall q, lo <= q < hi -> q <> p -> get_page_state (h_map h'') q = get_page_state (h_map h') q) ->
  kept B (<[p := free]> S) h h''.
Proof using.
  intros (Hm & Hg & Hs) [free0 Hp] Hf Ho Hq. split_and!; [intros a Ha; by rewrite Hf, Hm| |by rewrite Ho].
  intros q Hqr HSq. apply lookup_insert_None in HSq as [HSq Hne]. rewrite Hq, Hg by done. done.
Qed.

(** The result of [alloc] from a heap with the given slabs. *)
Definition alloc_result (id : nat) (B : gmap Z Z) (S : gmap PhysPageNum (list Z)) (h : Heap FA) (res : outcome (Z * Heap FA)) : Prop :=
  exists r h' B' S' l', res = Done (r, h') /\ heap_ok id B' S' l' h' /\ kept B S' h h' /\
    ((r = 0 /\ B' = B /\ S' = S /\ exists fs, fa_alloc (h_frames h) 1 = Done (None, fs)) \/
     taken (object_size (h_cache h)) B S r B' S').

Lemma alloc_result_ext id B S h h' res :
  h_frames h' = h_frames h -> h_map h' = h_map h -> object_size (h_cache h') = object_size (h_cache h) ->
  alloc_result id B S h res -> alloc_result id B S h' res.
Proof using. unfold alloc_result, kept. intros -> -> ->. done. Qed.

Lemma kmem_alloc_found id B S l h0 h p o free f :
  heap_ok id B S l h -> active_slab_ppn (h_cache h) = Some p -> S !! p = Some (o :: free) ->
  kept B S h0 h -> alloc_result id B S h0 (kmem_alloc (Datatypes.S f) id h).
Proof using All.
  intros Hok Hact HS Hk. destruct (kmem_alloc_take f id B S l h p o free Hok Hact HS) as (h' & Heq & Hok' & Hfs & Ho & Hg).
  exists o, h', B, (<[p := free]> S), l. split_and!; [done|done| |].
  - eapply kept_take; [exact Hk|by eexists|done..].
  - right. exists p, free. split; [done|]. by left.
Qed.

Lemma kmem_alloc_idle id l : forall B S h f,
  heap_ok id B S l h -> active_slab_ppn (h_cache h) = None -> (2 * length l + 2 <= f)%nat ->
  alloc_result id B S h (kmem_alloc f id h).
Proof using All.
  induction l as [|p l IH]; intros B S h f Hok Hact Hf; (destruct f as [|f]; [cbn in Hf; lia|]).
  - destruct (kmem_alloc_new f id B S h Hok Hact) as [(fs & Hal & -> & Hok' & Hk)|(p & h' & -> & HB & HS & Hok' & Hact' & Hk)].
    + eexists 0, _, B, S, []. split_and!; [done|done|done|]. left. split_and!; [done..|by exists fs].
    + destruct f as [|f]; [cbn in Hf; lia|]. pose proof (ho_size _ _ _ _ _ Hok) as Hs.
      pose proof (size_ok_cap _ Hs) as (_ & _ & Hc2). pose proof (objects_length (object_size (h_cache h)) p) as Hl.
      destruct (objects (object_size (h_cache h)) p) as [|o free] eqn:Hobj; [cbn in Hl; lia|].
      destruct (kmem_alloc_take f id _ _ _ h' p o free Hok' Hact') as (h'' & Heq & Hok'' & Hfs & Ho & Hg); [by rewrite lookup_insert_eq|].
      rewrite insert_insert_eq in Hok''. exists o, h'', (<[p := 1]> B), (<[p := free]> S), [p]. split_and!; [done|done| |].
      * rewrite <- (insert_insert_eq S p free (o :: free)). eapply kept_take; [exact Hk| |done..].
        rewrite lookup_insert_eq. by eexists.
      * right. exists p, free. split; [done|]. right. by split_and!.
  - cbn [length] in Hf. destruct f as [|f]; [lia|].
    destruct (kmem_alloc_partial (Datatypes.S f) id B S l h p Hok Hact) as (h' & -> & Hok' & Hact' & Hfs & Hmm & Ho).
    assert (Hk : kept B S h h') by (unfold kept; by rewrite Hfs, Hmm, Ho).
    destruct (ho_active _ _ _ _ _ Hok' p Hact') as [[|o free] HS]; [|by eapply kmem_alloc_found].
    destruct (kmem_alloc_full f id B S l h' p Hok' Hact' HS) as [-> Hok''].
    apply (alloc_result_ext _ _ _ (set_active h' None)); [done..|]. apply IH; [done|done|lia].
Qed.

(** The fuel is twice the number of partial slabs, and a step each for the active slab, a new slab
    and the object. *)
Lemma kmem_alloc_ok id B S l h f :
  heap_ok id B S l h -> (2 * length l + 3 <= f)%nat -> alloc_result id B S h (kmem_alloc f id h).
Proof using All.
  intros Hok Hf. destruct (active_slab_ppn (h_cache h)) as [p|] eqn:Hact; [|eapply kmem_alloc_idle; [done..|lia]].
  destruct f as [|f]; [lia|]. destruct (ho_active _ _ _ _ _ Hok p Hact) as [[|o free] HS]; [|by eapply kmem_alloc_found].
  destruct (kmem_alloc_full f id B S l h p Hok Hact HS) as [-> Hok'].
  apply (alloc_result_ext _ _ _ (set_active h None)); [done..|]. eapply kmem_alloc_idle; [done|done|lia].
Qed.

(** Partial slabs are pages of RAM. *)
Lemma partial_length id B S l h : heap_ok id B S l h -> (length l <= length (MEM_MAP (h_map h)))%nat.
Proof using All.
  intros Hok. pose proof (ho_map _ _ _ _ _ Hok) as [_ ->].
  assert (Hin : l ⊆ seqZ lo (hi - lo)).
  { intros p Hp. destruct (ho_partial_slabs _ _ _ _ _ Hok p Hp) as [fr Hfr].
    destruct (ho_slabs _ _ _ _ _ Hok p fr Hfr). apply elem_of_seqZ. lia. }
  apply NoDup_submseteq, submseteq_length in Hin; [|apply Hok]. by rewrite length_seqZ in Hin.
Qed.

(** Objects in use. *)
Definition in_use (size : Z) (S : gmap PhysPageNum (list Z)) (o : Z) : Prop :=
  exists p free, S !! p = Some free /\ o ∈ objects size p /\ o ∉ free.

(** Taking an object makes exactly this object used. *)
Lemma taken_in_use id B S l h r B' S' :
  heap_ok id B S l h -> taken (object_size (h_cache h)) B S r B' S' ->
  ~ in_use (object_size (h_cache h)) S r /\
  forall o, in_use (object_size (h_cache h)) S' o <-> in_use (object_size (h_cache h)) S o \/ o = r.
Proof using All.
  intros Hok (p & free' & -> & Hcase). pose proof (ho_size _ _ _ _ _ Hok) as Hs.
  set (size := object_size (h_cache h)) in *.
  assert (Hr : r ∈ objects size p /\ NoDup (r :: free') /\ forall fr, S !! p = Some fr -> fr = r :: free').
  { destruct Hcase as [[HS _]|(HS & _ & Hobj & _)].
    - destruct (ho_slabs _ _ _ _ _ Hok p _ HS) as [_ _ Hnd Hin _]. split_and!; [apply Hin; constructor|done|congruence].
    - split_and!; [rewrite Hobj; constructor|rewrite <- Hobj; by apply objects_NoDup|congruence]. }
  destruct Hr as (Hr & Hnd & Hfr). apply NoDup_cons in Hnd as [Hr' _].
  split; [intros (q & fr & Hq & Ho & Hn); assert (q = p) as -> by (by eapply object_page); apply Hn; rewrite (Hfr fr Hq); constructor|].
  intros o. split.
  - intros (q & fr & [[<- <-]|[Hne Hq]]%lookup_insert_Some & Ho & Hn); [|left; by exists q, fr].
    destruct (decide (o = r)) as [->|Hor]; [by right|]. left.
    destruct Hcase as [[HS _]|(HS & _ & Hobj & _)]; [exists p, (r :: free'); split_and!; [done|done|set_solver]|].
    rewrite Hobj in Ho. set_solver.
  - intros [(q & fr & Hq & Ho & Hn)| ->]; [|exists p, free'; by rewrite lookup_insert_eq].
    destruct (decide (q = p)) as [->|Hne]; [|exists q, fr; by rewrite lookup_insert_ne].
    exists p, free'. rewrite lookup_insert_eq. rewrite (Hfr fr Hq) in Hn. split_and!; [done|done|set_solver].
Qed.

(** ** Taking a slab off the partial list *)

(** [page] with another [has_next] and [next_partial], as [remove_from_partial] writes them. *)
Definition relink (page : Page) (n : option PhysPageNum) : Page :=
  match state page with
  | SlabPage (Slub f i c _ np) =>
      mkPage (ref_count page) (SlabPage (match n with Some x => Slub f i c true x | None => Slub f i c false np end))
  | _ => page
  end.

Definition unlink (h : Heap FA) (prev : option (PhysPageNum * Page)) (n : option PhysPageNum) : Heap FA :=
  match prev with
  | None => set_partial h n
  | Some (p, page) => set_entry h p (relink page n)
  end.

Lemma next_of_entry mm p n :
  next_of mm p = Some n ->
  exists rc fl iu c hn np, get_page_state mm p = Done (mkPage rc (SlabPage (Slub fl iu c hn np))) /\ n = if hn then Some np else None.
Proof using.
  unfold next_of. destruct (get_page_state mm p) as [[rc [|[]| |]]|]; try done. intros [= <-]. by eexists _, _, _, _, _, _.
Qed.

Lemma relink_views mm p page n :
  map_ok lo hi mm -> lo <= p < hi -> get_page_state mm p = Done page -> is_Some (next_of mm p) -> forall q, lo <= q < hi ->
  slab_view (page_set mm p (relink page n)) q = slab_view mm q /\
  next_of (page_set mm p (relink page n)) q = if decide (q = p) then Some n else next_of mm q.
Proof using Hlo Hhi.
  intros Hmm Hp Hget [n0 Hn] q Hq. destruct (next_of_entry _ _ _ Hn) as (rc & fl & iu & c & hn & np & Hget' & _).
  rewrite Hget in Hget'. injection Hget' as ->.
  unfold slab_view, next_of. rewrite (get_page_set lo hi) by done. case_decide; [|done]. subst q.
  rewrite Hget. by destruct n.
Qed.

(** The walk stops at the target; [l1] are the slabs before it, [prev] the one before those. *)
Lemma remove_loop_ok h t nx l2 l1 : forall fuel cur prev,
  map_ok lo hi (h_map h) -> partial_list (h_map h) cur (l1 ++ t :: l2) -> t ∉ l1 -> next_of (h_map h) t = Some nx ->
  (forall q, q ∈ l1 -> lo <= q < hi) ->
  (forall q, prev = Some q -> lo <= q < hi /\ is_Some (next_of (h_map h) q)) -> (length l1 < fuel)%nat ->
  exists before, remove_loop_partial fuel h t cur prev = Done (unlink h before nx) /\ fst <$> before = last (option_list prev ++ l1) /\
    forall q page, before = Some (q, page) -> get_page_state (h_map h) q = Done page.
Proof using All.
  induction l1 as [|q l1 IH]; intros fuel cur prev Hmm Hpl Ht Hnx Hl1 Hprev Hf; (destruct fuel as [|fuel]; [cbn in Hf; lia|]).
  - cbn in Hpl. destruct Hpl as (-> & n & Hn & _). rewrite Hnx in Hn. injection Hn as <-. cbn [remove_loop_partial].
    destruct (next_of_entry _ _ _ Hnx) as (rc & fl & iu & c & hn & np & Hget & Hnext). rewrite Hget.
    cbn [mbind outcome_bind state]. rewrite Z.eqb_refl. destruct prev as [pr|]; [|exists None; by rewrite Hnext].
    destruct (Hprev pr eq_refl) as [Hpr [m Hm]]. destruct (next_of_entry _ _ _ Hm) as (rc' & fl' & iu' & c' & hn' & np' & Hget' & _).
    rewrite Hget'. cbn [mbind outcome_bind state ref_count]. rewrite <- Hnext.
    destruct (page_set_ok lo hi Hlo Hhi (h_map h) pr (relink (mkPage rc' (SlabPage (Slub fl' iu' c' hn' np'))) nx) Hmm Hpr) as [Heq _].
    unfold relink in Heq. cbn [state ref_count] in Heq. rewrite Heq.
    exists (Some (pr, mkPage rc' (SlabPage (Slub fl' iu' c' hn' np')))). split_and!; [done|done|].
    intros ? ? [= <- <-]. done.
  - cbn [app partial_list] in Hpl. destruct Hpl as (-> & n & Hn & Hpl). cbn [remove_loop_partial].
    destruct (next_of_entry _ _ _ Hn) as (rc & fl & iu & c & hn & np & Hget & ->). rewrite Hget.
    cbn [mbind outcome_bind state]. destruct (Z.eqb_spec q t) as [->|Hne]; [set_solver|].
    destruct (IH fuel (if hn then Some np else None) (Some q)) as (before & Heq & Hb & Hbg);
      [done|done|set_solver|done|set_solver| |cbn in Hf; lia|].
    { intros ? [= <-]. split; [apply Hl1; constructor|by rewrite Hn]. }
    exists before. split_and!; [done| |done]. rewrite Hb. cbn [option_list app].
    by rewrite last_app_cons.
Qed.

Lemma remove_from_partial_ok (h : Heap FA) t l :
  map_ok lo hi (h_map h) -> partial_list (h_map h) (partial_slabs_head (h_cache h)) l -> NoDup l -> t ∈ l ->
  (forall q, q ∈ l -> lo <= q < hi) -> (length l <= length (MEM_MAP (h_map h)))%nat ->
  exists h' l', remove_from_partial h t = Done h' /\ l' ⊆ l /\ NoDup l' /\ (forall q, q ∈ l' <-> q ∈ l /\ q <> t) /\
    partial_list (h_map h') (partial_slabs_head (h_cache h')) l' /\ map_ok lo hi (h_map h') /\
    h_frames h' = h_frames h /\ object_size (h_cache h') = object_size (h_cache h) /\
    active_slab_ppn (h_cache h') = active_slab_ppn (h_cache h) /\
    (forall q, lo <= q < hi -> slab_view (h_map h') q = slab_view (h_map h) q) /\
    (forall q, lo <= q < hi -> q ∉ l -> get_page_state (h_map h') q = get_page_state (h_map h) q).
Proof using All.
  intros Hmm Hpl Hnd Ht Hr Hlen. apply list_elem_of_split in Ht as (l1 & l2 & ->).
  assert (Hnx : exists nx, next_of (h_map h) t = Some nx /\ partial_list (h_map h) nx l2).
  { clear -Hpl. revert Hpl. generalize (partial_slabs_head (h_cache h)). induction l1 as [|q l1 IH]; cbn [app partial_list].
    - intros o (_ & n & Hn & Hl). by exists n.
    - intros o (_ & n & _ & Hl). by apply (IH n). }
  destruct Hnx as (nx & Hnx & Hl2). pose proof Hnd as Hnd'. apply NoDup_app in Hnd' as (Hnd1 & Hd & Hnd2). apply NoDup_cons in Hnd2 as [Ht2 Hnd2].
  assert (Ht1 : t ∉ l1) by set_solver.
  assert (Hnd12 : NoDup (l1 ++ l2)) by (apply NoDup_app; split_and!; [done|set_solver|done]).
  destruct (remove_loop_ok h t nx l2 l1 (length (MEM_MAP (h_map h)) + 2) (partial_slabs_head (h_cache h)) None)
    as (before & Heq & Hb & Hbg); [done|done|done|done|set_solver|done|rewrite length_app in Hlen; lia|].
  exists (unlink h before nx), (l1 ++ l2). split; [exact Heq|]. split; [set_solver|]. split; [done|]. split; [set_solver|].
  change (option_list None ++ l1) with l1 in Hb. destruct l1 as [|q0 l0 _] using rev_ind.
  { destruct before as [[]|]; [done|]. cbn [unlink set_partial h_map h_cache partial_slabs_head]. by split_and!. }
  rewrite last_snoc in Hb. destruct before as [[q page]|]; [|done]. injection Hb as ->. cbn [unlink set_entry set_map h_map h_cache h_frames].
  pose proof (Hbg q0 page eq_refl) as Hget. assert (Hq0 : lo <= q0 < hi) by set_solver.
  assert (Hsome : is_Some (next_of (h_map h) q0)).
  { clear -Hpl. rewrite <- app_assoc in Hpl. cbn [app] in Hpl. revert Hpl. generalize (partial_slabs_head (h_cache h)).
    induction l0 as [|q l0 IH]; cbn [app partial_list]; [intros o (_ & n & -> & _); done|]. intros o (_ & n & _ & Hl). by apply (IH n). }
  pose proof (relink_views (h_map h) q0 page nx Hmm Hq0 Hget Hsome) as Hv.
  rewrite <- !app_assoc in *. cbn [app] in *. split_and!; try done.
  - eapply partial_list_unlink; [exact Hnd|exact Hpl|exact Hnx|]. intros q Hq. apply Hv. set_solver.
  - by apply (page_set_ok lo hi).
  - intros q Hq. by apply Hv.
  - intros q Hq Hql. rewrite (get_page_set lo hi) by done. rewrite decide_False; [done|set_solver].
Qed.

(** ** Freeing *)

(** The places of the slabs, as the comments of [free_object] describe them. *)
Record placed (S : gmap PhysPageNum (list Z)) (l : list PhysPageNum) (c : KmemCache) : Prop := {
  pl_active p : active_slab_ppn c = Some p -> p ∉ l;
  pl_partial p free : S !! p = Some free -> active_slab_ppn c <> Some p -> p ∈ l <-> free <> []
}.

Lemma heap_ok_relist id B S l h h' l' :
  heap_ok id B S l h -> h_frames h' = h_frames h -> object_size (h_cache h') = object_size (h_cache h) ->
  map_ok lo hi (h_map h') -> (forall q, lo <= q < hi -> slab_view (h_map h') q = slab_view (h_map h) q) ->
  (forall p, active_slab_ppn (h_cache h') = Some p -> is_Some (S !! p)) ->
  partial_list (h_map h') (partial_slabs_head (h_cache h')) l' -> NoDup l' -> (forall p, p ∈ l' -> is_Some (S !! p)) ->
  heap_ok id B S l' h'.
Proof using Hlo Hhi.
  intros [Hs Hw Hmm Hsl Hact Hpl Hnd Hps] Hfs Hsz Hmm' Hv Hact' Hpl' Hnd' Hps'. split; try done; rewrite ?Hfs, ?Hsz; try done.
  intros q fr Hq. pose proof (Hsl q fr Hq) as Hso. eapply slab_ok_ext; [done|exact Hso|apply Hv; apply Hso|apply Hso|done].
Qed.

Lemma mark_returned_one mm p :
  map_ok lo hi mm -> lo <= p < hi -> mark_returned 1 mm p 0 = Done (page_set mm p (mkPage 0 Free)).
Proof using Hlo Hhi.
  intros Hmm Hp. cbn [mark_returned]. assert (p ⊞ 0 = p) as -> by (unfold DIRECT_MAP_PAGES in *; rewrite wadd_small; lia).
  destruct (get_page_Some lo hi Hlo Hhi mm p Hmm Hp) as [v ->]. cbn [mbind outcome_bind].
  by destruct (page_set_ok lo hi Hlo Hhi mm p (mkPage 0 Free) Hmm Hp) as [-> _].
Qed.

(** Returning an empty slab that is neither active nor partial to the frame allocator. *)
Lemma return_slab_ok id B S l h p free :
  heap_ok id B S l h -> S !! p = Some free -> p ∉ l -> active_slab_ppn (h_cache h) <> Some p ->
  exists mm fs, mark_returned 1 (h_map h) p 0 = Done mm /\ fa_dealloc (h_frames h) p 1 = Done fs /\
    heap_ok id (delete p B) (delete p S) l (mkHeap fs mm (h_cache h)) /\
    (forall a, in_blocks (delete p B) a -> fm_read fs a = fm_read (h_frames h) a) /\
    (forall q, lo <= q < hi -> q <> p -> get_page_state mm q = get_page_state (h_map h) q).
Proof using All.
  intros Hok HS Hl Hact. destruct Hok as [Hs Hw Hmm Hsl Ha Hpl Hnd Hps].
  destruct (Hsl p free HS) as [Hp HB _ _ _].
  assert (Hfm : forall fs, fa_dealloc (h_frames h) p 1 = Done fs ->
    forall a, in_blocks (delete p B) a -> fm_read fs a = fm_read (h_frames h) a).
  { intros fs Hfs a Ha'. apply (fm_dealloc_keeps (h_frames h) B p 1); [by apply (fa_within_owns _ _ lo hi)|done..]. }
  destruct (fa_within_dealloc (h_frames h) B lo hi p 1 Hw HB) as (fs & Hfs & Hw').
  destruct (page_set_ok lo hi Hlo Hhi (h_map h) p (mkPage 0 Free) Hmm Hp) as [Hset Hmm'].
  exists (page_set (h_map h) p (mkPage 0 Free)), fs. rewrite mark_returned_one by done. split; [done|]. split; [done|].
  assert (Hother : forall q, lo <= q < hi -> q <> p ->
    get_page_state (page_set (h_map h) p (mkPage 0 Free)) q = get_page_state (h_map h) q).
  { intros q Hq Hne. rewrite (get_page_set lo hi) by done. by rewrite decide_False. }
  split; [|split; [by apply Hfm|done]].
  split; cbn [h_frames h_map h_cache]; try done.
  - intros q fr [Hne Hq]%lookup_delete_Some. pose proof (Hsl q fr Hq) as Hso. pose proof Hso as [Hqp HBq _ Hqin _].
    apply (slab_ok_ext id _ (h_map h) _ (h_frames h) _ B); [done|done| |by rewrite lookup_delete_ne|].
    + unfold slab_view. by rewrite Hother.
    + intros o Ho. apply Hfm; [done|].
      eapply object_in_block; [exact Hs|exact Hqp|by rewrite lookup_delete_ne|by apply Hqin].
  - intros q Hq. rewrite lookup_delete_ne by congruence. by apply Ha.
  - revert Hpl. apply partial_list_ext. intros q Hq. unfold next_of. destruct (Hps q Hq) as [fr Hfr].
    rewrite Hother; [done|apply (Hsl q fr Hfr)|]. by intros ->.
  - intros q Hq. rewrite lookup_delete_ne by (by intros ->). by apply Hps.
Qed.

Lemma return_pages size : size_ok size ->
  Z.to_nat (next_power_of_two (Z.max (wshr (size ⊞ PAGE_SIZE ⊟ 1) PAGE_SIZE_BITS) 1)) = 1%nat /\
  next_power_of_two (Z.max (wshr (size ⊞ PAGE_SIZE ⊟ 1) PAGE_SIZE_BITS) 1) = 1.
Proof using.
  intros [Hs _]%size_ok_cap. rewrite PAGE_SIZE_eq, wadd_small, wsub_small by lia. unfold PAGE_SIZE_BITS.
  rewrite wshr_div by lia. assert ((size + 4096 - 1) / 2 ^ 12 = 1) as ->; [|done].
  symmetry. apply (Z.div_unique_pos _ _ _ (size - 1)); lia.
Qed.

(** The slab [p] after object [o] has been put on its free list. *)
Lemma push_object_ok id B S l h p free o fl rc (hn : bool) np :
  heap_ok id B S l h -> S !! p = Some free -> o ∈ objects (object_size (h_cache h)) p -> o ∉ free ->
  slab_view (h_map h) p = Some (fl, Z.of_nat (slab_cap (object_size (h_cache h)) - length free), id) ->
  next_of (h_map h) p = Some (if hn then Some np else None) -> free_list (h_frames h) fl free ->
  let h1 := set_entry (set_frames h (write_word (h_frames h) o fl)) p
    (mkPage rc (SlabPage (Slub o (Z.of_nat (slab_cap (object_size (h_cache h)) - length (o :: free))) id hn np))) in
  heap_ok id B (<[p := o :: free]> S) l h1 /\
  forall a, a <> virt_to_phys o -> fm_read (h_frames h1) a = fm_read (h_frames h) a.
Proof using All.
  intros Hok HS Ho Hof Hv Hnx Hfl h1. pose proof (ho_slabs _ _ _ _ _ Hok p _ HS) as Hso. pose proof Hso as [Hp HB Hnd Hin _].
  pose proof (ho_size _ _ _ _ _ Hok) as Hs. destruct (object_in_block _ B p o Hs Hp HB Ho) as [Hblk Hpa].
  split; [|intros a Ha; unfold h1, write_word; cbn [set_entry set_map set_frames h_frames]; by apply fm_read_write_ne].
  eapply heap_ok_update; [done|done|done|done|by apply NoDup_cons|set_solver| | |].
  - split; [done|]. unfold read_word, write_word. rewrite fm_read_write. revert Hfl. apply free_list_ext. intros o' Ho'.
    unfold read_word. apply fm_read_write_ne. intros Heq. apply Hof. enough (o' = o) as <- by done.
    apply Hin in Ho'. apply list_elem_of_fmap in Ho as (i & -> & Hi%elem_of_seq), Ho' as (j & -> & Hj%elem_of_seq).
    destruct (object_phys _ p i Hs ltac:(lia) ltac:(lia)) as [Hpi _], (object_phys _ p j Hs ltac:(lia) ltac:(lia)) as [Hpj _].
    rewrite Hpi, Hpj in Heq. unfold object. lia.
  - unfold write_word. apply fa_within_write; [apply Hok|done].
  - intros q o' Hne Hq Ho'. unfold read_word, write_word. apply fm_read_write_ne.
    apply list_elem_of_fmap in Ho' as (j & -> & Hj%elem_of_seq). destruct (object_phys _ q j Hs ltac:(lia) ltac:(lia)) as [-> ?]. lia.
Qed.

(** What [free_object] does to the slabs: a slab that becomes empty is given back. *)
Definition given_back (size : Z) (B : gmap Z Z) (S : gmap PhysPageNum (list Z)) (p : PhysPageNum) (o : Z) (free : list Z)
    (B' : gmap Z Z) (S' : gmap PhysPageNum (list Z)) : Prop :=
  if decide (length (o :: free) = slab_cap size) then B' = delete p B /\ S' = delete p S else B' = B /\ S' = <[p := o :: free]> S.

Lemma free_entry_wrap size free :
  size_ok size -> (length free < slab_cap size)%nat ->
  forall o : Z, wrap16 (Z.of_nat (slab_cap size - length free) - 1) = Z.of_nat (slab_cap size - length (o :: free)).
Proof using.
  intros Hs Hl o. destruct (size_ok_cap _ Hs) as (? & ? & ?). unfold wrap16. cbn [length]. rewrite Z.mod_small; [lia|nia].
Qed.

Lemma object_va size p o : size_ok size -> lo <= p < hi -> o ∈ objects size p -> VirtAddr_from_usize o = o.
Proof using Hlo Hhi.
  intros Hs Hp (i & -> & Hi%elem_of_seq)%list_elem_of_fmap. destruct (size_ok_cap _ Hs) as (? & ? & ?).
  assert (0 <= Z.of_nat i * size < 4096) by nia. unfold DIRECT_MAP_PAGES in *.
  unfold object, slab_base, PHYS_VIRT_OFFSET. apply VirtAddr_from_usize_id; [unfold usize; lia|right; lia].
Qed.

(** A free object of a slab leaves room. *)
Lemma free_lt_cap id size mm fs B p free o :
  size_ok size -> slab_ok id size mm fs B p free -> o ∈ objects size p -> o ∉ free -> (length free < slab_cap size)%nat.
Proof using All.
  intros Hs [_ _ Hnd Hin _] Ho Hn. rewrite <- (objects_length size p).
  apply (submseteq_length (o :: free)), NoDup_submseteq; [by apply NoDup_cons|set_solver].
Qed.

(** The empty slab leaves the cache: it stops being active or is taken off the partial list. *)
Lemma retire_ok id B S l h p fr :
  heap_ok id B S l h -> placed S l (h_cache h) -> S !! p = Some fr -> fr <> [] ->
  exists h' l',
    (if bool_decide (active_slab_ppn (h_cache h) = Some p) then Done (set_active h None) else remove_from_partial h p) = Done h' /\
    heap_ok id B S l' h' /\ h_frames h' = h_frames h /\ object_size (h_cache h') = object_size (h_cache h) /\
    (p ∉ l') /\ active_slab_ppn (h_cache h') <> Some p /\ placed (delete p S) l' (h_cache h') /\
    (forall q, lo <= q < hi -> S !! q = None -> get_page_state (h_map h') q = get_page_state (h_map h) q).
Proof using All.
  intros Hok [Hpa Hpp] HS Hfr. pose proof (partial_length _ _ _ _ _ Hok) as Hlen.
  case_bool_decide as Hact.
  - exists (set_active h None), l. pose proof (Hpa p Hact) as Hpl. split_and!; try done.
    + by destruct Hok; split.
    + split; [done|]. intros q fr' [Hne Hq]%lookup_delete_Some _. apply Hpp; [done|]. rewrite Hact. congruence.
  - assert (Hin : p ∈ l) by (by apply (Hpp p fr)). destruct Hok as [Hs Hw Hmm Hsl Ha Hpl Hnd Hps].
    assert (Hrange : forall q, q ∈ l -> lo <= q < hi) by (intros q [fr' Hq]%Hps; apply (Hsl q fr' Hq)).
    destruct (remove_from_partial_ok h p l Hmm Hpl Hnd Hin Hrange Hlen)
      as (h' & l' & Heq & Hsub & Hnd' & Hel & Hpl' & Hmm' & Hfs & Hsz & Hact' & Hv & Hg).
    exists h', l'. split; [exact Heq|]. split.
    { apply (heap_ok_relist id B S l h); try done; [by rewrite Hact'|]. intros q Hq. by apply Hps, Hsub. }
    split_and!; try done; [by intros [_ ?]%Hel|by rewrite Hact'| |].
    + split; [intros q; rewrite Hact'; intros Hq Hq'; by apply (Hpa q Hq), Hsub|].
      intros q fr' [Hne Hq]%lookup_delete_Some. rewrite Hact', Hel. intros Hq'. pose proof (Hpp q fr' Hq Hq'). naive_solver.
    + intros q Hq HSq. apply Hg; [done|]. intros [? ?]%Hps. congruence.
Qed.

Lemma placed_update S l c p free o :
  placed S l c -> S !! p = Some free -> (free = [] -> active_slab_ppn c = Some p) -> placed (<[p := o :: free]> S) l c.
Proof using.
  intros [Hpa Hpp] HS Hfree. split; [done|]. intros q fr [[<- <-]|[Hne Hq]]%lookup_insert_Some Hq'; [|by apply Hpp].
  rewrite (Hpp p free HS Hq'). split; [done|]. intros _ ->. by destruct Hq'; apply Hfree.
Qed.

(** An empty slab leaves the cache and its page is returned. *)
Lemma retire_return_ok id B S l h p fr :
  heap_ok id B S l h -> placed S l (h_cache h) -> S !! p = Some fr -> fr <> [] ->
  exists h' l',
    (h ← (if bool_decide (active_slab_ppn (h_cache h) = Some p) then Done (set_active h None) else remove_from_partial h p);
     let required_pages := wshr (object_size (h_cache h) ⊞ PAGE_SIZE ⊟ 1) PAGE_SIZE_BITS in
     let allocate_pages := next_power_of_two (Z.max required_pages 1) in
     mm ← mark_returned (Z.to_nat allocate_pages) (h_map h) p 0;
     fs ← fa_dealloc (h_frames h) p allocate_pages;
     Done (mkHeap fs mm (h_cache h))) = Done h' /\
    heap_ok id (delete p B) (delete p S) l' h' /\ placed (delete p S) l' (h_cache h') /\
    object_size (h_cache h') = object_size (h_cache h) /\
    (forall a, in_blocks (delete p B) a -> fm_read (h_frames h') a = fm_read (h_frames h) a) /\
    (forall q, lo <= q < hi -> S !! q = None -> get_page_state (h_map h') q = get_page_state (h_map h) q).
Proof using All.
  intros Hok Hpl HS Hfr.
  destruct (retire_ok id B S l h p fr Hok Hpl HS Hfr) as (h2 & l2 & -> & Hok2 & Hfs2 & Hsz2 & Hpl2 & Hact2 & Hplc2 & Hg2).
  cbn [mbind outcome_bind]. cbv zeta.
  destruct (return_pages (object_size (h_cache h2))) as [Hn1 Hn2]; [apply Hok2|]. rewrite Hn1, Hn2.
  destruct (return_slab_ok id B S l2 h2 p fr Hok2 HS Hpl2 Hact2) as (mm3 & fs3 & -> & Hd & Hok3 & Hfr3 & Hg3).
  cbn [mbind outcome_bind]. rewrite Hd. cbn [mbind outcome_bind].
  exists (mkHeap fs3 mm3 (h_cache h2)), l2. split_and!; try done; cbn [h_cache h_frames h_map].
  - intros a Ha. by rewrite Hfr3, Hfs2.
  - intros q Hq HSq. rewrite Hg3; [by apply Hg2|done|congruence].
Qed.

(** Putting a slab that was full at the head of the partial list. *)
Lemma push_partial_ok id B S l h p fr rc f iu c (hn : bool) np :
  heap_ok id B S l h -> get_page_state (h_map h) p = Done (mkPage rc (SlabPage (Slub f iu c hn np))) ->
  S !! p = Some fr -> p ∉ l ->
  exists h',
    (let '(has_next, next_partial) :=
       match partial_slabs_head (h_cache h) with Some old_ppn => (true, old_ppn) | None => (false, np) end in
     mm ← set_page_state (h_map h) p (mkPage rc (SlabPage (Slub f iu c has_next next_partial)));
     Done (set_partial (set_map h mm) (Some p))) = Done h' /\
    heap_ok id B S (p :: l) h' /\ h_frames h' = h_frames h /\
    h_cache h' = mkKmemCache (object_size (h_cache h)) (active_slab_ppn (h_cache h)) (Some p) /\
    forall q, lo <= q < hi -> q <> p -> get_page_state (h_map h') q = get_page_state (h_map h) q.
Proof using All.
  intros Hok Hget HS Hpl. pose proof (ho_map _ _ _ _ _ Hok) as Hmm. pose proof (ho_slabs _ _ _ _ _ Hok p fr HS) as [Hp _ _ _ _].
  assert (Hrel : mkPage rc (SlabPage (Slub f iu c
      (match partial_slabs_head (h_cache h) with Some _ => true | None => false end)
      (match partial_slabs_head (h_cache h) with Some old => old | None => np end))) =
    relink (mkPage rc (SlabPage (Slub f iu c hn np))) (partial_slabs_head (h_cache h)))
    by (unfold relink; cbn; by destruct (partial_slabs_head (h_cache h))).
  set (e := relink _ _) in Hrel. destruct (page_set_ok lo hi Hlo Hhi (h_map h) p e Hmm Hp) as [Hset Hmm'].
  assert (Hnx : is_Some (next_of (h_map h) p)) by (unfold next_of; by rewrite Hget).
  pose proof (relink_views (h_map h) p _ (partial_slabs_head (h_cache h)) Hmm Hp Hget Hnx) as Hv. fold e in Hv.
  exists (set_partial (set_entry h p e) (Some p)). split.
  { destruct (partial_slabs_head (h_cache h)); rewrite Hrel, Hset; done. }
  split; [|split; [done|split; [done|]]].
  - apply (heap_ok_relist id B S l h); try done.
    + intros q Hq. by apply Hv.
    + apply Hok.
    + cbn [set_partial set_entry set_map h_cache h_map partial_slabs_head partial_list]. split; [done|].
      exists (partial_slabs_head (h_cache h)). destruct (Hv p Hp) as [_ ->]. rewrite decide_True by done. split; [done|].
      pose proof (ho_partial _ _ _ _ _ Hok) as Hl. revert Hl. apply partial_list_ext. intros q Hq.
      destruct (ho_partial_slabs _ _ _ _ _ Hok q Hq) as [fr' Hfr'].
      destruct (Hv q) as [_ ->]; [apply (ho_slabs _ _ _ _ _ Hok q fr' Hfr')|]. rewrite decide_False; [done|]. by intros ->.
    + apply NoDup_cons. split; [done|apply Hok].
    + intros q [->|Hq]%elem_of_cons; [by exists fr|]. by apply (ho_partial_slabs _ _ _ _ _ Hok).
  - intros q Hq Hne. cbn [set_partial set_entry set_map h_map]. rewrite (get_page_set lo hi) by done. by rewrite decide_False.
Qed.

(** Freeing an object of a cache whose slabs are placed. *)
Lemma free_object_ok id B S l h p free o :
  heap_ok id B S l h -> placed S l (h_cache h) -> S !! p = Some free ->
  o ∈ objects (object_size (h_cache h)) p -> o ∉ free ->
  exists h' B' S' l', free_object h o p = Done h' /\ heap_ok id B' S' l' h' /\ placed S' l' (h_cache h') /\
    given_back (object_size (h_cache h)) B S p o free B' S' /\ object_size (h_cache h') = object_size (h_cache h) /\
    (forall a, in_blocks B' a -> a <> virt_to_phys o -> fm_read (h_frames h') a = fm_read (h_frames h) a) /\
    (forall q, lo <= q < hi -> S !! q = None -> get_page_state (h_map h') q = get_page_state (h_map h) q).
Proof using All.
  intros Hok Hpl HS Ho Hof. pose proof (ho_slabs _ _ _ _ _ Hok p _ HS) as Hso. pose proof Hso as [Hp HB Hnd Hin (fl & Hv & Hfl)].
  pose proof (ho_size _ _ _ _ _ Hok) as Hs. pose proof (ho_map _ _ _ _ _ Hok) as Hmm.
  pose proof (free_lt_cap _ _ _ _ _ _ _ _ Hs Hso Ho Hof) as Hcap. destruct (size_ok_cap _ Hs) as (_ & _ & Hc2).
  destruct (slab_view_entry _ _ _ _ _ Hv) as (rc & hn & np & Hget & Hnx).
  assert (Hfl0 : (fl =? 0) = bool_decide (free = [])).
  { destruct free as [|x fr]; [cbn in Hfl; by subst fl|]. destruct Hfl as [-> _].
    pose proof (objects_nonzero _ p x Hs ltac:(lia) ltac:(apply Hin; constructor)). destruct (Z.eqb_spec x 0); [lia|done]. }
  destruct (push_object_ok id B S l h p free o fl rc hn np Hok HS Ho Hof Hv Hnx Hfl) as [Hok1 Hfr1].
  unfold free_object. rewrite Hget. cbn [mbind outcome_bind state ref_count]. rewrite Hfl0.
  rewrite (object_va _ p o Hs Hp Ho), (free_entry_wrap _ _ Hs Hcap o).
  change (h_map (set_frames h (write_word (h_frames h) o fl))) with (h_map h).
  set (e1 := mkPage rc (SlabPage (Slub o _ id hn np))) in *.
  destruct (page_set_ok lo hi Hlo Hhi (h_map h) p e1 Hmm Hp) as [-> Hmm1]. cbn [mbind outcome_bind].
  set (h1 := set_entry (set_frames h (write_word (h_frames h) o fl)) p e1) in *.
  change (set_map (set_frames h (write_word (h_frames h) o fl)) (page_set (h_map h) p e1)) with h1.
  change (active_slab_ppn (h_cache h)) with (active_slab_ppn (h_cache h1)). change (h_cache h) with (h_cache h1) in Hpl.
  assert (Hg1 : forall q, lo <= q < hi -> S !! q = None -> get_page_state (h_map h1) q = get_page_state (h_map h) q).
  { intros q Hq HSq. unfold h1. cbn [set_entry set_map h_map set_frames]. rewrite (get_page_set lo hi) by done.
    rewrite decide_False; [done|congruence]. }
  assert (Hsz1 : object_size (h_cache h1) = object_size (h_cache h)) by done.
  assert (Hget1 : get_page_state (h_map h1) p = Done e1).
  { unfold h1. cbn [set_entry set_map h_map set_frames]. rewrite (get_page_set lo hi) by done. by rewrite decide_True. }
  clearbody h1. unfold given_back. destruct (Z.eqb_spec (Z.of_nat (slab_cap (object_size (h_cache h)) - length (o :: free))) 0) as [H0|H0].
  - assert (Hpl1 : placed (<[p := o :: free]> S) l (h_cache h1)).
    { apply placed_update; [done..|]. intros ->. cbn [length] in *. lia. }
    destruct (retire_return_ok id B _ l h1 p (o :: free) Hok1 Hpl1) as (h3 & l3 & Heq & Hok3 & Hpl3 & Hsz3 & Hfr3 & Hg3);
      [by rewrite lookup_insert_eq|done|]. rewrite delete_insert_eq in Hok3, Hpl3.
    exists h3, (delete p B), (delete p S), l3. rewrite decide_True by (cbn [length] in *; lia).
    split_and!; [exact Heq|exact Hok3|exact Hpl3|done|done|by rewrite Hsz3| |].
    + intros a Ha Hne. rewrite Hfr3 by done. by apply Hfr1.
    + intros q Hq HSq. rewrite Hg3; [by apply Hg1|done|]. rewrite lookup_insert_ne; [done|congruence].
  - destruct (bool_decide (free = []) && negb (bool_decide (active_slab_ppn (h_cache h1) = Some p))) eqn:Hpush.
    + apply andb_true_iff in Hpush as [->%bool_decide_eq_true Hna%negb_true_iff%bool_decide_eq_false].
      assert (Hpnl : p ∉ l) by (rewrite (pl_partial _ _ _ Hpl p [] HS Hna); naive_solver).
      destruct (push_partial_ok id B (<[p := [o]]> S) l h1 p [o] _ _ _ _ _ _ Hok1 Hget1) as (h2 & Heq & Hok2 & Hfs2 & Hc2' & Hg2);
        [by rewrite lookup_insert_eq|done|].
      exists h2, B, (<[p := [o]]> S), (p :: l). rewrite decide_False by (cbn [length] in *; lia).
      split_and!; try done; [|by rewrite Hc2'| |].
      * rewrite Hc2'. split; cbn [active_slab_ppn].
        { intros q Hq. pose proof (pl_active _ _ _ Hpl q Hq). set_solver. }
        intros q fr [[<- <-]|[Hne Hq]]%lookup_insert_Some Hq'; [set_solver|]. pose proof (pl_partial _ _ _ Hpl q fr Hq Hq'). set_solver.
      * intros a _ Ha. rewrite Hfs2. by apply Hfr1.
      * intros q Hq HSq. rewrite Hg2; [by apply Hg1|done|congruence].
    + exists h1, B, (<[p := o :: free]> S), l. rewrite decide_False by (cbn [length] in *; lia).
      split_and!; try done; [|intros a _ Ha; by apply Hfr1].
      apply placed_update; [done..|]. intros ->.
      apply andb_false_iff in Hpush as [Hx|Hx%negb_false_iff]; [by rewrite bool_decide_eq_true_2 in Hx|by apply bool_decide_eq_true in Hx].
Qed.
End Slub.
