(* ===== verification/SlubSpec.v ===== *)
(** * The heap over the buddy allocator

    What the global allocator promises its users, over the nine caches and the buddy allocator: blocks of memory that
    are aligned, large enough and disjoint from all blocks in use; and where [dealloc] falls short of it. *)

From S2P Require Import Prelude Address Memory FrameAllocator Buddy BuddyBlocks BuddyProofs BuddyMemory MemMap Slub SlubProofs.

(** ** Size classes *)

Definition cache_size (i : nat) : Z := 2 ^ (Z.of_nat i + 3).

Lemma cache_size_ok i : (i < 9)%nat -> size_ok (cache_size i).
Proof. intros Hi. exists (Z.of_nat i + 3). split; [lia|done]. Qed.

(** [align] is a power of two in a [Layout]. *)
Definition layout_ok (size align : Z) : Prop := 0 <= size /\ exists k, 0 <= k < 64 /\ align = 2 ^ k.

Lemma actual_size_pow2 size align :
  layout_ok size align -> Z.max size align <= 2048 ->
  exists i, (i < 9)%nat /\ actual_size size align = cache_size i /\ size <= cache_size i /\ (align | cache_size i) /\
    Z.to_nat (trailing_zeros (actual_size size align) - 3) = i.
Proof.
  intros (Hs & k & Hk & ->) Hm. pose proof (pow2_pos k ltac:(lia)). set (m := Z.max size (2 ^ k)) in *.
  destruct (log2_up_spec' m ltac:(lia)) as [Hlt Hle]. pose proof (Z.log2_up_nonneg m) as Hn.
  assert (Hj : Z.log2_up m <= 11) by (change 11 with (Z.log2_up 2048); by apply Z.log2_up_le_mono).
  assert (Hkj : k <= Z.log2_up m).
  { rewrite <- (Z.log2_up_pow2 k) by lia. apply Z.log2_up_le_mono. lia. }
  set (j := Z.log2_up m) in *. assert (Hnp : next_power_of_two m = 2 ^ j).
  { unfold next_power_of_two. fold j. apply wrap_small. pose proof (pow2_le_mono j 11 ltac:(lia)). unfold usize. lia. }
  assert (Hact : actual_size size (2 ^ k) = 2 ^ Z.max j 3).
  { unfold actual_size. fold m. rewrite Hnp. change 8 with (2 ^ 3). destruct (Z.max_spec j 3) as [[? ->]|[? ->]].
    - pose proof (pow2_le_mono j 3 ltac:(lia)). lia.
    - pose proof (pow2_le_mono 3 j ltac:(lia)). lia. }
  exists (Z.to_nat (Z.max j 3 - 3)). unfold cache_size. replace (Z.of_nat (Z.to_nat (Z.max j 3 - 3)) + 3) with (Z.max j 3) by lia.
  rewrite Hact, trailing_zeros_pow2 by lia. pose proof (pow2_le_mono j (Z.max j 3) ltac:(lia)).
  split_and!; [lia|done|lia|apply pow2_divide; lia|lia].
Qed.

(** Sizes beyond the caches are at least a page. *)
Lemma actual_size_large size k :
  0 <= k < 64 -> 0 <= size < USIZE -> 2048 < actual_size size (2 ^ k) -> 4096 <= actual_size size (2 ^ k).
Proof.
  intros Hk Hs Hbig. unfold actual_size in *. assert (Hm : 2048 < next_power_of_two (Z.max size (2 ^ k))) by lia.
  pose proof (pow2_pos k ltac:(lia)). pose proof (pow2_le_mono k 63 ltac:(lia)).
  destruct (Z.le_gt_cases (Z.max size (2 ^ k)) (2 ^ 63)) as [Hle|Hgt]; [|rewrite next_power_of_two_overflow in Hm by lia; lia].
  unfold next_power_of_two in *. pose proof (Z.log2_up_nonneg (Z.max size (2 ^ k))).
  assert (Hj : Z.log2_up (Z.max size (2 ^ k)) <= 63) by (change 63 with (Z.log2_up (2 ^ 63)); by apply Z.log2_up_le_mono).
  set (j := Z.log2_up (Z.max size (2 ^ k))) in *. pose proof (pow2_le_mono j 63 ltac:(lia)). pose proof (pow2_pos j ltac:(lia)).
  rewrite wrap_small in * by (unfold usize; lia).
  destruct (Z.le_gt_cases j 11) as [Hj11|Hj11]; [pose proof (pow2_le_mono j 11 ltac:(lia)); lia|].
  pose proof (pow2_le_mono 12 j ltac:(lia)). lia.
Qed.

Lemma SLUB_CACHES_size i c : SLUB_CACHES !! i = Some c -> (i < 9)%nat /\ c = mkKmemCache (cache_size i) None None.
Proof.
  intros Hc. pose proof (lookup_lt_Some _ _ _ Hc) as Hi. cbn in Hi. split; [done|].
  do 9 (destruct i as [|i]; [injection Hc as <-; reflexivity|]). lia.
Qed.

(** ** The invariant of the heap *)

Section Heap.
Context {FA : Type} `{!FrameAllocator FA} `{!FrameMemory FA} `{!FrameBounds FA}.
Context `{!FrameAllocatorLaws FA} `{!FrameMemoryLaws FA} `{!FrameBoundsLaws FA}.
Context (lo hi : Z).

Definition heap_of (s : SlubAllocator FA) (c : KmemCache) : Heap FA := mkHeap (sl_frames s) (sl_map s) c.

(** [Ss i] are the slabs of cache [i]. *)
Definition slubs_ok (B : gmap Z Z) (Ss : nat -> gmap PhysPageNum (list Z)) (s : SlubAllocator FA) : Prop :=
  length (caches s) = 9%nat /\
  forall i c, caches s !! i = Some c ->
    object_size c = cache_size i /\ exists l, heap_ok lo hi i B (Ss i) l (heap_of s c).

(** The bytes of objects in use. *)
Definition byte_used (Ss : nat -> gmap PhysPageNum (list Z)) (a : Z) : Prop :=
  exists i o, (i < 9)%nat /\ in_use (cache_size i) (Ss i) o /\ o <= a < o + cache_size i.

(** The heap before the first allocation. *)
Lemma slubs_ok_init fs mm :
  fa_within fs ∅ lo hi -> map_ok lo hi mm -> slubs_ok ∅ (fun _ => ∅) (mkSlubAllocator fs mm SLUB_CACHES).
Proof using.
  intros Hw Hmm. split; [done|]. intros i c Hc. destruct (SLUB_CACHES_size i c Hc) as [Hi ->]. split; [done|].
  exists []. split; try done; [by apply cache_size_ok|constructor|intros p Hp; by apply not_elem_of_nil in Hp].
Qed.

Context (Hlo : 0 < lo) (Hhi : hi < DIRECT_MAP_PAGES).

(** The bytes of an object lie in the page of its slab. *)
Lemma object_bytes size p o a :
  size_ok size -> o ∈ objects size p -> o <= a < o + size ->
  slab_base p <= a < slab_base p + 4096 /\ o = slab_base p + (a - slab_base p) / size * size.
Proof using.
  intros Hs (i & -> & Hi%elem_of_seq)%list_elem_of_fmap Ha. destruct (size_ok_cap _ Hs) as (? & ? & ?). unfold object in *.
  split; [nia|]. assert ((a - slab_base p) / size = Z.of_nat i) as ->; [|done].
  symmetry. apply (Z.div_unique_pos _ _ _ (a - slab_base p - Z.of_nat i * size)); lia.
Qed.

(** Every page is a slab of at most one cache. *)
Lemma slab_cache B Ss s i j p fr fr' :
  slubs_ok B Ss s -> (i < 9)%nat -> (j < 9)%nat -> Ss i !! p = Some fr -> Ss j !! p = Some fr' -> i = j.
Proof using.
  intros [Hlen Hok] Hi Hj HSi HSj.
  destruct (lookup_lt_is_Some_2 (caches s) i) as [ci Hci]; [lia|]. destruct (lookup_lt_is_Some_2 (caches s) j) as [cj Hcj]; [lia|].
  destruct (Hok i ci Hci) as [_ [li Hhi']], (Hok j cj Hcj) as [_ [lj Hhj]].
  destruct (so_entry _ _ _ _ _ _ _ _ _ (ho_slabs _ _ _ _ _ _ _ Hhi' p fr HSi)) as (fl & Hv & _).
  destruct (so_entry _ _ _ _ _ _ _ _ _ (ho_slabs _ _ _ _ _ _ _ Hhj p fr' HSj)) as (fl' & Hv' & _).
  cbn [heap_of h_map] in Hv, Hv'. rewrite Hv in Hv'. by injection Hv'.
Qed.

(** Bytes of two objects, one of them in use, are bytes of the same object if they coincide. *)
Lemma used_byte_object B Ss s i p o j o' a :
  slubs_ok B Ss s -> (i < 9)%nat -> o ∈ objects (cache_size i) p -> o <= a < o + cache_size i ->
  (j < 9)%nat -> in_use (cache_size j) (Ss j) o' -> o' <= a < o' + cache_size j ->
  B !! p = Some 1 /\ (is_Some (Ss i !! p) -> i = j /\ o = o').
Proof using.
  intros Hok Hi Ho Ha Hj (q & fr & Hq & Ho' & Hn) Ha'.
  destruct (object_bytes _ p o a (cache_size_ok i Hi) Ho Ha) as [Hpa Hoeq].
  destruct (object_bytes _ q o' a (cache_size_ok j Hj) Ho' Ha') as [Hqa Hoeq'].
  assert (q = p) as -> by (unfold slab_base in *; lia).
  destruct (lookup_lt_is_Some_2 (caches s) j) as [cj Hcj]; [destruct Hok; lia|].
  destruct (proj2 Hok j cj Hcj) as [_ [lj Hhj]]. split; [apply (ho_slabs _ _ _ _ _ _ _ Hhj p fr Hq)|].
  intros [fr' Hfr']. assert (i = j) as <- by (by eapply (slab_cache B Ss s i j p)). split; [done|]. by rewrite Hoeq, Hoeq'.
Qed.

(** The other caches do not notice an operation of cache [i]. *)
Lemma other_heap_ok (i j : nat) B B' S (S' : gmap PhysPageNum (list Z)) l h h' :
  heap_ok lo hi j B S l h -> fa_within (h_frames h') B' lo hi -> map_ok lo hi (h_map h') -> h_cache h' = h_cache h ->
  B ⊆ B' -> (forall a, in_blocks B a -> fm_read (h_frames h') a = fm_read (h_frames h) a) ->
  (forall q, lo <= q < hi -> S' !! q = None -> get_page_state (h_map h') q = get_page_state (h_map h) q) ->
  (forall q fr, S !! q = Some fr -> S' !! q = None) -> (i <> j) -> heap_ok lo hi j B' S l h'.
Proof using All.
  intros [Hs Hw Hmm Hsl Ha Hpl Hnd Hps] Hw' Hmm' Hc HB Hfr Hg Hapart Hij. split; rewrite ?Hc; try done.
  - intros p free Hp. pose proof (Hsl p free Hp) as Hso. pose proof Hso as [Hpr HBp _ Hin _].
    eapply slab_ok_ext; [done|exact Hso| |by eapply lookup_weaken|].
    + unfold slab_view. by rewrite Hg by eauto.
    + intros o Ho. apply Hfr. eapply (object_in_block lo hi Hlo Hhi); [exact Hs|exact Hpr|exact HBp|by apply Hin].
  - revert Hpl. apply partial_list_ext. intros q Hq. unfold next_of. destruct (Hps q Hq) as [fr Hq'].
    rewrite Hg; [done|apply (Hsl q fr Hq')|by eapply Hapart].
Qed.

(** [Ss] with the slabs of cache [i] replaced. *)
Definition set_slabs (Ss : nat -> gmap PhysPageNum (list Z)) (i : nat) (S : gmap PhysPageNum (list Z)) : nat -> gmap PhysPageNum (list Z) :=
  fun j => if decide (j = i) then S else Ss j.

Lemma taken_blocks size B S r B' S' : taken size B S r B' S' -> B ⊆ B'.
Proof using. intros (p & free & _ & [[_ ->]|(_ & HB & _ & ->)]); [done|by apply insert_subseteq]. Qed.

Lemma GlobalAlloc_alloc_ok B Ss s size align f :
  slubs_ok B Ss s -> layout_ok size align -> Z.max size align <= 2048 -> (2 * length (MEM_MAP (sl_map s)) + 3 <= f)%nat ->
  exists i r s' B' S', (i < 9)%nat /\ size <= cache_size i /\ (align | cache_size i) /\
    GlobalAlloc_alloc f s size align = Done (r, s') /\ slubs_ok B' (set_slabs Ss i S') s' /\ B ⊆ B' /\
    (forall a, in_blocks B a -> fm_read (sl_frames s') a = fm_read (sl_frames s) a) /\
    ((r = 0 /\ B' = B /\ S' = Ss i /\ exists fs, fa_alloc (sl_frames s) 1 = Done (None, fs)) \/
     taken (cache_size i) B (Ss i) r B' S' /\ 
     exists c l, object_size c = cache_size i /\ heap_ok lo hi i B (Ss i) l (heap_of s c)).
Proof using All.
  intros [Hlen Hok] Hlay Hmax Hf. destruct (actual_size_pow2 size align Hlay Hmax) as (i & Hi & Hact & Hsz & Hal & Hidx).
  destruct (lookup_lt_is_Some_2 (caches s) i) as [c Hc]; [lia|]. destruct (Hok i c Hc) as [Hcs [l Hh]].
  pose proof (partial_length lo hi Hlo Hhi _ _ _ _ _ Hh) as Hl. cbn [heap_of h_map] in Hl.
  destruct (kmem_alloc_ok lo hi Hlo Hhi i B (Ss i) l (heap_of s c) f Hh ltac:(lia)) as (r & h' & B' & S' & l' & Heq & Hh' & (Hkm & Hkg & Hko) & Hr).
  cbn [heap_of h_frames h_map h_cache] in Hkm, Hkg, Hko, Hr. rewrite Hcs in Hr, Hko.
  assert (HB : B ⊆ B') by (destruct Hr as [(_ & -> & _)|Ht]; [done|by eapply taken_blocks]).
  exists i, r, (mkSlubAllocator (h_frames h') (h_map h') (<[i := h_cache h']> (caches s))), B', S'. split_and!; try done.
  - unfold GlobalAlloc_alloc. rewrite Hidx, Hact. destruct (Z.leb_spec (cache_size i) 2048) as [_|Hbig].
    + unfold on_cache. rewrite (proj2 (index_Done _ i c) Hc). cbn [mbind outcome_bind]. fold (heap_of s c). by rewrite Heq.
    + unfold cache_size in Hbig. pose proof (pow2_le_mono (Z.of_nat i + 3) 11 ltac:(lia)). lia.
  - split; cbn [caches]; [by rewrite length_insert|]. intros j cj Hj. unfold set_slabs. destruct (decide (j = i)) as [->|Hne].
    + rewrite list_lookup_insert_eq in Hj by lia. injection Hj as <-. split; [done|]. exists l'. by destruct h'.
    + rewrite list_lookup_insert_ne in Hj by done. destruct (Hok j cj Hj) as [Hcj [lj Hhj]]. split; [done|]. exists lj.
      apply (other_heap_ok i j B B' (Ss j) S' lj (heap_of s cj)); try done; [apply Hh'|apply Hh'|].
      intros q fr Hq. destruct (S' !! q) as [fr'|] eqn:Hq'; [|done]. exfalso.
      assert (HBq : B !! q = Some 1) by apply (ho_slabs _ _ _ _ _ _ _ Hhj q fr Hq).
      assert (Hj9 : (j < 9)%nat) by (rewrite <- Hlen; by eapply lookup_lt_Some).
      assert (is_Some (Ss i !! q)) as [fr2 Hfr2].
      { destruct Hr as [(_ & _ & -> & _)|(p & free' & -> & Hcase)]; [by exists fr'|].
        apply lookup_insert_Some in Hq' as [[-> _]|[_ Hq']]; [|by exists fr'].
        destruct Hcase as [[? _]|(_ & ? & _)]; [by eexists|congruence]. }
      apply Hne. by apply (slab_cache B Ss s j i q fr fr2).
  - destruct Hr as [Hr|Hr]; [by left|right; split; [done|by exists c, l]].
Qed.
End Heap.

(** ** What [alloc] promises *)

Lemma object_align i p o align : (i < 9)%nat -> (align | cache_size i) -> o ∈ objects (cache_size i) p -> (align | o).
Proof.
  intros Hi Hal (j & -> & _)%list_elem_of_fmap.
  assert (H4 : (cache_size i | 4096)) by (change 4096 with (2 ^ 12); apply pow2_divide; lia).
  unfold object, slab_base. apply Z.divide_add_r; [apply (Z.divide_trans _ 4096); [by eapply Z.divide_trans|]|].
  - apply Z.divide_add_r; [by exists 4503599626321920|by exists p].
  - by apply Z.divide_mul_r.
Qed.

Lemma taken_object lo hi i B Ss (s : SlubAllocator Frames) l c r B' S' :
  heap_ok lo hi i B (Ss i) l (heap_of s c) -> object_size c = cache_size i -> taken (cache_size i) B (Ss i) r B' S' ->
  exists p free', S' = <[p := free']> (Ss i) /\ r ∈ objects (cache_size i) p /\
    (is_Some (Ss i !! p) \/ B !! p = None).
Proof.
  intros Hh Hc (p & free' & -> & Hcase). exists p, free'. split; [done|].
  destruct Hcase as [[HS _]|(_ & HB & -> & _)]; [|split; [constructor|by right]].
  pose proof (so_free _ _ _ _ _ _ _ _ _ (ho_slabs _ _ _ _ _ _ _ Hh p _ HS)) as Hin. cbn [heap_of h_cache] in Hin.
  rewrite Hc in Hin. split; [apply Hin; constructor|left; by eexists].
Qed.

(** The bytes in use after an object of cache [i] has been taken. *)
Lemma taken_bytes lo hi B Ss (s : SlubAllocator Frames) i r B' S' c l :
  slubs_ok lo hi B Ss s -> (i < 9)%nat -> taken (cache_size i) B (Ss i) r B' S' ->
  object_size c = cache_size i -> heap_ok lo hi i B (Ss i) l (heap_of s c) -> 0 < lo -> hi < DIRECT_MAP_PAGES ->
  (forall a, r <= a < r + cache_size i -> ~ byte_used Ss a) /\
  (forall a, byte_used (set_slabs Ss i S') a <-> byte_used Ss a \/ r <= a < r + cache_size i).
Proof.
  intros Hok Hi Ht Hc Hh Hlo Hhi. pose proof Ht as Ht'.
  rewrite <- Hc in Ht'. destruct (taken_in_use lo hi Hlo Hhi i B (Ss i) l (heap_of s c) r B' S' Hh Ht') as [Hnot Huse].
  cbn [heap_of h_cache] in Hnot, Huse. rewrite Hc in Hnot, Huse. split.
  - intros a Ha (j & o & Hj & Ho & Ha'). destruct (taken_object lo hi i B Ss s l c r B' S') as (p & free' & _ & Hr & Hcase); [done..|].
    destruct (used_byte_object lo hi B Ss s i p r j o a Hok Hi Hr Ha Hj Ho Ha') as [HB Heq].
    destruct Hcase as [HS|HB']; [|congruence]. by destruct (Heq HS) as [<- <-].
  - intros a. split.
    + intros (j & o & Hj & Ho & Ha). unfold set_slabs in Ho. destruct (decide (j = i)) as [->|Hne].
      * apply Huse in Ho as [Ho| ->]; [left; by exists i, o|by right].
      * left. by exists j, o.
    + intros [(j & o & Hj & Ho & Ha)|Ha].
      * exists j, o. split_and!; try done; [|lia..]. unfold set_slabs. case_decide; [subst j; apply Huse; by left|done].
      * exists i, r. split_and!; try done; [|lia..]. unfold set_slabs. rewrite decide_True by done. apply Huse. by right.
Qed.

(** C6: for every layout of up to 2048 bytes, the heap's [alloc] terminates without panic, and keeps the heap's invariant
    and every word of memory outside of free frames. It returns null only if the buddy allocator has no page left, and then
    nothing changes; otherwise the block it returns has the requested alignment and at least the requested size, no
    byte of it was in use, and exactly its bytes become used. *)
Theorem GlobalAlloc_alloc_spec lo hi B Ss (s : SlubAllocator Frames) size align :
  0 < lo -> hi < DIRECT_MAP_PAGES -> slubs_ok lo hi B Ss s -> layout_ok size align -> Z.max size align <= 2048 ->
  exists r s' B' Ss', GlobalAlloc_alloc (2 * length (MEM_MAP (sl_map s)) + 3) s size align = Done (r, s') /\
    slubs_ok lo hi B' Ss' s' /\
    (forall a, in_blocks B a -> read_pa (memory (sl_frames s')) a = read_pa (memory (sl_frames s)) a) /\
    ((r = 0 /\ (forall a, byte_used Ss' a <-> byte_used Ss a) /\ exists fs, Buddy.alloc (sl_frames s) 1 = Done (None, fs)) \/
     (0 < r /\ (align | r) /\ exists n, size <= n /\
        (forall a, r <= a < r + n -> ~ byte_used Ss a) /\
        (forall a, byte_used Ss' a <-> byte_used Ss a \/ r <= a < r + n))).
Proof.
  intros Hlo Hhi Hok Hlay Hmax.
  destruct (GlobalAlloc_alloc_ok lo hi Hlo Hhi B Ss s size align _ Hok Hlay Hmax (le_n _))
    as (i & r & s' & B' & S' & Hi & Hsz & Hal & Heq & Hok' & HB & Hfr & Hr).
  exists r, s', B', (set_slabs Ss i S'). split; [done|]. split; [done|]. split; [done|].
  destruct Hr as [(-> & -> & -> & fs & Hfs)|(Ht & c & l & Hc & Hh)].
  - left. split; [done|]. split; [|by exists fs]. intros a.
    assert (Hsame : forall j, set_slabs Ss i (Ss i) j = Ss j) by (intros j; unfold set_slabs; by case_decide; subst).
    unfold byte_used. by setoid_rewrite Hsame.
  - right. destruct (taken_bytes lo hi B Ss s i r B' S' c l) as [Hfresh Hbytes]; [done..|].
    destruct (taken_object lo hi i B Ss s l c r B' S' Hh Hc Ht) as (p & free' & HS' & Hro & _).
    assert (Hp : lo <= p).
    { destruct (lookup_lt_is_Some_2 (caches s') i) as [c' Hc']; [destruct Hok'; lia|].
      destruct (proj2 Hok' i c' Hc') as [_ [l' Hh']].
      apply (so_page _ _ _ _ _ _ _ _ _ (ho_slabs _ _ _ _ _ _ _ Hh' p free' ltac:(by unfold set_slabs; rewrite decide_True, HS', lookup_insert_eq))). }
    split; [eapply objects_nonzero; [by apply cache_size_ok| |exact Hro]; lia|].
    split; [by eapply object_align|]. by exists (cache_size i).
Qed.

(** ** A heap of eight pages *)

Definition example_map : MemMap := mkMemMap (replicate 8 (mkPage 0 Free)) 0x80400.
Definition example_slub : SlubAllocator Frames := mkSlubAllocator example_frames example_map SLUB_CACHES.

Lemma example_frames_within : fa_within example_frames ∅ 0x80400 0x80408.
Proof.
  split; [|unfold DIRECT_MAP_PAGES; lia]. split; [|by intros p n Hn; rewrite lookup_empty in Hn].
  assert (blocks_of ∅ = ∅) as -> by (unfold blocks_of; by rewrite fmap_empty, kmap_empty).
  exists {[0x80400000 := 3%nat]}. split; [apply example_frames_ok|]. split.
  - intros a (p & o & [<- <-]%lookup_singleton_Some & Ha). change (bsize 3) with 32768 in Ha. lia.
  - intros a (p & o & Hp & _). by rewrite lookup_empty in Hp.
Qed.

Lemma example_slub_ok : slubs_ok 0x80400 0x80408 ∅ (fun _ => ∅) example_slub.
Proof. apply slubs_ok_init; [apply example_frames_within|by split]. Qed.

Lemma GlobalAlloc_alloc_spec_witness :
  exists r s' B' Ss', GlobalAlloc_alloc 19 example_slub 100 16 = Done (r, s') /\
    slubs_ok 0x80400 0x80408 B' Ss' s' /\ r = 0xFFFFFFFF80400000 /\ byte_used Ss' (r + 99).
Proof.
  destruct (GlobalAlloc_alloc_spec 0x80400 0x80408 _ _ example_slub 100 16 ltac:(lia) ltac:(unfold DIRECT_MAP_PAGES; lia) example_slub_ok)
    as (r & s' & B' & Ss' & Heq & Hok & _ & Hr); [split; [lia|by exists 4]|lia|].
  exists r, s', B', Ss'. split; [exact Heq|]. split; [exact Hok|].
  assert (Hv : fst <$> GlobalAlloc_alloc (2 * length (MEM_MAP (sl_map example_slub)) + 3) example_slub 100 16 = Done 0xFFFFFFFF80400000)
    by (vm_compute; reflexivity).
  rewrite Heq in Hv. injection Hv as ->. split; [done|].
  destruct Hr as [[? _]|(_ & _ & n & Hn & _ & Hu)]; [lia|]. apply Hu. right. lia.
Defined.

(** ** Termination *)

Lemma kmem_alloc_mono f : forall f' id (h : Heap Frames) x, kmem_alloc f id h = Done x -> (f <= f')%nat -> kmem_alloc f' id h = Done x.
Proof.
  induction f as [|f IH]; intros f' id h x Heq Hf; [done|]. destruct f' as [|f']; [lia|]. apply le_S_n in Hf.
  cbn [kmem_alloc] in *. destruct (active_slab_ppn (h_cache h)) as [p|].
  - destruct (get_page_state (h_map h) p) as [[rc [|[]| |]]|]; cbn [mbind outcome_bind state] in *; try done.
    case_match; [by apply IH|done].
  - destruct (partial_slabs_head (h_cache h)) as [p|].
    + cbn [set_partial h_map] in *.
      destruct (get_page_state (h_map h) p) as [[rc [|[]| |]]|]; cbn [mbind outcome_bind state] in *; try done. by apply IH.
    + destruct (alloc_new_slab id h) as [[[p|] h']|]; cbn [mbind outcome_bind] in *; [by apply IH|done|done].
Qed.


Definition example_heap : Heap Frames := mkHeap example_frames example_map (KmemCache_new 2048).

Lemma example_heap_ok : heap_ok 0x80400 0x80408 8 ∅ ∅ [] example_heap.
Proof.
  destruct (proj2 example_slub_ok 8%nat (KmemCache_new 2048)) as [_ [l Hl]]; [reflexivity|].
  destruct l as [|p l]; [exact Hl|]. by destruct (ho_partial _ _ _ _ _ _ _ Hl) as [? _].
Qed.


(** ** Freeing *)

Lemma given_back_in_use lo hi id B S l (h : Heap Frames) p o free B' S' :
  0 < lo -> hi < DIRECT_MAP_PAGES ->
  heap_ok lo hi id B S l h -> S !! p = Some free -> o ∈ objects (object_size (h_cache h)) p -> o ∉ free ->
  given_back (object_size (h_cache h)) B S p o free B' S' ->
  forall o', in_use (object_size (h_cache h)) S' o' <-> in_use (object_size (h_cache h)) S o' /\ o' <> o.
Proof.
  intros Hlo Hhi Hok HS Ho Hof Hgb o'. pose proof (ho_size _ _ _ _ _ _ _ Hok) as Hs.
  pose proof (ho_slabs _ _ _ _ _ _ _ Hok p free HS) as [_ _ Hnd Hin _].
  set (size := object_size (h_cache h)) in *. unfold given_back in Hgb.
  assert (Hp : forall x, x ∈ objects size p -> in_use size S x <-> x ∉ free).
  { intros x Hx. split; [|by exists p, free]. intros (q & fr & Hq & Hxq & Hxn).
    assert (q = p) as -> by (by eapply object_page). congruence. }
  assert (Hother : forall x, x ∉ objects size p -> in_use size S' x <-> in_use size S x).
  { intros x Hx. case_decide; destruct Hgb as [_ ->]; split; intros (q & fr & Hq & Hxq & Hxn);
      exists q, fr; (assert (q <> p) by (intros ->; done));
      rewrite ?lookup_delete_ne, ?lookup_insert_ne in * by done; done. }
  destruct (decide (o' ∈ objects size p)) as [Ho'|Ho'].
  - rewrite Hp by done. case_decide as Hfull; destruct Hgb as [_ ->].
    + assert (Hall : o' ∈ o :: free).
      { assert (Hperm : o :: free ≡ₚ objects size p).
        { apply submseteq_length_Permutation; [apply NoDup_submseteq; [by apply NoDup_cons|set_solver]|].
          rewrite Hfull, objects_length. done. }
        by rewrite Hperm. }
      split; [|set_solver]. intros (q & fr & [Hne Hq]%lookup_delete_Some & Hxq & _). destruct Hne. by eapply object_page.
    + split.
      * intros (q & fr & Hq & Hxq & Hn). assert (q = p) as -> by (by eapply object_page).
        rewrite lookup_insert_eq in Hq. injection Hq as <-. set_solver.
      * intros [Hn Hne]. exists p, (o :: free). rewrite lookup_insert_eq. split_and!; [done|done|set_solver].
  - rewrite Hother by done. split; [|by intros [? _]]. intros Hu. split; [done|]. by intros ->.
Qed.

(** C17: when the slabs of a cache are placed as described, [free_object] of an object in use does not panic; exactly
    this object becomes free, a slab whose last object is freed goes back to the buddy allocator, the slabs stay placed,
    and all memory of the remaining blocks is unchanged but for the first word of the object. *)
Theorem free_object_spec lo hi id B S l (h : Heap Frames) p free o :
  0 < lo -> hi < DIRECT_MAP_PAGES -> heap_ok lo hi id B S l h -> placed S l (h_cache h) ->
  S !! p = Some free -> o ∈ objects (object_size (h_cache h)) p -> o ∉ free ->
  exists h' B' S' l', free_object h o p = Done h' /\ heap_ok lo hi id B' S' l' h' /\ placed S' l' (h_cache h') /\
    (forall o', in_use (object_size (h_cache h)) S' o' <-> in_use (object_size (h_cache h)) S o' /\ o' <> o) /\
    (B' = if decide (length (o :: free) = slab_cap (object_size (h_cache h))) then delete p B else B) /\
    (forall a, in_blocks B' a -> a <> virt_to_phys o ->
       read_pa (memory (h_frames h')) a = read_pa (memory (h_frames h)) a).
Proof.
  intros Hlo Hhi Hok Hpl HS Ho Hof.
  destruct (free_object_ok lo hi Hlo Hhi id B S l h p free o Hok Hpl HS Ho Hof) as (h' & B' & S' & l' & Heq & Hok' & Hpl' & Hgb & _ & Hfr & _).
  exists h', B', S', l'. split; [done|]. split; [done|]. split; [done|].
  split; [by eapply (given_back_in_use lo hi)|]. split; [|exact Hfr].
  unfold given_back in Hgb. case_decide; by destruct Hgb.
Qed.

(** A cache with one slab, full and forgotten. *)
Definition full_map : MemMap := page_set example_map 0x80400 (mkPage 1 (SlabPage (Slub 0 2 8 false 0))).
Definition full_heap (fs : Frames) : Heap Frames := mkHeap fs full_map (KmemCache_new 2048).

Lemma full_heap_ok : exists fs, heap_ok 0x80400 0x80408 8 {[0x80400 := 1]} {[0x80400 := []]} [] (full_heap fs).
Proof.
  destruct (fa_within_alloc example_frames ∅ 0x80400 0x80408 1 example_frames_within ltac:(lia)) as (r & fs & Heq & Hr).
  assert (Hv : fst <$> Buddy.alloc example_frames 1 = Done (Some 0x80400)) by (vm_compute; reflexivity).
  cbn [fa_alloc buddy_frame_allocator] in Heq. rewrite Heq in Hv. injection Hv as ->. destruct Hr as (_ & _ & _ & Hw).
  exists fs. split; try done; [apply (cache_size_ok 8); lia| |constructor|intros p Hp; by apply not_elem_of_nil in Hp].
  intros p free [<- <-]%lookup_singleton_Some. split; try done; [apply NoDup_nil_2|set_solver|].
  exists 0. split; [reflexivity|done].
Qed.

Lemma free_object_spec_witness :
  exists fs h' B' S' l', free_object (full_heap fs) 0xFFFFFFFF80400800 0x80400 = Done h' /\
    heap_ok 0x80400 0x80408 8 B' S' l' h' /\ in_use 2048 S' 0xFFFFFFFF80400000.
Proof.
  destruct full_heap_ok as [fs Hok].
  destruct (free_object_spec 0x80400 0x80408 8 _ _ [] (full_heap fs) 0x80400 [] 0xFFFFFFFF80400800 ltac:(lia)
    ltac:(unfold DIRECT_MAP_PAGES; lia) Hok) as (h' & B' & S' & l' & Heq & Hok' & _ & Huse & _).
  - split; [done|]. intros p free [<- <-]%lookup_singleton_Some _. set_solver.
  - reflexivity.
  - change (0xFFFFFFFF80400800 ∈ [0xFFFFFFFF80400000; 0xFFFFFFFF80400800]). set_solver.
  - set_solver.
  - exists fs, h', B', S', l'. split; [exact Heq|]. split; [exact Hok'|]. apply Huse. split; [|done].
    exists 0x80400, []. split; [reflexivity|]. split; [|set_solver].
    change (0xFFFFFFFF80400000 ∈ [0xFFFFFFFF80400000; 0xFFFFFFFF80400800]). set_solver.
Defined.

(** ** Where the slabs are not placed *)

(** the pointers [dealloc] gets are never freed. It takes the physical address itself for the page number, so the
    index into [MEM_MAP] is out of bounds for every pointer into RAM, and it panics, whatever the layout (as long as the
    page numbers of RAM are below its addresses). *)
Theorem GlobalAlloc_dealloc_panics lo hi (s : SlubAllocator Frames) ptr size align :
  0 < lo <= hi -> hi < DIRECT_MAP_PAGES -> hi <= lo * 4096 -> map_ok lo hi (sl_map s) ->
  layout_ok size align -> size < USIZE -> lo * 4096 <= virt_to_phys ptr < hi * 4096 ->
  GlobalAlloc_dealloc s ptr size align = panic "index out of bounds".
Proof.
  intros Hlo Hhi Hra Hmm [Hs (k & Hk & ->)] Hsu Hptr. unfold DIRECT_MAP_PAGES in Hhi. set (pa := virt_to_phys ptr) in *.
  assert (Hppn : PhysPageNum_from_usize pa = pa).
  { unfold PhysPageNum_from_usize. etransitivity; [apply (land_low_mask pa 44); lia|]. apply Z.mod_small. lia. }
  assert (Hget : get_page_state (sl_map s) pa = panic "index out of bounds").
  { destruct Hmm as [Hrs Hl]. unfold get_page_state, page_index, index. rewrite Hrs, wsub_small by lia.
    by rewrite lookup_ge_None_2 by lia. }
  unfold GlobalAlloc_dealloc. fold pa. rewrite Hppn, Hget. destruct (Z.ltb_spec 2048 (actual_size size (2 ^ k))) as [Hbig|]; [|done].
  assert (Hpages : exists n, Z.to_nat (wshr (actual_size size (2 ^ k)) PAGE_SIZE_BITS) = S n).
  { pose proof (actual_size_large size k Hk ltac:(lia) Hbig) as H4. unfold PAGE_SIZE_BITS. rewrite wshr_div by lia.
    pose proof (Z.div_le_mono 4096 (actual_size size (2 ^ k)) 4096 ltac:(lia) H4). change (4096 / 4096) with 1 in *. change (2 ^ 12) with 4096.
    exists (Z.to_nat (actual_size size (2 ^ k) / 4096 - 1)). lia. }
  destruct Hpages as [n ->]. cbn [mark_returned]. assert (pa ⊞ 0 = pa) as -> by (rewrite wadd_small; lia). by rewrite Hget.
Qed.

Lemma GlobalAlloc_dealloc_panics_witness :
  GlobalAlloc_dealloc example_slub 0xFFFFFFFF80400000 100 16 = panic "index out of bounds".
Proof.
  apply (GlobalAlloc_dealloc_panics 0x80400 0x80408); try (unfold DIRECT_MAP_PAGES; lia).
  - by split.
  - split; [lia|by exists 4].
  - change (virt_to_phys 0xFFFFFFFF80400000) with 0x80400000. lia.
Defined.

(** [free_object] of the last object in use of the active slab does not look at the partial list. *)
Lemma free_active_empty lo hi id B S l (h : Heap Frames) p o free :
  0 < lo -> hi < DIRECT_MAP_PAGES -> heap_ok lo hi id B S l h -> S !! p = Some free ->
  o ∈ objects (object_size (h_cache h)) p -> o ∉ free -> active_slab_ppn (h_cache h) = Some p ->
  Datatypes.S (length free) = slab_cap (object_size (h_cache h)) ->
  exists h', free_object h o p = Done h' /\ get_page_state (h_map h') p = Done (mkPage 0 Free) /\
    active_slab_ppn (h_cache h') = None /\ partial_slabs_head (h_cache h') = partial_slabs_head (h_cache h).
Proof.
  intros Hlo Hhi Hok HS Ho Hof Hact Hlen. pose proof (ho_size _ _ _ _ _ _ _ Hok) as Hs. pose proof (ho_map _ _ _ _ _ _ _ Hok) as Hmm.
  destruct (ho_slabs _ _ _ _ _ _ _ Hok p free HS) as [Hp HB Hnd Hin (fl & Hv & Hfl)].
  destruct (slab_view_entry _ _ _ _ _ Hv) as (rc & hn & np & Hget & Hnx).
  destruct (push_object_ok lo hi Hlo Hhi id B S l h p free o fl rc hn np Hok HS Ho Hof Hv Hnx Hfl) as [Hok1 _].
  unfold free_object. rewrite Hget. cbn [mbind outcome_bind state ref_count].
  rewrite (object_va lo hi Hlo Hhi _ p o Hs Hp Ho), (free_entry_wrap (object_size (h_cache h)) free Hs ltac:(lia) o).
  change (h_map (set_frames h (write_word (h_frames h) o fl))) with (h_map h).
  set (e1 := mkPage rc (SlabPage (Slub o _ id hn np))) in *.
  destruct (page_set_ok lo hi Hlo Hhi (h_map h) p e1 Hmm Hp) as [-> Hmm1]. cbn [mbind outcome_bind].
  rewrite bool_decide_eq_true_2 by done.
  destruct (Z.eqb_spec (Z.of_nat (slab_cap (object_size (h_cache h)) - length (o :: free))) 0) as [_|Hne]; [|cbn [length] in Hne; lia].
  cbn [mbind outcome_bind set_map set_active set_frames h_cache h_map h_frames object_size].
  destruct (return_pages _ Hs) as [-> ->]. rewrite (mark_returned_one lo hi) by done. cbn [mbind outcome_bind].
  destruct (fa_within_dealloc _ B lo hi p 1 (ho_frames _ _ _ _ _ _ _ Hok1) HB) as (fs & Hd & _).
  cbn [set_entry set_map set_frames h_frames] in Hd. rewrite Hd. cbn [mbind outcome_bind]. eexists. split; [reflexivity|].
  cbn [h_map h_cache active_slab_ppn partial_slabs_head]. split; [|done].
  rewrite (get_page_set lo hi) by done. by rewrite decide_True.
Qed.

(** a cache with no slab to allocate from (a new one, for instance) panics after a successful allocation, its release
    and another allocation: the new slab is active and also on the partial list, from which [free_object] does
    not remove it when it returns the slab. *)
Theorem alloc_free_alloc_panics lo hi id B S (h h1 : Heap Frames) o :
  0 < lo -> hi < DIRECT_MAP_PAGES -> heap_ok lo hi id B S [] h -> active_slab_ppn (h_cache h) = None ->
  kmem_alloc 3 id h = Done (o, h1) -> o <> 0 ->
  exists h2, free_object h1 o (PhysAddr_floor (virt_to_phys o)) = Done h2 /\
    forall f, kmem_alloc (Datatypes.S f) id h2 = panic "FATAL: Memory corruption! Found non-Head page in partial_slabs_head".
Proof.
  intros Hlo Hhi Hok Hact Hal Ho. pose proof (ho_size _ _ _ _ _ _ _ Hok) as Hs.
  destruct (kmem_alloc_new lo hi Hlo Hhi 2 id B S h Hok Hact) as [(fs' & _ & Heq & _)|(p & h' & Heq & HB & HS & Hok' & Hact' & Hk)];
    rewrite Hal in Heq; [injection Heq as Ho' _; done|].
  pose proof (objects_length (object_size (h_cache h)) p) as Hl. destruct (size_ok_cap _ Hs) as (_ & _ & Hc2).
  destruct (objects (object_size (h_cache h)) p) as [|o' free] eqn:Hobj; [cbn in Hl; lia|].
  destruct (kmem_alloc_take lo hi Hlo Hhi 1 id _ _ _ h' p o' free Hok' Hact') as (h1' & Heq1 & Hok1 & Hfs1 & Hc1 & _);
    [by rewrite lookup_insert_eq|]. rewrite Heq1 in Heq. injection Heq as -> ->. rewrite insert_insert_eq in Hok1.
  pose proof (ho_size _ _ _ _ _ _ _ Hok') as Hs'. rewrite <- Hc1 in Hs', Hact'.
  assert (Hsz : object_size (h_cache h1') = object_size (h_cache h)) by (rewrite Hc1; apply Hk). rewrite <- Hsz in Hobj, Hl, Hc2.
  assert (HS1 : <[p := free]> S !! p = Some free) by (by rewrite lookup_insert_eq).
  destruct (ho_slabs _ _ _ _ _ _ _ Hok1 p free HS1) as [Hp HBp Hnd Hin (fl & Hv & Hfl)].
  assert (Hob : o' ∈ objects (object_size (h_cache h1')) p) by (rewrite Hobj; constructor).
  assert (Hof : o' ∉ free) by (pose proof (objects_NoDup _ p Hs') as Hn; rewrite Hobj in Hn; by apply NoDup_cons in Hn as [? _]).
  destruct (object_in_block lo hi Hlo Hhi _ _ p o' Hs' Hp HBp Hob) as [_ Hpa].
  rewrite PhysAddr_floor_div. assert (virt_to_phys o' / 4096 = p) as -> by (symmetry; apply (Z.div_unique_pos _ _ _ (virt_to_phys o' - p * 4096)); lia).
  destruct (free_active_empty lo hi id _ _ _ h1' p o' free Hlo Hhi Hok1 HS1 Hob Hof Hact') as (h2 & Hfree & Hg2 & Ha2 & Hp2); [cbn in Hl; lia|].
  exists h2. split; [done|]. intros f. cbn [kmem_alloc]. destruct (ho_partial _ _ _ _ _ _ _ Hok1) as [Hhd _].
  rewrite Ha2, Hp2, Hhd. cbn [set_partial h_map]. by rewrite Hg2.
Qed.

Lemma alloc_free_alloc_panics_witness :
  exists h1 h2, kmem_alloc 3 8 example_heap = Done (0xFFFFFFFF80400000, h1) /\ free_object h1 0xFFFFFFFF80400000 0x80400 = Done h2 /\
    kmem_alloc 1 8 h2 = panic "FATAL: Memory corruption! Found non-Head page in partial_slabs_head".
Proof.
  destruct (kmem_alloc 3 8 example_heap) as [[o h1]|] eqn:Heq; [|by vm_compute in Heq].
  assert (Hv : fst <$> kmem_alloc 3 8 example_heap = Done 0xFFFFFFFF80400000) by (vm_compute; reflexivity).
  rewrite Heq in Hv. injection Hv as ->.
  destruct (alloc_free_alloc_panics 0x80400 0x80408 8 _ _ example_heap h1 _ ltac:(lia) ltac:(unfold DIRECT_MAP_PAGES; lia)
    example_heap_ok eq_refl Heq ltac:(lia)) as (h2 & Hf & Hp).
  exists h1, h2. split; [done|]. split; [exact Hf|]. apply Hp.
Defined.

(** Clients of a cache that hold the objects [live]: [AllocOp] allocates one more, [FreeOp i] frees the [i]-th. *)
Inductive heap_op := AllocOp | FreeOp (i : nat).

Fixpoint run_ops (id : nat) (live : list Z) (h : Heap Frames) (ops : list heap_op) : outcome (list Z * Heap Frames) :=
  match ops with
  | [] => Done (live, h)
  | AllocOp :: ops =>
      '(o, h) ← kmem_alloc (2 * length (MEM_MAP (h_map h)) + 3) id h;
      run_ops id (live ++ [o]) h ops
  | FreeOp i :: ops =>
      o ← index live i;
      h ← free_object h o (PhysAddr_floor (virt_to_phys o));
      run_ops id (delete i live) h ops
  end.

(** A full slab that is its own successor on the partial list. *)
Lemma kmem_alloc_loops f : forall id (h : Heap Frames) p rc iu c,
  partial_slabs_head (h_cache h) = Some p ->
  (active_slab_ppn (h_cache h) = None \/ active_slab_ppn (h_cache h) = Some p) ->
  get_page_state (h_map h) p = Done (mkPage rc (SlabPage (Slub 0 iu c true p))) ->
  kmem_alloc f id h = Fault FuelF.
Proof.
  induction f as [|f IH]; intros id h p rc iu c Hhd Hact Hget; [done|]. cbn [kmem_alloc].
  destruct Hact as [-> | ->].
  - rewrite Hhd. cbn [set_partial h_map]. rewrite Hget. cbn [mbind outcome_bind state].
    apply (IH id _ p rc iu c); [done|by right|done].
  - rewrite Hget. cbn [mbind outcome_bind state Z.eqb]. apply (IH id _ p rc iu c); [done|by left|done].
Qed.

(** a new cache of 2048-byte objects over eight pages: after three allocations, the release of the first object, two more
    allocations, the release of the third object and one allocation, all of which succeed, the next allocation never
    returns, for no amount of fuel: the second slab has been put on the partial list while it was still on it,
    so that the list is a cycle of a full slab. *)
Theorem kmem_alloc_diverges :
  exists live h, run_ops 8 [] example_heap [AllocOp; AllocOp; AllocOp; FreeOp 0; AllocOp; AllocOp; FreeOp 1; AllocOp] = Done (live, h) /\
    NoDup live /\ length live = 4%nat /\ forall fuel, kmem_alloc fuel 8 h = Fault FuelF.
Proof.
  destruct (run_ops 8 [] example_heap _) as [[live h]|] eqn:Heq; [|by vm_compute in Heq]. exists live, h. split; [done|].
  assert (Hl : fst <$> run_ops 8 [] example_heap [AllocOp; AllocOp; AllocOp; FreeOp 0; AllocOp; AllocOp; FreeOp 1; AllocOp] =
    Done [0xFFFFFFFF80400800; 0xFFFFFFFF80401800; 0xFFFFFFFF80400000; 0xFFFFFFFF80401000]) by (vm_compute; reflexivity).
  assert (Hh : (fun x => (h_cache x.2, get_page_state (h_map x.2) 0x80401)) <$>
      run_ops 8 [] example_heap [AllocOp; AllocOp; AllocOp; FreeOp 0; AllocOp; AllocOp; FreeOp 1; AllocOp] =
    Done (mkKmemCache 2048 (Some 0x80401) (Some 0x80401), Done (mkPage 1 (SlabPage (Slub 0 2 8 true 0x80401))))) by (vm_compute; reflexivity).
  rewrite Heq in Hl, Hh. injection Hl as ->. injection Hh as Hc Hg.
  split; [apply (bool_decide_unpack _); vm_compute; exact I|]. split; [done|].
  intros fuel. apply (kmem_alloc_loops fuel 8 h 0x80401 1 2 8); [by rewrite Hc|right; by rewrite Hc|done].
Qed.
