(* ===== verification/Boot.v ===== *)
(** * Memory setup at boot

    Models the boot part of [src/mm/mod.rs]: the early MMU ([enable_early_mmu]), the
    memory and mapping setup ([setup_memory_and_mapping], [map_segment]), the switch to the final
    page table, the removal of the identity map and the handover to the buddy allocator
    ([init_buddy_system]).

    The flattened device tree is read with the [fdt] crate: [Fdt] holds what the code takes
    from it and [from_ptr], the parser, is an argument. The linker symbols are the fields of
    [Symbols], the layout of [Page] is chosen by the compiler, so its size is an argument too.
    Messages on the console are left out. [&mut PageTable] is the physical address of the
    table, as in [PageTable].

    The [while] loops of [map_segment] run with fuel for [(end - current) / step + 2]
    iterations, one more than they make. *)

From S2P Require Import Prelude Address Memory Memblock Buddy PageTable MemMap.

(** ** Inputs *)

Record Symbols := mkSymbols {
  _skernel : Z; _ekernel : Z;
  _text_start : Z; _text_end : Z;
  _rodata_start : Z; _rodata_end : Z;
  _data_start : Z; _data_end : Z;
  _bss_start_with_stack : Z; _bss_end : Z
}.

Record MemoryRegion := mkMemoryRegion { starting_address : Z; mr_size : option Z }.
Record FdtNode := mkFdtNode { name : string; reg : option (list MemoryRegion) }.
Record Fdt := mkFdt {
  all_nodes : list FdtNode;
  memory_reservations : list (Z * Z);
  total_size_ : Z
}.

(** ** The early MMU *)

Definition L2_INDEX_SHIFT : Z := 30.
Definition L2_INDEX_MASK : Z := wshl 1 9 ⊟ 1.
Definition PTE_FLAGS_OFFSET : Z := 10.

(** Two 1 GiB pages in [BOOT_PT]; the result is the memory and the page number in [satp]. *)
Definition enable_early_mmu (m : Memory) (kernel_phys_addr pt_pa : Z) : Memory * Z :=
  let phy_base := Z.land kernel_phys_addr (wnot (wshl 1 L2_INDEX_SHIFT ⊟ 1)) in
  let virt_base := PHYS_VIRT_OFFSET ⊞ phy_base in
  let flags := Z.lor (Z.lor (Z.lor PTEFlags.V PTEFlags.R) PTEFlags.W) PTEFlags.X in
  let ppn := wshr phy_base PAGE_SIZE_BITS in
  let pte := Z.lor (wshl ppn PTE_FLAGS_OFFSET) flags in
  let ident_idx := Z.land (wshr phy_base L2_INDEX_SHIFT) L2_INDEX_MASK in
  let m := write_pa m (pt_pa + 8 * ident_idx) pte in
  let higher_half_idx := Z.land (wshr virt_base L2_INDEX_SHIFT) L2_INDEX_MASK in
  let m := write_pa m (pt_pa + 8 * higher_half_idx) pte in
  (m, wshr pt_pa PAGE_SIZE_BITS).

(** ** Mapping a segment *)

Inductive BootMapType := Identical | Linear.
Inductive MapAction := Map (flags : Z) | Unmap.

Definition pa_to_va (map_type : BootMapType) (pa : Z) : Z :=
  match map_type with Identical => pa | Linear => phys_to_virt pa end.

Definition apply_action (b : BootMem) (root_pt : Z) (map_type : BootMapType) (action : MapAction)
    (pa : Z) (size : PageSize) : outcome BootMem :=
  let va := pa_to_va map_type pa in
  vpn ← VirtPageNum_from_VirtAddr (VirtAddr_from_usize va);
  match action with
  | Map flags =>
      ppn ← PhysPageNum_from_PhysAddr pa;
      bump_map b root_pt vpn ppn flags size
  | Unmap =>
      '(m, _) ← unmap (bm_memory b) root_pt vpn size;
      Done (mkBootMem m (bm_memblock b))
  end.

Section Segment.
Context (root_pt : Z) (map_type : BootMapType) (action : MapAction).

Fixpoint segment_loop (fuel : nat) (b : BootMem) (current_pa end_pa step : Z) (size : PageSize)
    : outcome BootMem :=
  match fuel with
  | O => Fault FuelF
  | S fuel =>
      if current_pa <? end_pa then
        b ← apply_action b root_pt map_type action current_pa size;
        segment_loop fuel b (current_pa ⊞ step) end_pa step size
      else Done b
  end.

Definition segment_fuel (current_pa end_pa step : Z) : nat := Z.to_nat ((end_pa - current_pa) / step) + 2.

Definition map_segment (b : BootMem) (start_addr end_addr : Z) : outcome BootMem :=
  let page_start := align_down start_addr PAGE_SIZE in
  let page_end := align_up end_addr PAGE_SIZE in
  let aligned_start := Z.min (align_up page_start 0x200000) page_end in
  let aligned_end := Z.max (align_down page_end 0x200000) aligned_start in
  let head_end := Z.min aligned_start page_end in
  b ← segment_loop (segment_fuel page_start head_end PAGE_SIZE) b page_start head_end PAGE_SIZE FourKB;
  let mid_end := Z.min aligned_end page_end in
  b ← segment_loop (segment_fuel aligned_start mid_end 0x200000) b aligned_start mid_end 0x200000 TwoMB;
  segment_loop (segment_fuel mid_end page_end PAGE_SIZE) b mid_end page_end PAGE_SIZE FourKB.
End Segment.

(** ** [setup_memory_and_mapping] *)

(** The first memory node with a [reg] property; 0 and 0 if there is none. *)
Fixpoint find_ram (nodes : list FdtNode) : Z * Z :=
  match nodes with
  | [] => (0, 0)
  | node :: nodes =>
      if String.prefix "memory" (name node) then
        match reg node with
        | Some (r :: _) => (starting_address r, default 0 (mr_size r))
        | _ => find_ram nodes
        end
      else find_ram nodes
  end.

Fixpoint reserve_all (mb : Memblock) (l : list (Z * Z)) : outcome Memblock :=
  match l with
  | [] => Done mb
  | (address, size) :: l => mb ← reserve_memory mb address size; reserve_all mb l
  end.

(** Memory of the machine, less the kernel, the reservations and the device tree. *)
Definition init_memblock (sy : Symbols) (fdt : Fdt) (dtb_addr : Z) : outcome Memblock :=
  let skernel := virt_to_phys (_skernel sy) in
  let ekernel := virt_to_phys (_ekernel sy) in
  let '(ram_base, ram_size) := find_ram (all_nodes fdt) in
  mb ← init_add_memory MEMBLOCK_init ram_base ram_size;
  mb ← reserve_memory mb skernel (ekernel ⊟ skernel);
  mb ← reserve_all mb (memory_reservations fdt);
  reserve_memory mb dtb_addr (total_size_ fdt).

Definition alloc_root (m : Memory) (mb : Memblock) : outcome (Z * BootMem) :=
  '(root_pa, mb) ← early_alloc mb PAGE_SIZE PAGE_SIZE;
  root_pa ← unwrap "boot root page table allocation failed" root_pa;
  Done (root_pa, mkBootMem (zero_page m root_pa) mb).

(** One region of a device node: inside RAM it is reserved, elsewhere it is mapped. *)
Definition setup_region (root_pt ram_base ram_end : Z) (b : BootMem) (r : MemoryRegion) : outcome BootMem :=
  let base := starting_address r in
  let size := default 0 (mr_size r) in
  if 0 <? size then
    let end_ := base ⊞ size in
    if (ram_base <=? base) && (end_ <=? ram_end) then
      mb ← reserve_memory (bm_memblock b) base size;
      Done (mkBootMem (bm_memory b) mb)
    else map_segment root_pt Linear (Map (Z.lor PTEFlags.R PTEFlags.W)) b base end_
  else Done b.

Fixpoint setup_regions (root_pt ram_base ram_end : Z) (b : BootMem) (l : list MemoryRegion) : outcome BootMem :=
  match l with
  | [] => Done b
  | r :: l => b ← setup_region root_pt ram_base ram_end b r; setup_regions root_pt ram_base ram_end b l
  end.

Fixpoint setup_nodes (root_pt ram_base ram_end : Z) (b : BootMem) (nodes : list FdtNode) : outcome BootMem :=
  match nodes with
  | [] => Done b
  | node :: nodes =>
      b ← (if String.prefix "memory" (name node) then Done b
           else setup_regions root_pt ram_base ram_end b (default [] (reg node)));
      setup_nodes root_pt ram_base ram_end b nodes
  end.

(** A section of the kernel image, mapped in the direct map and identically. *)
Definition map_section (root_pt : Z) (flags : Z) (b : BootMem) (start end_ : Z) : outcome BootMem :=
  b ← map_segment root_pt Linear (Map flags) b start end_;
  map_segment root_pt Identical (Map flags) b start end_.

Definition map_kernel (sy : Symbols) (root_pt ram_base ram_end : Z) (b : BootMem) : outcome BootMem :=
  let RX := Z.lor PTEFlags.R PTEFlags.X in
  let RW := Z.lor PTEFlags.R PTEFlags.W in
  b ← map_section root_pt RX b (virt_to_phys (_text_start sy)) (virt_to_phys (_text_end sy));
  b ← map_section root_pt PTEFlags.R b (virt_to_phys (_rodata_start sy)) (virt_to_phys (_rodata_end sy));
  b ← map_section root_pt RW b (virt_to_phys (_data_start sy)) (virt_to_phys (_data_end sy));
  b ← map_section root_pt RW b (virt_to_phys (_bss_start_with_stack sy)) (virt_to_phys (_bss_end sy));
  let ram_start_after_kernel := align_up (virt_to_phys (_ekernel sy)) PAGE_SIZE in
  b ← map_segment root_pt Linear (Map RW) b ram_start_after_kernel ram_end;
  map_segment root_pt Linear (Map RW) b ram_base (virt_to_phys (_skernel sy)).

(** The globals set by the setup. *)
Record BootInfo := mkBootInfo {
  bi_mem : BootMem;
  BOOT_ROOT_PPN : PhysPageNum;
  bi_ram_start_ppn : Z;
  bi_ram_end_ppn : Z;
  MEM_MAP_PA : PhysAddr
}.

(** Memory for [MEM_MAP]; [size_of_Page] is [core::mem::size_of::<Page>()]. *)
Definition alloc_mem_map (size_of_Page : Z) (root_pa ram_base ram_end : Z) (b : BootMem) : outcome BootInfo :=
  root_ppn ← PhysPageNum_from_PhysAddr root_pa;
  let ram_start_ppn := wshr ram_base PAGE_SIZE_BITS in
  let ram_end_ppn := wshr ram_end PAGE_SIZE_BITS in
  let total_pages := ram_end_ppn ⊟ ram_start_ppn in
  let mem_map_size := total_pages ⊠ size_of_Page in
  let mem_map_pages := wshr (mem_map_size ⊞ PAGE_SIZE ⊟ 1) PAGE_SIZE_BITS in
  '(mem_map_pa, mb) ← early_alloc (bm_memblock b) (mem_map_pages ⊠ PAGE_SIZE) PAGE_SIZE;
  mem_map_pa ← unwrap "Failed to allocate physical memory for mem_map array" mem_map_pa;
  Done (mkBootInfo (mkBootMem (bm_memory b) mb) root_ppn ram_start_ppn ram_end_ppn mem_map_pa).

Definition setup_memory_and_mapping (size_of_Page : Z) (from_ptr : Z -> option Fdt) (sy : Symbols)
    (m : Memory) (dtb_addr : Z) : outcome BootInfo :=
  fdt ← unwrap "called `Result::unwrap()` on an `Err` value" (from_ptr dtb_addr);
  let '(ram_base, ram_size) := find_ram (all_nodes fdt) in
  let ram_end := ram_base ⊞ ram_size in
  mb ← init_memblock sy fdt dtb_addr;
  '(root_pa, b) ← alloc_root m mb;
  b ← setup_nodes root_pa ram_base ram_end b (all_nodes fdt);
  b ← map_kernel sy root_pa ram_base ram_end b;
  alloc_mem_map size_of_Page root_pa ram_base ram_end b.

(** ** The final page table *)

(** The page number written to [satp]. *)
Definition switch_to_final_page_table (bi : BootInfo) : PhysPageNum := BOOT_ROOT_PPN bi.

Definition unmap_temp_identity_area (sy : Symbols) (bi : BootInfo) : outcome BootInfo :=
  let root_pt_va := phys_to_virt (PhysAddr_from_PhysPageNum (BOOT_ROOT_PPN bi)) in
  let root_pt := virt_to_phys root_pt_va in
  let go := map_segment root_pt Identical Unmap in
  b ← go (bi_mem bi) (virt_to_phys (_text_start sy)) (virt_to_phys (_text_end sy));
  b ← go b (virt_to_phys (_rodata_start sy)) (virt_to_phys (_rodata_end sy));
  b ← go b (virt_to_phys (_data_start sy)) (virt_to_phys (_data_end sy));
  b ← go b (virt_to_phys (_bss_start_with_stack sy)) (virt_to_phys (_bss_end sy));
  Done (mkBootInfo b (BOOT_ROOT_PPN bi) (bi_ram_start_ppn bi) (bi_ram_end_ppn bi) (MEM_MAP_PA bi)).

(** ** Handover to the buddy allocator *)

(** The [for ppn_idx in start_ppn..end_ppn] loop; [n] iterations are left. *)
Fixpoint mark_free (n : nat) (mem_map : list Page) (ram_start ppn_idx : Z) : outcome (list Page) :=
  match n with
  | O => Done mem_map
  | S n =>
      let local_idx := ppn_idx ⊟ ram_start in
      mem_map ← index_set mem_map (Z.to_nat local_idx) (mkPage 0 Free);
      mark_free n mem_map ram_start (ppn_idx ⊞ 1)
  end.

Definition hand_over (ram_start : Z) (s : list Page * Frames) (region : MemRegion) : outcome (list Page * Frames) :=
  let '(mem_map, frames) := s in
  let start_addr := PhysAddr_from_usize (rg_base region) in
  let end_addr := PhysAddr_from_usize (rg_base region ⊞ rg_size region) in
  let start_ppn := PhysAddr_ceil start_addr in
  let end_ppn := PhysAddr_floor end_addr in
  mem_map ← mark_free (Z.to_nat (end_ppn - start_ppn)) mem_map ram_start start_ppn;
  frames ← add_free_region frames start_ppn end_ppn;
  Done (mem_map, frames).

(** The loop over the available regions, from index [i]; [n] are left. *)
Fixpoint hand_over_all (n i : nat) (ram_start : Z) (ra : RegionArray) (s : list Page * Frames)
    : outcome (list Page * Frames) :=
  match n with
  | O => Done s
  | S n =>
      region ← index (regions ra) i;
      s ← hand_over ram_start s region;
      hand_over_all n (S i) ram_start ra s
  end.

Definition init_buddy_system (bi : BootInfo) : outcome (MemMap * Frames) :=
  let ram_start := bi_ram_start_ppn bi in
  let ram_end := bi_ram_end_ppn bi in
  let total_pages := ram_end ⊟ ram_start in
  let mem_map := replicate (Z.to_nat total_pages) (mkPage 1 Reserved) in
  let mb := bm_memblock (bi_mem bi) in
  '(mem_map, frames) ← hand_over_all (count (available mb)) 0 ram_start (available mb)
      (mem_map, mkFrames (bm_memory (bi_mem bi)) BuddySystemFrameAllocator_new);
  Done (mkMemMap mem_map ram_start, frames).
