(* ===== verification/RefCell.v ===== *)
(** * Cells with borrow checks at run time

    Models [SyncRefCell] ([src/data_struct/sync_ref_cell.rs]), a [RefCell] that claims to be [Sync], and its one use, the static
    [BOOT_ROOT_PPN] of [src/mm/mod.rs]. A [RefCell] counts its borrows in a flag: the number of readers, or -1 for a writer;
    a guard ([Ref], [RefMut]) gives its borrow back when it is dropped. *)

From stdpp Require Import relations.
From S2P Require Import Prelude Address Memory Memblock Buddy PageTable Boot.

Record SyncRefCell (T : Type) := mkSyncRefCell { cell_value : T; cell_flag : Z }.
Arguments mkSyncRefCell {T} _ _.
Arguments cell_value {T} _.
Arguments cell_flag {T} _.

Section Cell.
Context {T : Type}.

Definition SyncRefCell_new (value : T) : SyncRefCell T := mkSyncRefCell value 0.

(** [isize::MAX]. *)
Definition isize_MAX : Z := 2 ^ 63 - 1.

(** A reader: the flag is incremented; it panics if there is a writer, or if the count overflows. *)
Definition borrow (c : SyncRefCell T) : outcome (SyncRefCell T) :=
  if (cell_flag c <? 0) || (cell_flag c =? isize_MAX) then panic "already mutably borrowed"
  else Done (mkSyncRefCell (cell_value c) (cell_flag c + 1)).

Definition borrow_mut (c : SyncRefCell T) : outcome (SyncRefCell T) :=
  if cell_flag c =? 0 then Done (mkSyncRefCell (cell_value c) (-1)) else panic "already borrowed".

Definition drop_ref (c : SyncRefCell T) : SyncRefCell T := mkSyncRefCell (cell_value c) (cell_flag c - 1).
Definition drop_ref_mut (c : SyncRefCell T) : SyncRefCell T := mkSyncRefCell (cell_value c) (cell_flag c + 1).

(** Through a [RefMut]. *)
Definition deref_set (c : SyncRefCell T) (v : T) : SyncRefCell T := mkSyncRefCell v (cell_flag c).

(** ** The guards *)

(** The guards that are alive. *)
Record guards := mkGuards { readers : nat; writer : bool }.

Inductive cell_step : SyncRefCell T * guards -> SyncRefCell T * guards -> Prop :=
| cs_borrow c c' r w : borrow c = Done c' -> cell_step (c, mkGuards r w) (c', mkGuards (S r) w)
| cs_borrow_mut c c' r w : borrow_mut c = Done c' -> cell_step (c, mkGuards r w) (c', mkGuards r true)
| cs_drop c r w : cell_step (c, mkGuards (S r) w) (drop_ref c, mkGuards r w)
| cs_drop_mut c r : cell_step (c, mkGuards r true) (drop_ref_mut c, mkGuards r false)
| cs_write c v r : cell_step (c, mkGuards r true) (deref_set c v, mkGuards r true).

(** The flag says which guards there are, and a writer is alone. *)
Definition cell_ok (s : SyncRefCell T * guards) : Prop :=
  match s.2 with
  | mkGuards r true => r = 0%nat /\ cell_flag s.1 = -1
  | mkGuards r false => cell_flag s.1 = Z.of_nat r /\ Z.of_nat r <= isize_MAX
  end.

Lemma cell_step_ok s s' : cell_ok s -> cell_step s s' -> cell_ok s'.
Proof.
  intros Hok Hs. destruct Hs as [c c' r w Hb|c c' r w Hb|c r w|c r|c v r]; unfold cell_ok in *; cbn [fst snd] in *.
  - unfold borrow in Hb. destruct (Z.ltb_spec (cell_flag c) 0), (Z.eqb_spec (cell_flag c) isize_MAX); try done.
    injection Hb as <-. cbn. destruct w; lia.
  - unfold borrow_mut in Hb. destruct (Z.eqb_spec (cell_flag c) 0); [|done]. injection Hb as <-. cbn. destruct w; lia.
  - cbn. destruct w; lia.
  - cbn. unfold isize_MAX. lia.
  - done.
Qed.

Lemma cell_steps_ok v s : rtc cell_step (SyncRefCell_new v, mkGuards 0 false) s -> cell_ok s.
Proof.
  intros Hs. assert (Hgen : forall s0, rtc cell_step s0 s -> cell_ok s0 -> cell_ok s).
  { clear Hs. induction 1; eauto using cell_step_ok. }
  apply (Hgen _ Hs). by split.
Qed.
End Cell.



(** ** The root of the boot page table *)

(** [*BOOT_ROOT_PPN.borrow_mut() = PhysPageNum::from(root_pa)]: the guard lives for the statement. *)
Definition store_boot_root (c : SyncRefCell PhysPageNum) (root_pa : PhysAddr) : outcome (SyncRefCell PhysPageNum) :=
  ppn ← PhysPageNum_from_PhysAddr root_pa;
  c ← borrow_mut c;
  Done (drop_ref_mut (deref_set c ppn)).

(** [BOOT_ROOT_PPN.borrow()] in an expression, as in [switch_to_final_page_table] and [unmap_temp_identity_area]. *)
Definition load_boot_root (c : SyncRefCell PhysPageNum) : outcome (PhysPageNum * SyncRefCell PhysPageNum) :=
  c ← borrow c;
  Done (cell_value c, drop_ref c).

(** The cell behaves as the variable that [Boot] takes it for: a store and two loads in turn give the page number of the root, without panic. *)
Lemma boot_root_is_variable root_pa ppn :
  PhysPageNum_from_PhysAddr root_pa = Done ppn ->
  (c ← store_boot_root (SyncRefCell_new 0) root_pa; '(p, c) ← load_boot_root c; '(q, _) ← load_boot_root c; Done (p, q)) = Done (ppn, ppn).
Proof. intros Hp. unfold store_boot_root. rewrite Hp. reflexivity. Qed.
