(* ===== verification/Entry.v ===== *)
(** * From the reset of the kernel to the upper half

    Models [src/entry.S] ([_start]) and [rust_main] of [src/main.rs], the code that runs before [virt_rust_main]: hart 0 gets the
    boot stack, the bss section is cleared, [enable_early_mmu] fills [BOOT_PT] and switches translation on, and the
    jump goes to the address of [virt_rust_main] in the direct map. Shows what the processor translates from then on.

    The image is linked for the upper half but runs at its physical address until the jump; [lla] and the address of a
    function or a static are relative to the program counter, so the symbols here are physical addresses. *)

From S2P Require Import Prelude Address Memory Memblock PageTable PageTree PageTableProofs Boot.

(** ** [_start] *)

Record EntrySymbols := mkEntrySymbols {
  stacks : Z; es_bss_start_with_stack : Z; es_bss_end : Z;
  es_rust_main : Z; es_virt_rust_main : Z;
  es_skernel : Z; BOOT_PT : Z
}.

(** The registers that the code before [virt_rust_main] sets or passes on. *)
Record BootRegs := mkBootRegs { r_pc : Z; r_sp : Z; r_s0 : Z; r_tp : Z; r_a0 : Z; r_a1 : Z }.

Definition STACK_SIZE : Z := 1024 * 16.

(** [clear_bss_loop]: a word per iteration. *)
Fixpoint clear_bss_loop (fuel : nat) (m : Memory) (t0 t1 : Z) : outcome Memory :=
  match fuel with
  | O => Fault FuelF
  | S fuel =>
      if t1 <=? t0 then Done m
      else clear_bss_loop fuel (write_pa m t0 0) (t0 ⊞ 8) t1
  end.

Definition clear_bss_fuel (t0 t1 : Z) : nat := Z.to_nat ((t1 - t0) / 8) + 2.

(** [None]: the hart parks. The hart starts with its number in [a0] and the address of the device tree in [a1]. *)
Definition start (es : EntrySymbols) (m : Memory) (r : BootRegs) : outcome (option (Memory * BootRegs)) :=
  let t0 := r_a0 r in
  let tp := t0 in
  if negb (t0 =? 0) then Done None
  else
    let t0 := wshl t0 14 in
    let sp := stacks es in
    let t1 := STACK_SIZE in
    let sp := sp ⊞ t1 in
    let sp := sp ⊞ t0 in
    let t0 := es_bss_start_with_stack es in
    let t1 := es_bss_end es in
    m ← clear_bss_loop (clear_bss_fuel t0 t1) m t0 t1;
    Done (Some (m, mkBootRegs (es_rust_main es) sp (r_s0 r) tp (r_a0 r) (r_a1 r))).

(** ** [rust_main] *)

(** The result is memory, the page number in [satp] and the registers at the first instruction of [virt_rust_main]. The [asm!] block
    runs with the stack lowered by [frame] bytes and some [s0], which the compiler chooses. *)
Definition rust_main (es : EntrySymbols) (frame s0 : Z) (m : Memory) (r : BootRegs) : Memory * Z * BootRegs :=
  let dtb_addr := r_a1 r in
  let '(m, satp) := enable_early_mmu m (es_skernel es) (BOOT_PT es) in
  let next_fn_virt_addr := phys_to_virt (es_virt_rust_main es) in
  let sp := r_sp r ⊟ frame in
  let sp := sp ⊞ PHYS_VIRT_OFFSET in
  let s0 := s0 ⊞ PHYS_VIRT_OFFSET in
  (m, satp, mkBootRegs next_fn_virt_addr sp s0 (r_tp r) dtb_addr (r_a1 r)).

Definition boot_hart (es : EntrySymbols) (frame s0 : Z) (m : Memory) (r : BootRegs)
    : outcome (option (Memory * Z * BootRegs)) :=
  o ← start es m r;
  Done (option_map (fun p => rust_main es frame s0 p.1 p.2) o).

(** ** Clearing bss *)

Lemma clear_bss_loop_ok t1 fuel m t0 :
  0 <= t0 -> t1 < 2 ^ 63 -> (8 | t0) -> t1 - t0 < 8 * (Z.of_nat fuel - 1) -> (0 < fuel)%nat ->
  exists m', clear_bss_loop fuel m t0 t1 = Done m' /\
    (forall a, (8 | a) -> t0 <= a < t1 -> read_pa m' a = 0) /\
    (forall a, ~ (t0 <= a < t1) -> read_pa m' a = read_pa m a).
Proof.
  revert m t0. induction fuel as [|fuel IH]; intros m t0 H0 H1 Hd Hf Hpos; [lia|]. cbn [clear_bss_loop].
  destruct (Z.leb_spec t1 t0) as [Hle|Hlt].
  - exists m. split; [done|]. split; [intros; lia|done].
  - rewrite wadd_small by lia.
    destruct (IH (write_pa m t0 0) (t0 + 8)) as (m' & -> & Hin & Hout); [lia|done| |lia|lia|].
    { destruct Hd as [c ->]. exists (c + 1). lia. }
    exists m'. split; [done|]. split.
    + intros a Ha Hr. destruct (decide (t0 + 8 <= a)); [by apply Hin; [|lia]|].
      assert (a = t0) as -> by (destruct Hd, Ha; lia). rewrite Hout by lia. apply read_write_same.
    + intros a Ha. rewrite Hout by lia. apply read_write_other. lia.
Qed.

Lemma clear_bss_enough t0 t1 : t1 - t0 < 8 * (Z.of_nat (clear_bss_fuel t0 t1) - 1).
Proof. unfold clear_bss_fuel. pose proof (Z.div_mod (t1 - t0) 8). pose proof (Z.mod_pos_bound (t1 - t0) 8). lia. Qed.

(** ** The early page table *)

(** The entry for the gigabyte [g]: a leaf of 1 GiB with all permissions. *)
Definition giga_pte (g : Z) : Z := PTE_new (g * 2 ^ 18) 15.

(** The two indices in [BOOT_PT]. *)
Definition high_index (g : Z) : Z := (g - 4) mod 512.

Lemma index_mask x : Z.land x L2_INDEX_MASK = x mod 512.
Proof. change L2_INDEX_MASK with (2 ^ 9 - 1). by rewrite land_low_mask. Qed.

Lemma phy_base_eq kpa : 0 <= kpa < 2 ^ 38 -> Z.land kpa (wnot (wshl 1 L2_INDEX_SHIFT ⊟ 1)) = kpa / 2 ^ 30 * 2 ^ 30.
Proof.
  intros. change (wnot (wshl 1 L2_INDEX_SHIFT ⊟ 1)) with (wnot (2 ^ 30 ⊟ 1)).
  change (Z.land kpa (wnot (2 ^ 30 ⊟ 1))) with (align_down kpa (2 ^ 30)). rewrite align_down_pow2 by (unfold usize; lia).
  pose proof (Z.div_mod kpa (2 ^ 30)). lia.
Qed.

Lemma enable_early_mmu_eq m kpa pt :
  0 <= kpa < 2 ^ 38 ->
  let g := kpa / 2 ^ 30 in
  enable_early_mmu m kpa pt =
    (write_pa (write_pa m (pt + 8 * g) (giga_pte g)) (pt + 8 * high_index g) (giga_pte g), pt / 4096).
Proof.
  intros Hk g. assert (Hg : 0 <= g < 256).
  { unfold g. split; [apply Z.div_pos; lia|apply Z.div_lt_upper_bound; lia]. }
  unfold enable_early_mmu. rewrite phy_base_eq by done. fold g. cbv zeta. rewrite !index_mask.
  rewrite (wshr_div pt) by (unfold PAGE_SIZE_BITS; lia). rewrite !wshr_div by (unfold PAGE_SIZE_BITS, L2_INDEX_SHIFT; lia).
  change (2 ^ PAGE_SIZE_BITS) with 4096. change (2 ^ L2_INDEX_SHIFT) with (2 ^ 30). rewrite Z.div_mul, (Z.mod_small g) by lia.
  replace (g * 2 ^ 30 / 4096) with (g * 2 ^ 18) by (replace (g * 2 ^ 30) with (g * 2 ^ 18 * 4096) by lia; by rewrite Z.div_mul).
  assert ((PHYS_VIRT_OFFSET ⊞ g * 2 ^ 30) / 2 ^ 30 mod 512 = high_index g) as ->; [|done].
  unfold wadd, wrap, high_index, PHYS_VIRT_OFFSET.
  replace (0xFFFFFFFF00000000 + g * 2 ^ 30) with ((g - 4 + 2 ^ 34) * 2 ^ 30) by lia.
  replace USIZE with (2 ^ 34 * 2 ^ 30) by lia. rewrite Z.mul_mod_distr_r, Z.div_mul by lia.
  replace (2 ^ 34) with (512 * 2 ^ 25) by lia. rewrite Z.rem_mul_r by lia.
  replace (g - 4 + 512 * 2 ^ 25) with (g - 4 + 2 ^ 25 * 512) by lia. rewrite Z.mod_add by lia.
  rewrite (Z.mul_comm 512), Z.mod_add, Z.mod_mod; lia.
Qed.

Lemma giga_index g : 0 <= g < 256 -> high_index g = (if decide (g < 4) then 508 + g else g - 4) /\ high_index g <> g.
Proof.
  intros. unfold high_index. case_decide.
  - rewrite <- (Z.mod_add _ 1) by lia. rewrite Z.mod_small; lia.
  - rewrite Z.mod_small; lia.
Qed.

(** The first level of the walk ends at a leaf of 1 GiB, or at an entry that is zero. *)
Lemma walk_giga m root va g :
  0 <= g < 256 -> read_pa m (root + 8 * (va / 2 ^ 30 mod 512)) = giga_pte g ->
  sv39_walk 3 m root va = Some (g * 2 ^ 30 + va mod 2 ^ 30, 15).
Proof.
  intros Hg Hr. assert (Hp : 0 <= g * 2 ^ 18 < 2 ^ 44) by lia.
  change (sv39_walk 3 m root va) with (let bits := read_pa m (root + 8 * (va / 2 ^ 30 mod 512)) in
    if negb (PTE_is_valid bits) then None else if is_table bits then sv39_walk 2 m (PTE_ppn bits * 4096) va
    else if Z.testbit bits 2 && negb (Z.testbit bits 1) then None
    else if PTE_ppn bits mod 2 ^ 18 =? 0 then Some (PTE_ppn bits * 4096 + va mod 2 ^ 30, PTE_flags bits) else None).
  rewrite Hr. unfold giga_pte, is_table. cbv zeta. rewrite (PTE_testbit _ 2), (PTE_testbit _ 1) by lia.
  rewrite PTE_new_valid, PTE_new_rwx, PTE_flags_new, PTE_ppn_new by (exact Hp || lia).
  rewrite Z.mod_mul by lia. replace (g * 2 ^ 18 * 4096) with (g * 2 ^ 30) by lia. reflexivity.
Qed.

Lemma walk_empty m root va :
  read_pa m (root + 8 * (va / 2 ^ 30 mod 512)) = 0 -> sv39_walk 3 m root va = None.
Proof. intros Hr. cbn [sv39_walk]. change (12 + 9 * Z.of_nat 2) with 30. by rewrite Hr. Qed.

(** The index of a canonical address tells which of the two regions it is in. *)
Lemma canonical_index va g :
  usize va -> canonical va -> 0 <= g < 256 ->
  (va / 2 ^ 30 mod 512 = g <-> va / 2 ^ 30 = g) /\
  (va / 2 ^ 30 mod 512 = high_index g <-> virt_to_phys va / 2 ^ 30 = g).
Proof.
  intros Hu Hc Hg. destruct (giga_index g Hg) as [-> _].
  assert (Hv : virt_to_phys va / 2 ^ 30 = (va / 2 ^ 30 + 4) mod 2 ^ 34).
  { unfold virt_to_phys, wsub, wrap, PHYS_VIRT_OFFSET. rewrite <- (Z.mod_add _ 1) by lia.
    replace (va - 0xFFFFFFFF00000000 + 1 * USIZE) with (va + 4 * 2 ^ 30) by lia.
    replace USIZE with (2 ^ 30 * 2 ^ 34) by lia. rewrite Z.rem_mul_r by lia. rewrite Z.mod_add, Z.div_add by lia.
    rewrite (Z.mul_comm (2 ^ 30)), Z.div_add, (Z.div_small (va mod 2 ^ 30)) by (lia || apply Z.mod_pos_bound; lia). done. }
  rewrite Hv. clear Hv. set (q := va / 2 ^ 30). destruct Hc as [Hc|Hc].
  - assert (0 <= q < 256) by (unfold q; split; [apply Z.div_pos; lia|apply Z.div_lt_upper_bound; lia]).
    rewrite (Z.mod_small q 512), (Z.mod_small (q + 4)) by lia. case_decide; lia.
  - assert (2 ^ 34 - 256 <= q < 2 ^ 34).
    { unfold q; split; [apply Z.div_le_lower_bound; lia|apply Z.div_lt_upper_bound; lia]. }
    assert (q mod 512 = q - (2 ^ 34 - 512)) as ->.
    { symmetry. apply (Z.mod_unique_pos _ _ (2 ^ 25 - 1)); lia. }
    destruct (decide (q + 4 < 2 ^ 34)).
    + rewrite (Z.mod_small (q + 4)) by lia. case_decide; lia.
    + assert ((q + 4) mod 2 ^ 34 = q + 4 - 2 ^ 34) as -> by (symmetry; apply (Z.mod_unique_pos _ _ 1); lia). case_decide; lia.
Qed.

(** What [BOOT_PT] translates: the gigabyte of the kernel, at its physical and at its direct-map addresses. *)
Definition early_translate (g va : Z) : option (Z * Z) :=
  if decide (va / 2 ^ 30 = g) then Some (va, 15)
  else if decide (virt_to_phys va / 2 ^ 30 = g) then Some (virt_to_phys va, 15)
  else None.

Lemma virt_to_phys_offset va : virt_to_phys va mod 2 ^ 30 = va mod 2 ^ 30.
Proof.
  unfold virt_to_phys, wsub, wrap, PHYS_VIRT_OFFSET. replace USIZE with (2 ^ 30 * 2 ^ 34) by lia.
  rewrite Z.rem_mul_r by lia. rewrite (Z.mul_comm (2 ^ 30)), Z.mod_add, Z.mod_mod by lia.
  replace (va - 0xFFFFFFFF00000000) with (va + -0x3FFFFFFFC * 2 ^ 30) by lia. by rewrite Z.mod_add.
Qed.

Lemma early_translate_noncanonical g va : 0 <= g < 256 -> usize va -> ~ canonical va -> early_translate g va = None.
Proof.
  intros Hg Hu Hc. unfold early_translate, canonical, usize in *.
  pose proof (Z.div_mod (virt_to_phys va) (2 ^ 30) ltac:(lia)). pose proof (Z.mod_pos_bound (virt_to_phys va) (2 ^ 30) ltac:(lia)).
  pose proof (Z.div_mod va (2 ^ 30) ltac:(lia)). pose proof (Z.mod_pos_bound va (2 ^ 30) ltac:(lia)).
  rewrite !decide_False; [done| |lia]. intros Heq.
  assert (virt_to_phys va = va + 2 ^ 32); [|lia].
  unfold virt_to_phys, wsub, wrap, PHYS_VIRT_OFFSET. rewrite <- (Z.mod_add _ 1), Z.mod_small; lia.
Qed.

Lemma early_mmu_ok m kpa pt :
  0 <= kpa < 2 ^ 38 -> (4096 | pt) -> (forall i, 0 <= i < 512 -> read_pa m (pt + 8 * i) = 0) ->
  exists m', enable_early_mmu m kpa pt = (m', pt / 4096) /\
    (forall va, usize va -> sv39_translate m' (pt / 4096 * 4096) va = early_translate (kpa / 2 ^ 30) va) /\
    (forall a, ~ (pt <= a < pt + 4096) -> read_pa m' a = read_pa m a).
Proof.
  intros Hk [c ->] Hz. rewrite enable_early_mmu_eq by done. cbv zeta. set (g := kpa / 2 ^ 30).
  assert (Hg : 0 <= g < 256) by (unfold g; split; [apply Z.div_pos; lia|apply Z.div_lt_upper_bound; lia]).
  destruct (giga_index g Hg) as [Hh Hne]. eexists. split; [reflexivity|]. rewrite Z.div_mul by lia. split.
  - intros va Hu. destruct (decide (canonical va)) as [Hc|Hc];
      [|by rewrite sv39_translate_noncanonical, early_translate_noncanonical].
    destruct (canonical_index va g Hu Hc Hg) as [Hi Hj]. unfold sv39_translate, early_translate.
    rewrite VirtAddr_from_usize_id, Z.eqb_refl by done. pose proof (Z.mod_pos_bound (va / 2 ^ 30) 512 ltac:(lia)).
    destruct (decide (va / 2 ^ 30 = g)) as [H1|H1]; [|destruct (decide (virt_to_phys va / 2 ^ 30 = g)) as [H2|H2]].
    + rewrite (walk_giga _ _ _ g); [|done|rewrite (proj2 Hi H1), read_write_other, read_write_same by lia; done].
      pose proof (Z.div_mod va (2 ^ 30) ltac:(lia)). do 2 f_equal. lia.
    + rewrite (walk_giga _ _ _ g); [|done|rewrite (proj2 Hj H2), read_write_same; done].
      rewrite <- (virt_to_phys_offset va). pose proof (Z.div_mod (virt_to_phys va) (2 ^ 30) ltac:(lia)). do 2 f_equal. lia.
    + apply walk_empty. rewrite !read_write_other; [by apply Hz| |]; intros Heq; [apply H1, Hi|apply H2, Hj]; lia.
  - intros a Ha. clear Hz. case_decide; rewrite !read_write_other by lia; done.
Qed.

(** ** The layout of the image *)

Record entry_layout (es : EntrySymbols) : Prop := {
  el_text : 0 <= es_skernel es <= es_virt_rust_main es;
  el_text_bss : es_virt_rust_main es < es_bss_start_with_stack es;
  el_bss_align : (8 | es_bss_start_with_stack es);
  el_stacks : es_bss_start_with_stack es <= stacks es /\ stacks es + STACK_SIZE <= es_bss_end es;
  el_pt_align : (4096 | BOOT_PT es);
  el_pt : es_bss_start_with_stack es <= BOOT_PT es /\ BOOT_PT es + 4096 <= es_bss_end es;
  (** The image lies in one gigabyte, which the identity map can reach. *)
  el_giga : es_bss_end es <= (es_skernel es / 2 ^ 30 + 1) * 2 ^ 30;
  el_canonical : es_bss_end es <= 2 ^ 38
}.

(** A physical address of the kernel's gigabyte is reached at its direct-map address. *)
Lemma early_translate_direct g pa : 0 <= g < 256 -> pa / 2 ^ 30 = g ->
  early_translate g (phys_to_virt pa) = Some (pa, 15).
Proof.
  intros Hg Hpa. pose proof (Z.div_mod pa (2 ^ 30) ltac:(lia)). pose proof (Z.mod_pos_bound pa (2 ^ 30) ltac:(lia)).
  unfold early_translate. rewrite virt_to_phys_to_virt by (unfold usize; lia).
  rewrite decide_False; [by rewrite decide_True|].
  unfold phys_to_virt, wadd, wrap, PHYS_VIRT_OFFSET. intros Heq.
  destruct (decide (pa < 2 ^ 32)).
  - rewrite Z.mod_small in Heq by lia. pose proof (Z.div_mod (pa + 0xFFFFFFFF00000000) (2 ^ 30) ltac:(lia)).
    pose proof (Z.mod_pos_bound (pa + 0xFFFFFFFF00000000) (2 ^ 30) ltac:(lia)). lia.
  - rewrite <- (Z.mod_add _ (-1)), Z.mod_small in Heq by lia.
    pose proof (Z.div_mod (pa + 0xFFFFFFFF00000000 + -1 * USIZE) (2 ^ 30) ltac:(lia)).
    pose proof (Z.mod_pos_bound (pa + 0xFFFFFFFF00000000 + -1 * USIZE) (2 ^ 30) ltac:(lia)). lia.
Qed.

Section Layout.
Context (es : EntrySymbols) (Hl : entry_layout es).

Lemma entry_giga : 0 <= es_skernel es / 2 ^ 30 < 256.
Proof using Hl.
  destruct Hl. split; [apply Z.div_pos; lia|apply Z.div_lt_upper_bound; lia].
Qed.

Lemma entry_giga_pa pa : es_skernel es <= pa < es_bss_end es -> pa / 2 ^ 30 = es_skernel es / 2 ^ 30.
Proof using Hl.
  intros Hpa. destruct Hl. pose proof (Z.div_mod (es_skernel es) (2 ^ 30) ltac:(lia)).
  pose proof (Z.mod_pos_bound (es_skernel es) (2 ^ 30) ltac:(lia)).
  symmetry. apply (Z.div_unique_pos _ _ _ (pa - 2 ^ 30 * (es_skernel es / 2 ^ 30))); lia.
Qed.

Lemma start_ok m r :
  r_a0 r = 0 ->
  exists m' r', start es m r = Done (Some (m', r')) /\
    r_pc r' = es_rust_main es /\ r_sp r' = stacks es + STACK_SIZE /\ r_a1 r' = r_a1 r /\
    (forall a, (8 | a) -> es_bss_start_with_stack es <= a < es_bss_end es -> read_pa m' a = 0) /\
    (forall a, ~ (es_bss_start_with_stack es <= a < es_bss_end es) -> read_pa m' a = read_pa m a).
Proof using Hl.
  intros Ha. unfold start. rewrite Ha. cbn [Z.eqb negb]. destruct Hl as [??? [??] ????].
  destruct (clear_bss_loop_ok (es_bss_end es) (clear_bss_fuel (es_bss_start_with_stack es) (es_bss_end es)) m
    (es_bss_start_with_stack es)) as (m' & -> & Hin & Hout); [lia|lia|done|apply clear_bss_enough|unfold clear_bss_fuel; lia|].
  cbn [mbind outcome_bind]. eexists _, _. split; [done|]. cbn. split; [done|]. split; [|done].
  change (wshl 0 14) with 0. unfold STACK_SIZE in *. rewrite (wadd_small (stacks es)), wadd_small by lia. lia.
Qed.
End Layout.


Definition example_entry : EntrySymbols :=
  mkEntrySymbols 0x80218000 0x80218000 0x80231000 0x80200100 0x80200200 0x80200000 0x80220000.

