(* ===== verification/BootProofs.v ===== *)
(** * Correctness of the memory setup

    A segment is cut into pages that tile it ([tiles]); [map_segment] maps or unmaps these
    pages one after the other, and its effect is stated on address translation. The
    handover to the buddy allocator is related to the interface of frame allocators. *)

From S2P Require Import Prelude Address Memory Memblock Buddy PageTable PageTree PageTableProofs MemMap Boot.

(** ** The pages of a segment *)

(** [n] pages of one size from [cur] on. *)
Fixpoint chunk (n : nat) (cur step : Z) (size : PageSize) : list (Z * PageSize) :=
  match n with
  | O => []
  | S n => (cur, size) :: chunk n (cur + step) step size
  end.

(** The pages lie end to end and fill [a, z); each is aligned to its size. *)
Fixpoint tiles (l : list (Z * PageSize)) (a z : Z) : Prop :=
  match l with
  | [] => a = z
  | (pa, size) :: l => pa = a /\ (page_bytes size | pa) /\ tiles l (pa + page_bytes size) z
  end.

Lemma page_bytes_pos size : 0 < page_bytes size.
Proof. destruct size; by vm_compute. Qed.

Lemma tiles_app l l' a b z : tiles l a b -> tiles l' b z -> tiles (l ++ l') a z.
Proof.
  revert a. induction l as [|[pa size] l IH]; intros a; cbn; [by intros ->|].
  intros (-> & Hd & Hl) Hl'. split_and!; [done..|]. by apply IH.
Qed.

Lemma tiles_le l a z : tiles l a z -> a <= z.
Proof.
  revert a. induction l as [|[pa size] l IH]; intros a; cbn; [lia|].
  intros (-> & _ & Hl%IH). pose proof (page_bytes_pos size). lia.
Qed.

Lemma chunk_tiles n cur size :
  (page_bytes size | cur) -> tiles (chunk n cur (page_bytes size) size) cur (cur + Z.of_nat n * page_bytes size).
Proof.
  revert cur. induction n as [|n IH]; intros cur Hd; cbn [chunk tiles]; [lia|].
  split_and!; [done..|]. replace (cur + Z.of_nat (S n) * page_bytes size) with
    (cur + page_bytes size + Z.of_nat n * page_bytes size) by lia.
  apply IH. apply Z.divide_add_r; [done|apply Z.divide_refl].
Qed.

Lemma length_chunk n cur step size : length (chunk n cur step size) = n.
Proof. revert cur. induction n as [|n IH]; intros cur; cbn; [done|]. by rewrite IH. Qed.

(** Acting on the pages of a list in order. *)
Fixpoint run_pages (root_pt : Z) (map_type : BootMapType) (action : MapAction) (b : BootMem)
    (l : list (Z * PageSize)) : outcome BootMem :=
  match l with
  | [] => Done b
  | (pa, size) :: l =>
      b ← apply_action b root_pt map_type action pa size;
      run_pages root_pt map_type action b l
  end.

Lemma run_pages_app root mt act b l l' :
  run_pages root mt act b (l ++ l') = (b ← run_pages root mt act b l; run_pages root mt act b l').
Proof.
  revert b. induction l as [|[pa size] l IH]; intros b; cbn [run_pages app]; [done|].
  destruct (apply_action b root mt act pa size) as [b'|]; cbn [mbind outcome_bind]; [apply IH|done].
Qed.

Lemma segment_loop_run root mt act size step n : forall b cur fuel,
  0 < step -> 0 <= cur -> cur + (Z.of_nat n + 1) * step < USIZE -> (n < fuel)%nat ->
  segment_loop root mt act fuel b cur (cur + Z.of_nat n * step) step size =
  run_pages root mt act b (chunk n cur step size).
Proof.
  induction n as [|n IH]; intros b cur [|fuel] Hst Hc Hb Hf; try lia; cbn [segment_loop chunk run_pages].
  - destruct (Z.ltb_spec cur (cur + Z.of_nat 0 * step)); [lia|done].
  - destruct (Z.ltb_spec cur (cur + Z.of_nat (S n) * step)); [|lia].
    destruct (apply_action b root mt act cur size) as [b'|]; cbn [mbind outcome_bind]; [|done].
    rewrite wadd_small by lia. replace (cur + Z.of_nat (S n) * step) with (cur + step + Z.of_nat n * step) by lia.
    apply IH; lia.
Qed.

(** The start and end of a segment, rounded to pages. *)
Definition seg_start (start : Z) : Z := start - start mod 4096.
Definition seg_end (end_ : Z) : Z := (end_ + 4095) - (end_ + 4095) mod 4096.

(** 4 KiB pages up to the first 2 MiB boundary, 2 MiB pages up to the last one, 4 KiB pages after it. *)
Definition segment_pages (ps pe : Z) : list (Z * PageSize) :=
  let as_ := Z.min ((ps + 0x1FFFFF) - (ps + 0x1FFFFF) mod 0x200000) pe in
  let ae := Z.max (pe - pe mod 0x200000) as_ in
  chunk (Z.to_nat ((as_ - ps) / 4096)) ps 4096 FourKB ++
  chunk (Z.to_nat ((ae - as_) / 0x200000)) as_ 0x200000 TwoMB ++
  chunk (Z.to_nat ((pe - ae) / 4096)) ae 4096 FourKB.

(** A loop whose bounds are a whole number of steps apart, or that does not start. *)
Lemma segment_loop_chunk root mt act b cur e step size :
  0 < step < 2 ^ 32 -> 0 <= cur < 2 ^ 33 -> e < 2 ^ 33 -> (step | e - cur) ->
  segment_loop root mt act (segment_fuel cur e step) b cur e step size =
  run_pages root mt act b (chunk (Z.to_nat ((e - cur) / step)) cur step size).
Proof.
  intros Hs Hc He [k Hk]. unfold segment_fuel. rewrite Hk, Z.div_mul by lia.
  destruct (Z.le_gt_cases k 0) as [Hk0|Hk0].
  - replace (Z.to_nat k) with 0%nat by lia. cbn [Nat.add segment_loop chunk run_pages].
    destruct (Z.ltb_spec cur e); [nia|done].
  - replace e with (cur + Z.of_nat (Z.to_nat k) * step) by lia.
    apply segment_loop_run; try lia.
Qed.

Lemma mod_multiple x k : 0 < k -> (k | x - x mod k) /\ x - k < x - x mod k <= x.
Proof.
  intros Hk. pose proof (Z.mod_pos_bound x k Hk). split; [|lia].
  exists (x / k). rewrite Z.mod_eq by lia. lia.
Qed.

(** The bounds of the three parts of a segment. *)
Lemma segment_bounds ps pe :
  (4096 | ps) -> (4096 | pe) -> ps <= pe ->
  let as_ := Z.min ((ps + 0x1FFFFF) - (ps + 0x1FFFFF) mod 0x200000) pe in
  let ae := Z.max (pe - pe mod 0x200000) as_ in
  ps <= as_ <= ae /\ ae <= pe /\ (4096 | as_ - ps) /\ (0x200000 | ae - as_) /\ (4096 | pe - ae) /\
  (as_ < ae -> (0x200000 | as_)) /\ (4096 | ae).
Proof.
  intros Hps Hpe Hle.
  destruct (mod_multiple (ps + 0x1FFFFF) 0x200000 ltac:(lia)) as [[c Hc] Hcb].
  destruct (mod_multiple pe 0x200000 ltac:(lia)) as [[d Hd] Hdb]. rewrite Hc, Hd in *.
  destruct Hps as [x ->], Hpe as [y ->]. cbv zeta. clear Hc Hd.
  destruct (Z.lt_ge_cases (c * 0x200000) (y * 4096)).
  - rewrite (Z.min_l _ _) by lia. assert (c <= d) by lia. rewrite (Z.max_l _ _) by lia.
    split_and!; try lia.
    + exists (c * 512 - x). lia.
    + exists (d - c). lia.
    + exists (y - d * 512). lia.
    + intros _. by exists c.
    + exists (d * 512). lia.
  - rewrite (Z.min_r _ _), (Z.max_r _ _) by lia. split_and!; try lia.
    + exists (y - x). lia.
    + exists 0. lia.
    + exists 0. lia.
    + by exists y.
Qed.

Lemma segment_pages_tiles ps pe :
  (4096 | ps) -> (4096 | pe) -> ps <= pe -> tiles (segment_pages ps pe) ps pe.
Proof.
  intros Hps Hpe Hle. destruct (segment_bounds ps pe Hps Hpe Hle) as (H1 & H2 & Hd1 & Hd2 & Hd3 & Hd4 & Hd5).
  unfold segment_pages. cbv zeta in *. set (as_ := Z.min (ps + 0x1FFFFF - (ps + 0x1FFFFF) mod 0x200000) pe) in *.
  set (ae := Z.max (pe - pe mod 0x200000) as_) in *.
  assert (Hn : forall a z size, a <= z -> (page_bytes size | z - a) -> (page_bytes size | a) ->
    tiles (chunk (Z.to_nat ((z - a) / page_bytes size)) a (page_bytes size) size) a z).
  { intros a z size Haz [k Hk] Ha. pose proof (page_bytes_pos size).
    pose proof (chunk_tiles (Z.to_nat ((z - a) / page_bytes size)) a size Ha) as HT.
    rewrite Hk, Z.div_mul in * by lia. replace z with (a + Z.of_nat (Z.to_nat k) * page_bytes size); [done|].
    rewrite Z2Nat.id by nia. lia. }
  apply (tiles_app _ _ ps as_); [|apply (tiles_app _ _ as_ ae)].
  - apply (Hn ps as_ FourKB); [lia|done..].
  - destruct (Z.eq_dec as_ ae) as [Heq|Hne].
    + rewrite <- Heq, Z.sub_diag, Z.div_0_l by lia. done.
    + apply (Hn as_ ae TwoMB); [lia|done|apply Hd4; lia].
  - apply (Hn ae pe FourKB); [lia|done..].
Qed.

Lemma seg_start_eq start : usize start -> align_down start PAGE_SIZE = seg_start start.
Proof. intros. by apply (align_down_pow2 start 12). Qed.

Lemma seg_end_eq end_ : 0 <= end_ <= 2 ^ 32 -> align_up end_ PAGE_SIZE = seg_end end_.
Proof.
  intros. change PAGE_SIZE with (2 ^ 12). rewrite align_up_pow2 by lia. unfold seg_end. change (2 ^ 12) with 4096.
  by replace (end_ + 4096 - 1) with (end_ + 4095) by lia.
Qed.

Lemma seg_bounds start end_ :
  0 <= start <= end_ -> end_ <= 2 ^ 32 ->
  (4096 | seg_start start) /\ (4096 | seg_end end_) /\ 0 <= seg_start start /\
  seg_start start <= seg_end end_ /\ seg_end end_ <= 2 ^ 32.
Proof.
  intros Hs He. destruct (mod_multiple start 4096 ltac:(lia)) as [Hps Hpsb]. fold (seg_start start) in *.
  destruct (mod_multiple (end_ + 4095) 4096 ltac:(lia)) as [Hpe Hpeb]. fold (seg_end end_) in *.
  assert (0 <= seg_start start) by (unfold seg_start; pose proof (Z.mod_le start 4096); lia).
  split_and!; try done; [lia|]. destruct Hpe as [k Hk]. lia.
Qed.

(** [map_segment] acts on the pages of the segment in order. *)
Lemma map_segment_run root mt act b start end_ :
  0 <= start -> start <= end_ <= 2 ^ 32 ->
  map_segment root mt act b start end_ = run_pages root mt act b (segment_pages (seg_start start) (seg_end end_)).
Proof.
  intros Hs He. unfold map_segment. rewrite seg_start_eq by (unfold usize; lia). rewrite seg_end_eq by lia.
  destruct (seg_bounds start end_ ltac:(lia) ltac:(lia)) as (Hps & Hpe & Hps0 & Hle & Hpe32).
  set (ps := seg_start start) in *. set (pe := seg_end end_) in *.
  assert (Hau : align_up ps 0x200000 = ps + 0x1FFFFF - (ps + 0x1FFFFF) mod 0x200000).
  { pose proof (align_up_pow2 ps 21 ltac:(lia) ltac:(lia) ltac:(lia)) as Ha. change (2 ^ 21) with 0x200000 in Ha.
    by replace (ps + 0x200000 - 1) with (ps + 0x1FFFFF) in Ha by lia. }
  assert (Had : align_down pe 0x200000 = pe - pe mod 0x200000).
  { apply (align_down_pow2 pe 21); [lia|unfold usize; lia]. }
  rewrite Hau, Had.
  destruct (segment_bounds ps pe Hps Hpe ltac:(lia)) as (H1 & H2 & Hd1 & Hd2 & Hd3 & Hd4 & Hd5).
  unfold segment_pages. cbv zeta in *. set (as_ := Z.min (ps + 0x1FFFFF - (ps + 0x1FFFFF) mod 0x200000) pe) in *.
  set (ae := Z.max (pe - pe mod 0x200000) as_) in *.
  rewrite (Z.min_l as_ pe), (Z.min_l ae pe) by lia. change PAGE_SIZE with 4096.
  rewrite segment_loop_chunk by (done || lia). rewrite run_pages_app.
  destruct (run_pages root mt act b _) as [b1|]; cbn [mbind outcome_bind]; [|done].
  rewrite segment_loop_chunk by (done || lia). rewrite run_pages_app.
  destruct (run_pages root mt act b1 _) as [b2|]; cbn [mbind outcome_bind]; [|done].
  by rewrite segment_loop_chunk by (done || lia).
Qed.

(** ** Mapping and unmapping a segment *)

Definition va_off (mt : BootMapType) : Z := match mt with Identical => 0 | Linear => PHYS_VIRT_OFFSET end.

Lemma pa_to_va_ok mt pa :
  0 <= pa < 2 ^ 32 -> pa_to_va mt pa = pa + va_off mt /\ usize (pa + va_off mt) /\ canonical (pa + va_off mt).
Proof.
  intros Hpa. unfold usize, canonical. destruct mt; cbn [pa_to_va va_off]; [split_and!; lia|].
  rewrite phys_to_virt_small by done. unfold PHYS_VIRT_OFFSET. split_and!; lia.
Qed.

Lemma va_off_aligned mt size pa : (page_bytes size | pa) -> (page_bytes size | pa + va_off mt).
Proof.
  intros Hd. apply Z.divide_add_r; [done|]. destruct mt; cbn [va_off]; [apply Z.divide_0_r|].
  etrans; [apply (pow2_divide (page_bits size) 30)|by exists 0x3FFFFFFFC].
  pose proof (page_bits_bound size). lia.
Qed.

Section Action.
Context (root : Z) (mt : BootMapType) (pa : Z) (size : PageSize).
Context (Hpa : 0 <= pa < 2 ^ 32) (Hd : (page_bytes size | pa)).

Lemma action_vpn : VirtPageNum_from_VirtAddr (VirtAddr_from_usize (pa_to_va mt pa)) = Done ((pa + va_off mt) / 4096).
Proof using Hpa Hd.
  destruct (pa_to_va_ok mt pa Hpa) as (-> & Hu & Hc). rewrite VirtAddr_from_usize_id by done.
  rewrite VirtPageNum_from_VirtAddr_mod, (page_aligned _ size) by (by apply va_off_aligned). done.
Qed.

Lemma apply_map b flags :
  apply_action b root mt (Map flags) pa size = bump_map b root ((pa + va_off mt) / 4096) (pa / 4096) flags size.
Proof using Hpa Hd.
  unfold apply_action. rewrite action_vpn. cbn [mbind outcome_bind].
  pose proof (page_aligned pa size Hd) as Hm. unfold PhysPageNum_from_PhysAddr.
  by rewrite page_offset_mod, Hm, PhysAddr_floor_div.
Qed.

Lemma apply_unmap b :
  apply_action b root mt Unmap pa size =
  ('(m, _) ← unmap (bm_memory b) root ((pa + va_off mt) / 4096) size; Done (mkBootMem m (bm_memblock b))).
Proof using Hpa Hd. unfold apply_action. by rewrite action_vpn. Qed.

Lemma pa_page : pa / 4096 * 4096 = pa.
Proof using Hd. pose proof (page_aligned pa size Hd). rewrite (Z.div_mod pa 4096) at 2 by lia. lia. Qed.
End Action.

(** Nothing is mapped where the page goes. *)
Definition page_free (m : Memory) (root : Z) (mt : BootMapType) (page : Z * PageSize) : bool :=
  let '(pa, size) := page in
  slot_free m root (page_path ((pa + va_off mt) / 4096) size) (page_slot ((pa + va_off mt) / 4096) size).

Lemma tiles_elem l a z pa size :
  tiles l a z -> (pa, size) ∈ l -> a <= pa /\ pa + page_bytes size <= z /\ (page_bytes size | pa).
Proof.
  revert a. induction l as [|[pa' size'] l IH]; intros a; cbn; [by intros _ []%not_elem_of_nil|].
  intros (-> & Hd & Hl) [[= -> ->]|Hin]%elem_of_cons.
  - split_and!; [lia| |done]. by apply tiles_le in Hl.
  - pose proof (page_bytes_pos size'). destruct (IH _ Hl Hin) as (? & ? & ?). split_and!; [lia|done..].
Qed.

Lemma run_map_ok root mt flags l : forall b a z k,
  boot_ok b root -> page_supply (2 * length l + k) (bm_memblock b) -> leaf_flags flags ->
  tiles l a z -> 0 <= a -> z <= 2 ^ 32 ->
  if forallb (page_free (bm_memory b) root mt) l then
    exists b', run_pages root mt (Map flags) b l = Done b' /\ boot_ok b' root /\ page_supply k (bm_memblock b') /\
      (forall va, usize va -> sv39_translate (bm_memory b') root va =
        if decide (a + va_off mt <= va < z + va_off mt) then Some (va - va_off mt, Z.lor flags PTEFlags.V)
        else sv39_translate (bm_memory b) root va) /\
      (forall va1 size1, canonical va1 -> (page_bytes size1 | va1) ->
         va1 + page_bytes size1 <= a + va_off mt \/ z + va_off mt <= va1 ->
         slot_free (bm_memory b') root (page_path (va1 / 4096) size1) (page_slot (va1 / 4096) size1) =
         slot_free (bm_memory b) root (page_path (va1 / 4096) size1) (page_slot (va1 / 4096) size1))
  else exists msg, run_pages root mt (Map flags) b l = panic msg.
Proof.
  induction l as [|[pa size] l IH]; intros b a z k Hok Hs Hfl Ht Ha Hz; cbn [forallb run_pages tiles] in *.
  { exists b. split_and!; try done. intros va _. by rewrite decide_False by lia. }
  destruct Ht as (-> & Hd & Ht). pose proof (tiles_le _ _ _ Ht). pose proof (page_bytes_pos size).
  destruct (pa_to_va_ok mt a ltac:(lia)) as (_ & Hu & Hc). pose proof (va_off_aligned mt size a Hd) as Hd'.
  pose proof (pa_page a size Hd) as Hpp.
  rewrite apply_map by (done || lia). cbn [length] in Hs.
  pose proof (bump_map_page b root (a + va_off mt) (a / 4096) flags size (2 * length l + k) Hok
    ltac:(by replace (2 + (2 * length l + k))%nat with (2 * S (length l) + k)%nat by lia)
    Hu Hc Hd' ltac:(lia) ltac:(by rewrite Hpp) Hfl) as Hmap.
  unfold page_free at 1.
  destruct (slot_free (bm_memory b) root (page_path ((a + va_off mt) / 4096) size) (page_slot ((a + va_off mt) / 4096) size));
    [|destruct Hmap as [msg ->]; by exists msg].
  destruct Hmap as (b1 & -> & Hok1 & Hs1 & Htr1 & Hslot). cbn [andb mbind outcome_bind].
  specialize (IH b1 _ _ k Hok1 Hs1 Hfl Ht ltac:(lia) Hz).
  assert (Hfree : forallb (page_free (bm_memory b1) root mt) l = forallb (page_free (bm_memory b) root mt) l).
  { apply forallb_ext_in. intros [pa1 size1] Hin. destruct (tiles_elem _ _ _ _ _ Ht Hin) as (? & ? & Hd1).
    pose proof (page_bytes_pos size1). destruct (pa_to_va_ok mt pa1 ltac:(lia)) as (_ & _ & Hc1).
    apply Hslot; [done|by apply va_off_aligned|lia]. }
  rewrite Hfree in IH. destruct (forallb _ l); [|done].
  destruct IH as (b2 & Heq & Hok2 & Hs2 & Htr2 & Hslot2). exists b2. split_and!; try done.
  - intros va Hva. rewrite Htr2, Htr1 by done. rewrite Hpp.
    repeat case_decide; try lia; try done. do 2 f_equal. lia.
  - intros va1 size1 Hc1 Hd1 Hdis. rewrite Hslot2, Hslot by (done || lia). done.
Qed.

Lemma map_segment_ok b root mt flags start end_ k :
  boot_ok b root -> leaf_flags flags -> 0 <= start <= end_ -> end_ <= 2 ^ 32 ->
  page_supply (2 * length (segment_pages (seg_start start) (seg_end end_)) + k) (bm_memblock b) ->
  if forallb (page_free (bm_memory b) root mt) (segment_pages (seg_start start) (seg_end end_)) then
    exists b', map_segment root mt (Map flags) b start end_ = Done b' /\ boot_ok b' root /\
      page_supply k (bm_memblock b') /\
      (forall va, usize va -> sv39_translate (bm_memory b') root va =
        if decide (seg_start start + va_off mt <= va < seg_end end_ + va_off mt)
        then Some (va - va_off mt, Z.lor flags PTEFlags.V)
        else sv39_translate (bm_memory b) root va) /\
      (forall va1 size1, canonical va1 -> (page_bytes size1 | va1) ->
         va1 + page_bytes size1 <= seg_start start + va_off mt \/ seg_end end_ + va_off mt <= va1 ->
         slot_free (bm_memory b') root (page_path (va1 / 4096) size1) (page_slot (va1 / 4096) size1) =
         slot_free (bm_memory b) root (page_path (va1 / 4096) size1) (page_slot (va1 / 4096) size1))
  else exists msg, map_segment root mt (Map flags) b start end_ = panic msg.
Proof.
  intros Hok Hfl Hs He Hsup. rewrite map_segment_run by lia.
  destruct (seg_bounds start end_ Hs He) as (? & ? & ? & ? & ?).
  apply run_map_ok; try done. by apply segment_pages_tiles.
Qed.

(** C10: [map_segment] with a leaf permission maps exactly the pages of the segment: if none of
    them is mapped yet (and there is memory for two tables per page), every address from the page of the
    start to the page of the end translates to its physical address, with the given permission, and all other
    translations are unchanged; if one of the pages is taken, it panics. *)
Theorem map_segment_spec b root mt flags start end_ k :
  boot_ok b root -> leaf_flags flags -> 0 <= start <= end_ -> end_ <= 2 ^ 32 ->
  page_supply (2 * length (segment_pages (seg_start start) (seg_end end_)) + k) (bm_memblock b) ->
  if forallb (page_free (bm_memory b) root mt) (segment_pages (seg_start start) (seg_end end_)) then
    exists b', map_segment root mt (Map flags) b start end_ = Done b' /\ boot_ok b' root /\
      page_supply k (bm_memblock b') /\
      forall va, usize va -> sv39_translate (bm_memory b') root va =
        if decide (seg_start start + va_off mt <= va < seg_end end_ + va_off mt)
        then Some (va - va_off mt, Z.lor flags PTEFlags.V)
        else sv39_translate (bm_memory b) root va
  else exists msg, map_segment root mt (Map flags) b start end_ = panic msg.
Proof.
  intros Hok Hfl Hs He Hsup. pose proof (map_segment_ok b root mt flags start end_ k Hok Hfl Hs He Hsup) as Hmap.
  destruct (forallb _ _); [|done]. destruct Hmap as (b' & Heq & Hok' & Hs' & Htr & _). by exists b'.
Qed.

(** Every page of the list is mapped by a leaf of its size. *)
Definition pages_mapped (m : Memory) (root : Z) (mt : BootMapType) (l : list (Z * PageSize)) : Prop :=
  Forall (fun page => page_mapped m root (fst page + va_off mt) (snd page)) l.

Lemma run_unmap_ok root mt l : forall b a z,
  boot_ok b root -> pages_mapped (bm_memory b) root mt l -> tiles l a z -> 0 <= a -> z <= 2 ^ 32 ->
  exists b', run_pages root mt Unmap b l = Done b' /\ boot_ok b' root /\ bm_memblock b' = bm_memblock b /\
    forall va, usize va -> sv39_translate (bm_memory b') root va =
      if decide (a + va_off mt <= va < z + va_off mt) then None else sv39_translate (bm_memory b) root va.
Proof.
  induction l as [|[pa size] l IH]; intros b a z Hok Hm Ht Ha Hz; cbn [run_pages tiles] in *.
  { exists b. split_and!; try done. intros va _. by rewrite decide_False by lia. }
  destruct Ht as (-> & Hd & Ht). pose proof (tiles_le _ _ _ Ht). pose proof (page_bytes_pos size).
  destruct (pa_to_va_ok mt a ltac:(lia)) as (_ & Hu & Hc). pose proof (va_off_aligned mt size a Hd) as Hd'.
  apply Forall_cons in Hm as [Hm0 Hm]. cbn [fst snd] in Hm0.
  destruct (unmap_ok _ _ _ _ _ (proj2 Hok) Hm0) as (m1 & Heq & Hpt & Hleaf).
  rewrite apply_unmap, Heq by (done || lia). cbn [mbind outcome_bind].
  destruct (IH (mkBootMem m1 (bm_memblock b)) (a + page_bytes size) z) as (b2 & Heq2 & Hok2 & Hmb2 & Htr2); try done;
    [by split; [apply Hok|]| |lia|].
  { apply Forall_forall. intros [pa1 size1] Hin. destruct (tiles_elem _ _ _ _ _ Ht Hin) as (? & ? & Hd1).
    pose proof (page_bytes_pos size1). destruct (pa_to_va_ok mt pa1 ltac:(lia)) as (_ & _ & Hc1).
    unfold pages_mapped in Hm. rewrite Forall_forall in Hm. destruct (Hm _ Hin) as (rest & e & Hw & Hlen).
    exists rest, e. split; [|done]. cbn [bm_memory fst] in *. destruct (va_path_ok (pa1 + va_off mt)) as [HF Hl3].
    rewrite Hleaf, decide_False; [done| |done..]. intros Hpre%page_prefix; [lia|done..]. }
  exists b2. split_and!; try done. intros va Hva. rewrite Htr2 by done. cbn [bm_memory].
  rewrite (translate_page _ _ _ _ _ (fun _ => None) Hc Hd' Hleaf) by done.
  repeat case_decide; try lia; done.
Qed.

(** [map_segment] with [Unmap] on a segment whose pages are all mapped removes exactly the
    translations of the segment, and frees or allocates no memory. *)
Theorem unmap_segment_spec b root mt start end_ :
  boot_ok b root -> 0 <= start <= end_ -> end_ <= 2 ^ 32 ->
  pages_mapped (bm_memory b) root mt (segment_pages (seg_start start) (seg_end end_)) ->
  exists b', map_segment root mt Unmap b start end_ = Done b' /\ boot_ok b' root /\ bm_memblock b' = bm_memblock b /\
    forall va, usize va -> sv39_translate (bm_memory b') root va =
      if decide (seg_start start + va_off mt <= va < seg_end end_ + va_off mt) then None
      else sv39_translate (bm_memory b) root va.
Proof.
  intros Hok Hs He Hm. rewrite map_segment_run by lia.
  destruct (seg_bounds start end_ Hs He) as (? & ? & ? & ? & ?).
  apply run_unmap_ok; try done. by apply segment_pages_tiles.
Qed.

(** ** The mapping of the kernel *)

(** A segment to map; a plan is a list of them. *)
Record Segment := mkSegment { sg_type : BootMapType; sg_flags : Z; sg_start : Z; sg_end : Z }.

Definition sg_pages (g : Segment) : list (Z * PageSize) := segment_pages (seg_start (sg_start g)) (seg_end (sg_end g)).
Definition sg_lo (g : Segment) : Z := seg_start (sg_start g) + va_off (sg_type g).
Definition sg_hi (g : Segment) : Z := seg_end (sg_end g) + va_off (sg_type g).

Definition segment_ok (g : Segment) : Prop :=
  0 <= sg_start g <= sg_end g /\ sg_end g <= 2 ^ 32 /\ leaf_flags (sg_flags g).

Definition disjoint_segments (g h : Segment) : Prop := sg_hi g <= sg_lo h \/ sg_hi h <= sg_lo g.

Definition plan_ok (plan : list Segment) : Prop := Forall segment_ok plan /\ ForallOrdPairs disjoint_segments plan.

Fixpoint run_plan (root : Z) (b : BootMem) (plan : list Segment) : outcome BootMem :=
  match plan with
  | [] => Done b
  | g :: plan =>
      b ← map_segment root (sg_type g) (Map (sg_flags g)) b (sg_start g) (sg_end g);
      run_plan root b plan
  end.

(** The translation a plan asks for; [old] outside of all segments. *)
Fixpoint plan_translate (plan : list Segment) (va : Z) (old : option (Z * Z)) : option (Z * Z) :=
  match plan with
  | [] => old
  | g :: plan =>
      if decide (sg_lo g <= va < sg_hi g) then Some (va - va_off (sg_type g), Z.lor (sg_flags g) PTEFlags.V)
      else plan_translate plan va old
  end.

Definition plan_free (m : Memory) (root : Z) (plan : list Segment) : bool :=
  forallb (fun g => forallb (page_free m root (sg_type g)) (sg_pages g)) plan.

(** Pages of tables that a plan may need. *)
Definition plan_pages (plan : list Segment) : nat := sum_list (length ∘ sg_pages <$> plan).

Lemma plan_translate_outside plan g va old :
  Forall (disjoint_segments g) plan -> sg_lo g <= va < sg_hi g -> plan_translate plan va old = old.
Proof.
  intros Hd Hva. induction Hd as [|h plan Hgh Hd IH]; cbn [plan_translate]; [done|].
  rewrite decide_False; [done|]. unfold disjoint_segments in Hgh. lia.
Qed.

Lemma run_plan_ok root plan : forall b k,
  boot_ok b root -> plan_ok plan -> page_supply (2 * plan_pages plan + k) (bm_memblock b) ->
  plan_free (bm_memory b) root plan = true ->
  exists b', run_plan root b plan = Done b' /\ boot_ok b' root /\ page_supply k (bm_memblock b') /\
    forall va, usize va ->
      sv39_translate (bm_memory b') root va = plan_translate plan va (sv39_translate (bm_memory b) root va).
Proof.
  induction plan as [|g plan IH]; intros b k Hok [Hseg Hdis] Hs Hfree; cbn [run_plan plan_free forallb] in *.
  { by exists b. }
  apply Forall_cons in Hseg as [(Hse & He & Hfl) Hseg]. inversion Hdis as [|? ? Hg Hdis']; subst.
  apply andb_true_iff in Hfree as [Hfg Hfree].
  unfold plan_pages in Hs. cbn [fmap list_fmap sum_list_with sum_list compose] in Hs.
  pose proof (map_segment_ok b root (sg_type g) (sg_flags g) (sg_start g) (sg_end g) (2 * plan_pages plan + k)
    Hok Hfl Hse He) as Hmap. unfold sg_pages in Hfg, Hs. rewrite Hfg in Hmap.
  destruct Hmap as (b1 & -> & Hok1 & Hs1 & Htr1 & Hslot1).
  { eapply page_supply_le; [|done]. unfold plan_pages, sg_pages. cbn. lia. }
  cbn [mbind outcome_bind]. destruct (IH b1 k) as (b2 & Heq2 & Hok2 & Hs2 & Htr2); try done.
  { rewrite <- Hfree. apply forallb_ext_in. intros h Hh. apply forallb_ext_in. intros [pa size] Hpa.
    rewrite Forall_forall in Hg, Hseg. destruct (Hseg h Hh) as (Hsh & Heh & _). specialize (Hg h Hh).
    destruct (seg_bounds _ _ Hsh Heh) as (Hd1 & Hd2 & H0 & Hle & H32).
    destruct (tiles_elem _ _ _ _ _ (segment_pages_tiles _ _ Hd1 Hd2 Hle) Hpa) as (? & ? & Hd).
    pose proof (page_bytes_pos size). destruct (pa_to_va_ok (sg_type h) pa ltac:(lia)) as (_ & _ & Hc).
    apply Hslot1; [done|by apply va_off_aligned|]. unfold disjoint_segments, sg_lo, sg_hi in Hg. lia. }
  exists b2. split_and!; try done. intros va Hva. rewrite Htr2 by done. rewrite Htr1 by done.
  cbn [plan_translate]. fold (sg_lo g) (sg_hi g). case_decide; [|done]. by eapply plan_translate_outside.
Qed.

(** The segments that [map_kernel] maps, in order. *)
Definition section_plan (flags start end_ : Z) : list Segment :=
  [mkSegment Linear flags start end_; mkSegment Identical flags start end_].

Definition kernel_plan (sy : Symbols) (ram_base ram_end : Z) : list Segment :=
  let RX := Z.lor PTEFlags.R PTEFlags.X in
  let RW := Z.lor PTEFlags.R PTEFlags.W in
  section_plan RX (virt_to_phys (_text_start sy)) (virt_to_phys (_text_end sy)) ++
  section_plan PTEFlags.R (virt_to_phys (_rodata_start sy)) (virt_to_phys (_rodata_end sy)) ++
  section_plan RW (virt_to_phys (_data_start sy)) (virt_to_phys (_data_end sy)) ++
  section_plan RW (virt_to_phys (_bss_start_with_stack sy)) (virt_to_phys (_bss_end sy)) ++
  [mkSegment Linear RW (align_up (virt_to_phys (_ekernel sy)) PAGE_SIZE) ram_end;
   mkSegment Linear RW ram_base (virt_to_phys (_skernel sy))].

Lemma run_plan_app root b p q : run_plan root b (p ++ q) = (b ← run_plan root b p; run_plan root b q).
Proof.
  revert b. induction p as [|g p IH]; intros b; cbn [run_plan app]; [done|].
  destruct (map_segment _ _ _ _ _ _) as [b'|]; cbn [mbind outcome_bind]; [apply IH|done].
Qed.

Lemma map_kernel_run sy root ram_base ram_end b :
  map_kernel sy root ram_base ram_end b = run_plan root b (kernel_plan sy ram_base ram_end).
Proof.
  assert (Hsec : forall b flags s e, map_section root flags b s e = run_plan root b (section_plan flags s e)).
  { intros b0 flags s e. unfold map_section, section_plan. cbn [run_plan sg_type sg_flags sg_start sg_end].
    destruct (map_segment root Linear (Map flags) b0 s e) as [b1|]; cbn [mbind outcome_bind]; [|done].
    by destruct (map_segment root Identical (Map flags) b1 s e). }
  unfold map_kernel, kernel_plan. cbv zeta. rewrite !run_plan_app.
  repeat (rewrite Hsec, ?run_plan_app; destruct (run_plan _ _ (section_plan _ _ _)) as [?|]; cbn [mbind outcome_bind]; [|done]).
  cbn [run_plan sg_type sg_flags sg_start sg_end].
  destruct (map_segment _ _ _ _ _ _) as [b'|]; cbn [mbind outcome_bind]; [|done].
  by destruct (map_segment _ _ _ _ _ _).
Qed.

(** C19: if the sections of the kernel and the memory before and behind it do not share pages and none
    of them is mapped yet, the boot code maps all of them: text readable and executable, constants
    readable, data, stack and the rest of RAM readable and writable, in the direct map and (for the
    image) identically, and changes no other translation. *)
Theorem map_kernel_spec sy root ram_base ram_end b k :
  boot_ok b root -> plan_ok (kernel_plan sy ram_base ram_end) ->
  page_supply (2 * plan_pages (kernel_plan sy ram_base ram_end) + k) (bm_memblock b) ->
  plan_free (bm_memory b) root (kernel_plan sy ram_base ram_end) = true ->
  exists b', map_kernel sy root ram_base ram_end b = Done b' /\ boot_ok b' root /\
    page_supply k (bm_memblock b') /\
    forall va, usize va -> sv39_translate (bm_memory b') root va =
      plan_translate (kernel_plan sy ram_base ram_end) va (sv39_translate (bm_memory b) root va).
Proof. intros. rewrite map_kernel_run. by apply run_plan_ok. Qed.
