(* ===== verification/Handover.v ===== *)
(** * Handover from [MEMBLOCK] to the buddy allocator

    [init_buddy_system] (src/mm/mod.rs) marks the whole pages of the available regions as
    free and gives them to the buddy allocator. The allocator it produces satisfies the
    interface that the scheduler and the page tables rely on, and the page tables built during boot are
    untouched. *)

From S2P Require Import Prelude Address Memory Memblock FrameAllocator Buddy BuddyBlocks BuddyProofs BuddyMemory PageTable PageTree PageTableProofs MemMap Boot.

(** The page lies inside one of the regions. *)
Definition avail_page (l : list MemRegion) (p : Z) : Prop :=
  Exists (fun r => rg_base r <= p * 4096 /\ (p + 1) * 4096 <= rend r) l.

#[export] Instance avail_page_dec l p : Decision (avail_page l p).
Proof. unfold avail_page. apply _. Defined.

Definition page_entry (l : list MemRegion) (p : Z) : Page :=
  if decide (avail_page l p) then mkPage 0 Free else mkPage 1 Reserved.

(** ** Marking pages *)

Lemma mark_free_ok n : forall mm rs p,
  0 <= rs <= p -> p + Z.of_nat n < USIZE -> (Z.to_nat (p - rs) + n <= length mm)%nat ->
  exists mm', mark_free n mm rs p = Done mm' /\ length mm' = length mm /\
    forall i, mm' !! i = if decide (Z.to_nat (p - rs) <= i < Z.to_nat (p - rs) + n)%nat
                         then Some (mkPage 0 Free) else mm !! i.
Proof.
  induction n as [|n IH]; intros mm rs p Hp Hn Hlen; cbn [mark_free].
  { exists mm. split_and!; try done. intros i. by rewrite decide_False by lia. }
  rewrite wsub_small by lia. rewrite index_set_Done by lia. cbn [mbind outcome_bind].
  rewrite wadd_small by lia.
  destruct (IH (<[Z.to_nat (p - rs) := mkPage 0 Free]> mm) rs (p + 1)) as (mm' & Heq & Hl & Hlook);
    [lia|lia|rewrite length_insert; lia|].
  exists mm'. split; [done|]. rewrite length_insert in Hl. split; [done|]. intros i. rewrite Hlook.
  destruct (decide (i = Z.to_nat (p - rs))) as [->|Hne].
  - rewrite decide_False, decide_True, list_lookup_insert_eq by lia. done.
  - rewrite list_lookup_insert_ne by lia. repeat case_decide; try lia; done.
Qed.

(** ** Writes of the allocator *)

(** Adding a region writes only inside its pages. *)
Lemma add_region_loop_frame hi a fuel : forall s c s',
  0 <= c -> hi <= 2 ^ 52 -> ~ (c * 4096 <= a < hi * 4096) ->
  add_region_loop fuel s c hi = Done s' -> read_pa (memory s') a = read_pa (memory s) a.
Proof.
  induction fuel as [|fuel IH]; intros s c s' Hc Hhi Ha; cbn [add_region_loop]; [done|].
  destruct (Z.ltb_spec c hi); [|by intros [= <-]]. rewrite wsub_small by lia.
  destruct (Z.eqb_spec (hi - c) 0); [lia|]. unfold ilog2. destruct (Z.leb_spec (hi - c) 0); [lia|].
  cbn [mbind outcome_bind]. cbv zeta.
  set (o := Z.min (Z.min (Z.log2 (hi - c)) _) _).
  assert (Ho : 0 <= o <= 15 /\ o <= Z.log2 (hi - c)).
  { pose proof (Z.log2_nonneg (hi - c)). pose proof (trailing_zeros_nonneg c). unfold o, MAX_ORDER.
    destruct (c =? 0); lia. }
  clearbody o. pose proof (pow2_pos o ltac:(lia)). pose proof (pow2_le_mono o 15 ltac:(lia)).
  assert (2 ^ o <= hi - c).
  { pose proof (Z.log2_spec (hi - c) ltac:(lia)). pose proof (pow2_le_mono o (Z.log2 (hi - c)) ltac:(lia)). lia. }
  rewrite wshl_small by lia. rewrite Z.mul_1_l, wadd_small by lia.
  rewrite PhysAddr_from_PhysPageNum_mul by lia.
  destruct (add_free_block s (c * 4096) (Z.to_nat o)) as [s1|] eqn:Hs1; [|done]. cbn [mbind outcome_bind].
  intros Hl. rewrite (IH s1 (c + 2 ^ o) s') by (done || lia).
  eapply add_free_block_frame; [done|unfold usize; lia|lia].
Qed.

Lemma add_free_region_frame s lo hi s' a :
  0 <= lo -> hi <= 2 ^ 52 -> ~ (lo * 4096 <= a < hi * 4096) ->
  add_free_region s lo hi = Done s' -> read_pa (memory s') a = read_pa (memory s) a.
Proof.
  intros Hlo Hhi Ha. unfold add_free_region. destruct (hi <=? lo); [by intros [= <-]|].
  by apply add_region_loop_frame.
Qed.

(** ** One region *)

(** The whole pages of a region: from [ceil] of its base to [floor] of its end. *)
Lemma region_pages r p :
  region_ok r ->
  (rg_base r + 4095) / 4096 <= p < rend r / 4096 <-> rg_base r <= p * 4096 /\ (p + 1) * 4096 <= rend r.
Proof.
  intros _. pose proof (Z.div_mod (rg_base r + 4095) 4096 ltac:(lia)).
  pose proof (Z.mod_pos_bound (rg_base r + 4095) 4096 ltac:(lia)).
  pose proof (Z.div_mod (rend r) 4096 ltac:(lia)). pose proof (Z.mod_pos_bound (rend r) 4096 ltac:(lia)). lia.
Qed.

(** What has been handed over so far. *)
Record handed (m0 : Memory) (rs re : Z) (done_ : list MemRegion) (mm : list Page) (s : Frames) : Prop := {
  hd_length : length mm = Z.to_nat (re - rs);
  hd_pages p : rs <= p < re -> mm !! Z.to_nat (p - rs) = Some (page_entry done_ p);
  hd_frames : exists F, frames_ok s F ∅ /\ forall a, covered F a <-> avail_page done_ (a / 4096);
  hd_memory a : ~ avail_page done_ (a / 4096) -> read_pa (memory s) a = read_pa m0 a
}.

Lemma avail_page_snoc l r p : avail_page (l ++ [r]) p <-> avail_page l p \/ (rg_base r <= p * 4096 /\ (p + 1) * 4096 <= rend r).
Proof. unfold avail_page. rewrite Exists_app, Exists_cons, Exists_nil. tauto. Qed.

Lemma PhysAddr_from_usize_small pa : 0 <= pa < 2 ^ 56 -> PhysAddr_from_usize pa = pa.
Proof.
  intros. unfold PhysAddr_from_usize. change (wshl 1 PA_WIDTH_SV39 ⊟ 1) with (2 ^ 56 - 1).
  rewrite land_low_mask by lia. apply Z.mod_small. lia.
Qed.

Lemma hand_over_ok m0 rs re l r mm s :
  handed m0 rs re l mm s -> 0 < rs <= re -> re <= DIRECT_MAP_PAGES ->
  region_ok r -> rs * 4096 <= rg_base r -> rend r <= re * 4096 ->
  Forall (fun x => rend x < rg_base r) l ->
  exists mm' s', hand_over rs (mm, s) r = Done (mm', s') /\ handed m0 rs re (l ++ [r]) mm' s'.
Proof.
  intros [Hlen Hpg (F & Hok & HF) Hmem] Hrs Hre Hr Hb He Hl. pose proof Hr as (Hr0 & Hr1 & Hr2).
  assert (Hbr : rg_base r < rend r) by (unfold rend; lia).
  unfold DIRECT_MAP_PAGES in Hre. unfold hand_over. cbv zeta.
  rewrite (wadd_small (rg_base r) (rg_size r)) by (unfold rend in *; lia). fold (rend r). rewrite !PhysAddr_from_usize_small by lia.
  rewrite PhysAddr_ceil_div, PhysAddr_floor_div by lia.
  pose proof (region_pages r) as Hrp. specialize (fun p => Hrp p Hr).
  set (lo := (rg_base r + 4095) / 4096) in *. set (hi := rend r / 4096) in *.
  assert (Hlo : rs <= lo) by (apply Z.div_le_lower_bound; lia).
  assert (Hlob : rg_base r <= lo * 4096 < rg_base r + 4096).
  { pose proof (Z.div_mod (rg_base r + 4095) 4096 ltac:(lia)).
    pose proof (Z.mod_pos_bound (rg_base r + 4095) 4096 ltac:(lia)). lia. }
  assert (Hhi : hi * 4096 <= rend r) by (pose proof (Z.div_mod (rend r) 4096 ltac:(lia)); pose proof (Z.mod_pos_bound (rend r) 4096 ltac:(lia)); lia).
  assert (Hpa : forall a, lo * 4096 <= a < hi * 4096 <-> lo <= a / 4096 < hi).
  { intros a. pose proof (Z.div_mod a 4096 ltac:(lia)). pose proof (Z.mod_pos_bound a 4096 ltac:(lia)). lia. }
  destruct (mark_free_ok (Z.to_nat (hi - lo)) mm rs lo) as (mm' & Heq & Hlen' & Hlook); [lia..|].
  rewrite Heq. cbn [mbind outcome_bind].
  destruct (add_free_region_ok s F ∅ lo hi Hok) as (s' & F' & Heq' & Hok' & HF'); [lia..| | |].
  { intros a Ha [x [Hx1 Hx2]]%HF%Exists_exists. rewrite Forall_forall in Hl.
    destruct Hx2 as [Hx2 Hx3]. specialize (Hl _ Hx1).
    pose proof (Z.div_mod a 4096 ltac:(lia)). pose proof (Z.mod_pos_bound a 4096 ltac:(lia)). lia. }
  { intros a _ (? & ? & Hn & _). by rewrite lookup_empty in Hn. }
  rewrite Heq'. cbn [mbind outcome_bind]. exists mm', s'. split; [done|]. split.
  - lia.
  - intros p Hp. rewrite Hlook. unfold page_entry.
    destruct (decide (lo <= p < hi)) as [Hin|Hout].
    + rewrite decide_True by lia. rewrite decide_True; [done|]. apply avail_page_snoc. right. by apply Hrp.
    + rewrite decide_False by lia. rewrite Hpg by done. unfold page_entry. f_equal.
      apply decide_ext. rewrite avail_page_snoc. rewrite <- Hrp. tauto.
  - exists F'. split; [done|]. intros a. rewrite HF', avail_page_snoc, <- Hrp, HF, Hpa. done.
  - intros a Hna. rewrite avail_page_snoc, <- Hrp, <- Hpa in Hna.
    rewrite (add_free_region_frame s lo hi s') by (done || lia || tauto). apply Hmem. tauto.
Qed.

Lemma hand_over_all_ok m0 rs re ra l n : forall done_ mm s,
  0 < rs <= re -> re <= DIRECT_MAP_PAGES -> holds ra (done_ ++ l) -> length l = n ->
  regions_ok (done_ ++ l) ->
  Forall (fun r => rs * 4096 <= rg_base r /\ rend r <= re * 4096) l ->
  handed m0 rs re done_ mm s ->
  exists mm' s', hand_over_all n (length done_) rs ra (mm, s) = Done (mm', s') /\ handed m0 rs re (done_ ++ l) mm' s'.
Proof.
  revert l. induction n as [|n IH]; intros l done_ mm s Hrs Hre Hra Hlen Hok Hin Hh; cbn [hand_over_all].
  { destruct l; [|done]. rewrite app_nil_r. by exists mm, s. }
  destruct l as [|r l]; [done|]. destruct (holds_index _ _ _ _ Hra) as [_ Hidx]. rewrite Hidx.
  cbn [mbind outcome_bind]. apply Forall_cons in Hin as [[Hb He] Hin].
  pose proof Hok as (Hok1 & Hok2 & Hok3)%regions_ok_app. apply regions_ok_cons in Hok2 as (Hr & _ & _).
  destruct (hand_over_ok m0 rs re done_ r mm s) as (mm1 & s1 & Heq & Hh1); try done.
  { apply Forall_forall. intros x Hx. apply Hok3; [done|constructor]. }
  rewrite Heq. cbn [mbind outcome_bind].
  replace (S (length done_)) with (length (done_ ++ [r])) by (rewrite length_app; cbn; lia).
  destruct (IH l (done_ ++ [r]) mm1 s1) as (mm' & s' & Heq' & Hh'); try done; [by rewrite <- app_assoc|cbn in Hlen; lia|by rewrite <- app_assoc|].
  exists mm', s'. split; [done|]. by rewrite <- app_assoc in Hh'.
Qed.

(** ** The handover *)

Lemma new_frames_ok m : frames_ok (mkFrames m BuddySystemFrameAllocator_new) ∅ ∅.
Proof.
  constructor; try done. split_and!; try done. intros o Ho. exists None, [].
  split_and!; try done; [|constructor|intros p; rewrite lookup_empty; set_solver].
  by apply lookup_replicate_2.
Qed.

(** Tables that keep their words keep their translations. *)
Lemma leaf_walk_ext m m' root q u r :
  (forall q u j, valid_path q -> table_at m root q = Some u -> index_ok j -> read_pa m' (u + 8 * j) = read_pa m (u + 8 * j)) ->
  valid_path q -> table_at m root q = Some u -> Forall index_ok r -> (length q + length r = 3)%nat ->
  leaf_walk m' u r = leaf_walk m u r.
Proof.
  intros Hext. revert q u. induction r as [|j r IH]; intros q u Hq Hu Hr Hlen; cbn [leaf_walk]; [done|].
  apply Forall_cons in Hr as [Hj Hr]. cbn [length] in Hlen. rewrite (Hext q u j) by done.
  destruct (is_table (read_pa m (u + 8 * j))) eqn:Htab; [|done]. destruct r as [|k r]; [done|].
  apply (IH (q ++ [j])); try done.
  - apply valid_path_snoc. cbn [length] in Hlen. split_and!; [done|apply Hj..|lia].
  - by rewrite table_at_snoc, Hu; cbn [mbind option_bind]; rewrite Htab.
  - rewrite length_app. cbn [length] in *. lia.
Qed.

(** The machine has its RAM in the direct map, above page 0, and [MEMBLOCK] describes part of it. *)
Record boot_info_ok (bi : BootInfo) : Prop := {
  bi_boot : boot_ok (bi_mem bi) (BOOT_ROOT_PPN bi * 4096);
  bi_ram : 0 < bi_ram_start_ppn bi <= bi_ram_end_ppn bi /\ bi_ram_end_ppn bi <= DIRECT_MAP_PAGES;
  bi_regions : Forall (fun r => bi_ram_start_ppn bi * 4096 <= rg_base r /\ rend r <= bi_ram_end_ppn bi * 4096)
                 (active (available (bm_memblock (bi_mem bi))))
}.

Lemma init_buddy_system_ok bi :
  boot_info_ok bi ->
  let l := active (available (bm_memblock (bi_mem bi))) in
  exists mm s, init_buddy_system bi = Done (mm, s) /\
    (forall p, bi_ram_start_ppn bi <= p < bi_ram_end_ppn bi -> get_page_state mm p = Done (page_entry l p)) /\
    (exists F, frames_ok s F ∅ /\ forall a, covered F a <-> avail_page l (a / 4096)) /\
    fa_within s ∅ (bi_ram_start_ppn bi) (bi_ram_end_ppn bi) /\
    forall va, usize va -> sv39_translate (memory s) (BOOT_ROOT_PPN bi * 4096) va =
      sv39_translate (bm_memory (bi_mem bi)) (BOOT_ROOT_PPN bi * 4096) va.
Proof.
  intros [[Hmb Hpt] [Hrs Hre] Hreg] l. unfold init_buddy_system. cbv zeta.
  destruct Hmb as ((Hlen & Hcnt & Hok & _) & _). pose proof (active_holds _ Hlen Hcnt) as Hh. fold l in Hok, Hh, Hreg.
  rewrite wsub_small by (unfold DIRECT_MAP_PAGES in *; lia).
  destruct (hand_over_all_ok (bm_memory (bi_mem bi)) (bi_ram_start_ppn bi) (bi_ram_end_ppn bi)
    (available (bm_memblock (bi_mem bi))) l
    (count (available (bm_memblock (bi_mem bi)))) []
    (replicate (Z.to_nat (bi_ram_end_ppn bi - bi_ram_start_ppn bi)) (mkPage 1 Reserved))
    (mkFrames (bm_memory (bi_mem bi)) BuddySystemFrameAllocator_new)) as (mm & s & Heq & Hd); try done.
  { by destruct Hh as (_ & -> & _). }
  { split; [by rewrite length_replicate| | |done].
    - intros p Hp. unfold page_entry. rewrite decide_False by (by intros ?%Exists_nil).
      apply lookup_replicate_2. lia.
    - exists ∅. split; [apply new_frames_ok|]. intros a. split; [intros (? & ? & Hn & _); by rewrite lookup_empty in Hn|by intros ?%Exists_nil]. }
  cbn [length app] in Heq, Hd. rewrite Heq. cbn [mbind outcome_bind]. eexists _, s. split; [done|].
  destruct Hd as [Hl Hpg (F & HF & Hcov) Hmem].
  assert (Hdir : forall a, covered F a -> bi_ram_start_ppn bi * 4096 <= a < bi_ram_end_ppn bi * 4096).
  { intros a (r & Hr & Hx0 & Hx)%Hcov%Exists_exists. rewrite Forall_forall in Hreg. destruct (Hreg r Hr) as [Hb He].
    pose proof (Z.div_mod a 4096 ltac:(lia)). pose proof (Z.mod_pos_bound a 4096 ltac:(lia)). lia. }
  split_and!.
  - intros p Hp. unfold get_page_state, page_index. cbn [MEM_MAP RAM_START_PPN].
    rewrite wsub_small by (unfold DIRECT_MAP_PAGES in *; lia). by apply index_Done, Hpg.
  - by exists F.
  - cbn [fa_within buddy_frame_bounds]. split; [|done]. unfold owns_in.
    assert (blocks_of ∅ = ∅) as -> by (unfold blocks_of; by rewrite fmap_empty, kmap_empty).
    split; [exists F; split; [exact HF|]; split; [exact Hdir|intros a (? & ? & Hn & _)]|intros p n Hn];
      by rewrite lookup_empty in Hn.
  - intros va Hu. destruct (decide (canonical va)) as [Hc|Hc]; [|by rewrite !sv39_translate_noncanonical].
    rewrite !sv39_translate_eq by done. f_equal. destruct (va_path_ok va) as [HFp Hl3].
    apply (leaf_walk_ext _ _ (BOOT_ROOT_PPN bi * 4096) []); try done; [|apply valid_path_nil].
    intros q u j Hq Hu' Hj. apply Hmem. intros (r & Hr & Hx1 & Hx2)%Exists_exists.
    destruct (pt_page _ _ _ Hpt q u Hq Hu') as (Hown & [c ->] & _). unfold index_ok in Hj.
    replace ((c * 4096 + 8 * j) / 4096) with c in * by (apply (Z.div_unique_pos _ _ _ (8 * j)); lia).
    apply (Hown (c * 4096)); [lia|]. exists r. split; [done|]. lia.
Qed.

(** C15: [init_buddy_system] does not panic; afterwards exactly the pages that lie wholly in an available
    region are marked [Free] in [MEM_MAP] and are free in the buddy allocator, all other pages of RAM are
    [Reserved]; the allocator satisfies the frame-allocator interface with no block in use and all
    its pages in [MEM_MAP], and every address translation is unchanged. *)
Theorem init_buddy_system_spec bi :
  boot_info_ok bi ->
  let l := active (available (bm_memblock (bi_mem bi))) in
  exists mm s, init_buddy_system bi = Done (mm, s) /\
    (forall p, bi_ram_start_ppn bi <= p < bi_ram_end_ppn bi -> get_page_state mm p = Done (page_entry l p)) /\
    (exists F, frames_ok s F ∅ /\ forall a, covered F a <-> avail_page l (a / 4096)) /\
    fa_within s ∅ (bi_ram_start_ppn bi) (bi_ram_end_ppn bi) /\
    forall va, usize va -> sv39_translate (memory s) (BOOT_ROOT_PPN bi * 4096) va =
      sv39_translate (bm_memory (bi_mem bi)) (BOOT_ROOT_PPN bi * 4096) va.
Proof. apply init_buddy_system_ok. Qed.
