(* ===== verification/Board.v ===== *)
(** * Board support and console

    Models [src/bsp/qemu_virt.rs] (register addresses of the QEMU [virt] machine, shutdown
    and reboot) and the output functions of [src/console/mod.rs] that work before and beside
    the UART driver. Writes to device registers and bytes given to the SBI console are
    returned as lists. *)

From S2P Require Import Prelude Address.

(** The number of the hart is kept in [tp]. *)
Definition get_hart_id (tp : Z) : Z := tp.

(** ** Register addresses *)

Definition UART_BASE : Z := 0x10000000.
Definition UART0_IRQ : Z := 10.
Definition CLINT_BASE : Z := 0x2000000.
Definition PLIC_BASE : Z := 0xC000000.
Definition PLIC_PRIORITY_BASE : Z := PLIC_BASE ⊞ 0x00.
Definition plic_priority_addr (interrupt_id : Z) : Z := PLIC_PRIORITY_BASE ⊞ interrupt_id ⊠ 4.
Definition PLIC_PENDING_BASE : Z := PLIC_BASE ⊞ 0x1000.
Definition PLIC_ENABLE_BASE : Z := PLIC_BASE ⊞ 0x2000.
Definition PLIC_ENABLE_STRIDE : Z := 0x80.
Definition plic_context_id_s (hart_id : Z) : Z := hart_id ⊠ 2 ⊞ 1.
Definition plic_enable_addr (hart_id irq : Z) : Z :=
  let context_id := plic_context_id_s hart_id in
  PLIC_ENABLE_BASE ⊞ context_id ⊠ PLIC_ENABLE_STRIDE ⊞ (irq / 32) ⊠ 4.
Definition PLIC_CONTEXT_BASE : Z := PLIC_BASE ⊞ 0x200000.
Definition PLIC_CONTEXT_STRIDE : Z := 0x1000.
Definition plic_context_addr (hart_id : Z) : Z :=
  let context_id := plic_context_id_s hart_id in
  PLIC_CONTEXT_BASE ⊞ context_id ⊠ PLIC_CONTEXT_STRIDE.
Definition PLIC_CLAIM_COMPLETE_OFFSET : Z := 0x200004.
Definition plic_claim_complete_addr (hart_id : Z) : Z :=
  let context_id := plic_context_id_s hart_id in
  PLIC_BASE ⊞ PLIC_CLAIM_COMPLETE_OFFSET ⊞ context_id ⊠ PLIC_CONTEXT_STRIDE.
Definition MTIME_OFFSET : Z := 0xBFF8.
Definition MTIME_ADDR : Z := CLINT_BASE ⊞ MTIME_OFFSET.
Definition MTIMECMP_OFFSET : Z := 0x4000.
Definition MTIMECMP_BASE : Z := CLINT_BASE ⊞ MTIMECMP_OFFSET.

(** [(hart_id * 8) as usize] with [hart_id : i8]: the product wraps at 8 bits and is
    sign extended. *)
Definition wrap_i8 (z : Z) : Z := (z + 128) mod 256 - 128.
Definition get_mtimecmp_addr (hart_id : Z) : Z := MTIMECMP_BASE ⊞ wrap (wrap_i8 (hart_id * 8)).

(** Offsets of the UART registers. *)
Definition DLL : Z := 0.
Definition DLM : Z := 1.
Definition RHR : Z := 0.
Definition THR : Z := 0.
Definition IER : Z := 1.
Definition FCR : Z := 2.
Definition ISR : Z := 2.
Definition LCR : Z := 3.
Definition LSR : Z := 5.

Definition VIRT_TEST_ADDR : Z := 0x100000.
Definition FINISHER_FAIL : Z := 0x3333.
Definition FINISHER_PASS : Z := 0x5555.
Definition FINISHER_RESET : Z := 0x7777.

(** Both functions write one word to the test device and then loop forever. *)
Definition shutdown : list (Z * Z) := [(VIRT_TEST_ADDR, FINISHER_PASS)].
Definition reboot : list (Z * Z) := [(VIRT_TEST_ADDR, FINISHER_RESET)].

(** ** Console output *)

(** Bytes of a string literal. *)
Definition bytes (s : string) : list Z := (fun a => Z.of_N (Ascii.N_of_ascii a)) <$> String.list_ascii_of_string s.

Definition early_print_str (s : string) : list Z := bytes s.

(** The digit loop of [early_print_hex]: [i] is the next free position from the right in
    the 16-byte buffer. A value of 64 bits takes at most 16 iterations. *)
Fixpoint hex_loop (fuel : nat) (buf : list Z) (i : Z) (val : Z) : outcome (list Z * Z) :=
  match fuel with
  | O => Fault FuelF
  | S fuel =>
      if 0 <? val then
        let i := i ⊟ 1 in
        let digit := Z.land val 0xF in
        buf ← index_set buf (Z.to_nat i) (if digit <? 10 then 48 + digit else 97 + digit - 10);
        hex_loop fuel buf i (wshr val 4)
      else Done (buf, i)
  end.

Definition early_print_hex (val : Z) : outcome (list Z) :=
  let out := early_print_str "0x" in
  if val =? 0 then Done (out ++ early_print_str "0")
  else
    '(buf, i) ← hex_loop 17 (replicate 16 0) 16 val;
    Done (out ++ drop (Z.to_nat i) buf).

Definition early_println : list Z := early_print_str (String (Ascii.ascii_of_N 10) EmptyString).

(** [polling_putchar] reads the line status until the transmitter is empty; [lsr] are
    the values it will read. The result is the byte written and the values left. *)
Fixpoint polling_putchar (lsr : list Z) (c : Z) : outcome (Z * list Z) :=
  match lsr with
  | [] => Fault FuelF
  | v :: lsr => if Z.land v 32 =? 0 then polling_putchar lsr c else Done (c, lsr)
  end.

(** ** Properties *)



(** The value of a hexadecimal digit and of a string of them. *)
Definition hex_digit (c : Z) : option Z :=
  if (48 <=? c) && (c <=? 57) then Some (c - 48)
  else if (97 <=? c) && (c <=? 102) then Some (c - 87) else None.

Definition hex_value (l : list Z) : option Z :=
  foldl (fun acc c => a ← acc; d ← hex_digit c; Some (16 * a + d)) (Some 0) l.

Lemma hex_value_snoc l c : hex_value (l ++ [c]) = (a ← hex_value l; d ← hex_digit c; Some (16 * a + d)).
Proof. unfold hex_value. by rewrite foldl_app. Qed.

Lemma hex_digit_char d :
  0 <= d < 16 -> hex_digit (if d <? 10 then 48 + d else 97 + d - 10) = Some d.
Proof.
  intros Hd. unfold hex_digit. destruct (Z.ltb_spec d 10).
  - destruct (Z.leb_spec 48 (48 + d)), (Z.leb_spec (48 + d) 57); try lia. cbn. f_equal. lia.
  - destruct (Z.leb_spec (97 + d - 10) 57); [lia|]. rewrite andb_false_r.
    destruct (Z.leb_spec 97 (97 + d - 10)), (Z.leb_spec (97 + d - 10) 102); try lia. cbn. f_equal. lia.
Qed.

Lemma hex_loop_ok fuel : forall buf i val,
  length buf = 16%nat -> 0 <= i <= 16 -> 0 <= val < 16 ^ i -> i < Z.of_nat fuel ->
  exists buf' i' ds, hex_loop fuel buf i val = Done (buf', i') /\ length buf' = 16%nat /\
    drop (Z.to_nat i') buf' = ds ++ drop (Z.to_nat i) buf /\ hex_value ds = Some val /\
    (val = 0 -> ds = []) /\ (0 < val -> exists c ds', ds = c :: ds' /\ c <> 48).
Proof.
  induction fuel as [|fuel IH]; intros buf i val Hb Hi Hv Hf; [lia|]. cbn [hex_loop].
  destruct (Z.ltb_spec 0 val) as [Hpos|Hz].
  2:{ exists buf, i, []. split_and!; try done; [|lia]. cbn. f_equal. lia. }
  assert (Hi0 : 0 < i) by (destruct (Z.eq_dec i 0) as [->|]; [cbn in Hv; lia|lia]).
  rewrite wsub_small by lia. change 15 with (2 ^ 4 - 1). rewrite (land_low_mask val 4) by lia. change (2 ^ 4) with 16.
  pose proof (Z.mod_pos_bound val 16 ltac:(lia)) as Hd. rewrite index_set_Done by lia. cbn [mbind outcome_bind].
  rewrite wshr_div by lia. change (2 ^ 4) with 16.
  set (c := if val mod 16 <? 10 then 48 + val mod 16 else 97 + val mod 16 - 10).
  assert (Hc : hex_digit c = Some (val mod 16)) by (by apply hex_digit_char).
  destruct (IH (<[Z.to_nat (i - 1) := c]> buf) (i - 1) (val / 16)) as (buf' & i' & ds & Heq & Hlen' & Hdrop & Hval & Hz & Hhd).
  - by rewrite length_insert.
  - lia.
  - split; [apply Z.div_pos; lia|]. apply Z.div_lt_upper_bound; [lia|].
    rewrite <- Z.pow_succ_r by lia. replace (Z.succ (i - 1)) with i by lia. lia.
  - lia.
  - exists buf', i', (ds ++ [c]). split; [done|]. split; [done|]. split_and!.
    + rewrite Hdrop, <- app_assoc. f_equal. rewrite (drop_S _ c).
      * rewrite drop_insert_lt by lia. cbn [app]. do 2 f_equal. lia.
      * apply list_lookup_insert_eq. lia.
    + rewrite hex_value_snoc, Hval. cbn [mbind option_bind]. rewrite Hc. cbn [mbind option_bind]. f_equal.
      pose proof (Z.div_mod val 16 ltac:(lia)). lia.
    + lia.
    + intros _. destruct (Z.eq_dec (val / 16) 0) as [H0|Hn].
      * rewrite (Hz H0). exists c, []. split; [done|]. intros Hc48. rewrite Hc48 in Hc.
        pose proof (Z.div_mod val 16 ltac:(lia)). cbn in Hc. injection Hc as Hc. lia.
      * destruct Hhd as (c' & ds' & -> & ?); [pose proof (Z.div_pos val 16); lia|].
        by exists c', (ds' ++ [c]).
Qed.

(** C36: [early_print_hex] prints every 64-bit value, without overrunning its 16-byte buffer, as
    "0x" and hexadecimal digits that read back as the value, with no leading zero. *)
Theorem early_print_hex_roundtrip val :
  usize val ->
  exists ds, early_print_hex val = Done (bytes "0x" ++ ds) /\ hex_value ds = Some val /\
    (1 <= length ds <= 16)%nat /\ (val <> 0 -> head ds <> Some 48).
Proof.
  intros Hv. unfold early_print_hex, early_print_str. destruct (Z.eqb_spec val 0) as [->|Hne].
  { exists (bytes "0"). split_and!; try done; cbn; lia. }
  destruct (hex_loop_ok 17 (replicate 16 0) 16 val) as (buf & i & ds & Heq & Hlen & Hdrop & Hval & _ & Hhd);
    [done|lia|exact Hv|lia|].
  rewrite Heq. cbn [mbind outcome_bind]. exists ds. rewrite Hdrop. cbn [drop replicate]. rewrite app_nil_r.
  destruct Hhd as (c & ds' & -> & Hc); [unfold usize in Hv; lia|].
  split_and!; try done; [cbn; lia| |intros _; by intros [= ->]].
  cbn [drop replicate] in Hdrop. rewrite app_nil_r in Hdrop. rewrite <- Hdrop, length_drop. lia.
Qed.

Lemma early_print_hex_roundtrip_witness :
  exists ds, early_print_hex 0x80200000 = Done (bytes "0x" ++ ds) /\ hex_value ds = Some 0x80200000.
Proof.
  destruct (early_print_hex_roundtrip 0x80200000 ltac:(split; lia)) as (ds & Heq & Hv & _). by exists ds.
Defined.

(** A hart number above 15 makes the 8-bit product wrap: the register computed for hart 16 lies
    below that of hart 0. *)
Lemma get_mtimecmp_addr_wraps :
  get_mtimecmp_addr 15 = MTIMECMP_BASE + 15 * 8 /\ get_mtimecmp_addr 16 = MTIMECMP_BASE - 128.
Proof. split; reflexivity. Qed.
