(* ===== verification/Machine.v ===== *)
(** * Booting on the QEMU [virt] machine

    The inputs of the memory setup for the machine that the repository's scripts start: its
    device tree (RAM of 128 MiB at 0x80000000 and the memory-mapped devices), a layout of the
    kernel image as [src/linker.ld] produces it, and a run of the boot code on them. Also the
    instances that show that the hypotheses of the boot theorems can be met. *)

From S2P Require Import Prelude Address Memory Memblock FrameAllocator Buddy BuddyBlocks BuddyProofs PageTable PageTree PageTableProofs MemMap Boot BootProofs Handover Board.

(** ** The machine *)

Definition device (n : string) (base size : Z) : FdtNode := mkFdtNode n (Some [mkMemoryRegion base (Some size)]).

Definition qemu_fdt : Fdt := mkFdt
  [mkFdtNode "/" None;
   device "fw-cfg@10100000" 0x10100000 0x18;
   mkFdtNode "flash@20000000" (Some [mkMemoryRegion 0x20000000 (Some 0x2000000); mkMemoryRegion 0x22000000 (Some 0x2000000)]);
   device "memory@80000000" 0x80000000 0x8000000;
   mkFdtNode "cpu@0" (Some [mkMemoryRegion 0 None]);
   device "rtc@101000" 0x101000 0x1000;
   device "serial@10000000" 0x10000000 0x100;
   device "test@100000" 0x100000 0x1000;
   device "virtio_mmio@10001000" 0x10001000 0x1000;
   device "plic@c000000" 0xC000000 0x600000;
   device "clint@2000000" 0x2000000 0x10000;
   device "pci@30000000" 0x30000000 0x10000000;
   device "mmode_resv0@80000000" 0x80000000 0x40000] [] 0x2000.

(** The image is linked in the upper half, sections on page boundaries. *)
Definition qemu_symbols : Symbols :=
  mkSymbols 0xFFFFFFFF80200000 0xFFFFFFFF80231000 0xFFFFFFFF80200000 0xFFFFFFFF8020F123
    0xFFFFFFFF80210000 0xFFFFFFFF80216000 0xFFFFFFFF80216000 0xFFFFFFFF80217010 0xFFFFFFFF80218000 0xFFFFFFFF80231000.

Definition qemu_boot : outcome BootInfo :=
  setup_memory_and_mapping 40 (fun _ => Some qemu_fdt) qemu_symbols ∅ 0x87E00000.

(** The translation in force after the identity map has been removed. *)
Definition qemu_final : outcome (Z -> option (Z * Z)) :=
  bi ← qemu_boot;
  bi ← unmap_temp_identity_area qemu_symbols bi;
  Done (sv39_translate (bm_memory (bi_mem bi)) (PhysAddr_from_PhysPageNum (switch_to_final_page_table bi))).


(** ** Instances of the boot theorems *)

#[local] Opaque example_memblock.

Lemma example_big_supply : page_supply 200 example_memblock.
Proof. apply (bool_decide_unpack _). vm_compute. exact I. Qed.

(** The page of the UART registers in the direct map. *)
Lemma map_segment_spec_witness :
  exists b', map_segment example_root Linear (Map 6) example_boot 0x10000000 0x10000100 = Done b' /\
    sv39_translate (bm_memory b') example_root 0xFFFFFFFF10000005 = Some (0x10000005, 7).
Proof.
  pose proof (map_segment_spec example_boot example_root Linear 6 0x10000000 0x10000100 0 example_boot_ok
    ltac:(done) ltac:(lia) ltac:(lia)) as Hmap.
  assert (Hfree : forallb (page_free (bm_memory example_boot) example_root Linear)
    (segment_pages (seg_start 0x10000000) (seg_end 0x10000100)) = true) by (vm_compute; reflexivity).
  rewrite Hfree in Hmap. destruct Hmap as (b' & Heq & _ & _ & Htr).
  { apply (page_supply_le 200); [apply Nat.leb_le; vm_compute; reflexivity|exact example_big_supply]. }
  exists b'. split; [exact Heq|]. etransitivity; [apply Htr; split; lia|]. apply decide_True.
  change (seg_start 0x10000000) with 0x10000000. change (seg_end 0x10000100) with 0x10001000.
  unfold va_off, PHYS_VIRT_OFFSET. lia.
Defined.

Lemma unmap_segment_spec_witness :
  exists b b', map_segment example_root Identical (Map 6) example_boot 0x80200000 0x80200800 = Done b /\
    map_segment example_root Identical Unmap b 0x80200000 0x80200800 = Done b' /\
    sv39_translate (bm_memory b') example_root 0x80200010 = None.
Proof.
  pose proof (map_segment_ok example_boot example_root Identical 6 0x80200000 0x80200800 0 example_boot_ok
    ltac:(done) ltac:(lia) ltac:(lia)) as Hmap.
  assert (Hfree : forallb (page_free (bm_memory example_boot) example_root Identical)
    (segment_pages (seg_start 0x80200000) (seg_end 0x80200800)) = true) by (vm_compute; reflexivity).
  rewrite Hfree in Hmap. destruct Hmap as (b & Heq & Hok & _ & _).
  { apply (page_supply_le 200); [apply Nat.leb_le; vm_compute; reflexivity|exact example_big_supply]. }
  assert (Hm : leaf_walk (bm_memory b) example_root (va_path (0x80200000 + va_off Identical)) = Some ([], PTE_new 0x80200 7)).
  { assert (Hc : (fun b => leaf_walk (bm_memory b) example_root (va_path (0x80200000 + va_off Identical))) <$>
      map_segment example_root Identical (Map 6) example_boot 0x80200000 0x80200800 = Done (Some ([], PTE_new 0x80200 7)))
      by (vm_compute; reflexivity). rewrite Heq in Hc. injection Hc as Hc. exact Hc. }
  destruct (unmap_segment_spec b example_root Identical 0x80200000 0x80200800 Hok ltac:(lia) ltac:(lia)) as (b' & Heq' & _ & _ & Htr).
  { change (segment_pages (seg_start 0x80200000) (seg_end 0x80200800)) with [(0x80200000, FourKB)].
    apply Forall_singleton. exists [], (PTE_new 0x80200 7). split; [exact Hm|reflexivity]. }
  exists b, b'. split; [exact Heq|]. split; [exact Heq'|].
  etransitivity; [apply Htr; split; lia|]. apply decide_True.
  change (seg_start 0x80200000) with 0x80200000. change (seg_end 0x80200800) with 0x80201000. unfold va_off. lia.
Defined.

(** A kernel image whose four sections are one large page each. *)
Definition example_symbols : Symbols :=
  mkSymbols 0xFFFFFFFF80200000 0xFFFFFFFF80A00000 0xFFFFFFFF80200000 0xFFFFFFFF80400000
    0xFFFFFFFF80400000 0xFFFFFFFF80600000 0xFFFFFFFF80600000 0xFFFFFFFF80800000 0xFFFFFFFF80800000 0xFFFFFFFF80A00000.

#[export] Instance segment_ok_dec g : Decision (segment_ok g).
Proof. unfold segment_ok, leaf_flags. apply _. Defined.

Lemma example_plan_ok : plan_ok (kernel_plan example_symbols 0x80000000 0x88000000).
Proof.
  split.
  - apply (bool_decide_unpack _). vm_compute. exact I.
  - assert (Hd : forall g h, Decision (disjoint_segments g h)) by (intros; unfold disjoint_segments; apply _).
    unfold kernel_plan, section_plan. cbn [app].
    repeat (constructor; [repeat (constructor; [first [left; vm_compute; discriminate|right; vm_compute; discriminate]|]); constructor|]).
    constructor.
Qed.

Lemma map_kernel_spec_witness :
  exists b', map_kernel example_symbols example_root 0x80000000 0x88000000 example_boot = Done b' /\
    sv39_translate (bm_memory b') example_root 0xFFFFFFFF80200040 = Some (0x80200040, 11).
Proof.
  destruct (map_kernel_spec example_symbols example_root 0x80000000 0x88000000 example_boot 0 example_boot_ok
    example_plan_ok) as (b' & Heq & _ & _ & Htr).
  - apply (page_supply_le 200); [apply Nat.leb_le; vm_compute; reflexivity|exact example_big_supply].
  - vm_compute. reflexivity.
  - exists b'. split; [exact Heq|]. etransitivity; [apply Htr; split; lia|]. vm_compute. reflexivity.
Defined.

Definition example_info : BootInfo := mkBootInfo example_boot (example_root / 4096) 0x80000 0x88000 0x87000000.

Lemma example_info_ok : boot_info_ok example_info.
Proof.
  split.
  - exact example_boot_ok.
  - split; unfold DIRECT_MAP_PAGES; cbn [example_info bi_ram_start_ppn bi_ram_end_ppn]; lia.
  - apply (bool_decide_unpack _). vm_compute. exact I.
Qed.

Lemma init_buddy_system_spec_witness :
  exists mm s, init_buddy_system example_info = Done (mm, s) /\ fa_within s ∅ (bi_ram_start_ppn example_info) (bi_ram_end_ppn example_info) /\
    get_page_state mm 0x80001 = Done (mkPage 0 Free) /\ get_page_state mm 0x87FFF = Done (mkPage 1 Reserved).
Proof.
  destruct (init_buddy_system_spec example_info example_info_ok) as (mm & s & Heq & Hpg & _ & Ho & _).
  exists mm, s. split; [exact Heq|]. split; [exact Ho|]. split.
  - etransitivity; [apply Hpg; cbn [example_info bi_ram_start_ppn bi_ram_end_ppn]; lia|]. vm_compute. reflexivity.
  - etransitivity; [apply Hpg; cbn [example_info bi_ram_start_ppn bi_ram_end_ppn]; lia|]. vm_compute. reflexivity.
Defined.
