(* ===== verification/RingBuf.v ===== *)
(** * Ring buffer (src/data_struct/ring_buf.rs)

    [RingBuffer<T, N>]: an array of [N] possibly uninitialised cells with head,
    tail and length. A cell is [None] until it is written; reading an
    uninitialised cell is undefined behaviour, indexing out of range and the
    remainder by zero panic. The theorems show that none of these happens and
    that the buffer implements a bounded first-in first-out queue. *)

From S2P Require Import Prelude.

Record RingBuffer (T : Type) := mkRingBuffer {
  rb_buffer : list (option T);
  rb_head : Z;
  rb_tail : Z;
  rb_len : Z
}.
Arguments mkRingBuffer {T} _ _ _ _.
Arguments rb_buffer {T} _.
Arguments rb_head {T} _.
Arguments rb_tail {T} _.
Arguments rb_len {T} _.

Section RingBuffer.
Context {T : Type} (N : nat).

Definition RingBuffer_new : RingBuffer T := mkRingBuffer (replicate N None) 0 0 0.

(** The remainder operator of [usize]. *)
Definition urem (a n : Z) : outcome Z :=
  if n =? 0 then panic "attempt to calculate the remainder with a divisor of zero"
  else Done (a mod n).

(** [push] returns [Err(item)] when the buffer is full. *)
Definition RingBuffer_push (rb : RingBuffer T) (item : T) : outcome ((() + T) * RingBuffer T) :=
  if rb_len rb =? Z.of_nat N then Done (inr item, rb)
  else
    buffer ← index_set (rb_buffer rb) (Z.to_nat (rb_tail rb)) (Some item);
    tail ← urem (rb_tail rb ⊞ 1) (Z.of_nat N);
    Done (inl (), mkRingBuffer buffer (rb_head rb) tail (rb_len rb ⊞ 1)).

Definition assume_init_read (cell : option T) : outcome T :=
  match cell with Some x => Done x | None => undef "read of an uninitialised cell" end.

Definition RingBuffer_pop (rb : RingBuffer T) : outcome (option T * RingBuffer T) :=
  if rb_len rb =? 0 then Done (None, rb)
  else
    head ← urem (rb_head rb ⊞ 1) (Z.of_nat N);
    cell ← index (rb_buffer rb) (Z.to_nat (rb_head rb));
    value ← assume_init_read cell;
    Done (Some value, mkRingBuffer (rb_buffer rb) head (rb_tail rb) (rb_len rb ⊟ 1)).

Definition RingBuffer_len (rb : RingBuffer T) : Z := rb_len rb.
Definition RingBuffer_is_empty (rb : RingBuffer T) : bool := rb_len rb =? 0.
Definition RingBuffer_is_full (rb : RingBuffer T) : bool := rb_len rb =? Z.of_nat N.
Definition RingBuffer_capacity (_ : RingBuffer T) : Z := Z.of_nat N.

(** ** Abstract queue and refinement *)

(** [rb_repr rb l]: the buffer holds the items [l], oldest first. *)
Record rb_repr (rb : RingBuffer T) (l : list T) : Prop := {
  rr_buffer : length (rb_buffer rb) = N;
  rr_len : rb_len rb = Z.of_nat (length l);
  rr_cap : (length l <= N)%nat;
  rr_head : 0 <= rb_head rb /\ (rb_head rb < Z.of_nat N \/ N = 0%nat /\ rb_head rb = 0);
  rr_tail : rb_tail rb = (rb_head rb + Z.of_nat (length l)) mod Z.of_nat N;
  rr_cells : forall i x, l !! i = Some x ->
    rb_buffer rb !! Z.to_nat ((rb_head rb + Z.of_nat i) mod Z.of_nat N) = Some (Some x)
}.

Lemma RingBuffer_new_repr : rb_repr RingBuffer_new [].
Proof.
  split; cbn; try done; rewrite ?length_replicate; lia.
Qed.

(** Two positions less than [N] apart land in different cells. *)
Lemma cell_inj h i j n :
  0 <= i < n -> 0 <= j < n -> (h + i) mod n = (h + j) mod n -> i = j.
Proof.
  intros Hi Hj Heq. apply Z.cong_iff_0 in Heq.
  replace (h + i - (h + j)) with (i - j) in Heq by lia.
  apply Z.mod_divide in Heq as [k Hk]; [|lia]. assert (k = 0) by nia. lia.
Qed.

Context (HN : Z.of_nat N < USIZE).

Lemma RingBuffer_push_repr rb l x :
  rb_repr rb l ->
  if decide (length l = N)
  then RingBuffer_push rb x = Done (inr x, rb)
  else exists rb', RingBuffer_push rb x = Done (inl (), rb') /\ rb_repr rb' (l ++ [x]).
Proof.
  intros [Hbuf Hlen Hcap Hhead Htail Hcells]. unfold RingBuffer_push.
  rewrite Hlen. case_decide as Hfull.
  { by rewrite Hfull, Z.eqb_refl. }
  destruct (Z.eqb_spec (Z.of_nat (length l)) (Z.of_nat N)) as [|_]; [lia|].
  remember (Z.of_nat N) as n eqn:En. assert (Hn : 0 < n) by lia.
  pose proof (Z.mod_pos_bound (rb_head rb + Z.of_nat (length l)) n Hn) as Ht.
  rewrite index_set_Done by lia. cbn [mbind outcome_bind]. unfold urem.
  destruct (Z.eqb_spec n 0) as [|_]; [lia|]. cbn [mbind outcome_bind].
  eexists. split; [done|]. rewrite !wadd_small by lia.
  split; cbn; rewrite ?length_insert, ?length_app, <- ?En; cbn; try lia.
  - rewrite Htail, Zplus_mod_idemp_l. f_equal. lia.
  - intros i y Hi. apply lookup_app_Some in Hi as [Hi|[Hge Hi]].
    + rewrite list_lookup_insert_ne; [by apply Hcells|]. rewrite Htail. intros Heq.
      apply lookup_lt_Some in Hi.
      pose proof (Z.mod_pos_bound (rb_head rb + Z.of_nat i) n Hn).
      apply Z2Nat.inj in Heq; [|lia..]. apply cell_inj in Heq; lia.
    + apply list_lookup_singleton_Some in Hi as [Hi ->].
      replace i with (length l) by lia. rewrite <- Htail.
      apply list_lookup_insert_eq. lia.
Qed.

Lemma RingBuffer_pop_nil rb : rb_repr rb [] -> RingBuffer_pop rb = Done (None, rb).
Proof. intros Hr. unfold RingBuffer_pop. by rewrite (rr_len _ _ Hr). Qed.

Lemma RingBuffer_pop_cons rb x l :
  rb_repr rb (x :: l) ->
  exists rb', RingBuffer_pop rb = Done (Some x, rb') /\ rb_repr rb' l.
Proof.
  intros [Hbuf Hlen Hcap Hhead Htail Hcells]. unfold RingBuffer_pop. cbn in Hlen, Hcap.
  rewrite Hlen. destruct (Z.eqb_spec (Z.of_nat (S (length l))) 0) as [|_]; [lia|].
  remember (Z.of_nat N) as n eqn:En. assert (Hn : 0 < n) by lia. unfold urem.
  destruct (Z.eqb_spec n 0) as [|_]; [lia|]. cbn [mbind outcome_bind].
  pose proof (Hcells 0%nat x eq_refl) as H0. rewrite Z.add_0_r, Z.mod_small in H0 by lia.
  rewrite (proj2 (index_Done _ _ _) H0). cbn [mbind outcome_bind assume_init_read].
  eexists. split; [done|]. rewrite wadd_small, wsub_small by lia.
  pose proof (Z.mod_pos_bound (rb_head rb + 1) n Hn).
  split; cbn; rewrite <- ?En; try lia.
  - rewrite Htail. cbn. rewrite Zplus_mod_idemp_l. f_equal. lia.
  - intros i y Hi. rewrite Zplus_mod_idemp_l. rewrite <- (Hcells (S i) y Hi). do 2 f_equal.
    f_equal. lia.
Qed.

(** The interface seen by a client: a sequence of operations and their results. *)
Inductive rb_op := OpPush (x : T) | OpPop | OpLen | OpIsEmpty | OpIsFull | OpCapacity.

Inductive rb_result :=
| RPush (r : () + T)
| RPop (r : option T)
| RNum (n : Z)
| RBool (b : bool).

Definition rb_step (rb : RingBuffer T) (o : rb_op) : outcome (rb_result * RingBuffer T) :=
  match o with
  | OpPush x => '(r, rb') ← RingBuffer_push rb x; Done (RPush r, rb')
  | OpPop => '(r, rb') ← RingBuffer_pop rb; Done (RPop r, rb')
  | OpLen => Done (RNum (RingBuffer_len rb), rb)
  | OpIsEmpty => Done (RBool (RingBuffer_is_empty rb), rb)
  | OpIsFull => Done (RBool (RingBuffer_is_full rb), rb)
  | OpCapacity => Done (RNum (RingBuffer_capacity rb), rb)
  end.

Fixpoint rb_run (rb : RingBuffer T) (ops : list rb_op) : outcome (list rb_result) :=
  match ops with
  | [] => Done []
  | o :: ops =>
      '(r, rb') ← rb_step rb o;
      rs ← rb_run rb' ops;
      Done (r :: rs)
  end.

(** The specification: a list of at most [N] items. *)
Definition queue_step (q : list T) (o : rb_op) : rb_result * list T :=
  match o with
  | OpPush x => if decide (length q = N) then (RPush (inr x), q) else (RPush (inl ()), q ++ [x])
  | OpPop => match q with [] => (RPop None, []) | x :: q' => (RPop (Some x), q') end
  | OpLen => (RNum (Z.of_nat (length q)), q)
  | OpIsEmpty => (RBool (bool_decide (q = [])), q)
  | OpIsFull => (RBool (bool_decide (length q = N)), q)
  | OpCapacity => (RNum (Z.of_nat N), q)
  end.

Fixpoint queue_run (q : list T) (ops : list rb_op) : list rb_result :=
  match ops with
  | [] => []
  | o :: ops => let '(r, q') := queue_step q o in r :: queue_run q' ops
  end.

(** One step of the buffer simulates one step of the queue. *)
Lemma rb_step_repr rb q o :
  rb_repr rb q ->
  exists rb', rb_step rb o = Done ((queue_step q o).1, rb') /\ rb_repr rb' (queue_step q o).2.
Proof.
  intros Hr. pose proof (rr_len _ _ Hr) as Hlen. destruct o as [x| | | | |]; cbn [rb_step queue_step].
  - pose proof (RingBuffer_push_repr rb q x Hr) as Hp. case_decide.
    + rewrite Hp. by exists rb.
    + destruct Hp as (rb' & -> & Hr'). by exists rb'.
  - destruct q as [|x q].
    + rewrite (RingBuffer_pop_nil rb Hr). by exists rb.
    + destruct (RingBuffer_pop_cons rb x q Hr) as (rb' & -> & Hr'). by exists rb'.
  - exists rb. unfold RingBuffer_len. by rewrite Hlen.
  - exists rb. unfold RingBuffer_is_empty. rewrite Hlen. split; [|done]. cbn [fst]. do 3 f_equal.
    destruct q; cbn; [done|]. by destruct (Z.eqb_spec (Z.of_nat (S (length q))) 0); [lia|].
  - exists rb. unfold RingBuffer_is_full. rewrite Hlen. split; [|done]. cbn [fst]. do 3 f_equal.
    case_bool_decide; [rewrite H; apply Z.eqb_refl|]. apply Z.eqb_neq. lia.
  - by exists rb.
Qed.

Lemma rb_run_repr ops rb q : rb_repr rb q -> rb_run rb ops = Done (queue_run q ops).
Proof.
  revert rb q. induction ops as [|o ops IH]; intros rb q Hr; [done|]. cbn [rb_run queue_run].
  destruct (rb_step_repr rb q o Hr) as (rb' & -> & Hr').
  destruct (queue_step q o) as [r q']. cbn [mbind outcome_bind fst snd] in *.
  by rewrite (IH _ _ Hr').
Qed.
End RingBuffer.

(** C27: every sequence of operations on a fresh ring buffer of any capacity
    returns exactly what a bounded first-in first-out queue returns: [push]
    fails only when the queue is full and gives the item back, [pop] yields the
    oldest item, and no operation reads an uninitialised cell, indexes out of
    range or divides by zero. *)
Theorem ring_buffer_is_bounded_fifo {T} (N : nat) (ops : list (@rb_op T)) :
  Z.of_nat N < USIZE ->
  rb_run N (RingBuffer_new N) ops = Done (queue_run N [] ops).
Proof. intros HN. apply rb_run_repr; [done|]. apply RingBuffer_new_repr. Qed.

(** A buffer of two cells that is filled, overflows, and wraps around. *)
Lemma ring_buffer_is_bounded_fifo_witness :
  rb_run 2 (RingBuffer_new 2)
    [OpPush 1; OpPush 2; OpPush 3; OpPop; OpPush 4; OpPop; OpPop; OpPop]
  = Done [RPush (inl ()); RPush (inl ()); RPush (inr 3); RPop (Some 1); RPush (inl ());
          RPop (Some 2); RPop (Some 4); RPop None].
Proof. rewrite (ring_buffer_is_bounded_fifo 2) by done. vm_compute. reflexivity. Defined.
