(* ===== verification/Lock.v ===== *)
(** * Interrupt-safe lock (src/data_struct/lock.rs, src/trap/interrupts/mod.rs)

    [IrqLock<T>] couples a spin lock with the supervisor interrupt enable bit of
    [sstatus]. The spin lock is the [spin] crate's [Mutex] and is a parameter:
    the model relies on its documented behaviour only (a lock call on a free
    mutex takes it, on a held one never returns while the holder does not run,
    dropping the guard frees it). The observable points between two actions are
    recorded in a trace, because that is where an interrupt can be taken. *)

From stdpp Require Import functions.
From S2P Require Import Prelude.

Definition SSTATUS_SIE_MASK : Z := wshl 1 1.

(** [csrrci rd, sstatus, 2]: the old value of [sstatus] and the new one. *)
Definition read_and_disable_supervisor_interrupts (sstatus : Z) : Z * Z :=
  (sstatus, Z.land sstatus (wnot 2)).

(** [csrsi sstatus, 2] if the saved status had the bit set. *)
Definition restore_interrupts (saved_status sstatus : Z) : Z :=
  if Z.land saved_status SSTATUS_SIE_MASK =? 0 then sstatus
  else Z.lor sstatus SSTATUS_SIE_MASK.

Definition disable_supervisor_interrupts (sstatus : Z) : Z := Z.land sstatus (wnot 2).
Definition enable_supervisor_interrupts (sstatus : Z) : Z := Z.lor sstatus 2.

Definition interrupts_enabled (sstatus : Z) : bool := Z.testbit sstatus 1.

Lemma wnot_2 : wnot 2 = usize_MAX - 2.
Proof. done. Qed.

Lemma testbit_wnot_2 i : 0 <= i -> Z.testbit (wnot 2) i = (i <? 64) && negb (i =? 1).
Proof.
  intros Hi. destruct (Z.ltb_spec i 64).
  - replace (wnot 2) with (Z.lxor (Z.ones 64) 2) by done.
    rewrite Z.lxor_spec, Z.ones_spec_low by lia.
    replace 2 with (2 ^ 1) by done. rewrite Z.pow2_bits_eqb by lia.
    rewrite (Z.eqb_sym 1 i). by destruct (i =? 1).
  - rewrite wnot_2. apply Z.bits_above_log2; [done|]. by apply Z.lt_le_trans with 64.
Qed.

Lemma land_wnot_2_usize s : usize (Z.land s (wnot 2)).
Proof.
  replace (wnot 2) with (Z.land (wnot 2) (Z.ones 64)) by done.
  rewrite Z.land_assoc, Z.land_ones by done. by apply Z.mod_pos_bound.
Qed.

Lemma interrupts_enabled_land s : interrupts_enabled (Z.land s (wnot 2)) = false.
Proof. unfold interrupts_enabled. by rewrite Z.land_spec, testbit_wnot_2, andb_false_r by lia. Qed.

Lemma sie_mask_test s : (Z.land s SSTATUS_SIE_MASK =? 0) = negb (interrupts_enabled s).
Proof. by apply (land_pow2_test s 1). Qed.

(** Disabling and restoring is the identity on every 64-bit [sstatus]. *)
Lemma disable_restore s :
  usize s ->
  restore_interrupts s (read_and_disable_supervisor_interrupts s).2 = s.
Proof.
  intros Hs. unfold restore_interrupts. rewrite sie_mask_test.
  cbn [read_and_disable_supervisor_interrupts snd]. change SSTATUS_SIE_MASK with (2 ^ 1).
  apply Z.bits_inj'; intros i Hi.
  assert (Hhigh : 64 <= i -> Z.testbit s i = false).
  { intros. destruct (decide (s = 0)) as [->|]; [apply Z.bits_0|].
    apply Z.bits_above_log2; [apply Hs|]. apply Z.log2_lt_pow2; [destruct Hs; lia|].
    apply Z.lt_le_trans with (2 ^ 64); [apply Hs|]. by apply Z.pow_le_mono_r. }
  assert (Hland : Z.testbit (Z.land s (wnot 2)) i = Z.testbit s i && negb (i =? 1)).
  { rewrite Z.land_spec, testbit_wnot_2 by done.
    destruct (Z.ltb_spec i 64); [done|]. by rewrite Hhigh. }
  unfold interrupts_enabled. destruct (Z.testbit s 1) eqn:Hb; cbn [negb];
    rewrite ?Z.lor_spec, Hland, ?Z.pow2_bits_eqb, ?(Z.eqb_sym 1 i) by lia;
    destruct (Z.eqb_spec i 1) as [->|]; rewrite ?Hb; cbn [negb];
    by rewrite ?andb_true_r, ?orb_false_r.
Qed.

Section IrqLock.
(** The spin lock of the [spin] crate. *)
Context {L : Type} (spin_lock : L -> option L) (spin_unlock : L -> L) (is_locked : L -> bool).
Context (spin_lock_free : forall l, is_locked l = false ->
           exists l', spin_lock l = Some l' /\ is_locked l' = true)
        (spin_lock_held : forall l, is_locked l = true -> spin_lock l = None)
        (spin_unlock_free : forall l, is_locked (spin_unlock l) = false).

Record Hart := mkHart { sstatus : Z; locks : nat -> L }.

(** The guard holds the mutex guard (here: which mutex) and the saved status. *)
Record IrqLockGuard := mkGuard { guarded : nat; saved_status : Z }.

(** [IrqLock::lock]: interrupts first, then the spin lock. A lock call that never
    returns is [Fault FuelF]. *)
Definition IrqLock_lock (h : Hart) (i : nat) : outcome (IrqLockGuard * Hart) :=
  let '(saved, st) := read_and_disable_supervisor_interrupts (sstatus h) in
  match spin_lock (locks h i) with
  | Some l => Done (mkGuard i saved, mkHart st (<[i := l]> (locks h)))
  | None => Fault FuelF
  end.

(** [Drop for IrqLockGuard]: the body of [drop] runs first, the fields (the mutex
    guard) are dropped after it. *)
Definition IrqLockGuard_drop (h : Hart) (g : IrqLockGuard) : Hart :=
  mkHart (restore_interrupts (saved_status g) (sstatus h)) (locks h).

Definition MutexGuard_drop (h : Hart) (g : IrqLockGuard) : Hart :=
  mkHart (sstatus h) (<[guarded g := spin_unlock (locks h (guarded g))]> (locks h)).

(** Scoped use of guards: [WithLock i body] is
    [{ let guard = lock_i.lock(); body }]. *)
Inductive prog :=
| Skip
| Seq (p q : prog)
| WithLock (i : nat) (body : prog).

(** Runs a program and collects the states an interrupt can observe. *)
Fixpoint run (p : prog) (h : Hart) : outcome (list Hart * Hart) :=
  match p with
  | Skip => Done ([h], h)
  | Seq p q =>
      '(t1, h1) ← run p h;
      '(t2, h2) ← run q h1;
      Done (t1 ++ t2, h2)
  | WithLock i body =>
      '(g, h1) ← IrqLock_lock h i;
      '(t, h2) ← run body h1;
      let h3 := IrqLockGuard_drop h2 g in
      let h4 := MutexGuard_drop h3 g in
      Done (h1 :: t ++ [h3; h4], h4)
  end.

Definition locked (h : Hart) (i : nat) : bool := is_locked (locks h i).

(** The locks a program takes, and that it never takes one it already holds. *)
Fixpoint takes (p : prog) : list nat :=
  match p with
  | Skip => []
  | Seq p q => takes p ++ takes q
  | WithLock i body => i :: takes body
  end.

Fixpoint no_relock (p : prog) : Prop :=
  match p with
  | Skip => True
  | Seq p q => no_relock p /\ no_relock q
  | WithLock i body => (i ∉ takes body) /\ no_relock body
  end.

(** Running a program: it returns, gives back [sstatus] and every lock, and if
    interrupts are off at the start they are off at every point. *)
Lemma run_ok p h :
  usize (sstatus h) -> no_relock p -> (forall i, i ∈ takes p -> locked h i = false) ->
  exists t h', run p h = Done (t, h') /\ sstatus h' = sstatus h /\
    (forall i, locked h' i = locked h i) /\
    (interrupts_enabled (sstatus h) = false ->
     Forall (fun s => interrupts_enabled (sstatus s) = false) t).
Proof.
  clear spin_lock_held. revert h. induction p as [|p IHp q IHq|i body IH]; intros h Hst Hp Hfree; cbn [run].
  - exists [h], h. split_and!; try done. intros. by repeat constructor.
  - destruct Hp as [Hp Hq]. cbn [takes] in Hfree.
    destruct (IHp h Hst Hp) as (t1 & h1 & -> & Hst1 & Hl1 & Ht1).
    { intros i Hi. apply Hfree, elem_of_app. by left. }
    destruct (IHq h1 ltac:(by rewrite Hst1) Hq) as (t2 & h2 & Hrun2 & Hst2 & Hl2 & Ht2).
    { intros i Hi. rewrite Hl1. apply Hfree, elem_of_app. by right. }
    cbn [mbind outcome_bind]. rewrite Hrun2. cbn [mbind outcome_bind].
    exists (t1 ++ t2), h2. split_and!; [done|congruence|by intros; rewrite Hl2|].
    intros He. apply Forall_app. split; [auto|]. apply Ht2. by rewrite Hst1.
  - destruct Hp as [Hi Hp]. cbn [takes] in Hfree. unfold IrqLock_lock. cbn [read_and_disable_supervisor_interrupts].
    destruct (spin_lock_free (locks h i)) as (l & -> & Hlocked).
    { apply Hfree. left. }
    cbn [mbind outcome_bind].
    set (h1 := mkHart (Z.land (sstatus h) (wnot 2)) (<[i := l]> (locks h))).
    assert (Hus : usize (sstatus h1)) by apply land_wnot_2_usize.
    destruct (IH h1 Hus Hp) as (t & h2 & -> & Hst2 & Hl2 & Ht).
    { intros j Hj. unfold locked. cbn. rewrite fn_lookup_insert_ne; [|set_solver].
      apply Hfree. by right. }
    cbn [mbind outcome_bind]. eexists _, _. split; [done|].
    assert (Hsst : restore_interrupts (sstatus h) (sstatus h2) = sstatus h).
    { rewrite Hst2. by apply disable_restore. }
    split_and!; [done| |].
    + intros j. unfold locked. cbn. destruct (decide (j = i)) as [->|Hne].
      * rewrite fn_lookup_insert, spin_unlock_free. symmetry. apply Hfree. left.
      * rewrite fn_lookup_insert_ne by done. specialize (Hl2 j). unfold locked in Hl2. rewrite Hl2.
        cbn. by rewrite fn_lookup_insert_ne.
    + intros He. constructor; [apply interrupts_enabled_land|]. apply Forall_app. split.
      * apply Ht. apply interrupts_enabled_land.
      * repeat constructor; cbn; by rewrite Hsst.
Qed.

(** At the point between the two drops the lock is still held while interrupts are on. *)
Lemma drop_window h i :
  usize (sstatus h) -> interrupts_enabled (sstatus h) = true -> locked h i = false ->
  exists t h' s, run (WithLock i Skip) h = Done (t, h') /\ s ∈ t /\
    interrupts_enabled (sstatus s) = true /\ run (WithLock i Skip) s = Fault FuelF.
Proof.
  clear spin_unlock_free. intros Hst He Hfree. cbn [run]. unfold IrqLock_lock at 1. cbn [read_and_disable_supervisor_interrupts].
  destruct (spin_lock_free (locks h i) Hfree) as (l & -> & Hl). cbn [mbind outcome_bind].
  eexists _, _, _. split; [done|]. split; [apply elem_of_cons; right; right; left|].
  cbn [IrqLockGuard_drop sstatus saved_status locks guarded].
  pose proof (disable_restore (sstatus h) Hst) as Hr.
  cbn [read_and_disable_supervisor_interrupts snd] in Hr. rewrite Hr.
  split; [done|]. unfold IrqLock_lock. cbn [read_and_disable_supervisor_interrupts locks sstatus IrqLockGuard_drop].
  by rewrite fn_lookup_insert, (spin_lock_held l Hl).
Qed.
End IrqLock.

Arguments mkHart {L} _ _.
Arguments sstatus {L} _.
Arguments locks {L} _.


(** A boolean spin lock and two nested locks in a trap handler. *)
Definition bool_lock (b : bool) : option bool := if b then None else Some true.


(** dropping a guard restores the interrupt enable bit before the spin lock is
    freed. If interrupts were on, an interrupt taken at that point whose handler
    takes the same lock never returns. *)
Theorem irq_lock_drop_window {L} (spin_lock : L -> option L) (spin_unlock : L -> L)
    (is_locked : L -> bool) h i :
  (forall l, is_locked l = false -> exists l', spin_lock l = Some l' /\ is_locked l' = true) ->
  (forall l, is_locked l = true -> spin_lock l = None) ->
  usize (sstatus h) -> interrupts_enabled (sstatus h) = true -> locked is_locked h i = false ->
  exists t h' s, run spin_lock spin_unlock (WithLock i Skip) h = Done (t, h') /\ s ∈ t /\
    interrupts_enabled (sstatus s) = true /\
    run spin_lock spin_unlock (WithLock i Skip) s = Fault FuelF.
Proof. intros. by eapply drop_window. Qed.

Lemma irq_lock_drop_window_witness :
  exists t h' s, run bool_lock (fun _ => false) (WithLock 0 Skip)
      (mkHart 0x2 (fun _ => false)) = Done (t, h') /\ s ∈ t /\
    run bool_lock (fun _ => false) (WithLock 0 Skip) s = Fault FuelF.
Proof.
  destruct (irq_lock_drop_window bool_lock (fun _ => false) id (mkHart 0x2 (fun _ => false)) 0)
    as (t & h' & s & ? & ? & _ & ?).
  - intros [] Hl; [done|]. by exists true.
  - by intros [].
  - split; done.
  - done.
  - done.
  - by exists t, h', s.
Defined.
