(* ===== verification/Context.v ===== *)
(** * Task contexts and the context switch

    [TaskContext] (src/task/context.rs), the trap entry (src/trap/mod.rs) and the
    first switch to a task (src/task/switch.rs). The two naked functions are
    translated instruction by instruction and run by an interpreter of the few
    RISC-V instructions they use. The theorems show that the trap entry stores the
    interrupted registers at the offsets of the [repr(C)] struct and resumes
    whatever context [sscratch] points to after the handler. *)

From stdpp Require Import functions.
From S2P Require Import Prelude.

(** ** The saved context *)

Record TaskContext := mkTaskContext {
  ctx_ra : Z;
  ctx_sp : Z;
  ctx_tp : Z;
  ctx_t0 : Z;
  ctx_t1 : Z;
  ctx_t2 : Z;
  ctx_s0 : Z;
  ctx_s1 : Z;
  ctx_a0 : Z;
  ctx_a1 : Z;
  ctx_a2 : Z;
  ctx_a3 : Z;
  ctx_a4 : Z;
  ctx_a5 : Z;
  ctx_a6 : Z;
  ctx_a7 : Z;
  ctx_s2 : Z;
  ctx_s3 : Z;
  ctx_s4 : Z;
  ctx_s5 : Z;
  ctx_s6 : Z;
  ctx_s7 : Z;
  ctx_s8 : Z;
  ctx_s9 : Z;
  ctx_s10 : Z;
  ctx_s11 : Z;
  ctx_t3 : Z;
  ctx_t4 : Z;
  ctx_t5 : Z;
  ctx_t6 : Z;
  ctx_sepc : Z
}.

(** [TaskContext::zero]. *)
Definition TaskContext_zero : TaskContext :=
  mkTaskContext 0 0 0 0 0 0 0 0 0 0 0 0 0 0 0 0 0 0 0 0 0 0 0 0 0 0 0 0 0 0 0.

(** Assignments to the fields the kernel writes. *)
Definition set_sp (c : TaskContext) (v : Z) : TaskContext :=
  mkTaskContext (ctx_ra c) v (ctx_tp c) (ctx_t0 c) (ctx_t1 c) (ctx_t2 c) (ctx_s0 c) (ctx_s1 c)
    (ctx_a0 c) (ctx_a1 c) (ctx_a2 c) (ctx_a3 c) (ctx_a4 c) (ctx_a5 c) (ctx_a6 c)
    (ctx_a7 c) (ctx_s2 c) (ctx_s3 c) (ctx_s4 c) (ctx_s5 c) (ctx_s6 c) (ctx_s7 c)
    (ctx_s8 c) (ctx_s9 c) (ctx_s10 c) (ctx_s11 c) (ctx_t3 c) (ctx_t4 c)
    (ctx_t5 c) (ctx_t6 c) (ctx_sepc c).
Definition set_ra (c : TaskContext) (v : Z) : TaskContext :=
  mkTaskContext v (ctx_sp c) (ctx_tp c) (ctx_t0 c) (ctx_t1 c) (ctx_t2 c) (ctx_s0 c) (ctx_s1 c)
    (ctx_a0 c) (ctx_a1 c) (ctx_a2 c) (ctx_a3 c) (ctx_a4 c) (ctx_a5 c) (ctx_a6 c)
    (ctx_a7 c) (ctx_s2 c) (ctx_s3 c) (ctx_s4 c) (ctx_s5 c) (ctx_s6 c) (ctx_s7 c)
    (ctx_s8 c) (ctx_s9 c) (ctx_s10 c) (ctx_s11 c) (ctx_t3 c) (ctx_t4 c)
    (ctx_t5 c) (ctx_t6 c) (ctx_sepc c).
Definition set_a0 (c : TaskContext) (v : Z) : TaskContext :=
  mkTaskContext (ctx_ra c) (ctx_sp c) (ctx_tp c) (ctx_t0 c) (ctx_t1 c) (ctx_t2 c) (ctx_s0 c)
    (ctx_s1 c) v (ctx_a1 c) (ctx_a2 c) (ctx_a3 c) (ctx_a4 c) (ctx_a5 c)
    (ctx_a6 c) (ctx_a7 c) (ctx_s2 c) (ctx_s3 c) (ctx_s4 c) (ctx_s5 c) (ctx_s6 c)
    (ctx_s7 c) (ctx_s8 c) (ctx_s9 c) (ctx_s10 c) (ctx_s11 c) (ctx_t3 c)
    (ctx_t4 c) (ctx_t5 c) (ctx_t6 c) (ctx_sepc c).
Definition set_a1 (c : TaskContext) (v : Z) : TaskContext :=
  mkTaskContext (ctx_ra c) (ctx_sp c) (ctx_tp c) (ctx_t0 c) (ctx_t1 c) (ctx_t2 c) (ctx_s0 c)
    (ctx_s1 c) (ctx_a0 c) v (ctx_a2 c) (ctx_a3 c) (ctx_a4 c) (ctx_a5 c)
    (ctx_a6 c) (ctx_a7 c) (ctx_s2 c) (ctx_s3 c) (ctx_s4 c) (ctx_s5 c) (ctx_s6 c)
    (ctx_s7 c) (ctx_s8 c) (ctx_s9 c) (ctx_s10 c) (ctx_s11 c) (ctx_t3 c)
    (ctx_t4 c) (ctx_t5 c) (ctx_t6 c) (ctx_sepc c).
Definition set_sepc (c : TaskContext) (v : Z) : TaskContext :=
  mkTaskContext (ctx_ra c) (ctx_sp c) (ctx_tp c) (ctx_t0 c) (ctx_t1 c) (ctx_t2 c) (ctx_s0 c)
    (ctx_s1 c) (ctx_a0 c) (ctx_a1 c) (ctx_a2 c) (ctx_a3 c) (ctx_a4 c) (ctx_a5 c)
    (ctx_a6 c) (ctx_a7 c) (ctx_s2 c) (ctx_s3 c) (ctx_s4 c) (ctx_s5 c) (ctx_s6 c)
    (ctx_s7 c) (ctx_s8 c) (ctx_s9 c) (ctx_s10 c) (ctx_s11 c) (ctx_t3 c)
    (ctx_t4 c) (ctx_t5 c) (ctx_t6 c) v.

(** ** Registers, instructions and the machine *)

Inductive reg :=
| RA | SP | GP | TP | T0 | T1 | T2 | S0 | S1 | A0 | A1 | A2 | A3 | A4 | A5 | A6 | A7
| S2 | S3 | S4 | S5 | S6 | S7 | S8 | S9 | S10 | S11 | T3 | T4 | T5 | T6.

#[export] Instance reg_eq_dec : EqDecision reg.
Proof. solve_decision. Defined.

Inductive csr := SSCRATCH | SEPC | SCAUSE | SSTATUS.

#[export] Instance csr_eq_dec : EqDecision csr.
Proof. solve_decision. Defined.

Inductive instr :=
| Csrrw (rd : reg) (c : csr) (rs : reg)
| Csrw (c : csr) (rs : reg)
| Csrr (rd : reg) (c : csr)
| Csrs (c : csr) (rs : reg)
| Csrc (c : csr) (rs : reg)
| Sd (rs : reg) (off : Z) (base : reg)
| Ld (rd : reg) (off : Z) (base : reg)
| Mv (rd rs : reg)
| Li (rd : reg) (imm : Z)
| Call
| Sret.

(** [mem] holds the mapped 64-bit words by address. [user] is the privilege mode. *)
Record Machine := mkMachine {
  regs : reg -> Z;
  csrs : csr -> Z;
  mem : gmap Z Z;
  user : bool;
  pc : Z
}.

Definition set_reg (m : Machine) (r : reg) (v : Z) : Machine :=
  mkMachine (<[r := v]> (regs m)) (csrs m) (mem m) (user m) (pc m).
Definition set_csr (m : Machine) (c : csr) (v : Z) : Machine :=
  mkMachine (regs m) (<[c := v]> (csrs m)) (mem m) (user m) (pc m).
Definition set_mem (m : Machine) (mm : gmap Z Z) : Machine :=
  mkMachine (regs m) (csrs m) mm (user m) (pc m).

(** [sstatus] on [sret]: SIE takes SPIE, SPIE is set, SPP is cleared. *)
Definition sret_status (s : Z) : Z :=
  let s1 := if Z.testbit s 5 then Z.setbit s 1 else Z.clearbit s 1 in
  Z.clearbit (Z.setbit s1 5) 8.

Section Exec.
(** The function a [call] instruction runs. *)
Context (call : Machine -> outcome Machine).

Definition exec_instr (m : Machine) (i : instr) : outcome Machine :=
  match i with
  | Csrrw rd c rs => Done (set_reg (set_csr m c (regs m rs)) rd (csrs m c))
  | Csrw c rs => Done (set_csr m c (regs m rs))
  | Csrr rd c => Done (set_reg m rd (csrs m c))
  | Csrs c rs => Done (set_csr m c (Z.lor (csrs m c) (regs m rs)))
  | Csrc c rs => Done (set_csr m c (Z.land (csrs m c) (wnot (regs m rs))))
  | Sd rs off base =>
      let addr := regs m base ⊞ off in
      match mem m !! addr with
      | Some _ => Done (set_mem m (<[addr := regs m rs]> (mem m)))
      | None => undef "store page fault"
      end
  | Ld rd off base =>
      match mem m !! (regs m base ⊞ off) with
      | Some v => Done (set_reg m rd v)
      | None => undef "load page fault"
      end
  | Mv rd rs => Done (set_reg m rd (regs m rs))
  | Li rd imm => Done (set_reg m rd imm)
  | Call => call m
  | Sret =>
      Done (mkMachine (regs m) (<[SSTATUS := sret_status (csrs m SSTATUS)]> (csrs m)) (mem m)
              (negb (Z.testbit (csrs m SSTATUS) 8)) (csrs m SEPC))
  end.

Fixpoint exec (code : list instr) (m : Machine) : outcome Machine :=
  match code with
  | [] => Done m
  | i :: code => m' ← exec_instr m i; exec code m'
  end.

Lemma exec_app c1 c2 m : exec (c1 ++ c2) m = (m' ← exec c1 m; exec c2 m').
Proof.
  revert m. induction c1 as [|i c1 IH]; intros m; cbn; [done|].
  destruct (exec_instr m i); cbn; [apply IH|done].
Qed.
End Exec.

(** [trap_entry]. *)
Definition trap_entry : list instr :=
  [Csrrw T6 SSCRATCH T6; Sd RA 0 T6; Sd SP 8 T6; Sd TP 16 T6; Sd T0 24 T6; Sd T1 32 T6;
   Sd T2 40 T6; Sd S0 48 T6; Sd S1 56 T6; Sd A0 64 T6; Sd A1 72 T6; Sd A2 80 T6; Sd A3 88 T6;
   Sd A4 96 T6; Sd A5 104 T6; Sd A6 112 T6; Sd A7 120 T6; Sd S2 128 T6; Sd S3 136 T6;
   Sd S4 144 T6; Sd S5 152 T6; Sd S6 160 T6; Sd S7 168 T6; Sd S8 176 T6; Sd S9 184 T6;
   Sd S10 192 T6; Sd S11 200 T6; Sd T3 208 T6; Sd T4 216 T6; Sd T5 224 T6; Mv T5 T6;
   Csrr T6 SSCRATCH; Sd T6 232 T5; Csrw SSCRATCH T5; Csrr A0 SEPC; Sd A0 240 T5;
   Csrr A1 SCAUSE; Mv A0 T5; Call; Csrw SEPC A0; Csrr A0 SSCRATCH; Ld RA 0 A0; Ld SP 8 A0;
   Ld TP 16 A0; Ld T0 24 A0; Ld T1 32 A0; Ld T2 40 A0; Ld S0 48 A0; Ld S1 56 A0; Ld A1 72 A0;
   Ld A2 80 A0; Ld A3 88 A0; Ld A4 96 A0; Ld A5 104 A0; Ld A6 112 A0; Ld A7 120 A0;
   Ld S2 128 A0; Ld S3 136 A0; Ld S4 144 A0; Ld S5 152 A0; Ld S6 160 A0; Ld S7 168 A0;
   Ld S8 176 A0; Ld S9 184 A0; Ld S10 192 A0; Ld S11 200 A0; Ld T3 208 A0; Ld T4 216 A0;
   Ld T5 224 A0; Ld T6 232 A0; Ld A0 64 A0; Sret].

(** [first_switch_to]; the pointer to the context of the first task is in [a0]. *)
Definition first_switch_to : list instr :=
  [Csrw SSCRATCH A0; Ld T0 240 A0; Csrw SEPC T0; Li T1 (Z.shiftl 1 8); Csrc SSTATUS T1;
   Li T1 (Z.shiftl 1 5); Csrs SSTATUS T1; Ld RA 0 A0; Ld SP 8 A0; Ld TP 16 A0; Ld T0 24 A0;
   Ld T1 32 A0; Ld T2 40 A0; Ld S0 48 A0; Ld S1 56 A0; Ld A1 72 A0; Ld A2 80 A0; Ld A3 88 A0;
   Ld A4 96 A0; Ld A5 104 A0; Ld A6 112 A0; Ld A7 120 A0; Ld S2 128 A0; Ld S3 136 A0;
   Ld S4 144 A0; Ld S5 152 A0; Ld S6 160 A0; Ld S7 168 A0; Ld S8 176 A0; Ld S9 184 A0;
   Ld S10 192 A0; Ld S11 200 A0; Ld T3 208 A0; Ld T4 216 A0; Ld T5 224 A0; Ld T6 232 A0;
   Ld A0 64 A0; Sret].

(** ** Layout of the struct and its correspondence with the registers *)

(** The words of the [repr(C)] struct, in field order. *)
Definition ctx_words (c : TaskContext) : list Z :=
  [ctx_ra c; ctx_sp c; ctx_tp c; ctx_t0 c; ctx_t1 c; ctx_t2 c; ctx_s0 c; ctx_s1 c;
   ctx_a0 c; ctx_a1 c; ctx_a2 c; ctx_a3 c; ctx_a4 c; ctx_a5 c; ctx_a6 c; ctx_a7 c;
   ctx_s2 c; ctx_s3 c; ctx_s4 c; ctx_s5 c; ctx_s6 c; ctx_s7 c; ctx_s8 c; ctx_s9 c;
   ctx_s10 c; ctx_s11 c; ctx_t3 c; ctx_t4 c; ctx_t5 c; ctx_t6 c; ctx_sepc c].

(** The struct [c] is stored at address [p]. *)
Definition ctx_at (mm : gmap Z Z) (p : Z) (c : TaskContext) : Prop :=
  forall i w, ctx_words c !! i = Some w -> mm !! (p + 8 * Z.of_nat i) = Some w.

(** The context a register file and a program counter make up ([gp] is shared). *)
Definition ctx_of (f : reg -> Z) (v : Z) : TaskContext :=
  mkTaskContext (f RA) (f SP) (f TP) (f T0) (f T1) (f T2) (f S0) (f S1) (f A0) (f A1) (f A2)
    (f A3) (f A4) (f A5) (f A6) (f A7) (f S2) (f S3) (f S4) (f S5) (f S6) (f S7) (f S8) (f S9)
    (f S10) (f S11) (f T3) (f T4) (f T5) (f T6) v.

(** A pointer to a context: the struct does not wrap around the address space. *)
Definition ctx_ptr (p : Z) : Prop := 0 <= p /\ p + 248 <= USIZE.

(** ** Blocks of stores and loads *)

Definition stores (base : reg) (l : list (reg * Z)) : list instr :=
  (fun '(r, o) => Sd r o base) <$> l.
Definition loads (base : reg) (l : list (reg * Z)) : list instr :=
  (fun '(r, o) => Ld r o base) <$> l.

Definition store_all (f : reg -> Z) (p : Z) (l : list (reg * Z)) (mm : gmap Z Z) : gmap Z Z :=
  foldl (fun mm '(r, o) => <[p + o := f r]> mm) mm l.
Definition load_all (val : Z -> Z) (l : list (reg * Z)) (f : reg -> Z) : reg -> Z :=
  foldl (fun f '(r, o) => <[r := val o]> f) f l.

Definition offsets_ok (l : list (reg * Z)) : Prop := Forall (fun ro => 0 <= ro.2 < 248) l.

Lemma exec_stores call l m base p :
  regs m base = p -> ctx_ptr p -> offsets_ok l ->
  (forall o, 0 <= o < 248 -> o ∈ l.*2 -> is_Some (mem m !! (p + o))) ->
  exec call (stores base l) m = Done (set_mem m (store_all (regs m) p l (mem m))).
Proof.
  intros Hp Hptr. revert m Hp. induction l as [|[r o] l IH]; intros m Hp Hoff Hmap; [by destruct m|].
  apply Forall_cons in Hoff as [Ho Hoff]. cbn in Ho. cbn [stores fmap list_fmap exec exec_instr].
  rewrite Hp, wadd_small by (destruct Hptr; lia).
  destruct (Hmap o Ho ltac:(left)) as [v ->]. cbn [mbind outcome_bind].
  fold (loads base l) (stores base l). rewrite IH; [done|done|done|]. cbn [set_mem mem].
  intros o' Ho' Hin. destruct (decide (o' = o)) as [->|]; [rewrite lookup_insert_eq; by eexists|].
  rewrite lookup_insert_ne by lia. apply Hmap; [done|]. by right.
Qed.

Lemma exec_loads call l m base p val :
  regs m base = p -> ctx_ptr p -> offsets_ok l -> base ∉ l.*1 ->
  (forall o, 0 <= o < 248 -> o ∈ l.*2 -> mem m !! (p + o) = Some (val o)) ->
  exec call (loads base l) m
    = Done (mkMachine (load_all val l (regs m)) (csrs m) (mem m) (user m) (pc m)).
Proof.
  intros Hp Hptr. revert m Hp. induction l as [|[r o] l IH]; intros m Hp Hoff Hb Hmap; [by destruct m|].
  apply Forall_cons in Hoff as [Ho Hoff]. cbn in Ho, Hb. cbn [loads fmap list_fmap exec exec_instr].
  apply not_elem_of_cons in Hb as [Hne Hb].
  rewrite Hp, wadd_small by (destruct Hptr; lia).
  rewrite (Hmap o Ho ltac:(left)). cbn [mbind outcome_bind]. fold (loads base l).
  rewrite IH; [done| |done|done|].
  - cbn. by rewrite fn_lookup_insert_ne.
  - intros o' Ho' Hin. apply Hmap; [done|]. by right.
Qed.

Lemma store_all_other f p l mm a : (forall o, o ∈ l.*2 -> a <> p + o) -> store_all f p l mm !! a = mm !! a.
Proof.
  revert mm. induction l as [|[r o] l IH]; intros mm Ha; [done|]. cbn [store_all foldl].
  fold (store_all f p l (<[p + o := f r]> mm)). rewrite IH.
  - apply lookup_insert_ne. intros Heq. eapply Ha; [by left|done].
  - intros o' Ho'. apply Ha. by right.
Qed.

Lemma store_all_lookup f p l mm r o :
  NoDup l.*2 -> (r, o) ∈ l -> store_all f p l mm !! (p + o) = Some (f r).
Proof.
  revert mm. induction l as [|[r' o'] l IH]; intros mm Hnd Hin; [by apply not_elem_of_nil in Hin|].
  cbn in Hnd. apply NoDup_cons in Hnd as [Hno Hnd]. cbn [store_all foldl].
  fold (store_all f p l (<[p + o' := f r']> mm)).
  apply elem_of_cons in Hin as [[= <- <-]|Hin]; [|by apply IH].
  rewrite store_all_other; [apply lookup_insert_eq|]. intros o'' Ho'' Heq.
  assert (o'' = o) as -> by lia. done.
Qed.

(** ** Saving *)

Definition saved_slots : list (reg * Z) :=
  [(RA, 0); (SP, 8); (TP, 16); (T0, 24); (T1, 32); (T2, 40); (S0, 48); (S1, 56); (A0, 64);
   (A1, 72); (A2, 80); (A3, 88); (A4, 96); (A5, 104); (A6, 112); (A7, 120); (S2, 128); (S3, 136);
   (S4, 144); (S5, 152); (S6, 160); (S7, 168); (S8, 176); (S9, 184); (S10, 192); (S11, 200);
   (T3, 208); (T4, 216); (T5, 224)].

Definition loaded_slots : list (reg * Z) :=
  [(RA, 0); (SP, 8); (TP, 16); (T0, 24); (T1, 32); (T2, 40); (S0, 48); (S1, 56);
   (A1, 72); (A2, 80); (A3, 88); (A4, 96); (A5, 104); (A6, 112); (A7, 120); (S2, 128); (S3, 136);
   (S4, 144); (S5, 152); (S6, 160); (S7, 168); (S8, 176); (S9, 184); (S10, 192); (S11, 200);
   (T3, 208); (T4, 216); (T5, 224); (T6, 232)].

Definition save_tail : list instr :=
  [Mv T5 T6; Csrr T6 SSCRATCH; Sd T6 232 T5; Csrw SSCRATCH T5; Csrr A0 SEPC; Sd A0 240 T5;
   Csrr A1 SCAUSE; Mv A0 T5].

Lemma trap_entry_split :
  trap_entry = (Csrrw T6 SSCRATCH T6 :: stores T6 saved_slots) ++ save_tail ++ [Call] ++
    [Csrw SEPC A0; Csrr A0 SSCRATCH] ++ loads A0 loaded_slots ++ [Ld A0 64 A0; Sret].
Proof. done. Qed.

Lemma first_switch_to_split :
  first_switch_to = [Csrw SSCRATCH A0; Ld T0 240 A0; Csrw SEPC T0; Li T1 (Z.shiftl 1 8);
     Csrc SSTATUS T1; Li T1 (Z.shiftl 1 5); Csrs SSTATUS T1] ++
    loads A0 loaded_slots ++ [Ld A0 64 A0; Sret].
Proof. done. Qed.

(** What the handler finds when it is called. *)
Record saved (m : Machine) (p : Z) (m1 : Machine) : Prop := {
  sv_ctx : ctx_at (mem m1) p (ctx_of (regs m) (csrs m SEPC));
  sv_frame : forall a, ~ (p <= a < p + 248) -> mem m1 !! a = mem m !! a;
  sv_sscratch : csrs m1 SSCRATCH = p;
  sv_sepc : csrs m1 SEPC = csrs m SEPC;
  sv_sstatus : csrs m1 SSTATUS = csrs m SSTATUS;
  sv_a0 : regs m1 A0 = p;
  sv_a1 : regs m1 A1 = csrs m SCAUSE;
  sv_sp : regs m1 SP = regs m SP;
  sv_tp : regs m1 TP = regs m TP
}.

Lemma saved_slots_ok : offsets_ok saved_slots /\ NoDup saved_slots.*2.
Proof. split; [repeat constructor; done|]. by apply (bool_decide_unpack _). Qed.

Lemma loaded_slots_ok : offsets_ok loaded_slots /\ A0 ∉ loaded_slots.*1.
Proof. split; [repeat constructor; done|]. by apply (bool_decide_unpack _). Qed.

(** Every slot of a stored context is mapped. *)
Lemma ctx_at_mapped mm p c o :
  ctx_at mm p c -> 0 <= o < 248 -> o mod 8 = 0 -> is_Some (mm !! (p + o)).
Proof.
  intros Hc Ho Hal. destruct (lookup_lt_is_Some_2 (ctx_words c) (Z.to_nat (o / 8))) as [w Hw].
  { cbn. pose proof (Z.div_lt_upper_bound o 8 31). lia. }
  exists w. apply Hc in Hw. rewrite Z2Nat.id in Hw by (apply Z.div_pos; lia).
  pose proof (Z.div_mod o 8). replace (p + o) with (p + 8 * (o / 8)) by lia. done.
Qed.

Lemma slots_aligned o : o ∈ saved_slots.*2 -> o mod 8 = 0.
Proof. revert o. apply Forall_forall. repeat constructor; done. Qed.

Lemma saved_slots_range o : o ∈ saved_slots.*2 -> 0 <= o < 232.
Proof. revert o. apply Forall_forall. repeat constructor; done. Qed.

(** Evaluates one instruction, and reads of updated registers. *)
Ltac mach_simpl :=
  cbn [exec exec_instr mbind outcome_bind set_reg set_csr set_mem regs csrs mem user pc];
  repeat (rewrite fn_lookup_insert || rewrite fn_lookup_insert_ne by done).

Lemma exec_save_tail call m p w1 w2 :
  regs m T6 = p -> ctx_ptr p -> mem m !! (p + 232) = Some w1 -> mem m !! (p + 240) = Some w2 ->
  exists f g, exec call save_tail m
      = Done (mkMachine f g (<[p + 240 := csrs m SEPC]> (<[p + 232 := csrs m SSCRATCH]> (mem m)))
                (user m) (pc m)) /\
    f A0 = p /\ f A1 = csrs m SCAUSE /\ f SP = regs m SP /\ f TP = regs m TP /\
    g SSCRATCH = p /\ g SEPC = csrs m SEPC /\ g SSTATUS = csrs m SSTATUS.
Proof.
  intros Hp [Hp0 Hp1] Hw1 Hw2. unfold save_tail. mach_simpl.
  rewrite Hp, wadd_small, Hw1 by lia. mach_simpl.
  rewrite wadd_small, lookup_insert_ne, Hw2 by lia. mach_simpl.
  eexists _, _. split; [done|]. by split_and!; mach_simpl.
Qed.

Lemma exec_save call m p old :
  csrs m SSCRATCH = p -> ctx_ptr p -> ctx_at (mem m) p old ->
  exists m1, exec call ((Csrrw T6 SSCRATCH T6 :: stores T6 saved_slots) ++ save_tail) m = Done m1 /\
    saved m p m1.
Proof.
  intros Hp Hptr Hold. destruct saved_slots_ok as [Hoff Hnd].
  rewrite exec_app. cbn [exec exec_instr]. rewrite Hp. cbn [mbind outcome_bind].
  set (m0 := set_reg (set_csr m SSCRATCH (regs m T6)) T6 p).
  rewrite (exec_stores _ _ m0 T6 p); [|done|done|done|].
  2: { intros o Ho Hin. eapply ctx_at_mapped; [done..|]. by apply slots_aligned. }
  cbn [mbind outcome_bind].
  assert (Hslots : forall r o, (r, o) ∈ saved_slots ->
    store_all (regs m0) p saved_slots (mem m0) !! (p + o) = Some (regs m0 r)).
  { intros. by apply store_all_lookup. }
  assert (Hrest : forall a, ~ (p <= a < p + 232) ->
    store_all (regs m0) p saved_slots (mem m0) !! a = mem m !! a).
  { intros a Ha. apply store_all_other. intros o Ho%saved_slots_range. lia. }
  revert Hslots Hrest. generalize (store_all (regs m0) p saved_slots (mem m0)) as mm.
  intros mm Hslots Hrest.
  destruct (ctx_at_mapped _ p old 232 Hold ltac:(lia) ltac:(done)) as [w1 Hw1].
  destruct (ctx_at_mapped _ p old 240 Hold ltac:(lia) ltac:(done)) as [w2 Hw2].
  destruct (exec_save_tail call (set_mem m0 mm) p w1 w2)
    as (f & g & -> & HA0 & HA1 & HSP & HTP & HSS & HSE & HST);
    [done|done|cbn; rewrite Hrest by lia; done..|].
  eexists. split; [done|]. split; cbn [mem regs csrs]; try done.
  - intros i w Hi. cbn [set_mem m0 set_reg set_csr mem csrs]. mach_simpl.
    do 29 (destruct i as [|i]; [injection Hi as <-;
      rewrite !lookup_insert_ne by lia;
      match goal with |- _ = Some (regs m ?r) => refine (Hslots r _ _) end;
      apply list_elem_of_In; cbn; tauto|]).
    destruct i as [|i]; [injection Hi as <-; rewrite lookup_insert_ne by lia;
      apply lookup_insert_eq|].
    destruct i as [|i]; [injection Hi as <-; apply lookup_insert_eq|]. done.
  - intros a Ha. rewrite !lookup_insert_ne by lia. apply Hrest. lia.
Qed.

(** ** Restoring *)

(** Loading the slots of a stored context and returning to it. *)
Lemma exec_loads_sret call m p c v :
  regs m A0 = p -> ctx_ptr p -> ctx_at (mem m) p c -> csrs m SEPC = v ->
  exists f, exec call (loads A0 loaded_slots ++ [Ld A0 64 A0; Sret]) m
      = Done (mkMachine f (<[SSTATUS := sret_status (csrs m SSTATUS)]> (csrs m)) (mem m)
                (negb (Z.testbit (csrs m SSTATUS) 8)) v) /\
    ctx_of f v = set_sepc c v /\ f GP = regs m GP.
Proof.
  intros Hp Hptr Hc Hv. destruct loaded_slots_ok as [Hoff Hb]. rewrite exec_app.
  set (val := fun o => default 0 (ctx_words c !! Z.to_nat (o / 8))).
  assert (Hval : forall o, 0 <= o < 248 -> o mod 8 = 0 -> mem m !! (p + o) = Some (val o)).
  { intros o Ho Hal. destruct (lookup_lt_is_Some_2 (ctx_words c) (Z.to_nat (o / 8))) as [w Hw].
    { cbn. assert (o / 8 < 31) by (apply Z.div_lt_upper_bound; lia). lia. }
    unfold val. rewrite Hw. apply Hc in Hw. rewrite Z2Nat.id in Hw by (apply Z.div_pos; lia).
    pose proof (Z.div_mod o 8). replace (p + o) with (p + 8 * (o / 8)) by lia. exact Hw. }
  rewrite (exec_loads _ _ m A0 p val); [|done..|].
  2: { intros o Ho Hin. apply Hval; [done|].
       revert Hin. clear. revert o. apply Forall_forall. repeat constructor; done. }
  mach_simpl. replace (load_all val loaded_slots (regs m) A0) with p by done.
  rewrite wadd_small, Hval by (done || destruct Hptr; lia). mach_simpl. rewrite Hv.
  eexists. split; [done|]. split; [|done]. by destruct c.
Qed.

(** The whole trap entry, for any handler. *)
Lemma exec_trap_entry call m p old q c v :
  csrs m SSCRATCH = p -> ctx_ptr p -> ctx_at (mem m) p old -> ctx_ptr q ->
  (forall m1, saved m p m1 -> exists m2, call m1 = Done m2 /\
     csrs m2 SSCRATCH = q /\ ctx_at (mem m2) q c /\ regs m2 A0 = v) ->
  exists m1 m2 m3, saved m p m1 /\ call m1 = Done m2 /\ exec call trap_entry m = Done m3 /\
    ctx_of (regs m3) (pc m3) = set_sepc c v /\ pc m3 = v /\ regs m3 GP = regs m2 GP /\
    csrs m3 SSCRATCH = q /\ mem m3 = mem m2 /\
    user m3 = negb (Z.testbit (csrs m2 SSTATUS) 8).
Proof.
  intros Hp Hptr Hold Hq Hcall. destruct (exec_save call m p old Hp Hptr Hold) as (m1 & Hsave & Hs).
  destruct (Hcall m1 Hs) as (m2 & Hm2 & HSS & Hc & HA0). exists m1, m2.
  rewrite trap_entry_split, app_assoc, exec_app, Hsave. cbn [mbind outcome_bind].
  rewrite exec_app. cbn [exec exec_instr]. rewrite Hm2. cbn [mbind outcome_bind].
  rewrite exec_app. mach_simpl. set (m2' := set_reg _ _ _).
  destruct (exec_loads_sret call m2' q c v) as (f & -> & Hf & HGP); [|done|done| |].
  - unfold m2'. by mach_simpl.
  - unfold m2'. by mach_simpl.
  - eexists. split_and!; cbn [pc regs csrs mem user]; try done.
Qed.

(** Two contexts in memory, at 0x1000 and 0x2000. *)
Definition example_mem (c1 c2 : TaskContext) : gmap Z Z :=
  list_to_map (imap (fun i w => (0x1000 + 8 * Z.of_nat i, w)) (ctx_words c1) ++
               imap (fun i w => (0x2000 + 8 * Z.of_nat i, w)) (ctx_words c2)).

Definition example_machine : Machine :=
  mkMachine (fun r => match r with SP => 0x9000 | A0 => 5 | A7 => 17 | _ => 1 end)
    (fun c => match c with SSCRATCH => 0x1000 | SEPC => 0x80200000 | SCAUSE => 8 | SSTATUS => 0x20 end)
    (example_mem TaskContext_zero (set_a0 TaskContext_zero 42)) true 0x80200000.

Lemma example_ctx1 : ctx_at (mem example_machine) 0x1000 TaskContext_zero.
Proof. intros i w Hi. do 31 (destruct i as [|i]; [injection Hi as <-; reflexivity|]). done. Qed.

Lemma example_ctx2 : ctx_at (mem example_machine) 0x2000 (set_a0 TaskContext_zero 42).
Proof. intros i w Hi. do 31 (destruct i as [|i]; [injection Hi as <-; reflexivity|]). done. Qed.

(** C16: the trap entry saves and switches correctly. It stores the interrupted
    registers and [sepc] into the struct [sscratch] points to, touches no other
    memory, and calls the handler with that pointer and [scause]. If the handler
    returns program counter [v] and leaves [sscratch] pointing to a context [c],
    the machine resumes with all the registers of [c] at [v], and [sscratch]
    still points to that context. *)
Theorem trap_entry_switches call m p old q c v :
  csrs m SSCRATCH = p -> ctx_ptr p -> ctx_at (mem m) p old -> ctx_ptr q ->
  (forall m1, saved m p m1 -> exists m2, call m1 = Done m2 /\
     csrs m2 SSCRATCH = q /\ ctx_at (mem m2) q c /\ regs m2 A0 = v) ->
  exists m1 m2 m3, saved m p m1 /\ call m1 = Done m2 /\ exec call trap_entry m = Done m3 /\
    ctx_of (regs m3) (pc m3) = set_sepc c v /\ pc m3 = v /\ regs m3 GP = regs m2 GP /\
    csrs m3 SSCRATCH = q /\ mem m3 = mem m2 /\
    user m3 = negb (Z.testbit (csrs m2 SSTATUS) 8).
Proof. apply exec_trap_entry. Qed.

(** A handler that switches from the context at 0x1000 to the one at 0x2000. *)
Lemma trap_entry_switches_witness :
  exists m3, exec (fun m => Done (set_reg (set_csr m SSCRATCH 0x2000) A0 0x80300000)) trap_entry
      example_machine = Done m3 /\ pc m3 = 0x80300000 /\ regs m3 A0 = 42 /\ regs m3 SP = 0.
Proof.
  destruct (trap_entry_switches (fun m => Done (set_reg (set_csr m SSCRATCH 0x2000) A0 0x80300000))
    example_machine 0x1000 TaskContext_zero 0x2000 (set_a0 TaskContext_zero 42) 0x80300000)
    as (m1 & m2 & m3 & _ & _ & Hrun & Hctx & Hpc & _).
  - done.
  - split; done.
  - apply example_ctx1.
  - split; done.
  - intros m1 Hs. eexists. split; [done|]. split; [done|]. split; [|done].
    intros i w Hi. cbn [set_reg set_csr mem]. pose proof (lookup_lt_Some _ _ _ Hi) as Hlt. cbn in Hlt.
    rewrite (sv_frame _ _ _ Hs) by lia. by apply example_ctx2.
  - exists m3. split; [done|]. split; [done|].
    split; [exact (f_equal ctx_a0 Hctx)|exact (f_equal ctx_sp Hctx)].
Defined.

(** a trap is invisible to the task it interrupts: if the handler returns the
    saved [sepc] and leaves [sscratch] and the saved struct alone, every register
    (except [gp], which the handler does not restore) and the program counter are
    those of the interrupted task. *)
Theorem trap_entry_transparent call m p old :
  csrs m SSCRATCH = p -> ctx_ptr p -> ctx_at (mem m) p old ->
  (forall m1, saved m p m1 -> exists m2, call m1 = Done m2 /\
     csrs m2 SSCRATCH = p /\ ctx_at (mem m2) p (ctx_of (regs m) (csrs m SEPC)) /\
     regs m2 A0 = csrs m SEPC) ->
  exists m3, exec call trap_entry m = Done m3 /\
    (forall r, r <> GP -> regs m3 r = regs m r) /\ pc m3 = csrs m SEPC /\ csrs m3 SSCRATCH = p.
Proof.
  intros Hp Hptr Hold Hcall.
  destruct (exec_trap_entry call m p old p _ _ Hp Hptr Hold Hptr Hcall)
    as (m1 & m2 & m3 & _ & _ & Hrun & Hctx & Hpc & _ & Hss & _).
  exists m3. split_and!; try done. intros r Hr. rewrite Hpc in Hctx.
  unfold ctx_of, set_sepc in Hctx. cbn in Hctx. injection Hctx. intros. by destruct r.
Qed.

(** A handler that only resumes the interrupted task. *)
Lemma trap_entry_transparent_witness :
  exists m3, exec (fun m => Done (set_reg m A0 (csrs m SEPC))) trap_entry example_machine = Done m3 /\ regs m3 A7 = 17 /\ regs m3 SP = 0x9000 /\ pc m3 = 0x80200000.
Proof.
  destruct (trap_entry_transparent (fun m => Done (set_reg m A0 (csrs m SEPC))) example_machine 0x1000
    TaskContext_zero) as (m3 & Hrun & Hregs & Hpc & _).
  - done.
  - split; done.
  - apply example_ctx1.
  - intros m1 Hs. eexists. split; [done|]. split; [exact (sv_sscratch _ _ _ Hs)|].
    split; [exact (sv_ctx _ _ _ Hs)|]. exact (sv_sepc _ _ _ Hs).
  - exists m3. rewrite !Hregs by discriminate. split_and!; [exact Hrun|reflexivity|reflexivity|exact Hpc].
Defined.

(** [first_switch_to] loads the whole context its argument points to, jumps to
    its [sepc] in user mode with interrupts enabled, and leaves [sscratch] pointing
    to that context, as the trap entry expects. *)
Theorem first_switch_to_spec call m p c :
  regs m A0 = p -> ctx_ptr p -> ctx_at (mem m) p c -> usize (csrs m SSTATUS) ->
  exists m', exec call first_switch_to m = Done m' /\
    ctx_of (regs m') (pc m') = c /\ csrs m' SSCRATCH = p /\ mem m' = mem m /\
    user m' = true /\ Z.testbit (csrs m' SSTATUS) 1 = true.
Proof.
  intros Hp Hptr Hc Hst. rewrite first_switch_to_split, exec_app.
  assert (H240 : mem m !! (p + 240) = Some (ctx_sepc c)) by exact (Hc 30%nat _ eq_refl).
  mach_simpl. rewrite Hp, wadd_small, H240 by (destruct Hptr; lia). mach_simpl.
  set (st := Z.lor _ _). set (m' := set_csr _ _ _).
  destruct (exec_loads_sret call m' p c (ctx_sepc c)) as (f & -> & Hf & _); [|done|done| |].
  - unfold m'. by mach_simpl.
  - unfold m'. by mach_simpl.
  - assert (Hst' : csrs m' SSTATUS = st) by (unfold m'; by mach_simpl).
    assert (H8 : Z.testbit st 8 = false).
    { unfold st. rewrite Z.lor_spec, Z.land_spec. change (Z.testbit (wnot _) 8) with false.
      by rewrite andb_false_r. }
    assert (H5 : Z.testbit st 5 = true).
    { unfold st. rewrite Z.lor_spec. apply orb_true_r. }
    eexists. rewrite Hst', H8. split_and!; [done|etrans; [exact Hf|by destruct c]| |done|done|].
    + unfold m'. by mach_simpl.
    + cbn [csrs]. mach_simpl. unfold sret_status. rewrite H5.
      rewrite Z.clearbit_neq, Z.setbit_neq, Z.setbit_eq by lia. done.
Qed.

Lemma first_switch_to_spec_witness :
  exists m', exec (fun m => Done m) first_switch_to (set_reg example_machine A0 0x2000) = Done m' /\ regs m' A0 = 42 /\ user m' = true.
Proof.
  destruct (first_switch_to_spec (fun m => Done m) (set_reg example_machine A0 0x2000) 0x2000
    (set_a0 TaskContext_zero 42)) as (m' & Hrun & Hctx & _ & _ & Hu & _).
  - done.
  - split; done.
  - apply example_ctx2.
  - split; done.
  - exists m'. split; [done|]. split; [exact (f_equal ctx_a0 Hctx)|done].
Defined.
