(* ===== verification/Scheduler.v ===== *)
(** * The scheduler (src/task/scheduler.rs, src/task/tcb.rs)

    The task table, the ready queue, the zombie list and the heap of sleeping
    tasks, with every operation of [Scheduler]. A pointer to the context of a task
    is represented by the identifier of the task; the operations that return such
    a pointer return the identifier. Task stacks come from a frame allocator, used
    through its interface only.

    [VecDeque<TaskId>] is a list, front first; [Vec<TaskId>] a list whose last
    element is at the end. [BinaryHeap<Reverse<SleepEntry>>] is the list of its
    entries in ascending order: the order of [SleepEntry] is total and entries that
    compare equal are equal, so [peek] and [pop] are determined by the entries. *)

From S2P Require Import Prelude Address FrameAllocator Context.

Inductive SchedulerError := SchedulerLayoutError | MemoryAllocationError.

Inductive TaskStatus := Ready | Running | Blocked | Terminated.

#[export] Instance TaskStatus_eq_dec : EqDecision TaskStatus.
Proof. solve_decision. Defined.

Record TaskControlBlock := mkTCB {
  task_id : nat;
  entry_point : Z * Z;
  stack_base : Z;
  page_count : Z;
  priority : Z;
  status : TaskStatus;
  context : TaskContext
}.

Definition set_status (t : TaskControlBlock) (st : TaskStatus) : TaskControlBlock :=
  mkTCB (task_id t) (entry_point t) (stack_base t) (page_count t) (priority t) st (context t).
Definition set_context (t : TaskControlBlock) (c : TaskContext) : TaskControlBlock :=
  mkTCB (task_id t) (entry_point t) (stack_base t) (page_count t) (priority t) (status t) c.

(** ** Sleeping tasks *)

Record SleepEntry := mkSleepEntry { wake_time : Z; sleeper : nat }.

(** The derived order: by wake-up time, then by task. *)
Definition entry_le (a b : SleepEntry) : Prop :=
  wake_time a < wake_time b \/ wake_time a = wake_time b /\ (sleeper a <= sleeper b)%nat.

#[export] Instance entry_le_dec a b : Decision (entry_le a b).
Proof. unfold entry_le. apply _. Defined.

(** [BinaryHeap::push]. *)
Fixpoint heap_push (e : SleepEntry) (h : list SleepEntry) : list SleepEntry :=
  match h with
  | [] => [e]
  | x :: h' => if decide (entry_le e x) then e :: h else x :: heap_push e h'
  end.

(** ** The scheduler *)

Record Scheduler := mkScheduler {
  current_task_id : option nat;
  ready_queue : list nat;
  task_list : list (option TaskControlBlock);
  zombie_queue : list nat;
  blocked_queue : list SleepEntry
}.

Definition Scheduler_new : Scheduler := mkScheduler None [] [] [] [].

Definition set_current (s : Scheduler) (c : option nat) : Scheduler :=
  mkScheduler c (ready_queue s) (task_list s) (zombie_queue s) (blocked_queue s).
Definition set_ready (s : Scheduler) (q : list nat) : Scheduler :=
  mkScheduler (current_task_id s) q (task_list s) (zombie_queue s) (blocked_queue s).
Definition set_tasks (s : Scheduler) (l : list (option TaskControlBlock)) : Scheduler :=
  mkScheduler (current_task_id s) (ready_queue s) l (zombie_queue s) (blocked_queue s).
Definition set_zombies (s : Scheduler) (z : list nat) : Scheduler :=
  mkScheduler (current_task_id s) (ready_queue s) (task_list s) z (blocked_queue s).
Definition set_blocked (s : Scheduler) (h : list SleepEntry) : Scheduler :=
  mkScheduler (current_task_id s) (ready_queue s) (task_list s) (zombie_queue s) h.

(** Writing back the task control block of task [i]. *)
Definition set_task (s : Scheduler) (i : nat) (t : TaskControlBlock) : Scheduler :=
  set_tasks s (<[i := Some t]> (task_list s)).

Definition get_current_task_id (s : Scheduler) : outcome nat :=
  unwrap "called `Option::unwrap()` on a `None` value" (current_task_id s).

(** The common end of the switching operations: the next task is the front of the
    ready queue; the idle task 0 only runs if no other task is ready. *)
Definition dispatch (s : Scheduler) : outcome (nat * Scheduler) :=
  let '(next_id, queue) :=
    match ready_queue s with
    | [] => (0%nat, [])
    | x :: q => (x, q)
    end in
  let '(next_id, queue) :=
    match next_id, queue with
    | 0%nat, y :: q => (y, q ++ [0%nat])
    | _, _ => (next_id, queue)
    end in
  slot ← index (task_list s) next_id;
  next_tcb ← unwrap "next task missing" slot;
  Done (next_id,
    set_current (set_task (set_ready s queue) next_id (set_status next_tcb Running)) (Some next_id)).

(** [set_current_task_sleep]. *)
Definition set_current_task_sleep (s : Scheduler) (wake : Z) : outcome (nat * Scheduler) :=
  match current_task_id s with
  | None => panic "internal error: entered unreachable code"
  | Some cur =>
      slot ← index (task_list s) cur;
      match slot with
      | Some tcb =>
          match status tcb with
          | Running =>
              let s1 := set_task s cur (set_status tcb Blocked) in
              dispatch (set_blocked s1 (heap_push (mkSleepEntry wake cur) (blocked_queue s1)))
          | _ => panic "internal error: entered unreachable code"
          end
      | None => panic "internal error: entered unreachable code"
      end
  end.

(** [block_current_task]. *)
Definition block_current_task (s : Scheduler) : outcome (nat * Scheduler) :=
  match current_task_id s with
  | None => panic "internal error: entered unreachable code"
  | Some cur =>
      slot ← index (task_list s) cur;
      match slot with
      | Some tcb =>
          match status tcb with
          | Running => dispatch (set_task s cur (set_status tcb Blocked))
          | _ => panic "internal error: entered unreachable code"
          end
      | None => panic "internal error: entered unreachable code"
      end
  end.

(** [set_task_ready]. *)
Definition set_task_ready (s : Scheduler) (id : nat) : outcome Scheduler :=
  slot ← index (task_list s) id;
  match slot with
  | Some tcb =>
      match status tcb with
      | Blocked =>
          Done (set_ready (set_task s id (set_status tcb Ready)) (ready_queue s ++ [id]))
      | _ => Done s
      end
  | None => Done s
  end.

(** [wake_up_task_with_result]: the result goes to register [a0] of the task. *)
Definition wake_up_task_with_result (s : Scheduler) (id : nat) (result : Z) : outcome Scheduler :=
  slot ← index (task_list s) id;
  match slot with
  | Some tcb =>
      match status tcb with
      | Blocked =>
          let tcb' := set_context (set_status tcb Ready) (set_a0 (context tcb) result) in
          Done (set_ready (set_task s id tcb') (ready_queue s ++ [id]))
      | _ => Done s
      end
  | None => Done s
  end.

(** [finish_sleep]: pops the entries that are due. One pop per iteration, so the
    loop runs at most once per entry and once more to see that it is done. *)
Fixpoint finish_sleep_loop (fuel : nat) (s : Scheduler) (current_mtime : Z) : outcome Scheduler :=
  match fuel with
  | O => Fault FuelF
  | S fuel =>
      match blocked_queue s with
      | [] => Done s
      | entry :: rest =>
          if current_mtime <? wake_time entry then Done s
          else
            s' ← set_task_ready (set_blocked s rest) (sleeper entry);
            finish_sleep_loop fuel s' current_mtime
      end
  end.

Definition finish_sleep (s : Scheduler) (current_mtime : Z) : outcome Scheduler :=
  finish_sleep_loop (S (length (blocked_queue s))) s current_mtime.

(** [mark_current_running]. *)
Definition mark_current_running (s : Scheduler) : outcome Scheduler :=
  match current_task_id s with
  | None => Done s
  | Some id =>
      slot ← index (task_list s) id;
      match slot with
      | Some tcb => Done (set_task s id (set_status tcb Running))
      | None => Done s
      end
  end.

(** [exit_current_task] of src/syslib/syscall.rs. *)
Definition exit_current_task (s : Scheduler) : outcome Scheduler :=
  id ← get_current_task_id s;
  slot ← index (task_list s) id;
  match slot with
  | Some tcb =>
      let s1 := set_task s id (set_status tcb Terminated) in
      Done (set_zombies s1 (zombie_queue s1 ++ [id]))
  | None => Done s
  end.

(** [Vec::pop]. *)
Definition vec_pop (z : list nat) : option (nat * list nat) :=
  match last z with Some x => Some (x, removelast z) | None => None end.

(** The first free slot of the task table, or its length. *)
Fixpoint free_slot (l : list (option TaskControlBlock)) : nat :=
  match l with
  | [] => 0
  | None :: _ => 0
  | Some _ :: l' => S (free_slot l')
  end.

Section Allocating.
(** The frame allocator behind [BUDDY_ALLOCATOR], and the address of [trampoline]. *)
Context {FA : Type} `{FrameAllocator FA} (trampoline : Z).

Definition stack_pages (stack_size : Z) : Z := (stack_size ⊞ PAGE_SIZE ⊟ 1) / PAGE_SIZE.

(** The context of a new task: it starts in [trampoline] with the boxed closure. *)
Definition new_task_context (stack_top data_ptr vtable_ptr : Z) : TaskContext :=
  set_sepc (set_a1 (set_a0 (set_ra (set_sp TaskContext_zero stack_top) trampoline) data_ptr)
    vtable_ptr) trampoline.

(** [spawn]; [raw_fat_ptr] is the boxed closure taken apart. *)
Definition spawn (fs : FA) (s : Scheduler) (raw_fat_ptr : Z * Z) (stack_size prio : Z)
    : outcome ((() + SchedulerError) * (FA * Scheduler)) :=
  let id := free_slot (task_list s) in
  let pages := stack_pages stack_size in
  if pages =? 0 then Done (inr MemoryAllocationError, (fs, s))
  else
    '(r, fs') ← fa_alloc fs pages;
    match r with
    | None => Done (inr MemoryAllocationError, (fs', s))
    | Some stack_ppn =>
        let stack_base_va := phys_to_virt (PhysAddr_from_PhysPageNum stack_ppn) in
        let stack_top := stack_base_va ⊞ (pages ⊠ PAGE_SIZE) in
        stack_ptr ← unwrap "called `Option::unwrap()` on a `None` value"
          (if stack_base_va =? 0 then None else Some stack_base_va);
        let '(data_ptr, vtable_ptr) := raw_fat_ptr in
        let tcb := mkTCB id (data_ptr, vtable_ptr) stack_ptr pages prio Ready
          (new_task_context stack_top data_ptr vtable_ptr) in
        tasks ← (if decide (id = length (task_list s)) then Done (task_list s ++ [Some tcb])
                 else index_set (task_list s) id (Some tcb));
        Done (inl (), (fs', set_ready (set_tasks s tasks) (ready_queue s ++ [id])))
    end.

(** [Scheduler::init]. *)
Definition Scheduler_init (fs : FA) (s : Scheduler) (idle_task : Z * Z)
    : outcome ((() + SchedulerError) * (FA * Scheduler)) :=
  spawn fs s idle_task 4096 0.

(** Returning the stack of a task to the allocator. *)
Definition free_stack (fs : FA) (tcb : TaskControlBlock) : outcome FA :=
  let stack_pa := virt_to_phys (stack_base tcb) in
  stack_ppn ← PhysPageNum_from_PhysAddr stack_pa;
  pages ← unwrap "called `Option::unwrap()` on a `None` value"
    (if page_count tcb =? 0 then None else Some (page_count tcb));
  fa_dealloc fs stack_ppn pages.

(** The reaping loop of [prepare_next_task], [n] iterations. *)
Fixpoint reap (n : nat) (current_id : option nat) (fs : FA) (s : Scheduler)
    : outcome (FA * Scheduler) :=
  match n with
  | O => Done (fs, s)
  | S n =>
      match vec_pop (zombie_queue s) with
      | None => reap n current_id fs s
      | Some (zombie_id, rest) =>
          if decide (Some zombie_id = current_id)
          then Done (fs, set_zombies s (rest ++ [zombie_id]))
          else
            let s1 := set_ready (set_zombies s rest)
              (filter (fun tid => tid <> zombie_id) (ready_queue s)) in
            match task_list s1 !! zombie_id with
            | Some (Some tcb) =>
                fs' ← free_stack fs tcb;
                reap n current_id fs' (set_tasks s1 (<[zombie_id := None]> (task_list s1)))
            | _ => reap n current_id fs s1
            end
      end
  end.

(** The current task goes back to the ready queue if it is still running. *)
Definition requeue_current (s : Scheduler) : outcome Scheduler :=
  match current_task_id s with
  | None => Done s
  | Some cur =>
      slot ← index (task_list s) cur;
      match slot with
      | Some tcb =>
          match status tcb with
          | Running =>
              Done (set_ready (set_task s cur (set_status tcb Ready)) (ready_queue s ++ [cur]))
          | _ => Done s
          end
      | None => Done s
      end
  end.

(** [prepare_next_task], and [schedule_on_interrupt], which calls it under the lock. *)
Definition prepare_next_task (fs : FA) (s : Scheduler) : outcome (nat * (FA * Scheduler)) :=
  '(fs', s1) ← reap (length (zombie_queue s)) (current_task_id s) fs s;
  s2 ← requeue_current s1;
  '(next, s3) ← dispatch s2;
  Done (next, (fs', s3)).
End Allocating.
