(* ===== verification/SchedulerProofs.v ===== *)
(** * Correctness of the scheduler

    The invariant of the scheduler is stated on an abstraction: the current task,
    the status of every task, the ready queue and the zombies. [coherent] says that
    the queues and the statuses agree; every operation is a small change of the
    abstraction that keeps it coherent, and the concrete operations are proved to
    make these changes without panicking. *)

From stdpp Require Import functions.
From S2P Require Import Prelude Address FrameAllocator Context Scheduler.

(** ** The abstraction *)

Abbreviation Statuses := (nat -> option TaskStatus).

Record coherent (cur : option nat) (st : Statuses) (ready zombies : list nat) : Prop := {
  co_current c : cur = Some c -> st c = Some Running \/ st c = Some Terminated;
  co_running i : st i = Some Running -> cur = Some i;
  co_ready_nodup : NoDup ready;
  co_ready i : i ∈ ready <-> st i = Some Ready;
  co_zombies_nodup : NoDup zombies;
  co_zombies i : i ∈ zombies <-> st i = Some Terminated
}.

#[export] Instance coherent_proper cur :
  Proper (pointwise_relation nat eq ==> eq ==> eq ==> iff) (coherent cur).
Proof.
  intros st st' Hst r ? <- z ? <-. split; intros [H1 H2 H3 H4 H5 H6]; split; try done;
    intros i; specialize (Hst i); [rewrite <- Hst..|rewrite Hst|rewrite Hst|rewrite Hst|rewrite Hst]; auto.
Qed.

(** Solves the cases of a status update. *)
Ltac statuses :=
  repeat match goal with
  | |- context [<[?i := _]> ?f ?i] => rewrite fn_lookup_insert
  | H : context [<[?i := _]> ?f ?j] |- _ =>
      destruct (decide (i = j)) as [<-|]; [rewrite fn_lookup_insert in H|rewrite fn_lookup_insert_ne in H by done]
  | |- context [<[?i := _]> ?f ?j] =>
      destruct (decide (i = j)) as [<-|]; [rewrite fn_lookup_insert|rewrite fn_lookup_insert_ne by done]
  end.

Section Coherent.
Context (cur : option nat) (st : Statuses) (ready zombies : list nat).
Context (Hco : coherent cur st ready zombies).

(** The running task stops running without being queued. *)
Lemma coherent_block i :
  st i = Some Running -> coherent None (<[i := Some Blocked]> st) ready zombies.
Proof.
  intros Hi. destruct Hco as [H1 H2 H3 H4 H5 H6].
  split; try done; intros j; statuses; rewrite ?H4, ?H6; try (split; congruence); try done.
  intros Hj. apply H2 in Hi, Hj. congruence.
Qed.

(** The running task goes to the end of the ready queue. *)
Lemma coherent_requeue i :
  st i = Some Running -> coherent None (<[i := Some Ready]> st) (ready ++ [i]) zombies.
Proof.
  intros Hi. destruct Hco as [H1 H2 H3 H4 H5 H6]. split; try done.
  - intros j Hj. statuses; [done|]. apply H2 in Hi, Hj. congruence.
  - apply NoDup_snoc; [done|]. rewrite H4. naive_solver.
  - intros j. rewrite elem_of_snoc, H4. statuses; naive_solver.
  - intros j. rewrite H6. statuses; naive_solver.
Qed.

(** A blocked task, or a new one in a free slot, goes to the end of the ready queue. *)
Lemma coherent_enqueue i :
  st i = Some Blocked \/ st i = None -> coherent cur (<[i := Some Ready]> st) (ready ++ [i]) zombies.
Proof.
  intros Hi. destruct Hco as [H1 H2 H3 H4 H5 H6]. split; try done.
  - intros c Hc. apply H1 in Hc. statuses; naive_solver.
  - intros j Hj. statuses; [done|auto].
  - apply NoDup_snoc; [done|]. rewrite H4. naive_solver.
  - intros j. rewrite elem_of_snoc, H4. statuses; naive_solver.
  - intros j. rewrite H6. statuses; naive_solver.
Qed.

(** A ready task becomes the running one. *)
Lemma coherent_dispatch i ready' :
  cur = None -> ready ≡ₚ i :: ready' -> coherent (Some i) (<[i := Some Running]> st) ready' zombies.
Proof.
  intros Hcur Hperm. destruct Hco as [H1 H2 H3 H4 H5 H6]. rewrite Hperm in H3.
  apply NoDup_cons in H3 as [Hni H3].
  assert (Hin : forall j, j ∈ i :: ready' <-> st j = Some Ready) by (intros j; by rewrite <- Hperm).
  split; try done.
  - intros c [= <-]. statuses; auto.
  - intros j Hj. statuses; [done|]. apply H2 in Hj. congruence.
  - intros j. specialize (Hin j). rewrite elem_of_cons in Hin. statuses; naive_solver.
  - intros j. rewrite H6. specialize (Hin i). statuses; [|done]. set_solver.
Qed.

(** The running task terminates. *)
Lemma coherent_exit i :
  st i = Some Running -> coherent cur (<[i := Some Terminated]> st) ready (zombies ++ [i]).
Proof.
  intros Hi. destruct Hco as [H1 H2 H3 H4 H5 H6]. split; try done.
  - intros c Hc. apply H1 in Hc. statuses; naive_solver.
  - intros j Hj. statuses; [done|auto].
  - intros j. rewrite H4. statuses; naive_solver.
  - apply NoDup_snoc; [done|]. rewrite H6. naive_solver.
  - intros j. rewrite elem_of_snoc, H6. statuses; naive_solver.
Qed.

(** The last zombie is removed from the task table. *)
Lemma coherent_reap i z :
  zombies = z ++ [i] -> cur <> Some i -> coherent cur (<[i := None]> st) ready z.
Proof.
  intros -> Hne. destruct Hco as [H1 H2 H3 H4 H5 H6].
  assert (Hi : st i = Some Terminated) by (apply H6; set_solver).
  apply NoDup_app in H5 as (H5 & Hnd & _). split; try done.
  - intros c Hc. apply H1 in Hc as Hst. statuses; naive_solver.
  - intros j Hj. statuses; [done|auto].
  - intros j. rewrite H4. statuses; naive_solver.
  - intros j. specialize (H6 j). rewrite elem_of_snoc in H6.
    statuses; [|naive_solver]. split; [|done]. intros Hj. apply Hnd in Hj. set_solver.
Qed.
End Coherent.

(** ** The task table *)

Definition slot (s : Scheduler) (i : nat) : option TaskControlBlock := mjoin (task_list s !! i).
Definition stat (s : Scheduler) : Statuses := fun i => status <$> slot s i.

Record sched_ok (s : Scheduler) : Prop := {
  so_coherent : coherent (current_task_id s) (stat s) (ready_queue s) (zombie_queue s);
  so_ids i t : slot s i = Some t -> task_id t = i;
  so_sorted : StronglySorted entry_le (blocked_queue s);
  so_sleepers : Forall (fun e => (sleeper e < length (task_list s))%nat) (blocked_queue s)
}.

(** The idle task exists and is never blocked nor terminated. *)
Definition idle_ok (s : Scheduler) : Prop :=
  stat s 0 = Some Ready \/ stat s 0 = Some Running.

Lemma slot_Some s i t : slot s i = Some t <-> task_list s !! i = Some (Some t).
Proof. unfold slot. destruct (task_list s !! i) as [[]|]; cbn; naive_solver. Qed.

Lemma slot_lt s i t : slot s i = Some t -> (i < length (task_list s))%nat.
Proof. rewrite slot_Some. apply lookup_lt_Some. Qed.

Lemma index_slot s i t : slot s i = Some t -> index (task_list s) i = Done (Some t).
Proof. intros Hi%slot_Some. by apply index_Done. Qed.

Lemma stat_Some s i st : stat s i = Some st <-> exists t, slot s i = Some t /\ status t = st.
Proof. unfold stat. rewrite fmap_Some. naive_solver. Qed.

Lemma slot_tasks_insert l i (o : option TaskControlBlock) j :
  (i < length l)%nat ->
  mjoin (<[i := o]> l !! j) = if decide (i = j) then o else mjoin (l !! j).
Proof.
  intros Hi. case_decide as Hj; [subst j; by rewrite list_lookup_insert_eq|].
  by rewrite list_lookup_insert_ne.
Qed.

(** Writing back a task, with the queues changed so that they stay coherent. *)
Lemma sched_ok_update s i t t' cur ready zombies blocked :
  sched_ok s -> slot s i = Some t -> task_id t' = i ->
  coherent cur (<[i := Some (status t')]> (stat s)) ready zombies ->
  StronglySorted entry_le blocked ->
  Forall (fun e => (sleeper e < length (task_list s))%nat) blocked ->
  sched_ok (mkScheduler cur ready (<[i := Some t']> (task_list s)) zombies blocked).
Proof.
  intros Hok Hi Hid Hco Hsort Hsl. apply slot_lt in Hi as Hlt. split; cbn; [|  |done|].
  - eapply coherent_proper; [|done|done|exact Hco]. intros j. unfold stat, slot. cbn.
    rewrite slot_tasks_insert by done. case_decide; [subst j; by rewrite fn_lookup_insert|].
    by rewrite fn_lookup_insert_ne.
  - intros j u. unfold slot. cbn. rewrite slot_tasks_insert by done.
    case_decide; [intros [= <-]; congruence|]. apply (so_ids s Hok).
  - by rewrite length_insert.
Qed.

(** ** Choosing the next task *)

(** The choice [dispatch] makes from a ready queue, and the queue it leaves. *)
Definition pick (q : list nat) : nat * list nat :=
  match q with
  | [] => (0%nat, [])
  | 0%nat :: y :: q' => (y, q' ++ [0%nat])
  | x :: q' => (x, q')
  end.

Lemma dispatch_pick s :
  dispatch s =
    (slot ← index (task_list s) (pick (ready_queue s)).1;
     next_tcb ← unwrap "next task missing" slot;
     Done ((pick (ready_queue s)).1,
       set_current (set_task (set_ready s (pick (ready_queue s)).2) (pick (ready_queue s)).1
         (set_status next_tcb Running)) (Some (pick (ready_queue s)).1))).
Proof. unfold dispatch. by destruct (ready_queue s) as [|[|x] [|y q]]. Qed.

Lemma pick_perm q : q <> [] -> q ≡ₚ (pick q).1 :: (pick q).2.
Proof.
  destruct q as [|[|x] [|y q]]; try done; cbn. intros _.
  rewrite (Permutation_app_comm q [0%nat]). cbn. apply perm_swap.
Qed.

(** The idle task is chosen only if nothing else is ready. *)
Lemma pick_idle q : NoDup q -> (pick q).1 = 0%nat -> q = [] \/ q = [0%nat].
Proof.
  destruct q as [|[|x] [|y q]]; cbn; try auto; [|done..]. intros Hnd ->.
  apply NoDup_cons in Hnd as [Hn _]. destruct Hn. left.
Qed.

(** A task that is not chosen moves towards the front. *)
Lemma pick_progress pre x post :
  x <> 0%nat ->
  let q := pre ++ x :: post in
  (pick q).1 = x \/
  exists pre' post', (pick q).2 = pre' ++ x :: post' /\ (length pre' < length pre)%nat.
Proof.
  intros Hx. cbv zeta. destruct pre as [|a [|b pre]]; cbn.
  - left. by destruct x.
  - destruct a as [|a]; cbn; [by left|]. right. exists [], post. cbn. split; [done|lia].
  - right. destruct a as [|a]; cbn.
    + exists pre, (post ++ [0%nat]). rewrite <- app_assoc. cbn. split; [done|lia].
    + exists (b :: pre), post. cbn. split; [done|lia].
Qed.

(** [dispatch] from a state without a current task. *)
Lemma dispatch_ok s :
  sched_ok s -> current_task_id s = None -> stat s 0 = Some Ready ->
  let n := (pick (ready_queue s)).1 in
  exists t, slot s n = Some t /\ status t = Ready /\
    dispatch s = Done (n, mkScheduler (Some n) (pick (ready_queue s)).2
      (<[n := Some (set_status t Running)]> (task_list s)) (zombie_queue s) (blocked_queue s)) /\
    sched_ok (mkScheduler (Some n) (pick (ready_queue s)).2
      (<[n := Some (set_status t Running)]> (task_list s)) (zombie_queue s) (blocked_queue s)) /\
    (n = 0%nat -> forall i, stat s i = Some Ready -> i = 0%nat).
Proof.
  intros Hok Hcur Hidle. cbv zeta. destruct (so_coherent _ Hok) as [H1 H2 H3 H4 H5 H6].
  assert (Hne : ready_queue s <> []).
  { intros Heq. apply H4 in Hidle. rewrite Heq in Hidle. set_solver. }
  pose proof (pick_perm _ Hne) as Hperm.
  assert (Hn : stat s (pick (ready_queue s)).1 = Some Ready) by (apply H4; eapply elem_of_Permutation_proper; [exact Hperm|left]).
  apply stat_Some in Hn as (t & Hslot & Hst). exists t. split_and!; [done|done| | |].
  - rewrite dispatch_pick, (index_slot _ _ _ Hslot). done.
  - eapply sched_ok_update; [done|done|exact (so_ids _ Hok _ _ Hslot)| |apply Hok|apply Hok].
    eapply coherent_dispatch; [apply Hok|done|done].
  - intros H0 i Hi. apply H4 in Hi. destruct (pick_idle _ H3 H0) as [Heq|Heq]; rewrite Heq in Hi; set_solver.
Qed.

(** ** Sleeping *)

Lemma heap_push_perm e h : heap_push e h ≡ₚ e :: h.
Proof.
  induction h as [|x h IH]; cbn; [done|]. case_decide; [done|]. rewrite IH. apply perm_swap.
Qed.

Lemma entry_le_total a b : ~ entry_le a b -> entry_le b a.
Proof. unfold entry_le. lia. Qed.

Lemma entry_le_trans a b c : entry_le a b -> entry_le b c -> entry_le a c.
Proof. unfold entry_le. lia. Qed.

Lemma heap_push_sorted e h : StronglySorted entry_le h -> StronglySorted entry_le (heap_push e h).
Proof.
  induction 1 as [|x h Hs IH Hx]; cbn; [repeat constructor|]. case_decide as Hle.
  - constructor; [by constructor|]. constructor; [done|].
    eapply Forall_impl; [exact Hx|]. intros y. by apply entry_le_trans.
  - constructor; [done|]. rewrite heap_push_perm. constructor; [by apply entry_le_total|done].
Qed.

(** A blocked task becomes ready. *)
Lemma enqueue_ok s i t t' :
  sched_ok s -> slot s i = Some t -> status t = Blocked -> task_id t' = task_id t ->
  status t' = Ready ->
  sched_ok (set_ready (set_task s i t') (ready_queue s ++ [i])).
Proof.
  intros Hok Hi Hb Hid Hr.
  eapply (sched_ok_update s i t); [done|done|rewrite Hid; by apply (so_ids _ Hok)| |apply Hok|apply Hok].
  rewrite Hr. apply coherent_enqueue; [apply Hok|]. left. apply stat_Some. by exists t.
Qed.

Lemma slot_set_task s i t u j q :
  slot s i = Some t ->
  slot (set_ready (set_task s i u) q) j = if decide (i = j) then Some u else slot s j.
Proof. intros Hi%slot_lt. unfold slot. cbn. by apply slot_tasks_insert. Qed.

(** What [set_task_ready] does to a task in the table. *)
Lemma set_task_ready_ok s i :
  sched_ok s -> (i < length (task_list s))%nat ->
  exists s', set_task_ready s i = Done s' /\ sched_ok s' /\
    current_task_id s' = current_task_id s /\ zombie_queue s' = zombie_queue s /\
    blocked_queue s' = blocked_queue s /\ length (task_list s') = length (task_list s) /\
    (stat s i <> Some Blocked -> s' = s) /\
    (forall t, slot s i = Some t -> status t = Blocked ->
      ready_queue s' = ready_queue s ++ [i] /\
      forall j, slot s' j = if decide (i = j) then Some (set_status t Ready) else slot s j).
Proof.
  intros Hok Hi. unfold set_task_ready. destruct (lookup_lt_is_Some_2 _ _ Hi) as [o Ho].
  rewrite (proj2 (index_Done _ _ _) Ho). cbn [mbind outcome_bind].
  assert (Hslot : slot s i = o) by (unfold slot; by rewrite Ho).
  destruct o as [t|]; [|exists s; split_and!; naive_solver].
  destruct (decide (status t = Blocked)) as [Hst|Hst].
  2: { exists s. split_and!; try done; [by destruct (status t)|].
       intros u Hu Hb. rewrite Hslot in Hu. congruence. }
  rewrite Hst. eexists. split; [done|].
  split; [by eapply enqueue_ok|]. cbn. rewrite length_insert. split_and!; try done.
  - intros []. apply stat_Some. by exists t.
  - intros u [= <-]%(eq_trans (eq_sym Hslot)) _. split; [done|]. intros j. by eapply slot_set_task.
Qed.

Definition due (now : Z) (h : list SleepEntry) (i : nat) : Prop :=
  exists e, e ∈ h /\ sleeper e = i /\ wake_time e <= now.

#[export] Instance due_dec now h i : Decision (due now h i).
Proof.
  destruct (decide (Exists (fun e => sleeper e = i /\ wake_time e <= now) h)) as [Hd|Hd].
  - left. apply Exists_exists in Hd as (e & He & ?). by exists e.
  - right. intros (e & He & ?). apply Hd, Exists_exists. by exists e.
Defined.

(** The effect of waking the due sleepers of [h]. *)
Record woken (now : Z) (h : list SleepEntry) (s s' : Scheduler) : Prop := {
  wk_current : current_task_id s' = current_task_id s;
  wk_zombies : zombie_queue s' = zombie_queue s;
  wk_length : length (task_list s') = length (task_list s);
  wk_ready : exists l, ready_queue s' = ready_queue s ++ l;
  wk_due i t : slot s i = Some t -> status t = Blocked -> due now h i ->
    slot s' i = Some (set_status t Ready);
  wk_other i : ~ (stat s i = Some Blocked /\ due now h i) -> slot s' i = slot s i
}.

Lemma due_cons now e h i :
  due now (e :: h) i <-> sleeper e = i /\ wake_time e <= now \/ due now h i.
Proof. unfold due. set_solver. Qed.

Lemma not_due_sorted now e h :
  StronglySorted entry_le (e :: h) -> now < wake_time e ->
  filter (fun e => now < wake_time e) (e :: h) = e :: h /\ forall i, ~ due now (e :: h) i.
Proof.
  intros [Hs He]%StronglySorted_inv Hnow.
  assert (Hall : Forall (fun e => now < wake_time e) (e :: h)).
  { constructor; [done|]. eapply Forall_impl; [exact He|]. unfold entry_le. intros. cbn in *. lia. }
  split; [by apply filter_all|].
  intros i (e' & Hin & _ & Hle). eapply Forall_forall in Hall; [|done]. lia.
Qed.

(** A due entry wakes its task, or finds it no longer blocked. *)
Lemma woken_cons now e h s s1 s' :
  wake_time e <= now ->
  current_task_id s1 = current_task_id s -> zombie_queue s1 = zombie_queue s ->
  length (task_list s1) = length (task_list s) ->
  (stat s (sleeper e) <> Some Blocked -> s1 = set_blocked s h) ->
  (forall t, slot s (sleeper e) = Some t -> status t = Blocked ->
    ready_queue s1 = ready_queue s ++ [sleeper e] /\
    forall j, slot s1 j = if decide (sleeper e = j) then Some (set_status t Ready) else slot s j) ->
  woken now h s1 s' -> woken now (e :: h) s s'.
Proof.
  intros Hdue Hc1 Hz1 Hl1 Hid1 Heff1 Hw.
  destruct (decide (stat s (sleeper e) = Some Blocked)) as [Hblk|Hblk].
  - apply stat_Some in Hblk as (t & Ht & Hst). destruct (Heff1 t Ht Hst) as [Hr1 Hs1].
    assert (Hstat1 : stat s1 (sleeper e) = Some Ready).
    { unfold stat. by rewrite Hs1, decide_True. }
    split.
    + etrans; [apply Hw|]. by rewrite Hc1.
    + etrans; [apply Hw|]. by rewrite Hz1.
    + etrans; [apply Hw|]. by rewrite Hl1.
    + destruct (wk_ready _ _ _ _ Hw) as [l Hl]. exists (sleeper e :: l).
      rewrite Hl, Hr1. cbn. by rewrite <- app_assoc.
    + intros i u Hu Hbu [[<- _]|Hd]%due_cons.
      * rewrite (wk_other _ _ _ _ Hw) by (rewrite Hstat1; naive_solver).
        rewrite Hs1, decide_True by done. congruence.
      * destruct (decide (sleeper e = i)) as [<-|Hne].
        { rewrite (wk_other _ _ _ _ Hw) by (rewrite Hstat1; naive_solver).
          rewrite Hs1, decide_True by done. congruence. }
        apply (wk_due _ _ _ _ Hw); [|done|done]. by rewrite Hs1, decide_False.
    + intros i Hi. destruct (decide (sleeper e = i)) as [<-|Hne].
      { destruct Hi. split; [apply stat_Some; by exists t|]. apply due_cons. by left. }
      rewrite (wk_other _ _ _ _ Hw), Hs1, decide_False; [done|done|].
      unfold stat. rewrite Hs1, decide_False by done. intros [Hsi Hd]. apply Hi.
      split; [done|]. apply due_cons. by right.
  - rewrite (Hid1 Hblk) in *. split; [apply Hw|apply Hw|apply Hw|apply Hw| |].
    + intros i u Hu Hbu [[<- _]|Hd]%due_cons; [|by apply (wk_due _ _ _ _ Hw)].
      destruct Hblk. apply stat_Some. by exists u.
    + intros i Hi. apply (wk_other _ _ _ _ Hw). intros [Hsi Hd]. apply Hi.
      split; [done|]. apply due_cons. by right.
Qed.

Lemma finish_sleep_loop_ok now h : forall fuel s,
  blocked_queue s = h -> (length h < fuel)%nat -> sched_ok s ->
  exists s', finish_sleep_loop fuel s now = Done s' /\ sched_ok s' /\ woken now h s s' /\
    blocked_queue s' = filter (fun e => now < wake_time e) h.
Proof.
  induction h as [|e h IH]; intros [|fuel] s Hh Hfuel Hok; cbn in Hfuel; try lia;
    cbn [finish_sleep_loop]; rewrite Hh.
  { exists s. split_and!; try done. split; try done; [exists []; by rewrite app_nil_r|].
    intros i t _ _ (e & He & _). set_solver. }
  pose proof (so_sorted _ Hok) as Hsort. rewrite Hh in Hsort.
  destruct (Z.ltb_spec now (wake_time e)) as [Hlate|Hdue].
  { destruct (not_due_sorted now e h Hsort Hlate) as [Hf Hnd]. exists s.
    split_and!; [done|done| |by rewrite Hf]. split; try done; [exists []; by rewrite app_nil_r|].
    intros i t _ _ Hd. by destruct (Hnd i). }
  rewrite filter_cons_False by lia.
  apply StronglySorted_inv in Hsort as [Hsort _]. pose proof (so_sleepers _ Hok) as Hsl.
  rewrite Hh in Hsl. apply Forall_cons in Hsl as [He Hsl].
  assert (Hok0 : sched_ok (set_blocked s h)) by (destruct Hok; by split).
  destruct (set_task_ready_ok (set_blocked s h) (sleeper e) Hok0 He)
    as (s1 & -> & Hok1 & Hc1 & Hz1 & Hb1 & Hl1 & Hid1 & Heff1). cbn [mbind outcome_bind].
  destruct (IH fuel s1 Hb1 ltac:(lia) Hok1) as (s' & Hrun & Hok' & Hw & Hb').
  exists s'. split_and!; [done|done| |done]. by eapply woken_cons.
Qed.

(** ** Giving up the processor *)

(** Task [c] left the processor with status [st] and task [n] got it. *)
Record switched (s : Scheduler) (c : nat) (st : TaskStatus) (n : nat) (s' : Scheduler) : Prop := {
  sw_ok : sched_ok s';
  sw_idle : idle_ok s';
  sw_current : current_task_id s' = Some n;
  sw_next : slot s' n = (fun t => set_status t Running) <$> slot s n;
  sw_prev : c <> n -> slot s' c = (fun t => set_status t st) <$> slot s c;
  sw_other i : i <> n -> i <> c -> slot s' i = slot s i;
  sw_running : stat s' n = Some Running
}.

(** Dispatching after a status change of the current task that leaves it off the
    processor; [s1] is the state just before [dispatch]. *)
Lemma dispatch_switched s c t st s1 :
  slot s c = Some t -> sched_ok (set_current s1 None) -> stat s1 0 = Some Ready ->
  (forall i, slot s1 i = if decide (c = i) then Some (set_status t st) else slot s i) ->
  exists n s', dispatch s1 = Done (n, s') /\ switched s c st n s' /\
    n = (pick (ready_queue s1)).1 /\ ready_queue s' = (pick (ready_queue s1)).2 /\
    blocked_queue s' = blocked_queue s1 /\ zombie_queue s' = zombie_queue s1 /\
    length (task_list s') = length (task_list s1) /\ stat s1 n = Some Ready /\
    (n = 0%nat -> forall i, stat s1 i = Some Ready -> i = 0%nat).
Proof.
  intros Hc Hok1 Hidle Hs1.
  destruct (dispatch_ok _ Hok1 eq_refl Hidle) as (u & Hu & Hst & Heq & Hok' & Hn0).
  set (n := (pick (ready_queue (set_current s1 None))).1) in *. eexists n, _.
  split; [exact Heq|]. apply slot_lt in Hu as Hlt.
  assert (Hslot : forall i, mjoin (<[n := Some (set_status u Running)]> (task_list s1) !! i)
    = if decide (n = i) then Some (set_status u Running) else slot s1 i)
    by (intros i; by apply slot_tasks_insert).
  assert (Hu1 : slot s1 n = Some u) by exact Hu.
  split_and!; try done; [|cbn; by rewrite length_insert|apply stat_Some; by exists u].
  split; [exact Hok'| |done|..]; unfold idle_ok, stat, slot; cbn.
  - destruct (decide (n = 0%nat)) as [->|Hne0]; rewrite Hslot; [right; by rewrite decide_True|].
    left. by rewrite decide_False.
  - rewrite Hslot, decide_True by done. fold (slot s n).
    specialize (Hs1 n). rewrite Hu1 in Hs1. case_decide as Hcn; [|by rewrite <- Hs1].
    subst c. rewrite Hc. injection Hs1 as ->. done.
  - intros Hcn. fold (slot s c). by rewrite Hslot, decide_False, Hs1, decide_True, Hc by done.
  - intros i Hin Hic. by rewrite Hslot, decide_False, Hs1, decide_False by done.
  - by rewrite Hslot, decide_True.
Qed.

(** The current task is blocked; [h] is the heap after it. *)
Lemma block_switched s c t h :
  sched_ok s -> idle_ok s -> current_task_id s = Some c -> c <> 0%nat ->
  slot s c = Some t -> status t = Running ->
  StronglySorted entry_le h -> Forall (fun e => (sleeper e < length (task_list s))%nat) h ->
  exists n s', dispatch (set_blocked (set_task s c (set_status t Blocked)) h) = Done (n, s') /\
    switched s c Blocked n s' /\ c <> n /\ stat s n = Some Ready /\
    n = (pick (ready_queue s)).1 /\ ready_queue s' = (pick (ready_queue s)).2 /\
    blocked_queue s' = h /\ zombie_queue s' = zombie_queue s /\
    length (task_list s') = length (task_list s) /\
    (n = 0%nat -> forall i, stat s i = Some Ready -> i = 0%nat).
Proof.
  intros Hok Hidle Hcur Hc0 Ht Hst Hsort Hsl.
  assert (Hrun : stat s c = Some Running) by (apply stat_Some; by exists t).
  set (s1 := set_blocked (set_task s c (set_status t Blocked)) h).
  assert (Hs1 : forall i, slot s1 i = if decide (c = i) then Some (set_status t Blocked) else slot s i).
  { intros i. unfold slot. cbn. apply slot_tasks_insert. by eapply slot_lt. }
  destruct (dispatch_switched s c t Blocked s1) as (n & s' & Heq & Hsw & Hn & Hr & Hb & Hz & Hl & Hrdy & Hn0).
  - done.
  - eapply (sched_ok_update s c t); [done|done|exact (so_ids _ Hok _ _ Ht)| |done|done].
    eapply coherent_block; [apply Hok|done].
  - unfold stat. rewrite Hs1, decide_False by done. fold (stat s 0).
    destruct Hidle as [|H0]; [done|]. apply (co_running _ _ _ _ (so_coherent _ Hok)) in H0. congruence.
  - done.
  - exists n, s'. split_and!; try done.
    + intros <-. unfold stat in Hrdy. by rewrite Hs1, decide_True in Hrdy.
    + unfold stat in Hrdy |- *. rewrite Hs1 in Hrdy. by case_decide.
    + cbn in Hl. by rewrite length_insert in Hl.
    + intros H0 i Hi. apply Hn0; [done|]. unfold stat. rewrite Hs1. case_decide; [|done].
      subst i. congruence.
Qed.

(** ** Task stacks *)

Section Stacks.
Context {FA : Type} `{FrameAllocatorLaws FA} (trampoline : Z).

(** The first page of the stack of a task. *)
Definition stack_ppn (t : TaskControlBlock) : Z := virt_to_phys (stack_base t) / 4096.

Definition stack_ok (t : TaskControlBlock) : Prop :=
  stack_base t = phys_to_virt (stack_ppn t * 4096) /\ 0 < stack_ppn t /\
  1 <= page_count t /\ stack_ppn t + page_count t <= DIRECT_MAP_PAGES.

(** Every task owns its stack, a block [B] of the allocator, and no two tasks
    share one. *)
Record stacks_ok (fs : FA) (s : Scheduler) (B : gmap Z Z) : Prop := {
  st_owns : fa_owns fs B;
  st_stack i t : slot s i = Some t -> stack_ok t /\ B !! stack_ppn t = Some (page_count t);
  st_inj i j t t' : slot s i = Some t -> slot s j = Some t' -> stack_ppn t = stack_ppn t' -> i = j
}.

(** Only the stacks matter, not the statuses and contexts. *)
Lemma stacks_ok_mono fs s s' B :
  (forall i t, slot s' i = Some t -> exists t', slot s i = Some t' /\
     stack_base t = stack_base t' /\ page_count t = page_count t') ->
  stacks_ok fs s B -> stacks_ok fs s' B.
Proof.
  intros Hs [Ho Hst Hinj].
  assert (Hppn : forall t t', stack_base t = stack_base t' -> stack_ppn t = stack_ppn t')
    by (unfold stack_ppn; by intros ?? ->).
  split; [done| |].
  - intros i t Hi. destruct (Hs _ _ Hi) as (t' & Hi' & Hb & Hp). destruct (Hst _ _ Hi') as [Hok HB].
    unfold stack_ok in *. by rewrite (Hppn _ _ Hb), Hb, Hp.
  - intros i j t u Hi Hj Heq. destruct (Hs _ _ Hi) as (t' & Hi' & Hb & _).
    destruct (Hs _ _ Hj) as (u' & Hj' & Hb' & _). eapply Hinj; [done|done|].
    by rewrite <- (Hppn _ _ Hb), <- (Hppn _ _ Hb').
Qed.

Lemma free_stack_ok fs s B i t :
  stacks_ok fs s B -> slot s i = Some t ->
  exists fs', free_stack fs t = Done fs' /\ fa_owns fs' (delete (stack_ppn t) B).
Proof.
  intros [Ho Hst _] Hi. destruct (Hst _ _ Hi) as [(Hb & Hpos & Hcnt & Hmax) HB]. unfold free_stack.
  rewrite Hb, virt_to_phys_to_virt by (unfold usize, DIRECT_MAP_PAGES in *; lia).
  rewrite PhysPageNum_from_PhysAddr_mul by lia. cbn [mbind outcome_bind].
  destruct (Z.eqb_spec (page_count t) 0) as [|_]; [lia|]. cbn [unwrap mbind outcome_bind].
  by apply fa_dealloc_ok.
Qed.

(** Removing a task from the table and its stack from the blocks in use. *)
Lemma stacks_ok_remove fs fs' s s' B i t :
  stacks_ok fs s B -> slot s i = Some t -> fa_owns fs' (delete (stack_ppn t) B) ->
  (forall j, slot s' j = if decide (i = j) then None else slot s j) ->
  stacks_ok fs' s' (delete (stack_ppn t) B).
Proof.
  intros [_ Hst Hinj] Hi Ho Hs'. split; [done| |].
  - intros j u Hj. rewrite Hs' in Hj. case_decide as Hij; [done|]. destruct (Hst _ _ Hj) as [Hok HB].
    split; [done|]. rewrite lookup_delete_ne; [done|]. intros Heq. apply Hij. by eapply Hinj.
  - intros j k u v Hj Hk. rewrite Hs' in Hj, Hk. repeat case_decide; try done. by eapply Hinj.
Qed.

(** The effect of the reaping loop. *)
Record reaped (s : Scheduler) (B : gmap Z Z) (s' : Scheduler) (B' : gmap Z Z) : Prop := {
  rp_current : current_task_id s' = current_task_id s;
  rp_ready : ready_queue s' = ready_queue s;
  rp_blocked : blocked_queue s' = blocked_queue s;
  rp_length : length (task_list s') = length (task_list s);
  (** only terminated tasks other than the current one disappear *)
  rp_kept i t : slot s i = Some t -> status t <> Terminated \/ current_task_id s = Some i ->
    slot s' i = Some t;
  rp_slots i t : slot s' i = Some t -> slot s i = Some t;
  (** with their stacks, and nothing else is freed *)
  rp_freed i t : slot s i = Some t -> slot s' i = None -> B' !! stack_ppn t = None;
  rp_frames p n : B' !! p = Some n -> B !! p = Some n;
  rp_unfreed p n : B !! p = Some n -> B' !! p = None ->
    exists i t, slot s i = Some t /\ slot s' i = None /\ stack_ppn t = p
}.

Lemma reaped_refl s B z : reaped s B (set_zombies s z) B.
Proof. split; try done; [intros i t|intros p n HB]; unfold slot; cbn; congruence. Qed.

Lemma reaped_step s B i t z s1 s' B' fs :
  stacks_ok fs s B -> slot s i = Some t -> status t = Terminated -> current_task_id s <> Some i ->
  s1 = set_tasks (set_ready (set_zombies s z) (ready_queue s)) (<[i := None]> (task_list s)) ->
  (forall j, slot s1 j = if decide (i = j) then None else slot s j) ->
  reaped s1 (delete (stack_ppn t) B) s' B' -> reaped s B s' B'.
Proof.
  intros Hst Hi Ht Hc -> Hs1 [R1 R2 R3 R4 R5 R6 R7 R8 R9]. cbn in *. split; try done.
  - by rewrite length_insert in R4.
  - intros j u Hj Hu. apply R5; [|done]. rewrite Hs1, decide_False; [done|]. intros <-.
    destruct Hu as [Hu|Hu]; [|done]. congruence.
  - intros j u Hj. apply R6 in Hj. rewrite Hs1 in Hj. by case_decide.
  - intros j u Hj Hj'. destruct (decide (i = j)) as [<-|Hne].
    + assert (u = t) as -> by congruence.
      destruct (B' !! stack_ppn t) as [n|] eqn:HB; [|done]. apply R8 in HB.
      by rewrite lookup_delete_eq in HB.
    + eapply R7; [|done]. by rewrite Hs1, decide_False.
  - intros p n HB. by apply R8, lookup_delete_Some in HB as [_ ?].
  - intros p n HB HB'. destruct (decide (stack_ppn t = p)) as [<-|Hne].
    + exists i, t. split_and!; try done. destruct (slot s' i) as [u|] eqn:Hu; [|done].
      apply R6 in Hu. by rewrite Hs1, decide_True in Hu.
    + destruct (R9 p n) as (j & u & Hj & Hj' & Hp); [by rewrite lookup_delete_ne|done|].
      exists j, u. rewrite Hs1 in Hj. by case_decide.
Qed.

Lemma vec_pop_snoc z x : vec_pop (z ++ [x]) = Some (x, z).
Proof. unfold vec_pop. by rewrite last_snoc, removelast_last. Qed.

(** Dropping the last zombie from the table. *)
Lemma sched_ok_reap s i z :
  sched_ok s -> zombie_queue s = z ++ [i] -> current_task_id s <> Some i ->
  (i < length (task_list s))%nat ->
  sched_ok (set_tasks (set_ready (set_zombies s z) (ready_queue s)) (<[i := None]> (task_list s))).
Proof.
  intros Hok Hz Hc Hi. split; cbn; [| |apply Hok|rewrite length_insert; apply Hok].
  - eapply coherent_proper; [|done|done|eapply coherent_reap; [apply Hok|exact Hz|exact Hc]].
    intros j. unfold stat, slot. cbn. rewrite slot_tasks_insert by done.
    case_decide; [subst j; by rewrite fn_lookup_insert|]. by rewrite fn_lookup_insert_ne.
  - intros j u. unfold slot. cbn. rewrite slot_tasks_insert by done.
    case_decide; [done|]. apply (so_ids s Hok).
Qed.

Lemma reap_ok n : forall fs s B,
  n = length (zombie_queue s) -> sched_ok s -> stacks_ok fs s B ->
  exists fs' s' B', reap n (current_task_id s) fs s = Done (fs', s') /\
    sched_ok s' /\ stacks_ok fs' s' B' /\ reaped s B s' B' /\
    ((forall c, current_task_id s = Some c -> stat s c = Some Running) -> zombie_queue s' = []).
Proof.
  induction n as [|n IH]; intros fs s B Hn Hok Hst; cbn [reap].
  { exists fs, s, B. split_and!; try done; [destruct s; apply reaped_refl|].
    intros _. by apply nil_length_inv. }
  destruct (zombie_queue s) as [|i z _] eqn:Hz using rev_ind; [done|].
  rewrite length_app in Hn. cbn in Hn. rewrite vec_pop_snoc.
  destruct (so_coherent _ Hok) as [Co1 Co2 Co3 Co4 Co5 Co6].
  assert (Hi : stat s i = Some Terminated) by (apply Co6; rewrite Hz; apply elem_of_snoc; by right).
  apply stat_Some in Hi as Hslot. destruct Hslot as (t & Ht & Hterm).
  case_decide as Hcur.
  { exists fs, (set_zombies s (z ++ [i])), B. rewrite <- Hz. split_and!; try done.
    - destruct s. done.
    - eapply stacks_ok_mono; [|done]. intros j u Hj. by exists u.
    - apply reaped_refl.
    - intros Hrun. rewrite (Hrun i) in Hi by done. done. }
  apply slot_Some in Ht as Htl. cbn [set_ready set_zombies task_list]. rewrite Htl.
  rewrite filter_ne_id by (rewrite Co4; congruence).
  destruct (free_stack_ok _ _ _ _ _ Hst Ht) as (fs1 & -> & Hown). cbn [mbind outcome_bind].
  apply slot_lt in Ht as Hlt.
  set (s1 := set_tasks _ _).
  assert (Hs1 : forall j, slot s1 j = if decide (i = j) then None else slot s j)
    by (intros j; unfold slot; cbn; by apply slot_tasks_insert).
  assert (Hok1 : sched_ok s1) by (apply sched_ok_reap; [done|done|congruence|done]).
  destruct (IH fs1 s1 (delete (stack_ppn t) B)) as (fs' & s' & B' & Heq & Hok' & Hst' & Hr & Hemp);
    [cbn; lia|done|by eapply stacks_ok_remove|].
  exists fs', s', B'. split_and!; try done; [by eapply reaped_step|].
  intros Hrun. apply Hemp. intros c Hc. cbn in Hc. unfold stat. rewrite Hs1, decide_False by (intros <-; congruence).
  by apply Hrun.
Qed.
End Stacks.
