(* ===== verification/SchedulerSpec.v ===== *)
(** * What the scheduler promises

    The theorems about the operations of [Scheduler], stated against the
    frame-allocator interface and instantiated with the buddy allocator in the
    witnesses: no operation panics, the invariant is kept, the right task runs
    next, and the stacks of finished tasks (and nothing else) are freed. *)

From stdpp Require Import functions.
From S2P Require Import Prelude Address Memory FrameAllocator Buddy BuddyBlocks BuddyProofs.
From S2P Require Import Context Scheduler SchedulerProofs.

Section Spec.
Context {FA : Type} `{FrameAllocatorLaws FA} (trampoline : Z).

(** The current task if it is still running: it goes to the end of the queue. *)
Definition requeued (s : Scheduler) : list nat :=
  match current_task_id s with
  | Some c => if decide (stat s c = Some Running) then [c] else []
  | None => []
  end.

Lemma coherent_drop c st ready zombies :
  coherent (Some c) st ready zombies -> st c = Some Terminated -> coherent None st ready zombies.
Proof.
  intros [H1 H2 H3 H4 H5 H6] Hc. split; try done. intros i Hi. apply H2 in Hi as Hi'. congruence.
Qed.

Lemma requeue_ok s :
  sched_ok s -> idle_ok s ->
  exists s2, requeue_current s = Done s2 /\ sched_ok (set_current s2 None) /\
    stat s2 0 = Some Ready /\ ready_queue s2 = ready_queue s ++ requeued s /\
    zombie_queue s2 = zombie_queue s /\ blocked_queue s2 = blocked_queue s /\
    length (task_list s2) = length (task_list s) /\
    forall i, slot s2 i = if decide (i ∈ requeued s)
                          then (fun t => set_status t Ready) <$> slot s i else slot s i.
Proof.
  intros Hok Hidle. pose proof (so_coherent _ Hok) as Hco. unfold requeue_current, requeued.
  assert (Hstay : forall q, q = [] -> (forall c, current_task_id s = Some c -> stat s c = Some Terminated) ->
    sched_ok (set_current s None) /\ stat s 0 = Some Ready /\ ready_queue s = ready_queue s ++ q).
  { intros q -> Hterm. split_and!; [|destruct Hidle as [|Hr]; [done|]|by rewrite app_nil_r].
    - destruct Hok as [_ Hids Hso Hsl]. split; try done. cbn.
      destruct (current_task_id s) as [c|] eqn:Hc; [|done].
      eapply coherent_drop; [exact Hco|]. by apply Hterm.
    - apply (co_running _ _ _ _ Hco) in Hr as Hc. rewrite (Hterm _ Hc) in Hr. done. }
  destruct (current_task_id s) as [c|] eqn:Hc.
  2: { exists s. destruct (Hstay []) as (? & ? & ?); [done|done|]. by split_and!. }
  destruct (co_current _ _ _ _ Hco c eq_refl) as [Hrun|Hterm].
  - rewrite decide_True by done. apply stat_Some in Hrun as Hslot. destruct Hslot as (t & Ht & Hst).
    rewrite (index_slot _ _ _ Ht). cbn [mbind outcome_bind]. rewrite Hst.
    assert (Hs2 : forall i, slot (set_ready (set_task s c (set_status t Ready)) (ready_queue s ++ [c])) i
      = if decide (c = i) then Some (set_status t Ready) else slot s i)
      by (intros i; by eapply slot_set_task).
    eexists. split; [done|]. split_and!; try done; [| |cbn; by rewrite length_insert|].
    + eapply (sched_ok_update s c t); [done|done|exact (so_ids _ Hok _ _ Ht)| |apply Hok|apply Hok].
      cbn. eapply coherent_requeue; [exact Hco|done].
    + unfold stat. rewrite Hs2. case_decide; [done|]. destruct Hidle as [Hr|Hr]; [done|].
      apply (co_running _ _ _ _ Hco) in Hr. congruence.
    + intros i. rewrite Hs2. destruct (decide (c = i)) as [<-|Hne].
      * by rewrite decide_True, Ht by set_solver.
      * by rewrite decide_False by set_solver.
  - rewrite decide_False by congruence. apply stat_Some in Hterm as Hslot.
    destruct Hslot as (t & Ht & Hst). rewrite (index_slot _ _ _ Ht). cbn [mbind outcome_bind].
    rewrite Hst. exists s. destruct (Hstay []) as (? & ? & ?); [done|naive_solver|].
    by split_and!.
Qed.

(** The effect of [prepare_next_task]. *)
Record rescheduled (s : Scheduler) (B : gmap Z Z) (n : nat) (fs' : FA) (s' : Scheduler)
    (B' : gmap Z Z) : Prop := {
  rs_ok : sched_ok s';
  rs_idle : idle_ok s';
  rs_stacks : stacks_ok fs' s' B';
  rs_current : current_task_id s' = Some n;
  rs_running : stat s' n = Some Running;
  (** the choice: first of the queue, the idle task last *)
  rs_pick : (n, ready_queue s') = pick (ready_queue s ++ requeued s);
  rs_idle_last : n = 0%nat -> forall i, i ∈ ready_queue s ++ requeued s -> i = 0%nat;
  rs_blocked : blocked_queue s' = blocked_queue s;
  rs_length : length (task_list s') = length (task_list s);
  (** a task that has not terminated, and the current task in any case, keeps
      everything but its status *)
  rs_kept i t : slot s i = Some t -> status t <> Terminated \/ current_task_id s = Some i ->
    exists st, slot s' i = Some (set_status t st);
  rs_status i : i <> n -> i ∉ requeued s -> stat s i <> Some Terminated -> stat s' i = stat s i;
  (** a current task that has terminated stays in the table and is not chosen *)
  rs_exiting c : current_task_id s = Some c -> stat s c = Some Terminated ->
    n <> c /\ slot s' c = slot s c;
  rs_slots i t : slot s' i = Some t -> exists t0, slot s i = Some t0 /\ t = set_status t0 (status t);
  (** no terminated task comes back *)
  rs_dead i t : slot s' i = Some t -> stat s i = Some Terminated -> status t = Terminated;
  (** unless the current task has just terminated, all terminated tasks disappear *)
  rs_reaped : (forall c, current_task_id s = Some c -> stat s c = Some Running) ->
    forall i, stat s i = Some Terminated -> slot s' i = None;
  (** the stacks of the tasks that disappeared are freed, and nothing else *)
  rs_freed i t : slot s i = Some t -> slot s' i = None -> B' !! stack_ppn t = None;
  rs_frames p k : B' !! p = Some k -> B !! p = Some k;
  rs_unfreed p k : B !! p = Some k -> B' !! p = None ->
    exists i t, slot s i = Some t /\ status t = Terminated /\ slot s' i = None /\ stack_ppn t = p
}.

Lemma reaped_idle s B s' B' : idle_ok s -> reaped s B s' B' -> idle_ok s'.
Proof.
  intros Hidle Hr. unfold idle_ok in *.
  assert (Hk : forall st, st <> Terminated -> stat s 0 = Some st -> stat s' 0 = Some st).
  { intros st Hst (t & Ht & <-)%stat_Some. apply stat_Some. exists t. split; [|done].
    apply (rp_kept _ _ _ _ Hr); [done|by left]. }
  destruct Hidle as [Hi|Hi]; [left|right]; by apply Hk.
Qed.

Lemma reaped_requeued s B s' B' :
  sched_ok s -> reaped s B s' B' -> requeued s' = requeued s.
Proof.
  intros Hok Hr. unfold requeued. rewrite (rp_current _ _ _ _ Hr).
  destruct (current_task_id s) as [c|] eqn:Hc; [|done].
  assert (Hs : stat s' c = stat s c); [|by rewrite Hs].
  destruct (co_current _ _ _ _ (so_coherent _ Hok) c Hc) as [Hst|Hst];
    apply stat_Some in Hst as (t & Ht & _); unfold stat;
    rewrite Ht; by rewrite (rp_kept _ _ _ _ Hr c t Ht (or_intror Hc)).
Qed.

(** Requeueing the current task and dispatching the next one. *)
Lemma resume_ok s :
  sched_ok s -> idle_ok s ->
  exists s2 n s', requeue_current s = Done s2 /\ dispatch s2 = Done (n, s') /\
    sched_ok s' /\ idle_ok s' /\ current_task_id s' = Some n /\
    (n, ready_queue s') = pick (ready_queue s ++ requeued s) /\
    (n = 0%nat -> forall i, i ∈ ready_queue s ++ requeued s -> i = 0%nat) /\
    zombie_queue s' = zombie_queue s /\ blocked_queue s' = blocked_queue s /\
    length (task_list s') = length (task_list s) /\ is_Some (slot s n) /\
    n ∈ ready_queue s ++ requeued s /\
    forall i, slot s' i = if decide (n = i) then (fun t => set_status t Running) <$> slot s i
      else if decide (i ∈ requeued s) then (fun t => set_status t Ready) <$> slot s i else slot s i.
Proof.
  intros Hok Hidle.
  destruct (requeue_ok s Hok Hidle) as (s2 & Hreq & Hok2 & Hidle2 & Hq2 & Hz2 & Hb2 & Hl2 & Hs2).
  exists s2. destruct (dispatch_ok _ Hok2 eq_refl Hidle2) as (t & Ht & Hrdy & Hd & Hok' & Hn0).
  set (n := (pick (ready_queue (set_current s2 None))).1) in *.
  eexists n, _. split; [exact Hreq|]. split; [exact Hd|]. apply slot_lt in Ht as Hlt.
  change (slot s2 n = Some t) in Ht. pose proof (Hs2 n) as Hn. rewrite Ht in Hn.
  assert (Hs' : forall i, mjoin (<[n := Some (set_status t Running)]> (task_list s2) !! i)
    = if decide (n = i) then Some (set_status t Running) else slot s2 i)
    by (intros i; by apply slot_tasks_insert).
  assert (Hsn : (fun t => set_status t Running) <$> slot s n = Some (set_status t Running)).
  { case_decide; [|by rewrite <- Hn]. symmetry in Hn. by apply fmap_Some in Hn as (u & -> & ->). }
  unfold idle_ok, stat, slot. cbn. rewrite length_insert. split_and!; try done.
  - rewrite Hs'. destruct (decide (n = 0%nat)); [right; reflexivity|left; exact Hidle2].
  - rewrite <- Hq2. symmetry. apply surjective_pairing.
  - intros H0n i Hi. apply Hn0; [done|]. rewrite <- Hq2 in Hi.
    by apply (co_ready _ _ _ _ (so_coherent _ Hok2)).
  - destruct (slot s n) eqn:Heq; [|done]. unfold slot in Heq. by rewrite Heq.
  - rewrite <- Hq2. apply (co_ready _ _ _ _ (so_coherent _ Hok2)). apply stat_Some. by exists t.
  - intros i. rewrite Hs', Hs2. destruct (decide (n = i)) as [<-|]; [exact (eq_sym Hsn)|reflexivity].
Qed.

(** Composing the three parts of [prepare_next_task]. *)
Lemma prepare_next_task_ok fs s B :
  sched_ok s -> idle_ok s -> stacks_ok fs s B ->
  exists n fs' s' B', prepare_next_task fs s = Done (n, (fs', s')) /\ rescheduled s B n fs' s' B'.
Proof.
  intros Hok Hidle Hst. unfold prepare_next_task.
  destruct (reap_ok _ fs s B eq_refl Hok Hst) as (fs1 & s1 & B' & -> & Hok1 & Hst1 & Hr & Hemp).
  cbn [mbind outcome_bind].
  destruct (resume_ok s1 Hok1 (reaped_idle _ _ _ _ Hidle Hr)) as (s2 & n & s' & -> & Hd & Hok' &
    Hidle' & Hcur & Hpick & Hlast & Hz & Hb & Hl & [t Ht] & Hin & Hs').
  cbn [mbind outcome_bind]. rewrite Hd. cbn [mbind outcome_bind].
  rewrite (reaped_requeued _ _ _ _ Hok Hr), ?(rp_ready _ _ _ _ Hr) in *.
  exists n, fs1, s', B'. split; [done|].
  assert (Hstep : forall i u, slot s1 i = Some u -> exists st, slot s' i = Some (set_status u st)).
  { intros i u Hu. rewrite Hs', Hu. repeat case_decide; cbn; eauto. exists (status u). by destruct u. }
  assert (Hback : forall i u, slot s' i = Some u -> exists u0, slot s1 i = Some u0 /\ u = set_status u0 (status u)).
  { intros i u. rewrite Hs'. repeat case_decide; [intros (u0 & ? & ->)%fmap_Some; by exists u0..|].
    intros Hu. exists u. split; [done|]. by destruct u. }
  assert (Hnone : forall i, slot s' i = None -> slot s1 i = None).
  { intros i Hi. destruct (slot s1 i) as [u|] eqn:Hu; [|done]. destruct (Hstep _ _ Hu). congruence. }
  assert (Hn : stat s' n = Some Running) by (unfold stat; by rewrite Hs', decide_True, Ht).
  split; try done.
  - eapply stacks_ok_mono; [|exact Hst1]. intros i u Hu. destruct (Hback _ _ Hu) as (u0 & Hu0 & ->).
    by exists u0.
  - etrans; [exact Hb|]. apply Hr.
  - etrans; [exact Hl|]. apply Hr.
  - intros i u Hu Hkeep. eapply Hstep. by apply (rp_kept _ _ _ _ Hr).
  - intros i Hni Hiq Hterm. unfold stat. rewrite Hs', !decide_False by done.
    destruct (slot s i) as [u|] eqn:Hu.
    + f_equal. apply (rp_kept _ _ _ _ Hr); [done|]. left. intros Hst'. apply Hterm.
      apply stat_Some. by exists u.
    + destruct (slot s1 i) as [u|] eqn:Hu1; [|done]. apply (rp_slots _ _ _ _ Hr) in Hu1. congruence.
  - intros c Hc Hterm. apply stat_Some in Hterm as Hu. destruct Hu as (u & Hu & _).
    assert (Hreq : requeued s = []) by (unfold requeued; by rewrite Hc, decide_False by congruence).
    assert (Hnc : n <> c).
    { intros ->. rewrite Hreq, app_nil_r in Hin.
      apply (co_ready _ _ _ _ (so_coherent _ Hok)) in Hin. congruence. }
    split; [done|]. rewrite Hs', Hreq, !decide_False by (done || set_solver).
    rewrite Hu. apply (rp_kept _ _ _ _ Hr); auto.
  - intros i u Hu. destruct (Hback _ _ Hu) as (u0 & Hu0 & Heq). exists u0. split; [|done].
    by apply (rp_slots _ _ _ _ Hr).
  - intros i u Hu Hterm. rewrite Hs' in Hu.
    assert (Hnq : i ∉ ready_queue s ++ requeued s).
    { intros [Hq|Hq]%elem_of_app; [apply (co_ready _ _ _ _ (so_coherent _ Hok)) in Hq; congruence|].
      unfold requeued in Hq. destruct (current_task_id s) as [c|]; [|set_solver]. case_decide; set_solver. }
    rewrite !decide_False in Hu by set_solver. apply (rp_slots _ _ _ _ Hr) in Hu. unfold stat in Hterm. rewrite Hu in Hterm.
    by injection Hterm.
  - intros Hrun i (u & Hu & Hterm)%stat_Some. destruct (slot s' i) as [v|] eqn:Hv; [exfalso|done].
    destruct (Hback _ _ Hv) as (v0 & Hv0 & _). apply (rp_slots _ _ _ _ Hr) in Hv0 as Hv0'.
    assert (Hz1 : i ∈ zombie_queue s1).
    { apply (co_zombies _ _ _ _ (so_coherent _ Hok1)), stat_Some. exists v0. split; congruence. }
    rewrite Hemp in Hz1 by done. set_solver.
  - intros i u Hu Hi. eapply (rp_freed _ _ _ _ Hr); [done|]. by apply Hnone.
  - apply (rp_frames _ _ _ _ Hr).
  - intros p k HB HB'. destruct (rp_unfreed _ _ _ _ Hr p k HB HB') as (i & u & Hu & Hi & Hp).
    exists i, u. split_and!; try done.
    + destruct (decide (status u = Terminated)) as [|Hne]; [done|].
      rewrite (rp_kept _ _ _ _ Hr i u Hu) in Hi by auto. done.
    + destruct (slot s' i) as [v|] eqn:Hv; [|done]. destruct (Hback _ _ Hv) as (v0 & Hv0 & _). congruence.
Qed.

(** ** New tasks *)

Lemma free_slot_spec l : (free_slot l <= length l)%nat /\ mjoin (l !! free_slot l) = None.
Proof. induction l as [|[t|] l [IH1 IH2]]; cbn; try done; [|split; [lia|done]]. split; [lia|done]. Qed.

(** Filling the free slot, by [push] or by assignment. *)
Lemma fill_slot l t :
  let id := free_slot l in
  exists tasks,
    (if decide (id = length l) then Done (l ++ [Some t]) else index_set l id (Some t)) = Done tasks /\
    (length l <= length tasks)%nat /\
    forall j, mjoin (tasks !! j) = if decide (id = j) then Some t else mjoin (l !! j).
Proof.
  cbv zeta. destruct (free_slot_spec l) as [Hle Hnone]. case_decide as Heq.
  - exists (l ++ [Some t]). rewrite length_app. split_and!; [done|lia|]. intros j. case_decide as Hj.
    + subst j. by rewrite Heq, list_lookup_middle.
    + destruct (decide (j < length l)%nat) as [Hlt|Hge]; [by rewrite lookup_app_l|].
      rewrite lookup_ge_None_2 by (rewrite length_app; cbn; lia). by rewrite lookup_ge_None_2 by lia.
  - rewrite index_set_Done by lia. eexists. split; [done|]. rewrite length_insert. split; [done|].
    intros j. apply slot_tasks_insert. lia.
Qed.

Lemma stack_pages_bound size :
  usize size -> let pages := stack_pages size in
  0 <= pages < 2 ^ 52 /\ (pages <> 0 -> size <= pages * 4096 < size + 4096).
Proof.
  intros Hs. unfold stack_pages, usize in *. rewrite PAGE_SIZE_eq. cbv zeta.
  assert (Hw : size ⊞ 4096 ⊟ 1 = wrap (size + 4095)).
  { unfold wadd, wsub, wrap. rewrite Zminus_mod_idemp_l. f_equal. lia. }
  rewrite Hw. unfold wrap. destruct (decide (size + 4095 < USIZE)).
  - rewrite Z.mod_small by lia. pose proof (Z.div_mod (size + 4095) 4096).
    pose proof (Z.mod_pos_bound (size + 4095) 4096). lia.
  - replace (size + 4095) with (size + 4095 - USIZE + 1 * USIZE) by lia.
    rewrite Z.mod_add, Z.mod_small, Z.div_small by lia. lia.
Qed.

(** The effect of a successful [spawn]. *)
Record spawned (s : Scheduler) (B : gmap Z Z) (fat : Z * Z) (size prio : Z) (fs' : FA)
    (s' : Scheduler) : Prop := {
  sp_ok : sched_ok s';
  sp_idle : idle_ok s \/ task_list s = [] -> idle_ok s';
  sp_current : current_task_id s' = current_task_id s;
  sp_ready : ready_queue s' = ready_queue s ++ [free_slot (task_list s)];
  sp_blocked : blocked_queue s' = blocked_queue s;
  sp_fresh : slot s (free_slot (task_list s)) = None;
  sp_other j : j <> free_slot (task_list s) -> slot s' j = slot s j;
  sp_task : exists t, slot s' (free_slot (task_list s)) = Some t /\
    status t = Ready /\ entry_point t = fat /\ priority t = prio /\
    page_count t = stack_pages size /\ size <= page_count t * 4096 /\
    context t = new_task_context trampoline (stack_base t ⊞ page_count t * 4096) fat.1 fat.2 /\
    B !! stack_ppn t = None /\ stacks_ok fs' s' (<[stack_ppn t := page_count t]> B)
}.

Lemma stacks_ok_insert fs fs' s s' B i t :
  stacks_ok fs s B -> slot s i = None -> stack_ok t -> B !! stack_ppn t = None ->
  fa_owns fs' (<[stack_ppn t := page_count t]> B) ->
  (forall j, slot s' j = if decide (i = j) then Some t else slot s j) ->
  stacks_ok fs' s' (<[stack_ppn t := page_count t]> B).
Proof.
  intros [_ Hst Hinj] Hi Hok HB Ho Hs'.
  assert (Hfresh : forall j u, slot s j = Some u -> stack_ppn t <> stack_ppn u).
  { intros j u Hj Heq. destruct (Hst _ _ Hj) as [_ HBu]. rewrite <- Heq in HBu. congruence. }
  split; [done| |].
  - intros j u Hj. rewrite Hs' in Hj. case_decide; [injection Hj as <-; by rewrite lookup_insert_eq|].
    rewrite lookup_insert_ne by (by eapply Hfresh). by eapply Hst.
  - intros j k u v Hj Hk. rewrite Hs' in Hj, Hk.
    destruct (decide (i = j)) as [<-|], (decide (i = k)) as [<-|]; simplify_eq; try done.
    + intros Heq. by destruct (Hfresh _ _ Hk).
    + intros Heq. by destruct (Hfresh _ _ Hj).
    + by eapply Hinj.
Qed.

Lemma spawn_ok fs s B fat size prio :
  sched_ok s -> stacks_ok fs s B -> usize size ->
  exists r fs' s', spawn trampoline fs s fat size prio = Done (r, (fs', s')) /\
    match r with
    | inl _ => spawned s B fat size prio fs' s'
    | inr e => e = MemoryAllocationError /\ s' = s /\ stacks_ok fs' s B
    end.
Proof.
  intros Hok Hst Hsize. unfold spawn.
  destruct (stack_pages_bound size Hsize) as [Hpg Hcover].
  destruct (Z.eqb_spec (stack_pages size) 0) as [|Hnz]; [by eexists _, _, _|].
  destruct (fa_alloc_ok fs B (stack_pages size) (st_owns _ _ _ Hst) ltac:(lia))
    as (r & fs' & -> & Hr). cbn [mbind outcome_bind].
  destruct r as [ppn|].
  2: { eexists _, _, _. split; [done|]. split_and!; try done. destruct Hst. by split. }
  destruct Hr as (Hppn & Hmax & HB & Hown). unfold DIRECT_MAP_PAGES in Hmax.
  rewrite PhysAddr_from_PhysPageNum_mul, phys_to_virt_small by lia.
  destruct (Z.eqb_spec (ppn * 4096 + PHYS_VIRT_OFFSET) 0) as [Habs|_];
    [unfold PHYS_VIRT_OFFSET in Habs; lia|]. cbn [unwrap mbind outcome_bind].
  destruct fat as [data vt]. set (t := mkTCB _ _ _ _ _ _ _).
  destruct (fill_slot (task_list s) t) as (tasks & -> & Hlen & Htasks). cbn [mbind outcome_bind].
  set (id := free_slot (task_list s)) in *.
  assert (Hid : slot s id = None) by apply free_slot_spec.
  set (s' := set_ready (set_tasks s tasks) (ready_queue s ++ [id])).
  assert (Hs' : forall j, slot s' j = if decide (id = j) then Some t else slot s j) by exact Htasks.
  assert (Hp : stack_ppn t = ppn).
  { unfold stack_ppn. cbn. rewrite <- phys_to_virt_small, virt_to_phys_to_virt by (unfold usize; lia).
    by rewrite Z.div_mul. }
  eexists _, fs', s'. split; [done|]. split; try done.
  - split; [| |apply Hok|].
    + eapply coherent_proper; [|done|done|eapply (coherent_enqueue _ _ _ _ (so_coherent _ Hok) id)].
      * intros j. unfold stat. rewrite Hs'. case_decide; [subst j; by rewrite fn_lookup_insert|].
        by rewrite fn_lookup_insert_ne.
      * right. unfold stat. by rewrite Hid.
    + intros j u. rewrite Hs'. case_decide; [by intros [= <-]|]. apply (so_ids _ Hok).
    + eapply Forall_impl; [apply Hok|]. cbn. intros e He. lia.
  - intros Hi. unfold idle_ok, stat. rewrite Hs'. destruct (decide (id = 0%nat)); [by left|].
    destruct Hi as [Hi|Hi]; [exact Hi|]. unfold id in *. by rewrite Hi in *.
  - intros j Hj. by rewrite Hs', decide_False.
  - exists t. rewrite Hs', decide_True by done. split_and!; try done.
    + cbn. lia.
    + cbn. by rewrite PAGE_SIZE_eq, (wmul_small _ 4096) by lia.
    + by rewrite Hp.
    + eapply stacks_ok_insert; [exact Hst|exact Hid| |by rewrite Hp|by rewrite Hp|exact Hs'].
      unfold stack_ok. rewrite Hp. cbn. rewrite phys_to_virt_small by lia. unfold DIRECT_MAP_PAGES.
      split_and!; try done; lia.
Qed.
End Spec.

(** ** A booted system, on the buddy allocator *)

Definition tasks_of {A} (d : Frames * Scheduler) (o : outcome (A * (Frames * Scheduler))) : Frames * Scheduler :=
  match o with Done (_, p) => p | Fault _ => d end.

(** The idle task and two more, on the eight pages of [example_frames]. *)
Definition boot0 : Frames * Scheduler := (example_frames, Scheduler_new).
Definition boot1 : Frames * Scheduler :=
  tasks_of boot0 (Scheduler_init 0x80201000 boot0.1 boot0.2 (8, 0x80300000)).
Definition boot2 : Frames * Scheduler :=
  tasks_of boot1 (spawn 0x80201000 boot1.1 boot1.2 (8, 0x80300020) 8192 1).
Definition boot3 : Frames * Scheduler :=
  tasks_of boot2 (spawn 0x80201000 boot2.1 boot2.2 (8, 0x80300040) 8192 1).

Definition system_ok (p : Frames * Scheduler) : Prop :=
  sched_ok p.2 /\ exists B, stacks_ok p.1 p.2 B.

Lemma boot0_ok : system_ok boot0.
Proof.
  split.
  - split; cbn; try done; try constructor; try done; try apply NoDup_nil_2; set_solver.
  - exists ∅. split; try done. split; [|intros p n Hp; by rewrite lookup_empty in Hp].
    exists {[0x80400000 := 3%nat]}. split; [apply example_frames_ok|].
    split; intros a (p & o & Hp & Ha); [|by change ((∅ : Blocks) !! p = Some o) in Hp; rewrite lookup_empty in Hp].
    apply lookup_singleton_Some in Hp as [<- <-]. change (bsize 3) with 32768 in Ha.
    unfold DIRECT_MAP_PAGES. lia.
Qed.

Lemma boot_step p fat size prio :
  system_ok p -> usize size ->
  (fst <$> spawn 0x80201000 p.1 p.2 fat size prio) = Done (inl ()) ->
  system_ok (tasks_of p (spawn 0x80201000 p.1 p.2 fat size prio)) /\
  (idle_ok p.2 \/ task_list p.2 = [] -> idle_ok (tasks_of p (spawn 0x80201000 p.1 p.2 fat size prio)).2).
Proof.
  intros [Hok [B Hst]] Hs Heq.
  destruct (spawn_ok 0x80201000 p.1 p.2 B fat size prio Hok Hst Hs) as (r & fs' & s' & Hrun & Hr).
  rewrite Hrun in Heq |- *. cbn in Heq. injection Heq as ->. cbn. destruct Hr as [? ? ? ? ? ? ? Ht].
  destruct Ht as (t & _ & _ & _ & _ & _ & _ & _ & _ & Hst'). split; [|done].
  split; [done|]. by eexists.
Qed.

Lemma boot3_ok : system_ok boot3 /\ idle_ok boot3.2.
Proof.
  destruct (boot_step boot0 (8, 0x80300000) 4096 0 boot0_ok) as [H1 I1];
    [split; done|vm_compute; reflexivity|]. change (system_ok boot1) in H1.
  destruct (boot_step boot1 (8, 0x80300020) 8192 1 H1) as [H2 I2];
    [split; done|vm_compute; reflexivity|]. change (system_ok boot2) in H2.
  destruct (boot_step boot2 (8, 0x80300040) 8192 1 H2) as [H3 I3];
    [split; done|vm_compute; reflexivity|]. split; [exact H3|].
  apply I3. left. apply I2. left. apply I1. by right.
Qed.

(** ** Theorems *)

(** C11: [prepare_next_task] never panics. It reaps terminated tasks (except the
    current one, whose stack it runs on), frees exactly their stacks, puts the
    current task at the end of the ready queue if it is still running, and hands
    the processor to the first ready task, to the idle task only if no other is
    ready; every other task and its context are unchanged, and the invariant of
    the scheduler is kept. *)
Theorem prepare_next_task_spec {FA} `{FrameAllocatorLaws FA} fs s B :
  sched_ok s -> idle_ok s -> stacks_ok fs s B ->
  exists n fs' s' B', prepare_next_task fs s = Done (n, (fs', s')) /\ rescheduled s B n fs' s' B'.
Proof. apply prepare_next_task_ok. Qed.

Lemma prepare_next_task_spec_witness :
  exists n p, prepare_next_task boot3.1 boot3.2 = Done (n, p) /\ n = 1%nat /\ idle_ok p.2.
Proof.
  destruct boot3_ok as [[Hok [B Hst]] Hidle].
  destruct (prepare_next_task_spec boot3.1 boot3.2 B Hok Hidle Hst) as (n & fs' & s' & B' & Heq & Hr).
  exists n, (fs', s'). split; [done|]. split; [|apply Hr].
  pose proof (rs_pick _ _ _ _ _ _ Hr) as Hp.
  assert (Hq : pick (ready_queue boot3.2 ++ requeued boot3.2) = (1%nat, [2%nat; 0%nat]))
    by (vm_compute; reflexivity).
  rewrite Hq in Hp. by injection Hp.
Defined.

(** Calling [prepare_next_task] [n] times, as [n] timer interrupts do; the tasks
    that got the processor. *)
Fixpoint ticks {FA} `{FrameAllocator FA} (n : nat) (fs : FA) (s : Scheduler)
    : outcome (list nat * (FA * Scheduler)) :=
  match n with
  | O => Done ([], (fs, s))
  | S n =>
      '(x, (fs', s')) ← prepare_next_task fs s;
      '(l, p) ← ticks n fs' s';
      Done (x :: l, p)
  end.

Lemma ticks_total {FA} `{FrameAllocatorLaws FA} n : forall fs s B,
  sched_ok s -> idle_ok s -> stacks_ok fs s B -> exists l p, ticks n fs s = Done (l, p).
Proof.
  induction n as [|n IH]; intros fs s B Hok Hidle Hst; cbn [ticks]; [by eexists _, _|].
  destruct (prepare_next_task_ok fs s B Hok Hidle Hst) as (x & fs' & s' & B' & -> & Hr).
  cbn [mbind outcome_bind].
  destruct (IH fs' s' B') as (l & p & ->); [apply Hr..|]. by eexists _, _.
Qed.

Lemma ticks_reach {FA} `{FrameAllocatorLaws FA} n : forall fs s B pre x post,
  sched_ok s -> idle_ok s -> stacks_ok fs s B ->
  ready_queue s = pre ++ x :: post -> x <> 0%nat -> (length pre < n)%nat ->
  exists l p, ticks n fs s = Done (l, p) /\ x ∈ l.
Proof.
  induction n as [|n IH]; intros fs s B pre x post Hok Hidle Hst Hq Hx Hn; [lia|]. cbn [ticks].
  destruct (prepare_next_task_ok fs s B Hok Hidle Hst) as (y & fs' & s' & B' & -> & Hr).
  cbn [mbind outcome_bind]. pose proof (rs_pick _ _ _ _ _ _ Hr) as Hp.
  rewrite Hq, <- app_assoc, <- app_comm_cons in Hp.
  destruct (pick_progress pre x (post ++ requeued s) Hx) as [Hnow|(pre' & post' & Hlater & Hlen)];
    rewrite <- Hp in *; cbn in *.
  - subst y. destruct (ticks_total n fs' s' B') as (l & p & ->); [apply Hr..|].
    eexists _, _. split; [done|]. left.
  - destruct (IH fs' s' B' pre' x post') as (l & p & -> & Hin); [apply Hr..|done|done|lia|].
    eexists _, _. split; [done|]. by right.
Qed.

(** round robin is fair: a ready task other than the idle task gets the
    processor within as many timer interrupts as there are tasks up to it in the
    ready queue. *)
Theorem round_robin_fair {FA} `{FrameAllocatorLaws FA} fs s B pre x post :
  sched_ok s -> idle_ok s -> stacks_ok fs s B ->
  ready_queue s = pre ++ x :: post -> x <> 0%nat ->
  exists l p, ticks (S (length pre)) fs s = Done (l, p) /\ x ∈ l.
Proof. intros. eapply ticks_reach; [done..|lia]. Qed.

Lemma round_robin_fair_witness :
  exists l p, ticks 3 boot3.1 boot3.2 = Done (l, p) /\ 2%nat ∈ l.
Proof.
  destruct boot3_ok as [[Hok [B Hst]] Hidle].
  assert (Hq : ready_queue boot3.2 = [0%nat; 1%nat; 2%nat]) by (vm_compute; reflexivity).
  exact (round_robin_fair boot3.1 boot3.2 B [0%nat; 1%nat] 2%nat [] Hok Hidle Hst Hq ltac:(done)).
Defined.

(** the stacks of two tasks never overlap. *)
Theorem task_stacks_disjoint {FA} `{FrameAllocatorLaws FA} fs s B i j t u :
  stacks_ok fs s B -> slot s i = Some t -> slot s j = Some u -> i <> j ->
  stack_base t + page_count t * PAGE_SIZE <= stack_base u \/
  stack_base u + page_count u * PAGE_SIZE <= stack_base t.
Proof.
  intros [Ho Hst Hinj] Hi Hj Hne. rewrite PAGE_SIZE_eq.
  destruct (Hst _ _ Hi) as [(Hb & H1 & H2 & H3) HB]. destruct (Hst _ _ Hj) as [(Hb' & H1' & H2' & H3') HB'].
  unfold DIRECT_MAP_PAGES in *. rewrite phys_to_virt_small in Hb, Hb' by lia.
  destruct (fa_owned_disjoint fs B _ _ _ _ Ho HB HB') as [|]; [|lia|lia].
  intros Heq. apply Hne. by eapply Hinj.
Qed.

Lemma task_stacks_disjoint_witness :
  exists t u, slot boot3.2 1 = Some t /\ slot boot3.2 2 = Some u /\
    (stack_base t + page_count t * PAGE_SIZE <= stack_base u \/
     stack_base u + page_count u * PAGE_SIZE <= stack_base t).
Proof.
  destruct boot3_ok as [[Hok [B Hst]] Hidle].
  assert (Hs : forall i, i = 1%nat \/ i = 2%nat -> is_Some (slot boot3.2 i)).
  { intros i Hi. assert (Hst' : stat boot3.2 i = Some Ready) by (destruct Hi as [-> | ->]; vm_compute; reflexivity).
    apply stat_Some in Hst' as (t & Ht & _). by exists t. }
  destruct (Hs 1%nat) as [t Ht]; [by left|]. destruct (Hs 2%nat) as [u Hu]; [by right|].
  exists t, u. split_and!; [done|done|].
  apply (task_stacks_disjoint boot3.1 boot3.2 B 1 2 t u Hst Ht Hu). done.
Defined.



(** The running task, as the blocking operations find it. *)
Lemma current_running s c :
  current_task_id s = Some c -> stat s c = Some Running ->
  exists t, slot s c = Some t /\ status t = Running /\ index (task_list s) c = Done (Some t).
Proof.
  intros _ (t & Ht & Hst)%stat_Some. exists t. split_and!; [done..|]. by apply index_slot.
Qed.

Lemma set_current_task_sleep_ok s c wake :
  sched_ok s -> idle_ok s -> current_task_id s = Some c -> stat s c = Some Running -> c <> 0%nat ->
  exists n s', set_current_task_sleep s wake = Done (n, s') /\ switched s c Blocked n s' /\ c <> n /\ stat s n = Some Ready /\
    (n, ready_queue s') = pick (ready_queue s) /\ zombie_queue s' = zombie_queue s /\
    blocked_queue s' ≡ₚ mkSleepEntry wake c :: blocked_queue s /\
    (n = 0%nat -> forall i, stat s i = Some Ready -> i = 0%nat) /\
    length (task_list s') = length (task_list s).
Proof.
  intros Hok Hidle Hc Hrun Hc0. destruct (current_running s c Hc Hrun) as (t & Ht & Hst & Hidx).
  unfold set_current_task_sleep. rewrite Hc, Hidx. cbn [mbind outcome_bind]. rewrite Hst.
  destruct (block_switched s c t (heap_push (mkSleepEntry wake c) (blocked_queue s)))
    as (n & s' & Heq & Hsw & Hne & Hrdy & Hn & Hq & Hb & Hz & Hlen & Hlast); try done.
  - apply heap_push_sorted, Hok.
  - rewrite heap_push_perm. constructor; [by eapply slot_lt|apply Hok].
  - exists n, s'. split; [exact Heq|]. rewrite Hb. split_and!; try done; [|apply heap_push_perm].
    rewrite Hn, Hq. symmetry. apply surjective_pairing.
Qed.

(** [set_current_task_sleep] blocks the running task, records exactly one new
    entry with its wake-up time, and hands the processor to the next ready task;
    it never reaches its [unreachable!()]. *)
Theorem set_current_task_sleep_spec s c wake :
  sched_ok s -> idle_ok s -> current_task_id s = Some c -> stat s c = Some Running -> c <> 0%nat ->
  exists n s', set_current_task_sleep s wake = Done (n, s') /\ switched s c Blocked n s' /\ c <> n /\ stat s n = Some Ready /\
    (n, ready_queue s') = pick (ready_queue s) /\ zombie_queue s' = zombie_queue s /\
    blocked_queue s' ≡ₚ mkSleepEntry wake c :: blocked_queue s /\
    (n = 0%nat -> forall i, stat s i = Some Ready -> i = 0%nat).
Proof.
  intros Hok Hidle Hc Hrun Hc0.
  destruct (set_current_task_sleep_ok s c wake Hok Hidle Hc Hrun Hc0) as (n & s' & ? & ? & ? & ? & ? & ? & ? & ? & _).
  by exists n, s'.
Qed.

Lemma block_current_task_ok s c :
  sched_ok s -> idle_ok s -> current_task_id s = Some c -> stat s c = Some Running -> c <> 0%nat ->
  exists n s', block_current_task s = Done (n, s') /\ switched s c Blocked n s' /\ c <> n /\ stat s n = Some Ready /\
    (n, ready_queue s') = pick (ready_queue s) /\ zombie_queue s' = zombie_queue s /\
    blocked_queue s' = blocked_queue s /\
    (n = 0%nat -> forall i, stat s i = Some Ready -> i = 0%nat) /\
    length (task_list s') = length (task_list s).
Proof.
  intros Hok Hidle Hc Hrun Hc0. destruct (current_running s c Hc Hrun) as (t & Ht & Hst & Hidx).
  unfold block_current_task. rewrite Hc, Hidx. cbn [mbind outcome_bind]. rewrite Hst.
  destruct (block_switched s c t (blocked_queue s))
    as (n & s' & Heq & Hsw & Hne & Hrdy & Hn & Hq & Hb & Hz & Hlen & Hlast); try done; [apply Hok..|].
  exists n, s'. split; [exact Heq|]. split_and!; try done.
  rewrite Hn, Hq. symmetry. apply surjective_pairing.
Qed.

(** [block_current_task] blocks the running task without a wake-up time and
    hands the processor to the next ready task; it never reaches its
    [unreachable!()]. *)
Theorem block_current_task_spec s c :
  sched_ok s -> idle_ok s -> current_task_id s = Some c -> stat s c = Some Running -> c <> 0%nat ->
  exists n s', block_current_task s = Done (n, s') /\ switched s c Blocked n s' /\ c <> n /\ stat s n = Some Ready /\
    (n, ready_queue s') = pick (ready_queue s) /\ zombie_queue s' = zombie_queue s /\
    blocked_queue s' = blocked_queue s /\
    (n = 0%nat -> forall i, stat s i = Some Ready -> i = 0%nat).
Proof.
  intros Hok Hidle Hc Hrun Hc0.
  destruct (block_current_task_ok s c Hok Hidle Hc Hrun Hc0) as (n & s' & ? & ? & ? & ? & ? & ? & ? & ? & _).
  by exists n, s'.
Qed.

(** C25: [finish_sleep] terminates without panicking, removes exactly the entries
    that are due from the heap, makes exactly the blocked tasks among their owners
    ready at the end of the queue, and changes nothing else. *)
Theorem finish_sleep_spec s now :
  sched_ok s ->
  exists s', finish_sleep s now = Done s' /\ sched_ok s' /\ woken now (blocked_queue s) s s' /\
    blocked_queue s' = filter (fun e => now < wake_time e) (blocked_queue s).
Proof. intros Hok. apply finish_sleep_loop_ok; [done|lia|done]. Qed.

Lemma wake_up_task_with_result_ok s i t result :
  sched_ok s -> slot s i = Some t ->
  exists s', wake_up_task_with_result s i result = Done s' /\ sched_ok s' /\
    current_task_id s' = current_task_id s /\ blocked_queue s' = blocked_queue s /\
    length (task_list s') = length (task_list s) /\ (status t <> Blocked -> s' = s) /\
    (status t = Blocked ->
       ready_queue s' = ready_queue s ++ [i] /\
       slot s' i = Some (set_context (set_status t Ready) (set_a0 (context t) result)) /\
       forall j, j <> i -> slot s' j = slot s j).
Proof.
  intros Hok Hi. unfold wake_up_task_with_result. rewrite (index_slot _ _ _ Hi). cbn [mbind outcome_bind].
  destruct (decide (status t = Blocked)) as [Hst|Hst].
  2: { exists s. split_and!; try done. by destruct (status t). }
  rewrite Hst. eexists. split; [done|]. split; [by eapply enqueue_ok|].
  split; [done|]. split; [done|]. split; [apply length_insert|].
  split; [done|]. intros _. split; [done|].
  split; [by rewrite (slot_set_task _ _ _ _ _ _ Hi), decide_True|].
  intros j Hj. by rewrite (slot_set_task _ _ _ _ _ _ Hi), decide_False.
Qed.

(** [wake_up_task_with_result] makes a blocked task ready with the result in
    register [a0] and is the identity on a task that is not blocked. *)
Theorem wake_up_task_with_result_spec s i t result :
  sched_ok s -> slot s i = Some t ->
  exists s', wake_up_task_with_result s i result = Done s' /\ sched_ok s' /\
    (status t <> Blocked -> s' = s) /\
    (status t = Blocked ->
       ready_queue s' = ready_queue s ++ [i] /\
       slot s' i = Some (set_context (set_status t Ready) (set_a0 (context t) result)) /\
       forall j, j <> i -> slot s' j = slot s j).
Proof.
  intros Hok Hi.
  destruct (wake_up_task_with_result_ok s i t result Hok Hi) as (s' & ? & ? & _ & _ & _ & ? & ?).
  by exists s'.
Qed.

(** [exit_current_task] on the running task. *)
Lemma exit_current_task_ok s c t :
  sched_ok s -> current_task_id s = Some c -> slot s c = Some t -> status t = Running ->
  exists s', exit_current_task s = Done s' /\ sched_ok s' /\ current_task_id s' = Some c /\
    ready_queue s' = ready_queue s /\ blocked_queue s' = blocked_queue s /\
    length (task_list s') = length (task_list s) /\
    forall j, slot s' j = if decide (c = j) then Some (set_status t Terminated) else slot s j.
Proof.
  intros Hok Hc Ht Hst. unfold exit_current_task, get_current_task_id. rewrite Hc.
  cbn [unwrap mbind outcome_bind]. rewrite (index_slot _ _ _ Ht). cbn [mbind outcome_bind].
  eexists. split; [done|]. split_and!; try done.
  - eapply (sched_ok_update s c t); [done|done|exact (so_ids _ Hok _ _ Ht)| |apply Hok|apply Hok].
    eapply coherent_exit; [apply Hok|]. apply stat_Some. by exists t.
  - cbn. apply length_insert.
  - intros j. unfold slot. cbn. apply slot_tasks_insert. by eapply slot_lt.
Qed.

(** C26: the end of a task: after [exit_current_task], the next [prepare_next_task]
    switches to another task and keeps the slot and the stack of the exiting task,
    on which it still runs; the one after that, run by another task, frees the
    stack and empties the slot. *)
Theorem exit_lifecycle {FA} `{FrameAllocatorLaws FA} fs s B c t :
  sched_ok s -> idle_ok s -> stacks_ok fs s B ->
  current_task_id s = Some c -> slot s c = Some t -> status t = Running -> c <> 0%nat ->
  exists s1 n fs2 s2 B2 n' fs3 s3 B3,
    exit_current_task s = Done s1 /\
    prepare_next_task fs s1 = Done (n, (fs2, s2)) /\ stacks_ok fs2 s2 B2 /\ n <> c /\
    slot s2 c = Some (set_status t Terminated) /\ B2 !! stack_ppn t = Some (page_count t) /\
    prepare_next_task fs2 s2 = Done (n', (fs3, s3)) /\ stacks_ok fs3 s3 B3 /\
    slot s3 c = None /\ B3 !! stack_ppn t = None.
Proof.
  intros Hok Hidle Hst Hc Ht Hrun Hc0.
  destruct (exit_current_task_ok s c t Hok Hc Ht Hrun) as (s1 & Hexit & Hok1 & Hc1 & Hq1 & Hb1 & _ & Hs1).
  assert (Hidle1 : idle_ok s1) by (unfold idle_ok, stat in *; by rewrite Hs1, decide_False).
  assert (Hst1 : stacks_ok fs s1 B).
  { eapply stacks_ok_mono; [|exact Hst]. intros i u. rewrite Hs1.
    destruct (decide (c = i)) as [<-|]; [intros [= <-]; by exists t|]. intros Hu. by exists u. }
  assert (Htc : slot s1 c = Some (set_status t Terminated)) by (by rewrite Hs1, decide_True).
  destruct (prepare_next_task_ok fs s1 B Hok1 Hidle1 Hst1) as (n & fs2 & s2 & B2 & Hp2 & R2).
  destruct (rs_exiting _ _ _ _ _ _ R2 c Hc1) as [Hnc Hs2]; [unfold stat; by rewrite Htc|].
  destruct (prepare_next_task_ok fs2 s2 B2) as (n' & fs3 & s3 & B3 & Hp3 & R3); [apply R2..|].
  rewrite Htc in Hs2. pose proof (rs_stacks _ _ _ _ _ _ R2) as Hst2.
  assert (Hgone : slot s3 c = None).
  { apply (rs_reaped _ _ _ _ _ _ R3); [|unfold stat; by rewrite Hs2].
    intros c' Hc'. rewrite (rs_current _ _ _ _ _ _ R2) in Hc'. injection Hc' as <-. apply R2. }
  eexists _, _, _, _, B2, _, _, _, B3. split_and!; try done; [|apply R3|].
  - by apply (st_stack _ _ _ Hst2) in Hs2 as [_ ?].
  - by apply (rs_freed _ _ _ _ _ _ R3 c _ Hs2).
Qed.

(** ** Witnesses: task 1 runs, then sleeps *)

Definition run1 : Frames * Scheduler := tasks_of boot3 (prepare_next_task boot3.1 boot3.2).

Lemma run1_ok :
  system_ok run1 /\ idle_ok run1.2 /\ current_task_id run1.2 = Some 1%nat /\ stat run1.2 1 = Some Running.
Proof.
  destruct boot3_ok as [[Hok [B Hst]] Hidle].
  destruct (prepare_next_task_ok boot3.1 boot3.2 B Hok Hidle Hst) as (n & fs' & s' & B' & Heq & Hr).
  assert (Hn : (fst <$> prepare_next_task boot3.1 boot3.2) = Done 1%nat) by (vm_compute; reflexivity).
  unfold run1. rewrite Heq in *. cbn in Hn. injection Hn as ->. cbn.
  destruct Hr as [R1 R2 R3 R4 R5 _ _ _ _ _ _ _ _ _ _ _ _]. split; [split; [exact R1|exists B'; exact R3]|]. split; [exact R2|]. split; [exact R4|exact R5].
Qed.

#[local] Opaque boot0 boot1 boot2 boot3 run1.

Lemma set_current_task_sleep_spec_witness :
  exists n s', set_current_task_sleep run1.2 100 = Done (n, s') /\
    stat s' 1 = Some Blocked /\ blocked_queue s' ≡ₚ [mkSleepEntry 100 1].
Proof.
  destruct run1_ok as ([Hok _] & Hidle & Hc & Hrun).
  destruct (set_current_task_sleep_spec run1.2 1 100 Hok Hidle Hc Hrun ltac:(done))
    as (n & s' & Heq & Hsw & Hne & _ & _ & _ & Hb & _).
  exists n, s'. split_and!; [done| |].
  - unfold stat. rewrite (sw_prev _ _ _ _ _ Hsw Hne). apply stat_Some in Hrun as (t & -> & _). done.
  - assert (Hb1 : blocked_queue run1.2 = []) by (vm_compute; reflexivity). by rewrite Hb1 in Hb.
Defined.

Lemma block_current_task_spec_witness :
  exists n s', block_current_task run1.2 = Done (n, s') /\ stat s' n = Some Running.
Proof.
  destruct run1_ok as ([Hok _] & Hidle & Hc & Hrun).
  destruct (block_current_task_spec run1.2 1 Hok Hidle Hc Hrun ltac:(done)) as (n & s' & Heq & Hsw & _).
  exists n, s'. split; [done|]. apply Hsw.
Defined.

Lemma exit_lifecycle_witness :
  exists s1 n fs2 s2, exit_current_task run1.2 = Done s1 /\
    prepare_next_task run1.1 s1 = Done (n, (fs2, s2)) /\ n <> 1%nat.
Proof.
  destruct run1_ok as ([Hok [B Hst]] & Hidle & Hc & Hrun). apply stat_Some in Hrun as (t & Ht & Hrun).
  destruct (exit_lifecycle run1.1 run1.2 B 1 t Hok Hidle Hst Hc Ht Hrun ltac:(done))
    as (s1 & n & fs2 & s2 & B2 & n' & fs3 & s3 & B3 & H1 & H2 & _ & H3 & _).
  exists s1, n, fs2, s2. split; [exact H1|]. split; [exact H2|exact H3].
Defined.

(** Task 1 asleep until time 100. *)
Definition asleep (s : Scheduler) : Scheduler :=
  match set_current_task_sleep s 100 with Done (_, s') => s' | Fault _ => s end.

Lemma asleep_ok s :
  sched_ok s -> idle_ok s -> current_task_id s = Some 1%nat -> stat s 1 = Some Running ->
  blocked_queue s = [] ->
  sched_ok (asleep s) /\ stat (asleep s) 1 = Some Blocked /\ blocked_queue (asleep s) = [mkSleepEntry 100 1].
Proof.
  intros Hok Hidle Hc Hrun Hb1. destruct (current_running s 1 Hc Hrun) as (t & Ht & Hst & Hidx).
  destruct (block_switched s 1 t [mkSleepEntry 100 1]) as (n & s' & Heq & Hsw & Hne & _ & _ & _ & Hb & _);
    try done; [repeat constructor|constructor; [by eapply slot_lt|constructor]|].
  unfold asleep, set_current_task_sleep. rewrite Hc, Hidx. cbn [mbind outcome_bind].
  rewrite Hst. cbn [blocked_queue set_task set_tasks]. rewrite Hb1. cbn [heap_push]. rewrite Heq.
  split; [apply Hsw|]. split; [|done]. unfold stat. by rewrite (sw_prev _ _ _ _ _ Hsw Hne), Ht.
Qed.

Definition run2 : Scheduler := asleep run1.2.

Lemma run2_ok : sched_ok run2 /\ stat run2 1 = Some Blocked /\ blocked_queue run2 = [mkSleepEntry 100 1].
Proof.
  destruct run1_ok as ([Hok _] & Hidle & Hc & Hrun).
  apply (asleep_ok run1.2 Hok Hidle Hc Hrun). vm_compute. reflexivity.
Qed.

#[local] Opaque run2.

Lemma finish_sleep_spec_witness :
  exists s', finish_sleep run2 100 = Done s' /\ stat s' 1 = Some Ready /\ blocked_queue s' = [].
Proof.
  destruct run2_ok as (Hok & Hst & Hb).
  destruct (finish_sleep_spec run2 100 Hok) as (s' & Heq & _ & Hw & Hb').
  exists s'. rewrite Hb in Hb', Hw. split_and!; [done| |done].
  apply stat_Some in Hst as (t & Ht & Hbl). unfold stat.
  rewrite (wk_due _ _ _ _ Hw 1 t Ht Hbl); [done|]. exists (mkSleepEntry 100 1).
  split_and!; [left|done|cbn; lia].
Defined.

Lemma wake_up_task_with_result_spec_witness :
  exists s' t, wake_up_task_with_result run2 1 65 = Done s' /\ slot s' 1 = Some t /\
    ctx_a0 (context t) = 65.
Proof.
  destruct run2_ok as (Hok & Hst & Hb). apply stat_Some in Hst as (t & Ht & Hbl).
  destruct (wake_up_task_with_result_spec run2 1 t 65 Hok Ht) as (s' & Heq & _ & _ & Heff).
  destruct (Heff Hbl) as (_ & Hs & _). eexists s', _. split_and!; [done|done|done].
Defined.
