(* ===== verification/Kernel.v ===== *)
(** * Traps and system calls

    [trap_handler] and what it calls: the timer, the PLIC and UART interrupts
    (src/trap/mod.rs, src/trap/interrupts/mod.rs, src/driver/plic.rs,
    src/trap/interrupts/service/uart_service.rs) and the system calls
    (src/syslib/syscall.rs).

    The kernel state holds the globals ([SCHEDULER], [BUDDY_ALLOCATOR],
    [UART_SERVICE]) and [sscratch]; device registers, the clock and the SBI are the
    environment: what the handler reads from them is an argument ([Env]), what it
    writes to them is logged ([Effect]). Handlers run with interrupts off, so they
    are sequential. A reference to a task context is the pointer [CtxPtr]; the
    context itself stays in the task table, shared between the handler and the
    scheduler as in the code. *)

From S2P Require Import Prelude Address FrameAllocator RingBuf Context Scheduler.

(** ** Trap causes *)

Inductive InterruptCause := SupervisorTimerInterrupt | SupervisorExternalInterrupt | UnknownInterrupt.

Definition InterruptCause_from_code (code : Z) : InterruptCause :=
  if code =? 5 then SupervisorTimerInterrupt
  else if code =? 9 then SupervisorExternalInterrupt
  else UnknownInterrupt.

Inductive ExceptionCause := UserEcall | UnknownException.

Definition ExceptionCause_from_code (code : Z) : ExceptionCause :=
  if code =? 8 then UserEcall else UnknownException.

Inductive TrapCause := Interrupt (c : InterruptCause) | Exception (c : ExceptionCause).

Definition INTERRUPT_BIT : Z := wshl 1 (64 - 1).

Definition parse_trap_cause (scause : Z) : TrapCause :=
  let is_interrupt := negb (Z.land scause INTERRUPT_BIT =? 0) in
  let code := Z.land scause (wnot INTERRUPT_BIT) in
  if is_interrupt then Interrupt (InterruptCause_from_code code)
  else Exception (ExceptionCause_from_code code).

(** ** The PLIC *)

Inductive InterruptRequest := UART | UNKNOWN.

Definition num_to_irq (num : Z) : InterruptRequest := if num =? 10 then UART else UNKNOWN.

Definition to_num (irq : InterruptRequest) : Z := match irq with UART => 10 | UNKNOWN => 717 end.

(** ** Environment and state *)

(** What the handler reads: the clock (twice in the timer interrupt), the claimed
    interrupt, the UART registers, the error code of a failed SBI reset. *)
Record Env := mkEnv {
  e_time : Z;
  e_time2 : Z;
  e_irq : Z;
  e_isr : Z;
  e_rhr : Z;
  e_ier : Z;
  e_sbi_error : Z
}.

(** What it writes. *)
Inductive Effect :=
| SetTimer (t : Z)
| PlicComplete (irq : Z)
| UartTHR (c : Z)
| UartIER (v : Z)
| ReadLSR
| ConsolePutchar (c : Z)
| SystemReset
| PollingPrint.

Inductive CtxPtr := InitCtx | TaskCtx (id : nat).

#[export] Instance CtxPtr_eq_dec : EqDecision CtxPtr.
Proof. solve_decision. Defined.

Definition UART_BUFFER : nat := 4096.

Record Kernel (FA : Type) := mkKernel {
  k_frames : FA;
  k_sched : Scheduler;
  receive_buffer : RingBuffer Z;
  transmit_buffer : RingBuffer Z;
  wait_queue : list nat;
  k_sscratch : CtxPtr;
  k_init_context : TaskContext;
  k_log : list Effect
}.
Arguments mkKernel {FA} _ _ _ _ _ _ _ _.
Arguments k_frames {FA} _.
Arguments k_sched {FA} _.
Arguments receive_buffer {FA} _.
Arguments transmit_buffer {FA} _.
Arguments wait_queue {FA} _.
Arguments k_sscratch {FA} _.
Arguments k_init_context {FA} _.
Arguments k_log {FA} _.

Section Kernel.
Context {FA : Type} `{FrameAllocator FA}.

Definition set_alloc (k : Kernel FA) (fs : FA) (s : Scheduler) : Kernel FA :=
  mkKernel fs s (receive_buffer k) (transmit_buffer k) (wait_queue k) (k_sscratch k)
    (k_init_context k) (k_log k).
Definition set_sched (k : Kernel FA) (s : Scheduler) : Kernel FA := set_alloc k (k_frames k) s.
Definition set_rx (k : Kernel FA) (b : RingBuffer Z) : Kernel FA :=
  mkKernel (k_frames k) (k_sched k) b (transmit_buffer k) (wait_queue k) (k_sscratch k)
    (k_init_context k) (k_log k).
Definition set_tx (k : Kernel FA) (b : RingBuffer Z) : Kernel FA :=
  mkKernel (k_frames k) (k_sched k) (receive_buffer k) b (wait_queue k) (k_sscratch k)
    (k_init_context k) (k_log k).
Definition set_wait (k : Kernel FA) (w : list nat) : Kernel FA :=
  mkKernel (k_frames k) (k_sched k) (receive_buffer k) (transmit_buffer k) w (k_sscratch k)
    (k_init_context k) (k_log k).
Definition set_sscratch (k : Kernel FA) (p : CtxPtr) : Kernel FA :=
  mkKernel (k_frames k) (k_sched k) (receive_buffer k) (transmit_buffer k) (wait_queue k) p
    (k_init_context k) (k_log k).
Definition emit (k : Kernel FA) (e : Effect) : Kernel FA :=
  mkKernel (k_frames k) (k_sched k) (receive_buffer k) (transmit_buffer k) (wait_queue k)
    (k_sscratch k) (k_init_context k) (k_log k ++ [e]).

(** Reading and writing a context through a pointer. A pointer to a task that is no
    longer in the table dangles. *)
Definition read_ctx (k : Kernel FA) (p : CtxPtr) : outcome TaskContext :=
  match p with
  | InitCtx => Done (k_init_context k)
  | TaskCtx id =>
      match task_list (k_sched k) !! id with
      | Some (Some t) => Done (context t)
      | _ => undef "dangling context pointer"
      end
  end.

Definition write_ctx (k : Kernel FA) (p : CtxPtr) (c : TaskContext) : outcome (Kernel FA) :=
  match p with
  | InitCtx =>
      Done (mkKernel (k_frames k) (k_sched k) (receive_buffer k) (transmit_buffer k)
              (wait_queue k) (k_sscratch k) c (k_log k))
  | TaskCtx id =>
      match task_list (k_sched k) !! id with
      | Some (Some t) => Done (set_sched k (set_task (k_sched k) id (set_context t c)))
      | _ => undef "dangling context pointer"
      end
  end.

(** ** UART service *)

Definition UART_FIFO_CAPACITY : nat := 16.

(** The sending loop: at most [n] characters to the transmit register. *)
Fixpoint send_loop (n : nat) (k : Kernel FA) : outcome (Kernel FA) :=
  match n with
  | O => Done k
  | S n =>
      '(c, tr) ← RingBuffer_pop UART_BUFFER (transmit_buffer k);
      match c with
      | Some character => send_loop n (emit (set_tx k tr) (UartTHR character))
      | None => Done (set_tx k tr)
      end
  end.

(** [!0x02] on a byte. *)
Definition not_u8 (b : Z) : Z := 255 - b.

Definition send_data (env : Env) (k : Kernel FA) : outcome (Kernel FA) :=
  k1 ← send_loop UART_FIFO_CAPACITY k;
  if RingBuffer_is_empty (transmit_buffer k1)
  then Done (emit k1 (UartIER (Z.land (e_ier env) (not_u8 0x02))))
  else Done k1.

Definition ISR_CAUSE_MASK : Z := 14.
Definition ISR_RX_AVAILABLE : Z := 4.
Definition ISR_TX_EMPTY : Z := 2.
Definition ISR_LINE_STATUS : Z := 6.

(** [VecDeque::pop_back]. *)
Definition pop_back (q : list nat) : option (nat * list nat) := vec_pop q.

Definition uart_interrupt_handler (env : Env) (k : Kernel FA) : outcome (Kernel FA) :=
  if Z.land (e_isr env) 1 =? 1 then Done k
  else
    let cause := Z.land (e_isr env) ISR_CAUSE_MASK in
    if cause =? ISR_TX_EMPTY then send_data env k
    else if cause =? ISR_RX_AVAILABLE then
      let received_char := e_rhr env in
      if 0x80 <=? received_char then Done k
      else
        match pop_back (wait_queue k) with
        | Some (id, rest) =>
            s ← wake_up_task_with_result (k_sched k) id received_char;
            Done (set_sched (set_wait k rest) s)
        | None =>
            '(_, rb) ← RingBuffer_push UART_BUFFER (receive_buffer k) received_char;
            Done (set_rx k rb)
        end
    else if cause =? ISR_LINE_STATUS then Done (emit k ReadLSR)
    else Done (emit k PollingPrint).

Definition plic_handler (env : Env) (k : Kernel FA) : outcome (Kernel FA) :=
  let irq_num := e_irq env in
  let irq := num_to_irq irq_num in
  k1 ← match irq with
       | UART => uart_interrupt_handler env k
       | UNKNOWN => Done (emit k PollingPrint)
       end;
  Done (emit k1 (PlicComplete (to_num irq))).

(** ** Timer *)

Definition RISCV_ACLINT_DEFAULT_TIMEBASE_FREQ : Z := 10000000.
Definition TEN_MS_CYCLES : Z := RISCV_ACLINT_DEFAULT_TIMEBASE_FREQ / 100.
Definition ONE_MS_CYCLES : Z := RISCV_ACLINT_DEFAULT_TIMEBASE_FREQ / 1000.

Definition set_next_timer_tick (now : Z) (k : Kernel FA) : Kernel FA :=
  emit k (SetTimer (now ⊞ TEN_MS_CYCLES)).

(** [csrw sscratch, next_ctx] and the [sepc] of that context as the return value. *)
Definition switch_context (k : Kernel FA) (next : nat) : outcome (Z * Kernel FA) :=
  let k1 := set_sscratch k (TaskCtx next) in
  c ← read_ctx k1 (TaskCtx next);
  Done (ctx_sepc c, k1).

(** ** System calls *)

Definition schedule (tcb : CtxPtr) (k : Kernel FA) : outcome (Z * Kernel FA) :=
  c ← read_ctx k tcb;
  k1 ← write_ctx k tcb (set_sepc c (ctx_sepc c ⊞ 4));
  '(next, (fs, s)) ← prepare_next_task (k_frames k1) (k_sched k1);
  switch_context (set_alloc k1 fs s) next.

Definition sleep (env : Env) (tcb : CtxPtr) (k : Kernel FA) : outcome (Z * Kernel FA) :=
  c ← read_ctx k tcb;
  k1 ← write_ctx k tcb (set_sepc c (ctx_sepc c ⊞ 4));
  let sleep_ms := ctx_a0 c in
  let target_time := e_time env ⊞ (sleep_ms ⊠ ONE_MS_CYCLES) in
  '(next, s) ← set_current_task_sleep (k_sched k1) target_time;
  switch_context (set_sched k1 s) next.

(** The character, or -1 for one that is not ASCII, goes to [a0]. *)
Definition return_char (tcb : CtxPtr) (c : Z) (k : Kernel FA) : outcome (Z * Kernel FA) :=
  ctx ← read_ctx k tcb;
  k' ← write_ctx k tcb (set_a0 ctx (if 0x80 <=? c then usize_MAX else c));
  Done (ctx_sepc ctx, k').

(** The blocking part of [uart_read]. *)
Definition uart_block (env : Env) (tcb : CtxPtr) (timeout_ms : Z) (k : Kernel FA)
    : outcome (Z * Kernel FA) :=
  ctx ← read_ctx k tcb;
  k1 ← write_ctx k tcb (set_a0 ctx usize_MAX);
  '(next, s) ←
    (if timeout_ms <? usize_MAX
     then set_current_task_sleep (k_sched k1) (e_time env ⊞ (timeout_ms ⊠ ONE_MS_CYCLES))
     else block_current_task (k_sched k1));
  switch_context (set_sched k1 s) next.

Definition uart_read (env : Env) (tcb : CtxPtr) (k : Kernel FA) : outcome (Z * Kernel FA) :=
  ctx ← read_ctx k tcb;
  let timeout_ms := ctx_a0 ctx in
  k1 ← write_ctx k tcb (set_sepc ctx (ctx_sepc ctx ⊞ 4));
  '(c, rb) ← RingBuffer_pop UART_BUFFER (receive_buffer k1);
  let k2 := set_rx k1 rb in
  match c with
  | Some c => return_char tcb c k2
  | None =>
      if timeout_ms =? 0 then
        ctx2 ← read_ctx k2 tcb;
        k3 ← write_ctx k2 tcb (set_a0 ctx2 usize_MAX);
        Done (ctx_sepc ctx2, k3)
      else
        id ← get_current_task_id (k_sched k2);
        let k3 := set_wait k2 (wait_queue k2 ++ [id]) in
        if negb (RingBuffer_is_empty (receive_buffer k3)) then
          let k4 := set_wait k3 (match pop_back (wait_queue k3) with
                                 | Some (_, rest) => rest | None => wait_queue k3 end) in
          '(c, rb) ← RingBuffer_pop UART_BUFFER (receive_buffer k4);
          c ← unwrap "called `Option::unwrap()` on a `None` value" c;
          return_char tcb c (set_rx k4 rb)
        else uart_block env tcb timeout_ms k3
  end.

Definition uart_write_byte (tcb : CtxPtr) (k : Kernel FA) : outcome (Z * Kernel FA) :=
  ctx ← read_ctx k tcb;
  let byte := Z.land (ctx_a0 ctx) 0xff in
  let k1 := emit k (ConsolePutchar byte) in
  let ctx' := set_a0 (set_sepc ctx (ctx_sepc ctx ⊞ 4)) 0 in
  k2 ← write_ctx k1 tcb ctx';
  Done (ctx_sepc ctx', k2).

Definition system_quit (env : Env) (k : Kernel FA) : Z * Kernel FA :=
  (e_sbi_error env, emit k SystemReset).

(** The end of [trap_handler]: the saved [sepc] of the interrupted task. *)
Definition return_saved (tcb : CtxPtr) (k : Kernel FA) : outcome (Z * Kernel FA) :=
  c ← read_ctx k tcb; Done (ctx_sepc c, k).

(** ** The trap handler *)

Definition trap_handler (env : Env) (tcb : CtxPtr) (scause : Z) (k : Kernel FA)
    : outcome (Z * Kernel FA) :=
  match parse_trap_cause scause with
  | Interrupt SupervisorTimerInterrupt =>
      s ← finish_sleep (k_sched k) (e_time env);
      let k1 := set_next_timer_tick (e_time2 env) (set_sched k s) in
      '(next, (fs, s)) ← prepare_next_task (k_frames k1) (k_sched k1);
      switch_context (set_alloc k1 fs s) next
  | Interrupt SupervisorExternalInterrupt =>
      k1 ← plic_handler env k; return_saved tcb k1
  | Interrupt UnknownInterrupt => return_saved tcb (emit k PollingPrint)
  | Exception UserEcall =>
      c ← read_ctx k tcb;
      let syscall_code := ctx_a7 c in
      if syscall_code =? 1 then uart_write_byte tcb k
      else if syscall_code =? 7 then schedule tcb k
      else if syscall_code =? 9 then
        s ← exit_current_task (k_sched k);
        schedule tcb (set_sched k s)
      else if syscall_code =? 10 then Done (system_quit env k)
      else if syscall_code =? 17 then sleep env tcb k
      else if syscall_code =? 27 then uart_read env tcb k
      else return_saved tcb k
  | Exception UnknownException => return_saved tcb (emit k PollingPrint)
  end.

(** A whole trap of the running task: the entry saves the registers into the context
    [sscratch] points to, calls the handler with it, and resumes the context
    [sscratch] points to afterwards at the returned program counter (see
    [Context.v]). *)
Definition trap (env : Env) (scause : Z) (cpu : TaskContext) (k : Kernel FA)
    : outcome (TaskContext * Kernel FA) :=
  k1 ← write_ctx k (k_sscratch k) cpu;
  '(v, k2) ← trap_handler env (k_sscratch k) scause k1;
  c ← read_ctx k2 (k_sscratch k2);
  Done (set_sepc c v, k2).
End Kernel.
