(* ===== verification/KernelProofs.v ===== *)
(** * Correctness of the trap handler

    [kernel_ok] is the invariant between two traps; every handler keeps it and
    never panics, resumes the task the scheduler chose, and leaves the contexts of
    all other tasks alone. *)

From stdpp Require Import functions.
From S2P Require Import Prelude Address FrameAllocator RingBuf Context Scheduler SchedulerProofs.
From S2P Require Import SchedulerSpec Kernel.

(** ** Changes of the task table *)

(** Task [t] became [t']: only its status changed, or it was also given the
    character [w] it waited for. A task that has terminated stays so. *)
Definition agree (w : option Z) (t t' : TaskControlBlock) : Prop :=
  exists st c, t' = set_context (set_status t st) c /\ (status t = Terminated -> st = Terminated) /\
    (c = context t \/ exists r, w = Some r /\ c = set_a0 (context t) r).

(** All tasks but [c] changed like that, and no task appeared. *)
Definition tables_agree (w : option Z) (c : option nat) (s s' : Scheduler) : Prop :=
  length (task_list s') = length (task_list s) /\
  forall i t', slot s' i = Some t' -> exists t, slot s i = Some t /\
    stack_base t' = stack_base t /\ page_count t' = page_count t /\ (Some i <> c -> agree w t t').

Lemma agree_status w t st : (status t = Terminated -> st = Terminated) -> agree w t (set_status t st).
Proof. intros Hst. exists st, (context t). split; [done|]. split; [done|by left]. Qed.

Lemma agree_refl w t : agree w t t.
Proof. exists (status t), (context t). split; [by destruct t|]. split; [done|by left]. Qed.

Lemma tables_agree_refl w c s : tables_agree w c s s.
Proof. split; [done|]. intros i t' Ht. exists t'. split_and!; try done. intros _. apply agree_refl. Qed.

(** Followed by changes of statuses only. *)
Lemma tables_agree_trans w c s1 s2 s3 :
  tables_agree w c s1 s2 -> tables_agree None c s2 s3 -> tables_agree w c s1 s3.
Proof.
  intros [L1 A1] [L2 A2]. split; [congruence|]. intros i t' Ht.
  destruct (A2 i t' Ht) as (u & Hu & Hb & Hp & Hut). destruct (A1 i u Hu) as (t & Htt & Hb' & Hp' & Htu).
  exists t. split_and!; try congruence. intros Hi.
  destruct (Hut Hi) as (st & c2 & -> & Hd & [->|(r & ? & _)]); [|done].
  destruct (Htu Hi) as (st' & c1 & -> & Hd' & Hc1). exists st, c1. split_and!; try done. intros Ht0. by apply Hd, Hd'.
Qed.

(** Preceded by a change of the context of [c]. *)
Lemma tables_agree_save w c s1 s2 s3 :
  tables_agree None c s1 s2 -> tables_agree w c s2 s3 -> tables_agree w c s1 s3.
Proof.
  intros [L1 A1] [L2 A2]. split; [congruence|]. intros i t' Ht.
  destruct (A2 i t' Ht) as (u & Hu & Hb & Hp & Hut). destruct (A1 i u Hu) as (t & Htt & Hb' & Hp' & Htu).
  exists t. split_and!; try congruence. intros Hi.
  destruct (Htu Hi) as (st' & c1 & -> & Hd' & [->|(r & ? & _)]); [|done].
  destruct (Hut Hi) as (st & c2 & -> & Hd & Hc2). exists st, c2. split_and!; try done. intros Ht0. by apply Hd, Hd'.
Qed.

Lemma tables_agree_weaken w c s s' : tables_agree None None s s' -> tables_agree w c s s'.
Proof.
  intros [Hl Ha]. split; [done|]. intros i t' Ht. destruct (Ha i t' Ht) as (t & ? & ? & ? & Hag).
  exists t. split_and!; try done. intros _. destruct (Hag ltac:(done)) as (st & x & -> & Hd & [->|(r & ? & _)]); [|done].
  exists st, (context t). split; [done|]. split; [done|by left].
Qed.

Lemma rescheduled_agree {FA} `{FrameAllocatorLaws FA} s B n (fs' : FA) s' B' :
  rescheduled s B n fs' s' B' -> tables_agree None None s s'.
Proof.
  intros Hr. split; [apply Hr|]. intros i t' Ht.
  destruct (rs_slots _ _ _ _ _ _ Hr i t' Ht) as (t & Hs & Heq). exists t. rewrite Heq.
  split_and!; try done. intros _. apply agree_status. intros Hd. apply (rs_dead _ _ _ _ _ _ Hr i t' Ht). unfold stat. rewrite Hs. cbn. by rewrite Hd.
Qed.

Lemma switched_agree s c st n s' :
  switched s c st n s' -> stat s c = Some Running -> stat s n = Some Ready -> length (task_list s') = length (task_list s) -> tables_agree None None s s'.
Proof.
  intros Hsw Hcr Hnr Hl. split; [done|]. intros i t' Ht.
  assert (Hcase : exists t, slot s i = Some t /\ (t' = t \/ exists x, t' = set_status t x /\ status t <> Terminated)).
  { destruct (decide (i = n)) as [->|Hn].
    - rewrite (sw_next _ _ _ _ _ Hsw) in Ht. apply fmap_Some in Ht as (t & Hi & ->). exists t. split; [done|]. right.
      unfold stat in Hnr. rewrite Hi in Hnr. injection Hnr as Hnr. exists Running. by rewrite Hnr.
    - destruct (decide (i = c)) as [->|Hc].
      + rewrite (sw_prev _ _ _ _ _ Hsw) in Ht by done. apply fmap_Some in Ht as (t & Hi & ->). exists t. split; [done|]. right.
        unfold stat in Hcr. rewrite Hi in Hcr. injection Hcr as Hcr. exists st. by rewrite Hcr.
      + rewrite (sw_other _ _ _ _ _ Hsw) in Ht by done. eauto. }
  destruct Hcase as (t & Hi & [->|(x & -> & Hd)]); exists t; split_and!; try done; intros _;
    [apply agree_refl|by apply agree_status].
Qed.

Lemma woken_agree now h s s' : woken now h s s' -> tables_agree None None s s'.
Proof.
  intros Hw. split; [apply Hw|]. intros i t' Ht.
  destruct (slot s i) as [t|] eqn:Hi.
  - destruct (decide (status t = Blocked)) as [Hb|Hb].
    + destruct (decide (due now h i)) as [Hd|Hd].
      * rewrite (wk_due _ _ _ _ Hw i t Hi Hb Hd) in Ht. injection Ht as <-.
        exists t. split_and!; try done. intros _. apply agree_status. congruence.
      * rewrite (wk_other _ _ _ _ Hw) in Ht by naive_solver. rewrite Hi in Ht. injection Ht as <-.
        exists t. split_and!; try done. intros _. apply agree_refl.
    + rewrite (wk_other _ _ _ _ Hw) in Ht by (unfold stat; rewrite Hi; naive_solver).
      rewrite Hi in Ht. injection Ht as <-. exists t. split_and!; try done. intros _. apply agree_refl.
  - rewrite (wk_other _ _ _ _ Hw) in Ht by (unfold stat; rewrite Hi; naive_solver). congruence.
Qed.

(** ** The invariant *)

Section Kernel.
Context {FA : Type} `{HFL : FrameAllocatorLaws FA}.

(** Everything but the link between [sscratch] and the running task. *)
Record base_ok (k : Kernel FA) : Prop := {
  bo_sched : sched_ok (k_sched k);
  bo_idle : idle_ok (k_sched k);
  bo_stacks : exists B, stacks_ok (k_frames k) (k_sched k) B;
  bo_rx : exists l, rb_repr UART_BUFFER (receive_buffer k) l;
  bo_tx : exists l, rb_repr UART_BUFFER (transmit_buffer k) l;
  bo_wait : Forall (fun i => (i < length (task_list (k_sched k)))%nat) (wait_queue k)
}.

(** [sscratch] points to the context of the current task, which is running; before
    the first switch there is none and it points to the boot context. *)
Definition ptr_ok (k : Kernel FA) : Prop :=
  match current_task_id (k_sched k) with
  | Some c => stat (k_sched k) c = Some Running /\ k_sscratch k = TaskCtx c
  | None => k_sscratch k = InitCtx
  end.

Definition kernel_ok (k : Kernel FA) : Prop := base_ok k /\ ptr_ok k.

(** The handler returned program counter [v] in state [k']: it is the saved one of
    the context that will be resumed. *)
Definition resumes (k' : Kernel FA) (v : Z) : Prop :=
  exists c, read_ctx k' (k_sscratch k') = Done c /\ ctx_sepc c = v.

(** A scheduler with the same stacks keeps the base invariant. *)
Lemma base_set_sched k s w c :
  base_ok k -> sched_ok s -> idle_ok s -> tables_agree w c (k_sched k) s -> base_ok (set_sched k s).
Proof.
  intros [B1 B2 [B B3] B4 B5 B6] Hs Hi [Hl Ha]. split; try done.
  - exists B. eapply stacks_ok_mono; [|exact B3]. intros i t Ht.
    destruct (Ha i t Ht) as (t0 & ? & ? & ? & _). by exists t0.
  - cbn. by rewrite Hl.
Qed.

Lemma read_ctx_slot (k : Kernel FA) i t : slot (k_sched k) i = Some t -> read_ctx k (TaskCtx i) = Done (context t).
Proof. intros Ht%slot_Some. cbn. by rewrite Ht. Qed.

(** Handing the processor to task [n] of a new scheduler state. *)
Lemma switch_context_ok k n :
  base_ok k -> current_task_id (k_sched k) = Some n -> stat (k_sched k) n = Some Running ->
  exists v k', switch_context k n = Done (v, k') /\ kernel_ok k' /\ resumes k' v /\
    k_sched k' = k_sched k.
Proof.
  intros Hb Hc Hrun. apply stat_Some in Hrun as Hslot. destruct Hslot as (t & Ht & _).
  unfold switch_context.
  rewrite (read_ctx_slot (set_sscratch k (TaskCtx n)) n t Ht). cbn [mbind outcome_bind].
  eexists _, _. split; [done|]. split_and!; [split| |done].
  - destruct Hb. by split.
  - unfold ptr_ok. cbn. by rewrite Hc.
  - exists (context t). split; [|done]. by apply (read_ctx_slot (set_sscratch k (TaskCtx n))).
Qed.

(** [prepare_next_task] followed by the switch. *)
Lemma prepare_step k :
  base_ok k ->
  exists n fs s v k', prepare_next_task (k_frames k) (k_sched k) = Done (n, (fs, s)) /\
    switch_context (set_alloc k fs s) n = Done (v, k') /\ kernel_ok k' /\ resumes k' v /\
    tables_agree None None (k_sched k) (k_sched k').
Proof.
  intros Hb. destruct (bo_stacks _ Hb) as [B Hst].
  destruct (prepare_next_task_ok _ _ _ (bo_sched _ Hb) (bo_idle _ Hb) Hst) as (n & fs & s & B' & Heq & Hr).
  exists n, fs, s. pose proof (rescheduled_agree _ _ _ _ _ _ Hr) as Ha.
  destruct (switch_context_ok (set_alloc k fs s) n) as (v & k' & Hsw & Hok & Hres & Hs);
    [|exact (rs_current _ _ _ _ _ _ Hr)|exact (rs_running _ _ _ _ _ _ Hr)|].
  - destruct Hb as [B1 B2 B3 B4 B5 B6]. destruct Hr. split; try done; [by exists B'|].
    cbn. by rewrite rs_length.
  - exists v, k'. split_and!; try done. by rewrite Hs.
Qed.

(** Blocking the running task followed by the switch; [s'] is the result of
    [set_current_task_sleep] or [block_current_task]. *)
Lemma block_step k c n s' :
  base_ok k -> switched (k_sched k) c Blocked n s' -> stat (k_sched k) c = Some Running -> stat (k_sched k) n = Some Ready ->
  length (task_list s') = length (task_list (k_sched k)) ->
  exists v k', switch_context (set_sched k s') n = Done (v, k') /\ kernel_ok k' /\ resumes k' v /\
    tables_agree None None (k_sched k) (k_sched k').
Proof.
  intros Hb Hsw Hcr Hnr Hl. pose proof (switched_agree _ _ _ _ _ Hsw Hcr Hnr Hl) as Ha.
  destruct (switch_context_ok (set_sched k s') n) as (v & k' & Heq & Hok & Hres & Hs).
  - destruct Hsw. by eapply base_set_sched.
  - by destruct Hsw.
  - by destruct Hsw.
  - exists v, k'. split_and!; try done. by rewrite Hs.
Qed.

(** ** Writing the context of the trapping task *)

(** The state after writing context [x] of task [c]. *)
Definition put (k : Kernel FA) (c : nat) (t : TaskControlBlock) (x : TaskContext) : Kernel FA :=
  set_sched k (set_task (k_sched k) c (set_context t x)).

Lemma write_ctx_slot (k : Kernel FA) c t x :
  slot (k_sched k) c = Some t -> write_ctx k (TaskCtx c) x = Done (put k c t x).
Proof. intros Ht%slot_Some. cbn. by rewrite Ht. Qed.

Lemma put_slot (k : Kernel FA) c t x j :
  slot (k_sched k) c = Some t ->
  slot (k_sched (put k c t x)) j = if decide (c = j) then Some (set_context t x) else slot (k_sched k) j.
Proof. intros Hc%slot_lt. unfold slot. cbn. by apply slot_tasks_insert. Qed.

Lemma put_stat (k : Kernel FA) c t x j :
  slot (k_sched k) c = Some t -> stat (k_sched (put k c t x)) j = stat (k_sched k) j.
Proof.
  intros Hc. unfold stat. rewrite put_slot by done. destruct (decide (c = j)) as [<-|]; [|done].
  by rewrite Hc.
Qed.

Lemma put_agree (k : Kernel FA) c t x :
  slot (k_sched k) c = Some t -> tables_agree None (Some c) (k_sched k) (k_sched (put k c t x)).
Proof.
  intros Hc. split; [cbn; apply length_insert|]. intros i t' Ht. rewrite put_slot in Ht by done.
  destruct (decide (c = i)) as [<-|].
  - injection Ht as <-. exists t. by split_and!.
  - exists t'. split_and!; try done. intros _. apply agree_refl.
Qed.

Lemma put_base k c t x :
  base_ok k -> slot (k_sched k) c = Some t -> base_ok (put k c t x).
Proof.
  intros Hb Hc. pose proof (bo_sched _ Hb) as Hok.
  eapply base_set_sched; [done| | |by apply put_agree].
  - eapply (sched_ok_update (k_sched k) c t); [done|done|exact (so_ids _ Hok _ _ Hc)| |apply Hok|apply Hok].
    eapply coherent_proper; [|done|done|apply Hok]. intros j. cbn.
    destruct (decide (c = j)) as [<-|]; [|by rewrite fn_lookup_insert_ne].
    rewrite fn_lookup_insert. unfold stat. by rewrite Hc.
  - unfold idle_ok. change (set_task _ _ _) with (k_sched (put k c t x)).
    rewrite !put_stat by done. apply Hb.
Qed.

Lemma put_ptr k c t x : ptr_ok k -> slot (k_sched k) c = Some t -> ptr_ok (put k c t x).
Proof.
  unfold ptr_ok. intros Hp Hc. change (current_task_id (k_sched (put k c t x))) with (current_task_id (k_sched k)).
  destruct (current_task_id (k_sched k)) as [c'|]; [|done]. by rewrite put_stat.
Qed.

(** ** Outcomes of handlers *)

(** A handler for a trap of the task in context [c] succeeded: the invariant holds,
    the returned program counter belongs to the context that will be resumed, and
    the other tasks changed as [tables_agree] allows. *)
Definition handled (w : option Z) (c : option nat) (k : Kernel FA) (o : outcome (Z * Kernel FA)) : Prop :=
  exists v k', o = Done (v, k') /\ kernel_ok k' /\ resumes k' v /\
    tables_agree w c (k_sched k) (k_sched k').

Lemma handled_after w c k k1 o :
  tables_agree w c (k_sched k) (k_sched k1) -> handled None c k1 o -> handled w c k o.
Proof.
  intros Ha (v & k' & Ho & Hok & Hr & Ha'). exists v, k'. split_and!; try done.
  by eapply tables_agree_trans.
Qed.

(** Only statuses changed. *)
Lemma handled_weaken w c k o : handled None None k o -> handled w c k o.
Proof. intros (v & k' & Ho & Hok & Hr & Ha). exists v, k'. split_and!; try done. by apply tables_agree_weaken. Qed.

Lemma emit_ok k e : kernel_ok k -> kernel_ok (emit k e).
Proof. intros [[] Hp]. by split; [split|]. Qed.

(** The context of the interrupted task can always be read. *)
Lemma kernel_ok_resumes k : kernel_ok k -> exists v, resumes k v.
Proof.
  intros [Hb Hp]. unfold ptr_ok in Hp.
  destruct (current_task_id (k_sched k)) as [c|]; [destruct Hp as [Hrun Hp]|].
  - apply stat_Some in Hrun as (t & Ht & _). exists (ctx_sepc (context t)), (context t).
    rewrite Hp. split; [by apply read_ctx_slot|done].
  - exists (ctx_sepc (k_init_context k)), (k_init_context k). by rewrite Hp.
Qed.

Lemma return_saved_ok w c k k1 :
  kernel_ok k1 -> tables_agree w c (k_sched k) (k_sched k1) ->
  handled w c k (return_saved (k_sscratch k1) k1).
Proof.
  intros Hok Ha. destruct (kernel_ok_resumes k1 Hok) as (v & x & Hx & Hv).
  unfold return_saved. rewrite Hx. cbn [mbind outcome_bind].
  exists v, k1. split_and!; [by rewrite Hv|done|by exists x|done].
Qed.

(** ** Timer *)

Lemma finish_sleep_ok k now :
  base_ok k ->
  exists s, finish_sleep (k_sched k) now = Done s /\ base_ok (set_sched k s) /\
    tables_agree None None (k_sched k) s.
Proof.
  intros Hb.
  destruct (finish_sleep_loop_ok now _ (S (length (blocked_queue (k_sched k)))) (k_sched k) eq_refl
    ltac:(lia) (bo_sched _ Hb)) as (s & Heq & Hok & Hw & _).
  exists s. split; [exact Heq|]. pose proof (woken_agree _ _ _ _ Hw) as Ha. split; [|done].
  eapply base_set_sched; [done|done| |exact Ha]. pose proof (bo_idle _ Hb) as Hidle. unfold idle_ok, stat in *.
  rewrite (wk_other _ _ _ _ Hw); [done|]. unfold stat. intros [Hbl _].
  rewrite Hbl in Hidle. by destruct Hidle.
Qed.

Lemma timer_ok env k c :
  base_ok k ->
  handled None c k
    (s ← finish_sleep (k_sched k) (e_time env);
     let k1 := set_next_timer_tick (e_time2 env) (set_sched k s) in
     '(next, (fs, s)) ← prepare_next_task (k_frames k1) (k_sched k1);
     switch_context (set_alloc k1 fs s) next).
Proof.
  intros Hb. destruct (finish_sleep_ok k (e_time env) Hb) as (s & -> & Hb1 & Ha1).
  cbn [mbind outcome_bind]. cbv zeta.
  set (k1 := set_next_timer_tick (e_time2 env) (set_sched k s)).
  assert (Hbk : base_ok k1) by (destruct Hb1; by split).
  destruct (prepare_step k1 Hbk) as (n & fs & s2 & v & k' & -> & Hsw & Hok & Hr & Ha2).
  cbn [mbind outcome_bind]. exists v, k'. split_and!; try done.
  eapply tables_agree_trans; [by apply tables_agree_weaken|by apply tables_agree_weaken].
Qed.

(** ** System calls *)

Lemma schedule_ok k c t :
  base_ok k -> slot (k_sched k) c = Some t -> handled None (Some c) k (schedule (TaskCtx c) k).
Proof.
  intros Hb Ht. unfold schedule. rewrite (read_ctx_slot _ _ _ Ht). cbn [mbind outcome_bind].
  rewrite (write_ctx_slot _ _ _ _ Ht). cbn [mbind outcome_bind].
  set (x := set_sepc _ _).
  destruct (prepare_step _ (put_base _ c t x Hb Ht)) as (n & fs & s & v & k' & Heq & Hsw & Hok & Hr & Ha).
  rewrite Heq. cbn [mbind outcome_bind]. exists v, k'. split_and!; [exact Hsw|done..|].
  eapply tables_agree_trans; [by apply put_agree|]. by apply tables_agree_weaken.
Qed.

(** The trapping task of a system call. *)
Definition calling (k : Kernel FA) (c : nat) : Prop :=
  base_ok k /\ current_task_id (k_sched k) = Some c /\ stat (k_sched k) c = Some Running /\ c <> 0%nat.

Lemma put_calling k c t x : calling k c -> slot (k_sched k) c = Some t -> calling (put k c t x) c.
Proof.
  intros (Hb & Hc & Hrun & H0) Ht. split_and!; try done; [by apply put_base|]. by rewrite put_stat.
Qed.

Lemma sleep_until_ok k c wake :
  calling k c ->
  handled None None k ('(n, s) ← set_current_task_sleep (k_sched k) wake; switch_context (set_sched k s) n).
Proof.
  intros (Hb & Hc & Hrun & H0).
  destruct (set_current_task_sleep_ok _ c wake (bo_sched _ Hb) (bo_idle _ Hb) Hc Hrun H0)
    as (n & s & -> & Hsw & _ & Hnr & _ & _ & _ & _ & Hl). cbn [mbind outcome_bind].
  destruct (block_step k c n s Hb Hsw Hrun Hnr Hl) as (v & k' & -> & Hok & Hr & Ha). by exists v, k'.
Qed.

Lemma block_ok k c :
  calling k c ->
  handled None None k ('(n, s) ← block_current_task (k_sched k); switch_context (set_sched k s) n).
Proof.
  intros (Hb & Hc & Hrun & H0).
  destruct (block_current_task_ok _ c (bo_sched _ Hb) (bo_idle _ Hb) Hc Hrun H0)
    as (n & s & -> & Hsw & _ & Hnr & _ & _ & _ & _ & Hl). cbn [mbind outcome_bind].
  destruct (block_step k c n s Hb Hsw Hrun Hnr Hl) as (v & k' & -> & Hok & Hr & Ha). by exists v, k'.
Qed.

Lemma sleep_ok env k c t :
  calling k c -> slot (k_sched k) c = Some t -> handled None (Some c) k (sleep env (TaskCtx c) k).
Proof.
  intros Hcall Ht. unfold sleep. rewrite (read_ctx_slot _ _ _ Ht). cbn [mbind outcome_bind].
  rewrite (write_ctx_slot _ _ _ _ Ht). cbn [mbind outcome_bind].
  eapply handled_after; [by apply put_agree|]. apply handled_weaken, (sleep_until_ok _ c). by apply put_calling.
Qed.

Lemma exit_ok k c t :
  calling k c -> slot (k_sched k) c = Some t ->
  handled None (Some c) k (s ← exit_current_task (k_sched k); schedule (TaskCtx c) (set_sched k s)).
Proof.
  intros (Hb & Hc & Hrun & H0) Ht. apply stat_Some in Hrun as (t' & Ht' & Hst).
  assert (t' = t) as -> by congruence.
  destruct (exit_current_task_ok _ c t (bo_sched _ Hb) Hc Ht Hst) as (s & -> & Hok & _ & _ & _ & Hl & Hs).
  cbn [mbind outcome_bind].
  assert (Ha : tables_agree None None (k_sched k) s).
  { split; [done|]. intros i u Hu. rewrite Hs in Hu. destruct (decide (c = i)) as [<-|].
    - injection Hu as <-. exists t. split_and!; try done. intros _. by apply agree_status.
    - exists u. split_and!; try done. intros _. apply agree_refl. }
  eapply (handled_after _ _ k (set_sched k s)); [by apply tables_agree_weaken|].
  eapply schedule_ok; [eapply base_set_sched; [done|done| |exact Ha]|].
  - unfold idle_ok, stat in *. rewrite Hs, decide_False by done. apply Hb.
  - cbn. by rewrite Hs, decide_True.
Qed.

(** Writing the context of the trapping task and returning to it. *)
Lemma put_handled k c t y :
  kernel_ok k -> k_sscratch k = TaskCtx c -> slot (k_sched k) c = Some t ->
  handled None (Some c) k (Done (ctx_sepc y, put k c t y)).
Proof.
  intros [Hb Hp] Hss Ht. eexists _, _. split; [done|].
  split_and!; [split; [by apply put_base|by apply put_ptr]| |by apply put_agree].
  exists y. change (k_sscratch (put k c t y)) with (k_sscratch k). rewrite Hss. split; [|done].
  rewrite (read_ctx_slot (put k c t y) c (set_context t y)); [done|]. by rewrite put_slot, decide_True.
Qed.

(** A system call that writes one context back and returns. *)
Ltac context_call Ht :=
  rewrite (read_ctx_slot _ _ _ Ht); cbn [mbind outcome_bind];
  rewrite (write_ctx_slot _ _ _ _ Ht); cbn [mbind outcome_bind].

Lemma return_char_ok k c t x :
  kernel_ok k -> k_sscratch k = TaskCtx c -> slot (k_sched k) c = Some t ->
  handled None (Some c) k (return_char (TaskCtx c) x k).
Proof.
  intros Hok Hss Ht. unfold return_char. context_call Ht.
  set (y := set_a0 _ _). exact (put_handled k c t y Hok Hss Ht).
Qed.

Lemma uart_write_byte_ok k c t :
  kernel_ok k -> k_sscratch k = TaskCtx c -> slot (k_sched k) c = Some t ->
  handled None (Some c) k (uart_write_byte (TaskCtx c) k).
Proof.
  intros Hok Hss Ht. unfold uart_write_byte. rewrite (read_ctx_slot _ _ _ Ht). cbn [mbind outcome_bind].
  cbv zeta. set (e := ConsolePutchar _).
  rewrite (write_ctx_slot (emit k e) c t) by done. cbn [mbind outcome_bind]. set (y := set_a0 _ _).
  exact (put_handled (emit k e) c t y (emit_ok k e Hok) Hss Ht).
Qed.

(** ** Reading from the UART *)

Lemma uart_buffer_small : Z.of_nat UART_BUFFER < USIZE.
Proof. done. Qed.

Lemma set_rx_ok k rb l : base_ok k -> rb_repr UART_BUFFER rb l -> base_ok (set_rx k rb).
Proof. intros [] Hl. split; try done. by exists l. Qed.

Lemma uart_block_ok env k c t ms :
  calling k c -> slot (k_sched k) c = Some t -> handled None (Some c) k (uart_block env (TaskCtx c) ms k).
Proof.
  intros Hcall Ht. unfold uart_block. context_call Ht.
  eapply handled_after; [by apply put_agree|].
  apply handled_weaken. destruct (ms <? usize_MAX); [apply (sleep_until_ok _ c)|apply (block_ok _ c)]; by apply put_calling.
Qed.

Lemma uart_read_ok env k c t :
  kernel_ok k -> calling k c -> slot (k_sched k) c = Some t ->
  handled None (Some c) k (uart_read env (TaskCtx c) k).
Proof.
  intros Hok Hcall Ht. pose proof Hcall as (Hb & Hc & Hrun & H0).
  assert (Hss : k_sscratch k = TaskCtx c) by (destruct Hok as [_ Hp]; unfold ptr_ok in Hp; rewrite Hc in Hp; apply Hp).
  unfold uart_read. context_call Ht. set (y := set_sepc _ _). set (k1 := put k c t y).
  assert (Ht1 : slot (k_sched k1) c = Some (set_context t y)) by (unfold k1; by rewrite put_slot, decide_True).
  assert (Ha : tables_agree None (Some c) (k_sched k) (k_sched k1)) by (by apply put_agree).
  assert (Hok1 : kernel_ok k1) by (destruct Hok; split; [by apply put_base|by apply put_ptr]).
  assert (Hcall1 : calling k1 c) by (by apply put_calling).
  destruct (bo_rx _ Hb) as [l Hl]. change (receive_buffer k1) with (receive_buffer k).
  destruct l as [|x l].
  - rewrite (RingBuffer_pop_nil _ _ Hl). cbn [mbind outcome_bind].
    set (k2 := set_rx k1 (receive_buffer k)).
    assert (Hok2 : kernel_ok k2) by exact Hok1.
    destruct (Z.eqb_spec (ctx_a0 (context t)) 0).
    + cbn [mbind outcome_bind]. rewrite (read_ctx_slot k2 c _ Ht1). cbn [mbind outcome_bind].
      rewrite (write_ctx_slot k2 c _ _ Ht1). cbn [mbind outcome_bind].
      eapply (handled_after _ _ k k2); [exact Ha|]. set (z := set_a0 _ _).
      exact (put_handled k2 c _ z Hok2 Hss Ht1).
    + unfold get_current_task_id. change (current_task_id (k_sched k2)) with (current_task_id (k_sched k)).
      rewrite Hc. cbn [unwrap mbind outcome_bind]. cbv zeta.
      set (k3 := set_wait k2 _). unfold RingBuffer_is_empty.
      change (rb_len (receive_buffer k3)) with (rb_len (receive_buffer k)).
      rewrite (rr_len _ _ _ Hl). cbn [negb length Z.of_nat Z.eqb].
      eapply (handled_after _ _ k k3); [exact Ha|]. apply (uart_block_ok env k3 c (set_context t y)); [|exact Ht1].
      destruct Hcall1 as (Hb1 & Hc1 & Hrun1 & _). split_and!; try done.
      destruct Hb1 as [? ? ? ? ? Hw]. split; try done. apply Forall_app. split; [exact Hw|].
      repeat constructor. by eapply slot_lt.
  - destruct (RingBuffer_pop_cons _ uart_buffer_small _ _ _ Hl) as (rb & -> & Hrb).
    cbn [mbind outcome_bind]. cbv zeta. eapply (handled_after _ _ k (set_rx k1 rb)); [exact Ha|].
    apply (return_char_ok (set_rx k1 rb) c (set_context t y)); [|exact Hss|exact Ht1].
    destruct Hok1 as [Hb1 Hp1]. split; [by eapply set_rx_ok|done].
Qed.

(** ** The UART interrupt *)

(** [n] iterations of the sending loop transmit the [n] oldest characters. *)
Lemma send_loop_ok n : forall (k : Kernel FA) l,
  rb_repr UART_BUFFER (transmit_buffer k) l ->
  exists tr, rb_repr UART_BUFFER tr (drop n l) /\
    send_loop n k = Done (mkKernel (k_frames k) (k_sched k) (receive_buffer k) tr (wait_queue k)
      (k_sscratch k) (k_init_context k) (k_log k ++ (UartTHR <$> take n l))).
Proof.
  induction n as [|n IH]; intros k l Hl; cbn [send_loop].
  { exists (transmit_buffer k). split; [done|]. cbn. rewrite app_nil_r. by destruct k. }
  destruct l as [|x l].
  - rewrite (RingBuffer_pop_nil _ _ Hl). cbn [mbind outcome_bind]. exists (transmit_buffer k).
    split; [done|]. cbn. by rewrite app_nil_r.
  - destruct (RingBuffer_pop_cons _ uart_buffer_small _ _ _ Hl) as (tr & -> & Htr).
    cbn [mbind outcome_bind].
    destruct (IH (emit (set_tx k tr) (UartTHR x)) l Htr) as (tr' & Htr' & ->).
    exists tr'. split; [done|]. cbn. by rewrite <- app_assoc.
Qed.

Lemma send_data_ok env (k : Kernel FA) l :
  rb_repr UART_BUFFER (transmit_buffer k) l ->
  exists tr, rb_repr UART_BUFFER tr (drop 16 l) /\
    send_data env k = Done (mkKernel (k_frames k) (k_sched k) (receive_buffer k) tr (wait_queue k)
      (k_sscratch k) (k_init_context k)
      (k_log k ++ (UartTHR <$> take 16 l) ++
       (if decide (length l <= 16)%nat then [UartIER (Z.land (e_ier env) 253)] else []))).
Proof.
  intros Hl. destruct (send_loop_ok UART_FIFO_CAPACITY k l Hl) as (tr & Htr & Heq).
  exists tr. split; [done|]. unfold send_data. rewrite Heq. cbn [mbind outcome_bind transmit_buffer].
  unfold RingBuffer_is_empty. rewrite (rr_len _ _ _ Htr), length_drop. unfold UART_FIFO_CAPACITY.
  case_decide.
  - rewrite (proj2 (Z.eqb_eq _ 0)) by lia. unfold emit. cbn. by rewrite <- app_assoc.
  - rewrite (proj2 (Z.eqb_neq _ 0)) by lia. by rewrite app_nil_r.
Qed.

Lemma vec_pop_Some q x r : vec_pop q = Some (x, r) -> q = r ++ [x].
Proof.
  destruct q as [|y q _] using rev_ind; [done|]. rewrite vec_pop_snoc. by intros [= <- <-].
Qed.

Lemma vec_pop_None q : vec_pop q = None -> q = [].
Proof. destruct q as [|y q _] using rev_ind; [done|]. by rewrite vec_pop_snoc. Qed.

(** Delivering a character to a task of the table. *)
Lemma wake_step k i r :
  kernel_ok k -> (i < length (task_list (k_sched k)))%nat ->
  exists s, wake_up_task_with_result (k_sched k) i r = Done s /\ kernel_ok (set_sched k s) /\
    tables_agree (Some r) None (k_sched k) s.
Proof.
  intros [Hb Hp] Hi. destruct (slot (k_sched k) i) as [t|] eqn:Ht.
  2: { destruct (lookup_lt_is_Some_2 _ _ Hi) as [o Ho]. exists (k_sched k).
       assert (o = None) as -> by (unfold slot in Ht; by rewrite Ho in Ht).
       unfold wake_up_task_with_result. rewrite (proj2 (index_Done _ _ _) Ho). cbn [mbind outcome_bind].
       split_and!; [done|by destruct k|apply tables_agree_refl]. }
  destruct (wake_up_task_with_result_ok _ i t r (bo_sched _ Hb) Ht)
    as (s & -> & Hok & Hc & _ & Hl & Hsame & Hwake).
  exists s. split; [done|]. destruct (decide (status t = Blocked)) as [Hst|Hst].
  2: { rewrite (Hsame Hst). split; [by destruct k|apply tables_agree_refl]. }
  destruct (Hwake Hst) as (Hq & Hsi & Hsj).
  assert (Ha : tables_agree (Some r) None (k_sched k) s).
  { split; [done|]. intros j u Hu. destruct (decide (j = i)) as [->|Hne].
    - rewrite Hsi in Hu. injection Hu as <-. exists t. split_and!; try done. intros _.
      exists Ready, (set_a0 (context t) r). split; [done|]. split; [congruence|]. right. by exists r.
    - rewrite Hsj in Hu by done. exists u. split_and!; try done. intros _. apply agree_refl. }
  assert (Hstat : forall j, stat (k_sched k) j <> Some Blocked -> stat s j = stat (k_sched k) j).
  { intros j Hj. unfold stat. rewrite Hsj; [done|]. intros ->. apply Hj. apply stat_Some. by exists t. }
  split; [split|done].
  - eapply base_set_sched; [done|done| |exact Ha]. pose proof (bo_idle _ Hb) as Hidle.
    unfold idle_ok in *. destruct Hidle as [Hi0|Hi0]; rewrite Hstat by congruence; auto.
  - unfold ptr_ok in *. cbn. rewrite Hc. destruct (current_task_id (k_sched k)) as [c|]; [|done].
    destruct Hp as [Hr Hss]. split; [|done]. by rewrite Hstat by congruence.
Qed.

(** The character of a receive interrupt; the handler drops what is not ASCII. *)
Definition received_char (env : Env) : option Z := if 0x80 <=? e_rhr env then None else Some (e_rhr env).

Lemma uart_interrupt_ok env k :
  kernel_ok k ->
  exists k', uart_interrupt_handler env k = Done k' /\ kernel_ok k' /\
    k_sscratch k' = k_sscratch k /\ tables_agree (received_char env) None (k_sched k) (k_sched k').
Proof.
  intros Hok. pose proof Hok as [Hb Hp]. unfold uart_interrupt_handler. cbv zeta.
  assert (Hsame : forall k', kernel_ok k' -> k_sscratch k' = k_sscratch k -> k_sched k' = k_sched k ->
    exists k'', Done k' = Done k'' /\ kernel_ok k'' /\ k_sscratch k'' = k_sscratch k /\
      tables_agree (received_char env) None (k_sched k) (k_sched k'')).
  { intros k' Hk' Hss Hs. exists k'. split_and!; try done. rewrite Hs. apply tables_agree_refl. }
  repeat case_match; try by (apply Hsame; [try apply emit_ok; done..]).
  - destruct (bo_tx _ Hb) as [l Hl]. destruct (send_data_ok env k l Hl) as (tr & Htr & ->).
    apply Hsame; [|done|done]. split; [|done]. destruct Hb. split; try done. by eexists.
  - match goal with Hpop : pop_back _ = Some _ |- _ => apply vec_pop_Some in Hpop as Hq end.
    pose proof (bo_wait _ Hb) as Hw. rewrite Hq in Hw. apply Forall_app in Hw as [Hw Hi].
    apply Forall_cons in Hi as [Hi _].
    destruct (wake_step k _ (e_rhr env) Hok Hi) as (s & -> & [Hb' Hp'] & Ha). cbn [mbind outcome_bind].
    assert (Hr : received_char env = Some (e_rhr env)) by (unfold received_char; by case_match). rewrite Hr.
    eexists. split; [done|]. split_and!; [split; [|exact Hp']|done|exact Ha].
    destruct Hb'. split; try done. cbn. eapply Forall_impl; [exact Hw|]. cbn. intros j Hj.
    destruct Ha as [Hl _]. lia.
  - destruct (bo_rx _ Hb) as [l Hl].
    pose proof (RingBuffer_push_repr _ uart_buffer_small _ _ (e_rhr env) Hl) as Hpush. case_decide.
    + rewrite Hpush. cbn [mbind outcome_bind]. apply Hsame; [by destruct k|done|done].
    + destruct Hpush as (rb & -> & Hrb). cbn [mbind outcome_bind]. apply Hsame; [|done|done].
      split; [by eapply set_rx_ok|done].
Qed.

Lemma plic_ok env k :
  kernel_ok k ->
  exists k', plic_handler env k = Done k' /\ kernel_ok k' /\
    k_sscratch k' = k_sscratch k /\ tables_agree (received_char env) None (k_sched k) (k_sched k').
Proof.
  intros Hok. unfold plic_handler. cbv zeta. destruct (num_to_irq (e_irq env)).
  - destruct (uart_interrupt_ok env k Hok) as (k' & -> & Hok' & Hss & Ha). cbn [mbind outcome_bind].
    eexists. split; [done|]. split_and!; [by apply emit_ok|done|done].
  - cbn [mbind outcome_bind]. eexists. split; [done|].
    split_and!; [by apply emit_ok, emit_ok|done|apply tables_agree_refl].
Qed.

(** ** The whole trap *)

(** The character an external interrupt may deliver. *)
Definition delivered (env : Env) (scause : Z) : option Z :=
  match parse_trap_cause scause with
  | Interrupt SupervisorExternalInterrupt => received_char env
  | _ => None
  end.

(** The system calls of a task other than the idle task, except shutdown. *)
Definition call_ok (cpu : TaskContext) (k : Kernel FA) (scause : Z) : Prop :=
  parse_trap_cause scause = Exception UserEcall ->
  ctx_a7 cpu <> 10 /\ exists c, current_task_id (k_sched k) = Some c /\ c <> 0%nat.

Lemma ecall_ok env k c t :
  kernel_ok k -> calling k c -> slot (k_sched k) c = Some t -> ctx_a7 (context t) <> 10 ->
  handled None (Some c) k
    (x ← read_ctx k (TaskCtx c);
     let syscall_code := ctx_a7 x in
     if syscall_code =? 1 then uart_write_byte (TaskCtx c) k
     else if syscall_code =? 7 then schedule (TaskCtx c) k
     else if syscall_code =? 9 then
       s ← exit_current_task (k_sched k); schedule (TaskCtx c) (set_sched k s)
     else if syscall_code =? 10 then Done (system_quit env k)
     else if syscall_code =? 17 then sleep env (TaskCtx c) k
     else if syscall_code =? 27 then uart_read env (TaskCtx c) k
     else return_saved (TaskCtx c) k).
Proof.
  intros Hok Hcall Ht Hq. pose proof Hcall as (Hb & Hc & Hrun & _).
  assert (Hss : k_sscratch k = TaskCtx c) by (destruct Hok as [_ Hp]; unfold ptr_ok in Hp; rewrite Hc in Hp; apply Hp).
  rewrite (read_ctx_slot _ _ _ Ht). cbn [mbind outcome_bind]. cbv zeta.
  destruct (ctx_a7 (context t) =? 1); [by eapply uart_write_byte_ok|].
  destruct (ctx_a7 (context t) =? 7); [by eapply schedule_ok|].
  destruct (ctx_a7 (context t) =? 9); [by eapply exit_ok|].
  destruct (Z.eqb_spec (ctx_a7 (context t)) 10); [done|].
  destruct (ctx_a7 (context t) =? 17); [by eapply sleep_ok|].
  destruct (ctx_a7 (context t) =? 27); [by eapply uart_read_ok|].
  rewrite <- Hss. apply return_saved_ok; [done|apply tables_agree_refl].
Qed.

Lemma trap_handler_ok env scause k :
  kernel_ok k ->
  (parse_trap_cause scause = Exception UserEcall -> exists c t, calling k c /\
     slot (k_sched k) c = Some t /\ ctx_a7 (context t) <> 10) ->
  handled (delivered env scause) (current_task_id (k_sched k)) k
    (trap_handler env (k_sscratch k) scause k).
Proof.
  intros Hok Hcall. unfold trap_handler, delivered.
  destruct (parse_trap_cause scause) as [[| |]|[|]].
  - apply timer_ok. apply Hok.
  - destruct (plic_ok env k Hok) as (k1 & -> & Hok1 & Hss & Ha). cbn [mbind outcome_bind].
    rewrite <- Hss. apply return_saved_ok; [done|]. destruct Ha as [Hl Ha]. split; [done|].
    intros i t' Ht'. destruct (Ha i t' Ht') as (t & ? & ? & ? & Hag). exists t. split_and!; auto.
  - change (k_sscratch k) with (k_sscratch (emit k PollingPrint)).
    apply return_saved_ok; [by apply emit_ok|apply tables_agree_refl].
  - destruct (Hcall eq_refl) as (c & t & Hc & Ht & Hq). pose proof Hc as (_ & Hcur & _).
    pose proof (proj2 Hok) as Hp. unfold ptr_ok in Hp. rewrite Hcur in Hp |- *.
    destruct Hp as [_ Hss]. rewrite Hss.
    by eapply ecall_ok.
  - change (k_sscratch k) with (k_sscratch (emit k PollingPrint)).
    apply return_saved_ok; [by apply emit_ok|apply tables_agree_refl].
Qed.

Lemma set_sepc_same c : set_sepc c (ctx_sepc c) = c.
Proof. by destruct c. Qed.

Lemma trap_ok env scause cpu k :
  kernel_ok k -> call_ok cpu k scause ->
  exists cpu' k', trap env scause cpu k = Done (cpu', k') /\ kernel_ok k' /\
    read_ctx k' (k_sscratch k') = Done cpu' /\
    tables_agree (delivered env scause) (current_task_id (k_sched k)) (k_sched k) (k_sched k').
Proof.
  intros Hok Hcall. unfold trap.
  assert (Hsave : exists k1, write_ctx k (k_sscratch k) cpu = Done k1 /\ kernel_ok k1 /\
    k_sscratch k1 = k_sscratch k /\ current_task_id (k_sched k1) = current_task_id (k_sched k) /\
    tables_agree None (current_task_id (k_sched k)) (k_sched k) (k_sched k1) /\
    forall c, current_task_id (k_sched k) = Some c -> exists t, slot (k_sched k1) c = Some t /\ context t = cpu).
  { destruct Hok as [Hb Hp]. pose proof Hp as Hp'. unfold ptr_ok in Hp'.
    destruct (current_task_id (k_sched k)) as [c|] eqn:Hc.
    - destruct Hp' as [Hrun Hss]. apply stat_Some in Hrun as (t & Ht & _).
      exists (put k c t cpu). split; [rewrite Hss; by apply write_ctx_slot|]. split; [split; [by apply put_base|by apply put_ptr]|].
      split; [done|]. split; [exact Hc|]. split; [by apply put_agree|].
      intros c' [= <-]. exists (set_context t cpu). split; [|done]. by rewrite put_slot, decide_True.
    - rewrite Hp'. cbn. eexists. split; [done|]. split.
      { split; [destruct Hb; by split|]. unfold ptr_ok. cbn. by rewrite Hc. }
      split; [exact Hp'|]. split; [exact Hc|]. split; [apply tables_agree_refl|done]. }
  destruct Hsave as (k1 & -> & Hok1 & Hss1 & Hc1 & Ha1 & Hcpu). cbn [mbind outcome_bind].
  rewrite <- Hss1, <- Hc1 in *.
  destruct (trap_handler_ok env scause k1 Hok1) as (v & k2 & -> & Hok2 & (x & Hx & Hv) & Ha2).
  - intros He. destruct (Hcall He) as (Hq & c & Hc & H0). rewrite <- Hc1 in Hc.
    destruct (Hcpu c Hc) as (t & Ht & Hctx). exists c, t. split_and!; [|done|by rewrite Hctx].
    destruct Hok1 as [Hb1 Hp1]. unfold ptr_ok in Hp1. rewrite Hc in Hp1. destruct Hp1. by split_and!.
  - cbn [mbind outcome_bind]. rewrite Hx. cbn [mbind outcome_bind].
    exists x, k2. rewrite <- Hv, set_sepc_same. split_and!; try done.
    by eapply tables_agree_save.
Qed.
End Kernel.
