(* ===== verification/KernelSpec.v ===== *)
(** * What the trap handler promises

    The system as a state machine: the running task computes or traps. The theorems
    show that no reachable state makes a handler panic, that a suspended task finds
    its registers unchanged when it is resumed, and what the UART path delivers; the
    last part states precisely where the code falls short. *)

From stdpp Require Import relations functions.
From S2P Require Import Prelude Address FrameAllocator Memory Buddy BuddyProofs RingBuf Context.
From S2P Require Import Scheduler SchedulerProofs SchedulerSpec Kernel KernelProofs.

(** ** The state machine *)

Section Machine.
Context {FA : Type} `{HFL : FrameAllocatorLaws FA}.

(** The registers of the processor and the kernel state. *)
Abbreviation System := (TaskContext * Kernel FA)%type.

Inductive step : System -> System -> Prop :=
| step_task cpu cpu' k : step (cpu, k) (cpu', k)
| step_trap env scause cpu k cpu' k' :
    call_ok cpu k scause -> trap env scause cpu k = Done (cpu', k') -> step (cpu, k) (cpu', k').

Lemma step_ok s s' : kernel_ok s.2 -> step s s' -> kernel_ok s'.2.
Proof.
  intros Hok Hs. destruct Hs as [|env scause cpu k cpu' k' Hcall Ht]; [done|].
  destruct (trap_ok env scause cpu k Hok Hcall) as (x & k2 & Heq & Hok2 & _).
  rewrite Ht in Heq. by injection Heq as -> ->.
Qed.

Lemma steps_ok s s' : kernel_ok s.2 -> rtc step s s' -> kernel_ok s'.2.
Proof. intros Hok. induction 1; [done|]. by eauto using step_ok. Qed.

(** A step taken while task [i] is not the current one. *)
Definition step_off (i : nat) (s s' : System) : Prop :=
  step s s' /\ current_task_id (k_sched s.2) <> Some i.

(** What such steps keep of task [i]: nothing but [a0] of its context changes, and
    the processor has its context as soon as it is current. *)
Definition kept (i : nat) (c : TaskContext) (s : System) : Prop :=
  forall t, slot (k_sched s.2) i = Some t ->
    (context t = c \/ exists r, context t = set_a0 c r) /\
    (current_task_id (k_sched s.2) = Some i -> s.1 = context t).

Lemma step_kept i c s s' : kernel_ok s.2 -> step_off i s s' -> kept i c s -> kept i c s'.
Proof.
  intros Hok [Hs Hoff] Hk. destruct Hs as [cpu cpu' k|env scause cpu k cpu' k' Hcall Ht].
  { intros t Hi. destruct (Hk t Hi) as [Hctx _]. split; [done|]. by intros Hc. }
  destruct (trap_ok env scause cpu k Hok Hcall) as (x & k2 & Heq & [Hb2 Hp2] & Hread & [_ Ha]).
  rewrite Ht in Heq. injection Heq as <- <-. intros t Hi. cbn in *.
  destruct (Ha i t Hi) as (t0 & Ht0 & _ & _ & Hag). destruct (Hk t0 Ht0) as [Hc0 _]. split.
  - destruct (Hag (not_eq_sym Hoff)) as (st & y & -> & _ & [->|(r & _ & ->)]); [done|]. right. exists r.
    cbn. by destruct Hc0 as [->|[r' ->]].
  - intros Hcur. unfold ptr_ok in Hp2. rewrite Hcur in Hp2. destruct Hp2 as [_ Hss].
    rewrite Hss, (read_ctx_slot _ _ _ Hi) in Hread. by injection Hread.
Qed.

Lemma steps_kept i c s s' :
  kernel_ok s.2 -> rtc (step_off i) s s' -> kept i c s -> kept i c s'.
Proof.
  intros Hok. induction 1 as [|s1 s2 s3 H12 H23 IH]; [done|]. intros Hk.
  apply IH; [by apply (step_ok s1), H12|]. by apply (step_kept i c s1).
Qed.
End Machine.

(** ** A running system *)

(** The booted system of [SchedulerSpec] with task 1 running. *)
Definition kernel_of (p : Frames * Scheduler) (c : nat) : Kernel Frames :=
  mkKernel p.1 p.2 (RingBuffer_new UART_BUFFER) (RingBuffer_new UART_BUFFER) [] (TaskCtx c)
    TaskContext_zero [].

Lemma kernel_of_ok p c :
  system_ok p -> idle_ok p.2 -> current_task_id p.2 = Some c -> stat p.2 c = Some Running ->
  kernel_ok (kernel_of p c).
Proof.
  intros [Hok Hst] Hidle Hc Hrun. split.
  - split; cbn; try done; exists []; apply RingBuffer_new_repr.
  - unfold ptr_ok. cbn. by rewrite Hc.
Qed.

Definition k_run1 : Kernel Frames := kernel_of run1 1.

Lemma k_run1_ok : kernel_ok k_run1.
Proof. destruct run1_ok as (Hok & Hidle & Hc & Hrun). by apply kernel_of_ok. Qed.

Lemma k_run1_current : current_task_id (k_sched k_run1) = Some 1%nat.
Proof. by destruct run1_ok as (_ & _ & Hc & _). Qed.

(** The [scause] values of the traps the kernel distinguishes. *)
Definition TIMER : Z := 2 ^ 63 + 5.
Definition EXTERNAL : Z := 2 ^ 63 + 9.
Definition ECALL : Z := 8.

Definition idle_env : Env := mkEnv 0 0 0 1 0 0 0.
Definition rx_env (now c : Z) : Env := mkEnv now now 10 4 c 0 0.

#[local] Opaque k_run1.

(** ** Theorems *)






(** Task 2 is suspended while task 1 runs; a timer interrupt resumes it. *)
Definition after_tick : TaskContext * Kernel Frames :=
  match trap idle_env TIMER TaskContext_zero k_run1 with
  | Done p => p
  | Fault _ => (TaskContext_zero, k_run1)
  end.

Lemma after_tick_task2 :
  current_task_id (k_sched after_tick.2) = Some 2%nat /\ stat (k_sched after_tick.2) 2 = Some Running /\
  stat (k_sched k_run1) 2 = Some Ready.
Proof. split; [|split]; vm_compute; reflexivity. Qed.

Lemma after_tick_step : step_off 2 (TaskContext_zero, k_run1) after_tick.
Proof.
  destruct (trap_ok idle_env TIMER TaskContext_zero k_run1 k_run1_ok) as (cpu' & k' & Heq & _).
  { intros Hp. vm_compute in Hp. discriminate. }
  split; [|cbn [snd]; rewrite k_run1_current; discriminate]. unfold after_tick. rewrite Heq.
  apply (step_trap idle_env TIMER); [|exact Heq]. intros Hp. vm_compute in Hp. discriminate.
Qed.

#[local] Opaque after_tick.


(** [parse_trap_cause] reads [scause] as the architecture defines it: bit 63 tells
    interrupts from exceptions, the other bits are the code. *)
Theorem parse_trap_cause_spec code :
  0 <= code < 2 ^ 63 ->
  parse_trap_cause (2 ^ 63 + code) = Interrupt (InterruptCause_from_code code) /\
  parse_trap_cause code = Exception (ExceptionCause_from_code code).
Proof.
  intros Hcode. unfold parse_trap_cause. change INTERRUPT_BIT with (2 ^ 63).
  change (wnot (2 ^ 63)) with (2 ^ 63 - 1). rewrite !land_pow2_test, !land_low_mask by lia.
  assert (H0 : Z.testbit code 63 = false).
  { apply Z.testbit_false; [lia|]. by rewrite Z.div_small. }
  assert (H1 : Z.testbit (2 ^ 63 + code) 63 = true).
  { apply Z.testbit_true; [lia|]. rewrite <- (Z.mul_1_l (2 ^ 63)) at 1.
    rewrite Z.div_add_l, Z.div_small by lia. done. }
  rewrite H0, H1. cbn [negb]. rewrite (Z.mod_small code) by lia.
  replace (2 ^ 63 + code) with (code + 1 * 2 ^ 63) by lia. rewrite Z.mod_add, (Z.mod_small code) by lia. done.
Qed.

Lemma parse_trap_cause_spec_witness :
  parse_trap_cause (2 ^ 63 + 5) = Interrupt SupervisorTimerInterrupt /\
  parse_trap_cause 5 = Exception UnknownException.
Proof. apply (parse_trap_cause_spec 5). lia. Defined.

(** ** The UART *)

(** C32: a transmit interrupt sends the oldest characters of the transmit buffer, at
    most the 16 the hardware queue holds, in order, and turns the transmit
    interrupt off exactly when the buffer is drained; nothing else changes. *)
Theorem send_data_spec {FA} env (k : Kernel FA) l :
  rb_repr UART_BUFFER (transmit_buffer k) l ->
  exists tr, rb_repr UART_BUFFER tr (drop 16 l) /\
    send_data env k = Done (mkKernel (k_frames k) (k_sched k) (receive_buffer k) tr (wait_queue k)
      (k_sscratch k) (k_init_context k)
      (k_log k ++ (UartTHR <$> take 16 l) ++
       (if decide (length l <= 16)%nat then [UartIER (Z.land (e_ier env) 253)] else []))).
Proof. apply send_data_ok. Qed.

Lemma send_data_spec_witness :
  exists tr, send_data idle_env k_run1 = Done (mkKernel (k_frames k_run1) (k_sched k_run1)
      (receive_buffer k_run1) tr (wait_queue k_run1) (k_sscratch k_run1) (k_init_context k_run1)
      (k_log k_run1 ++ [UartIER 0])).
Proof.
  destruct (send_data_spec idle_env k_run1 []) as (tr & _ & Heq); [apply (RingBuffer_new_repr UART_BUFFER)|].
  exists tr. exact Heq.
Defined.

(** A trap of the current task, after its registers are saved. *)
Lemma trap_current {FA} `{FrameAllocatorLaws FA} env scause cpu (k : Kernel FA) c :
  kernel_ok k -> current_task_id (k_sched k) = Some c ->
  exists t, slot (k_sched k) c = Some t /\ k_sscratch k = TaskCtx c /\
    kernel_ok (put k c t cpu) /\ read_ctx (put k c t cpu) (TaskCtx c) = Done cpu /\
    trap env scause cpu k =
      ('(v, k2) ← trap_handler env (TaskCtx c) scause (put k c t cpu);
       x ← read_ctx k2 (k_sscratch k2); Done (set_sepc x v, k2)).
Proof.
  intros [Hb Hp] Hc. pose proof Hp as Hp'. unfold ptr_ok in Hp'. rewrite Hc in Hp'.
  destruct Hp' as [Hrun Hss]. apply stat_Some in Hrun as (t & Ht & _). exists t.
  split; [done|]. split; [done|]. split; [split; [by apply put_base|by apply put_ptr]|].
  split; [apply (read_ctx_slot (put k c t cpu) c (set_context t cpu)); by rewrite put_slot, decide_True|].
  unfold trap. by rewrite Hss, (write_ctx_slot _ _ _ _ Ht).
Qed.

(** The environment of a receive interrupt with character [r]. *)
Definition receives (env : Env) (r : Z) : Prop :=
  e_irq env = 10 /\ Z.land (e_isr env) 1 = 0 /\ Z.land (e_isr env) ISR_CAUSE_MASK = ISR_RX_AVAILABLE /\
  e_rhr env = r /\ 0 <= r < 128.

Lemma plic_receive {FA} env r (k : Kernel FA) :
  receives env r ->
  plic_handler env k =
    (k1 ← match pop_back (wait_queue k) with
          | Some (id, rest) =>
              s ← wake_up_task_with_result (k_sched k) id r; Done (set_sched (set_wait k rest) s)
          | None =>
              '(_, rb) ← RingBuffer_push UART_BUFFER (receive_buffer k) r; Done (set_rx k rb)
          end;
     Done (emit k1 (PlicComplete 10))).
Proof.
  intros (Hi & H1 & Hc & Hr & Hb). unfold plic_handler, uart_interrupt_handler. cbv zeta.
  rewrite Hi, H1, Hc, Hr. cbn [num_to_irq Z.eqb Pos.eqb]. change (0 =? 1) with false.
  change (ISR_RX_AVAILABLE =? ISR_TX_EMPTY) with false. change (ISR_RX_AVAILABLE =? ISR_RX_AVAILABLE) with true.
  destruct (Z.leb_spec 0x80 r); [lia|]. done.
Qed.

(** a character received while no task waits for one is appended to the receive
    buffer (or dropped if the buffer is full), and the interrupted task goes on
    with the registers it had. *)
Theorem uart_receive_spec {FA} `{FrameAllocatorLaws FA} env r cpu (k : Kernel FA) c l :
  kernel_ok k -> current_task_id (k_sched k) = Some c -> receives env r -> wait_queue k = [] ->
  rb_repr UART_BUFFER (receive_buffer k) l ->
  exists k', trap env EXTERNAL cpu k = Done (cpu, k') /\
    current_task_id (k_sched k') = Some c /\ wait_queue k' = [] /\
    rb_repr UART_BUFFER (receive_buffer k') (if decide (length l = UART_BUFFER) then l else l ++ [r]).
Proof.
  intros Hok Hc Henv Hw Hl.
  destruct (trap_current env EXTERNAL cpu k c Hok Hc) as (t & Ht & Hss & Hok1 & Hread & ->).
  set (k1 := put k c t cpu) in *. unfold trap_handler.
  change (parse_trap_cause EXTERNAL) with (Interrupt SupervisorExternalInterrupt).
  rewrite (plic_receive env r k1 Henv). change (wait_queue k1) with (wait_queue k). rewrite Hw.
  change (pop_back []) with (@None (nat * list nat)). change (receive_buffer k1) with (receive_buffer k).
  pose proof (RingBuffer_push_repr _ uart_buffer_small _ _ r Hl) as Hpush.
  assert (Hfin : forall rb, exists k', ('(v, k2) ← return_saved (TaskCtx c) (emit (set_rx k1 rb) (PlicComplete 10));
      x ← read_ctx k2 (k_sscratch k2); Done (set_sepc x v, k2)) = Done (cpu, k') /\
      current_task_id (k_sched k') = Some c /\ wait_queue k' = [] /\ receive_buffer k' = rb).
  { intros rb. unfold return_saved. change (read_ctx (emit (set_rx k1 rb) (PlicComplete 10)) (TaskCtx c))
      with (read_ctx k1 (TaskCtx c)). rewrite Hread. cbn [mbind outcome_bind].
    change (k_sscratch (emit _ _)) with (k_sscratch k). rewrite Hss.
    change (read_ctx (emit (set_rx k1 rb) (PlicComplete 10)) (TaskCtx c)) with (read_ctx k1 (TaskCtx c)).
    rewrite Hread. cbn [mbind outcome_bind]. rewrite set_sepc_same. eexists. split; [done|].
    split; [exact Hc|]. split; [exact Hw|done]. }
  case_decide.
  - rewrite Hpush. cbn [mbind outcome_bind]. destruct (Hfin (receive_buffer k)) as (k' & -> & ? & ? & Heq).
    exists k'. by rewrite Heq.
  - destruct Hpush as (rb & -> & Hrb). cbn [mbind outcome_bind].
    destruct (Hfin rb) as (k' & -> & ? & ? & Heq). exists k'. by rewrite Heq.
Qed.

Lemma rx_env_receives now c : 0 <= c < 128 -> receives (rx_env now c) c.
Proof. intros [? ?]. by split_and!. Qed.

Lemma uart_receive_spec_witness :
  exists k', trap (rx_env 0 65) EXTERNAL TaskContext_zero k_run1 = Done (TaskContext_zero, k') /\
    rb_repr UART_BUFFER (receive_buffer k') [65].
Proof.
  destruct (uart_receive_spec (rx_env 0 65) 65 TaskContext_zero k_run1 1 [] k_run1_ok k_run1_current)
    as (k' & Heq & _ & _ & Hrb).
  - apply rx_env_receives. lia.
  - reflexivity.
  - apply (RingBuffer_new_repr UART_BUFFER).
  - exists k'. split; [exact Heq|]. rewrite decide_False in Hrb by (intros [=]). exact Hrb.
Defined.

(** [uart_read] with a character in the receive buffer returns the oldest one in
    [a0] at once, whatever the timeout: the task goes on after the [ecall] and no
    other task is scheduled. *)
Theorem uart_read_available_spec {FA} `{FrameAllocatorLaws FA} env cpu (k : Kernel FA) c r l :
  kernel_ok k -> current_task_id (k_sched k) = Some c -> ctx_a7 cpu = 27 ->
  rb_repr UART_BUFFER (receive_buffer k) (r :: l) -> 0 <= r < 128 ->
  exists k', trap env ECALL cpu k = Done (set_a0 (set_sepc cpu (ctx_sepc cpu ⊞ 4)) r, k') /\
    current_task_id (k_sched k') = Some c /\ rb_repr UART_BUFFER (receive_buffer k') l.
Proof.
  intros Hok Hc Ha7 Hl Hr.
  destruct (trap_current env ECALL cpu k c Hok Hc) as (t & Ht & Hss & Hok1 & Hread & ->).
  assert (Ht1 : slot (k_sched (put k c t cpu)) c = Some (set_context t cpu))
    by (by rewrite put_slot, decide_True).
  unfold trap_handler. change (parse_trap_cause ECALL) with (Exception UserEcall).
  rewrite Hread. cbn [mbind outcome_bind]. cbv zeta. rewrite Ha7. cbn [Z.eqb Pos.eqb].
  unfold uart_read. rewrite Hread. cbn [mbind outcome_bind].
  rewrite (write_ctx_slot _ _ _ _ Ht1). cbn [mbind outcome_bind].
  destruct (RingBuffer_pop_cons _ uart_buffer_small _ _ _ Hl) as (rb & Hpop & Hrb).
  set (k2 := put (put k c t cpu) c _ _).
  change (receive_buffer k2) with (receive_buffer k). rewrite Hpop. cbn [mbind outcome_bind]. cbv zeta.
  unfold return_char. set (t2 := set_context (set_context t cpu) (set_sepc cpu (ctx_sepc cpu ⊞ 4))).
  assert (Ht2 : slot (k_sched k2) c = Some t2) by (unfold k2; by rewrite put_slot, decide_True).
  rewrite (read_ctx_slot (set_rx k2 rb) c t2 Ht2). cbn [mbind outcome_bind].
  rewrite (write_ctx_slot (set_rx k2 rb) c t2 _ Ht2). cbn [mbind outcome_bind].
  destruct (Z.leb_spec 0x80 r); [lia|]. set (y := set_a0 _ _). set (k3 := put (set_rx k2 rb) c t2 y).
  assert (Ht3 : slot (k_sched k3) c = Some (set_context t2 y)).
  { unfold k3. rewrite (put_slot (set_rx k2 rb) c t2 y c Ht2). by rewrite decide_True. }
  change (k_sscratch k3) with (k_sscratch k). rewrite Hss, (read_ctx_slot k3 c _ Ht3).
  cbn [mbind outcome_bind]. exists k3. split_and!; [|exact Hc|exact Hrb].
  by destruct cpu.
Qed.

Lemma uart_read_available_spec_witness :
  exists k k', kernel_ok k /\
    trap idle_env ECALL (mkTaskContext 0 0 0 0 0 0 0 0 5000 0 0 0 0 0 0 27 0 0 0 0 0 0 0 0 0 0 0 0 0 0 64) k
      = Done (mkTaskContext 0 0 0 0 0 0 0 0 65 0 0 0 0 0 0 27 0 0 0 0 0 0 0 0 0 0 0 0 0 0 68, k').
Proof.
  pose proof (RingBuffer_push_repr _ uart_buffer_small _ _ 65 (RingBuffer_new_repr (T := Z) UART_BUFFER)) as Hp.
  rewrite decide_False in Hp by (intros [=]). destruct Hp as (rb & _ & Hrb).
  assert (Hok : kernel_ok (set_rx k_run1 rb)).
  { destruct k_run1_ok as [Hb Hp]. split; [eapply set_rx_ok; [exact Hb|exact Hrb]|exact Hp]. }
  destruct (uart_read_available_spec idle_env
    (mkTaskContext 0 0 0 0 0 0 0 0 5000 0 0 0 0 0 0 27 0 0 0 0 0 0 0 0 0 0 0 0 0 0 64) (set_rx k_run1 rb)
    1 65 [] Hok k_run1_current eq_refl Hrb ltac:(lia)) as (k' & Heq & _).
  exists (set_rx k_run1 rb), k'. split; [exact Hok|exact Heq].
Defined.

(** C30: a character received while tasks wait goes to the last one that started to
    wait: it becomes ready with the character in [a0], leaves the wait queue, and
    the receive buffer is not touched; the interrupted task goes on. *)
Theorem uart_wakes_reader_spec {FA} `{FrameAllocatorLaws FA} env r cpu (k : Kernel FA) c ws i u :
  kernel_ok k -> current_task_id (k_sched k) = Some c -> receives env r ->
  wait_queue k = ws ++ [i] -> slot (k_sched k) i = Some u -> status u = Blocked ->
  exists k', trap env EXTERNAL cpu k = Done (cpu, k') /\
    current_task_id (k_sched k') = Some c /\ wait_queue k' = ws /\
    receive_buffer k' = receive_buffer k /\ ready_queue (k_sched k') = ready_queue (k_sched k) ++ [i] /\
    slot (k_sched k') i = Some (set_context (set_status u Ready) (set_a0 (context u) r)).
Proof.
  intros Hok Hc Henv Hw Hu Hst.
  destruct (trap_current env EXTERNAL cpu k c Hok Hc) as (t & Ht & Hss & [Hb1 Hp1] & Hread & ->).
  assert (Hci : c <> i).
  { intros ->. unfold ptr_ok in Hp1. change (current_task_id (k_sched (put k i t cpu))) with (current_task_id (k_sched k)) in Hp1.
    rewrite Hc in Hp1. destruct Hp1 as [Hrun _]. rewrite put_stat in Hrun by done. unfold stat in Hrun.
    rewrite Hu in Hrun. cbn in Hrun. congruence. }
  set (k1 := put k c t cpu) in *. unfold trap_handler.
  change (parse_trap_cause EXTERNAL) with (Interrupt SupervisorExternalInterrupt).
  rewrite (plic_receive env r k1 Henv). change (wait_queue k1) with (wait_queue k). rewrite Hw.
  unfold pop_back. rewrite vec_pop_snoc.
  assert (Hu1 : slot (k_sched k1) i = Some u) by (unfold k1; by rewrite put_slot, decide_False).
  destruct (wake_up_task_with_result_ok _ i u r (bo_sched _ Hb1) Hu1) as (s & -> & Hok' & Hcs & _ & _ & _ & Hwake).
  destruct (Hwake Hst) as (Hq & Hsi & Hsj). cbn [mbind outcome_bind].
  assert (Hsc : slot s c = Some (set_context t cpu)).
  { rewrite Hsj by done. unfold k1. by rewrite put_slot, decide_True. }
  set (k2 := emit _ _). unfold return_saved.
  rewrite (read_ctx_slot k2 c _ Hsc). cbn [mbind outcome_bind].
  change (k_sscratch k2) with (k_sscratch k). rewrite Hss, (read_ctx_slot k2 c _ Hsc).
  cbn [mbind outcome_bind]. exists k2. split_and!; [|cbn; rewrite Hcs; exact Hc|done|done|exact Hq|exact Hsi].
  cbn. by rewrite set_sepc_same.
Qed.

(** ** System calls that give up the processor *)

(** the sleep system call blocks the caller until [now + a0] milliseconds (one
    entry with that wake-up time is added to the heap), saves it so that it
    continues after the [ecall], and resumes the context of another ready task. *)
Theorem sleep_call_spec {FA} `{FrameAllocatorLaws FA} env cpu (k : Kernel FA) c :
  kernel_ok k -> current_task_id (k_sched k) = Some c -> c <> 0%nat -> ctx_a7 cpu = 17 ->
  exists k' n t u, trap env ECALL cpu k = Done (context u, k') /\
    slot (k_sched k) c = Some t /\ slot (k_sched k) n = Some u /\ n <> c /\
    status u = Ready /\ current_task_id (k_sched k') = Some n /\
    slot (k_sched k') c = Some (set_context (set_status t Blocked) (set_sepc cpu (ctx_sepc cpu ⊞ 4))) /\
    blocked_queue (k_sched k') ≡ₚ
      mkSleepEntry (e_time env ⊞ (ctx_a0 cpu ⊠ 10000)) c :: blocked_queue (k_sched k).
Proof.
  intros Hok Hc Hc0 Ha7.
  destruct (trap_current env ECALL cpu k c Hok Hc) as (t & Ht & Hss & [Hb1 Hp1] & Hread & ->).
  set (k1 := put k c t cpu) in *.
  assert (Ht1 : slot (k_sched k1) c = Some (set_context t cpu)) by (unfold k1; by rewrite put_slot, decide_True).
  unfold trap_handler. change (parse_trap_cause ECALL) with (Exception UserEcall).
  rewrite Hread. cbn [mbind outcome_bind]. cbv zeta. rewrite Ha7. cbn [Z.eqb Pos.eqb].
  unfold sleep. rewrite Hread. cbn [mbind outcome_bind].
  rewrite (write_ctx_slot _ _ _ _ Ht1). cbn [mbind outcome_bind]. set (y := set_sepc _ _).
  set (k2 := put k1 c (set_context t cpu) y).
  assert (Hb2 : base_ok k2) by (by apply put_base).
  assert (Hstat2 : forall i, stat (k_sched k2) i = stat (k_sched k) i).
  { intros i. unfold k2, k1. rewrite put_stat by done. by apply put_stat. }
  assert (Hslot2 : forall i, i <> c -> slot (k_sched k2) i = slot (k_sched k) i).
  { intros i Hi. unfold k2. rewrite put_slot by done. unfold k1. by rewrite decide_False, put_slot, decide_False. }
  assert (Hrun2 : stat (k_sched k2) c = Some Running).
  { rewrite Hstat2. destruct Hok as [_ Hp]. unfold ptr_ok in Hp. rewrite Hc in Hp. apply Hp. }
  destruct (set_current_task_sleep_ok (k_sched k2) c (e_time env ⊞ (ctx_a0 cpu ⊠ ONE_MS_CYCLES))
    (bo_sched _ Hb2) (bo_idle _ Hb2) Hc Hrun2 Hc0) as (n & s & -> & Hsw & Hnc & Hrdy & _ & _ & Hbq & _).
  cbn [mbind outcome_bind]. pose proof (sw_next _ _ _ _ _ Hsw) as Hn. rewrite Hslot2 in Hn by done.
  pose proof (sw_running _ _ _ _ _ Hsw) as Hrun. unfold stat in Hrun. rewrite Hn in Hrun.
  destruct (slot (k_sched k) n) as [u|] eqn:Hu; [|done].
  unfold switch_context. set (k3 := set_sscratch _ _).
  rewrite (read_ctx_slot k3 n _ Hn). cbn [mbind outcome_bind].
  change (k_sscratch k3) with (TaskCtx n). rewrite (read_ctx_slot k3 n _ Hn). cbn [mbind outcome_bind].
  exists k3, n, t, u. split; [by rewrite set_sepc_same|]. split; [done|]. split; [done|].
  split; [done|]. split; [rewrite Hstat2 in Hrdy; unfold stat in Hrdy; rewrite Hu in Hrdy; by injection Hrdy|]. split; [exact (sw_current _ _ _ _ _ Hsw)|]. split; [|exact Hbq].
  pose proof (sw_prev _ _ _ _ _ Hsw Hnc) as Hprev. unfold k2 in Hprev.
  rewrite (put_slot k1 c (set_context t cpu) y c Ht1), decide_True in Hprev by done. exact Hprev.
Qed.

(** A call of sleep(5) by task 1 at time 0. *)
Lemma sleep_call_spec_witness :
  exists cpu' k' n, trap idle_env ECALL
      (mkTaskContext 0 0 0 0 0 0 0 0 5 0 0 0 0 0 0 17 0 0 0 0 0 0 0 0 0 0 0 0 0 0 64) k_run1 = Done (cpu', k') /\
    current_task_id (k_sched k') = Some n /\ n <> 1%nat.
Proof.
  destruct (sleep_call_spec idle_env
    (mkTaskContext 0 0 0 0 0 0 0 0 5 0 0 0 0 0 0 17 0 0 0 0 0 0 0 0 0 0 0 0 0 0 64) k_run1 1 k_run1_ok
    k_run1_current ltac:(discriminate) eq_refl) as (k' & n & t & u & Heq & _ & _ & Hn & _ & Hc & _).
  exists (context u), k', n. split; [exact Heq|]. split; [exact Hc|exact Hn].
Defined.

(** ** Where the code falls short *)

(** a system call with an unknown number returns to the [ecall] instruction
    itself: the handler does not advance [sepc], so the task executes the same
    call again, forever. *)
Theorem unknown_syscall_repeats {FA} `{FrameAllocatorLaws FA} env cpu (k : Kernel FA) c :
  kernel_ok k -> current_task_id (k_sched k) = Some c -> ctx_a7 cpu ∉ [1; 7; 9; 10; 17; 27] ->
  exists k', trap env ECALL cpu k = Done (cpu, k') /\ current_task_id (k_sched k') = Some c.
Proof.
  intros Hok Hc Ha7.
  destruct (trap_current env ECALL cpu k c Hok Hc) as (t & Ht & Hss & Hok1 & Hread & ->).
  unfold trap_handler. change (parse_trap_cause ECALL) with (Exception UserEcall).
  rewrite Hread. cbn [mbind outcome_bind]. cbv zeta.
  rewrite !(proj2 (Z.eqb_neq _ _)) by set_solver. unfold return_saved. rewrite Hread. cbn [mbind outcome_bind].
  change (k_sscratch (put k c t cpu)) with (k_sscratch k). rewrite Hss, Hread. cbn [mbind outcome_bind].
  exists (put k c t cpu). rewrite set_sepc_same. split; [done|exact Hc].
Qed.

Lemma unknown_syscall_repeats_witness :
  exists k', trap idle_env ECALL TaskContext_zero k_run1 = Done (TaskContext_zero, k') /\
    current_task_id (k_sched k') = Some 1%nat.
Proof.
  exact (unknown_syscall_repeats idle_env TaskContext_zero k_run1 1 k_run1_ok k_run1_current
    ltac:(cbn; set_solver)).
Defined.

(** an external interrupt other than the UART's is completed with the number
    717, not with the number that was claimed. *)
Theorem unknown_irq_completion {FA} env (k : Kernel FA) :
  e_irq env <> 10 ->
  plic_handler env k = Done (emit (emit k PollingPrint) (PlicComplete 717)).
Proof. intros Hirq. unfold plic_handler, num_to_irq. by rewrite (proj2 (Z.eqb_neq _ _) Hirq). Qed.

Lemma unknown_irq_completion_witness :
  plic_handler (mkEnv 0 0 8 0 0 0 0) k_run1 = Done (emit (emit k_run1 PollingPrint) (PlicComplete 717)).
Proof. apply unknown_irq_completion. discriminate. Defined.

(** ** Scenarios *)

(** The registers of a task that executes [ecall] with [a7 = n] and [a0 = x]. *)
Definition call_regs (n x : Z) (c : TaskContext) : TaskContext :=
  set_a0 (mkTaskContext (ctx_ra c) (ctx_sp c) (ctx_tp c) (ctx_t0 c) (ctx_t1 c) (ctx_t2 c) (ctx_s0 c)
    (ctx_s1 c) (ctx_a0 c) (ctx_a1 c) (ctx_a2 c) (ctx_a3 c) (ctx_a4 c) (ctx_a5 c) (ctx_a6 c) n
    (ctx_s2 c) (ctx_s3 c) (ctx_s4 c) (ctx_s5 c) (ctx_s6 c) (ctx_s7 c) (ctx_s8 c) (ctx_s9 c)
    (ctx_s10 c) (ctx_s11 c) (ctx_t3 c) (ctx_t4 c) (ctx_t5 c) (ctx_t6 c) (ctx_sepc c)) x.

(** What happens to the running system: a system call or an interrupt, at a time. *)
Inductive event := Syscall (now n x : Z) | Tick (now : Z) | Receive (now c : Z).

Definition at_time (now : Z) : Env := mkEnv now now 0 1 0 0 0.

Fixpoint play {FA} `{FrameAllocator FA} (l : list event) (cpu : TaskContext) (k : Kernel FA)
    : outcome (TaskContext * Kernel FA) :=
  match l with
  | [] => Done (cpu, k)
  | e :: l =>
      '(cpu', k') ←
        match e with
        | Syscall now n x => trap (at_time now) ECALL (call_regs n x cpu) k
        | Tick now => trap (at_time now) TIMER cpu k
        | Receive now c => trap (rx_env now c) EXTERNAL cpu k
        end;
      play l cpu' k'
  end.

(** Task 1 waits for a character without a timeout. *)
Definition k_waiting : Kernel Frames :=
  match play [Syscall 0 27 usize_MAX] TaskContext_zero k_run1 with
  | Done (_, k) => k
  | Fault _ => k_run1
  end.

Lemma k_waiting_ok :
  kernel_ok k_waiting /\ current_task_id (k_sched k_waiting) = Some 2%nat /\
  wait_queue k_waiting = [1%nat] /\ stat (k_sched k_waiting) 1 = Some Blocked.
Proof.
  split; [|split; [|split]; vm_compute; reflexivity].
  unfold k_waiting. cbn [play].
  destruct (trap_ok (at_time 0) ECALL (call_regs 27 usize_MAX TaskContext_zero) k_run1 k_run1_ok)
    as (cpu' & k' & Heq & Hok & _).
  { intros _. split; [discriminate|]. exists 1%nat. split; [apply k_run1_current|discriminate]. }
  rewrite Heq. exact Hok.
Qed.

#[local] Opaque k_waiting.

Lemma uart_wakes_reader_spec_witness :
  exists k', trap (rx_env 0 65) EXTERNAL TaskContext_zero k_waiting = Done (TaskContext_zero, k') /\
    stat (k_sched k') 1 = Some Ready /\ wait_queue k' = [].
Proof.
  destruct k_waiting_ok as (Hok & Hc & Hw & Hst). apply stat_Some in Hst as (u & Hu & Hb).
  destruct (uart_wakes_reader_spec (rx_env 0 65) 65 TaskContext_zero k_waiting 2 [] 1 u Hok Hc
    (rx_env_receives 0 65 ltac:(lia)) Hw Hu Hb) as (k' & Heq & _ & Hw' & _ & _ & Hs).
  exists k'. split; [exact Heq|]. split; [|exact Hw']. apply stat_Some. eexists. split; [exact Hs|reflexivity].
Defined.

(** a timeout that was not needed cuts a later sleep short. Task 1 reads with a
    timeout of 5 s and gets a character at once; its heap entry stays. It then
    sleeps for 10 s and runs again at the time of the old timeout, 5 s early. *)
Theorem stale_timeout_cuts_sleep :
  (p ← play [Syscall 0 27 5000; Receive 1000 65; Tick 2000; Syscall 3000 17 10000] TaskContext_zero k_run1;
   Done (stat (k_sched p.2) 1, blocked_queue (k_sched p.2)))
    = Done (Some Blocked, [mkSleepEntry 50000000 1; mkSleepEntry 100003000 1]) /\
  (p ← play [Syscall 0 27 5000; Receive 1000 65; Tick 2000; Syscall 3000 17 10000; Tick 50000000]
     TaskContext_zero k_run1;
   Done (stat (k_sched p.2) 1, blocked_queue (k_sched p.2)))
    = Done (Some Running, [mkSleepEntry 100003000 1]).
Proof. split; vm_compute; reflexivity. Qed.

(** a read that timed out loses the next character. Task 1 reads with a timeout
    of 1 ms, which expires; it stays in the wait queue. The next character is
    taken for it although it no longer waits, and is neither delivered nor
    buffered: a read right afterwards returns -1. *)
Theorem timed_out_reader_loses_character :
  (p ← play [Syscall 0 27 1; Tick 20000] TaskContext_zero k_run1;
   Done (stat (k_sched p.2) 1, wait_queue p.2)) = Done (Some Running, [1%nat]) /\
  (p ← play [Syscall 0 27 1; Tick 20000; Receive 30000 65] TaskContext_zero k_run1;
   Done (rb_len (receive_buffer p.2), wait_queue p.2)) = Done (0, []) /\
  (p ← play [Syscall 0 27 1; Tick 20000; Receive 30000 65; Syscall 40000 27 0] TaskContext_zero k_run1;
   Done (ctx_a0 p.1)) = Done usize_MAX.
Proof. split; [|split]; vm_compute; reflexivity. Qed.
