(* ===== verification/Trace.v ===== *)
(** * The console and the registers of a reader

    What a trap does to the console and to the contexts of tasks, beyond the invariant: only the write system call sends a
    byte to the console; an interrupt keeps the registers of the interrupted task; a read leaves -1 or an ASCII
    character in [a0]. These are the facts about the kernel that programs running on it depend on. *)

From S2P Require Import Prelude Address FrameAllocator RingBuf Context Scheduler SchedulerProofs SchedulerSpec Kernel KernelProofs KernelSpec.

(** ** The console *)

Definition console (l : list Effect) : list Z :=
  omap (fun e => match e with ConsolePutchar c => Some c | _ => None end) l.

Lemma console_app l1 l2 : console (l1 ++ l2) = console l1 ++ console l2.
Proof. apply omap_app. Qed.

Section Console.
Context {FA : Type} `{!FrameAllocator FA}.

Definition quiet (k k' : Kernel FA) : Prop := console (k_log k') = console (k_log k).

Lemma quiet_emit k e : (forall c, e <> ConsolePutchar c) -> quiet k (emit k e).
Proof. intros He. unfold quiet. cbn. rewrite console_app. destruct e; try apply app_nil_r. by destruct (He c). Qed.

Lemma write_ctx_log (k : Kernel FA) p c k' : write_ctx k p c = Done k' -> k_log k' = k_log k.
Proof. destruct p; cbn; [by intros [= <-]|]. repeat case_match; try done. by intros [= <-]. Qed.

Lemma switch_context_log (k : Kernel FA) n v k' : switch_context k n = Done (v, k') -> k_log k' = k_log k.
Proof. unfold switch_context. intros H. apply bind_Done in H as (c & _ & H). by injection H as _ <-. Qed.

(** The UART service writes to the registers of the UART only. *)
Definition uart_effect (e : Effect) : Prop :=
  match e with UartTHR _ | UartIER _ | ReadLSR | PollingPrint => True | _ => False end.

Definition uart_logged (k k' : Kernel FA) : Prop := exists l, k_log k' = k_log k ++ l /\ Forall uart_effect l.

Lemma uart_logged_same (k k' : Kernel FA) : k_log k' = k_log k -> uart_logged k k'.
Proof. intros Hl. exists []. split; [by rewrite app_nil_r|constructor]. Qed.

Lemma uart_logged_emit k k' e : uart_logged k k' -> uart_effect e -> uart_logged k (emit k' e).
Proof. intros (l & Hl & Hu) He. exists (l ++ [e]). cbn. rewrite Hl, app_assoc. split; [done|]. apply Forall_app. by repeat constructor. Qed.

Lemma send_loop_logged n : forall (k0 k k' : Kernel FA), uart_logged k0 k -> send_loop n k = Done k' -> uart_logged k0 k'.
Proof.
  induction n as [|n IH]; intros k0 k k' H0 H; cbn [send_loop] in H; [by injection H as <-|].
  apply bind_Done in H as ([[c|] tr] & _ & H); [|by injection H as <-].
  eapply IH; [|exact H]. by apply (uart_logged_emit k0 (set_tx k tr)).
Qed.

Lemma uart_interrupt_logged env (k k' : Kernel FA) : uart_interrupt_handler env k = Done k' -> uart_logged k k'.
Proof.
  assert (Hrefl : uart_logged k k) by (by apply uart_logged_same).
  unfold uart_interrupt_handler. cbv zeta. intros H.
  repeat case_match; try (by injection H as <-); try (by injection H as <-; apply uart_logged_emit).
  - unfold send_data in H. apply bind_Done in H as (k1 & Hk1 & H). apply (send_loop_logged _ k) in Hk1; [|done].
    case_match; injection H as <-; [by apply uart_logged_emit|done].
  - apply bind_Done in H as (s & _ & H). injection H as <-. by apply uart_logged_same.
  - apply bind_Done in H as ([? rb] & _ & H). injection H as <-. by apply uart_logged_same.
Qed.

Lemma uart_interrupt_quiet env (k k' : Kernel FA) : uart_interrupt_handler env k = Done k' -> quiet k k'.
Proof.
  intros (l & Hl & Hu)%uart_interrupt_logged. unfold quiet. rewrite Hl, console_app.
  assert (console l = []) as ->; [|apply app_nil_r]. clear Hl. induction Hu as [|[] l He _ IH]; by try (destruct He).
Qed.

Lemma plic_quiet env (k k' : Kernel FA) : plic_handler env k = Done k' -> quiet k k'.
Proof.
  unfold plic_handler. cbv zeta. intros H. apply bind_Done in H as (k1 & H1 & H). injection H as <-.
  assert (Hq : quiet k k1) by (case_match; [by eapply uart_interrupt_quiet|injection H1 as <-; by apply quiet_emit]).
  unfold quiet in *. rewrite <- Hq. by apply quiet_emit.
Qed.

Lemma schedule_quiet p (k : Kernel FA) v k' : schedule p k = Done (v, k') -> k_log k' = k_log k.
Proof.
  unfold schedule. intros H. apply bind_Done in H as (c & _ & H). apply bind_Done in H as (k1 & H1%write_ctx_log & H).
  apply bind_Done in H as ([n [fs s]] & _ & H). apply switch_context_log in H. by rewrite H.
Qed.

Lemma sleep_quiet env p (k : Kernel FA) v k' : sleep env p k = Done (v, k') -> k_log k' = k_log k.
Proof.
  unfold sleep. intros H. apply bind_Done in H as (c & _ & H). apply bind_Done in H as (k1 & H1%write_ctx_log & H).
  apply bind_Done in H as ([n s] & _ & H). apply switch_context_log in H. by rewrite H.
Qed.

Lemma return_char_quiet p c (k : Kernel FA) v k' : return_char p c k = Done (v, k') -> k_log k' = k_log k.
Proof.
  unfold return_char. intros H. apply bind_Done in H as (x & _ & H). apply bind_Done in H as (k1 & H1%write_ctx_log & H).
  by injection H as _ <-.
Qed.

Lemma uart_block_quiet env p ms (k : Kernel FA) v k' : uart_block env p ms k = Done (v, k') -> k_log k' = k_log k.
Proof.
  unfold uart_block. intros H. apply bind_Done in H as (c & _ & H). apply bind_Done in H as (k1 & H1%write_ctx_log & H).
  apply bind_Done in H as ([n s] & _ & H). apply switch_context_log in H. by rewrite H.
Qed.

Lemma uart_read_quiet env p (k : Kernel FA) v k' : uart_read env p k = Done (v, k') -> k_log k' = k_log k.
Proof.
  unfold uart_read. intros H. apply bind_Done in H as (c & _ & H). apply bind_Done in H as (k1 & H1%write_ctx_log & H).
  apply bind_Done in H as ([o rb] & _ & H). cbv zeta in H. rewrite <- H1. destruct o as [r|].
  - by apply return_char_quiet in H.
  - case_match.
    + apply bind_Done in H as (x & _ & H). apply bind_Done in H as (k2 & H2%write_ctx_log & H). by injection H as _ <-.
    + apply bind_Done in H as (i & _ & H). case_match.
      * apply bind_Done in H as ([o rb'] & _ & H). apply bind_Done in H as (r & _ & H). by apply return_char_quiet in H.
      * by apply uart_block_quiet in H.
Qed.

(** What a trap sends to the console: the byte of a write system call. *)
Definition trap_output (scause : Z) (cpu : TaskContext) : list Z :=
  match parse_trap_cause scause with
  | Exception UserEcall => if ctx_a7 cpu =? 1 then [Z.land (ctx_a0 cpu) 0xff] else []
  | _ => []
  end.

Lemma trap_handler_console env p scause (k : Kernel FA) cpu v k' :
  read_ctx k p = Done cpu -> trap_handler env p scause k = Done (v, k') ->
  console (k_log k') = console (k_log k) ++ trap_output scause cpu.
Proof.
  intros Hcpu. unfold trap_handler, trap_output, return_saved.
  destruct (parse_trap_cause scause) as [[| |]|[|]]; intros H; rewrite ?app_nil_r.
  - apply bind_Done in H as (s & _ & H). apply bind_Done in H as ([n [fs s']] & _ & H).
    apply switch_context_log in H. rewrite H. by apply (quiet_emit (set_sched k s)).
  - apply bind_Done in H as (k1 & H1%plic_quiet & H). apply bind_Done in H as (x & _ & H). injection H as _ <-. exact H1.
  - apply bind_Done in H as (x & _ & H). injection H as _ <-. by apply quiet_emit.
  - rewrite Hcpu in H. cbn [mbind outcome_bind] in H. cbv zeta in H. destruct (ctx_a7 cpu =? 1).
    { unfold uart_write_byte in H. rewrite Hcpu in H. cbn [mbind outcome_bind] in H. cbv zeta in H.
      apply bind_Done in H as (k2 & H2%write_ctx_log & H). injection H as _ <-. rewrite H2. cbn. apply console_app. }
    rewrite app_nil_r. destruct (ctx_a7 cpu =? 10); [repeat case_match|repeat case_match; f_equal].
    + f_equal. by apply schedule_quiet in H.
    + f_equal. apply bind_Done in H as (s & _ & H). by apply schedule_quiet in H.
    + injection H as _ <-. by apply quiet_emit.
    + by apply schedule_quiet in H.
    + apply bind_Done in H as (s & _ & H). by apply schedule_quiet in H.
    + by apply sleep_quiet in H.
    + by apply uart_read_quiet in H.
    + by injection H as _ <-.
  - apply bind_Done in H as (x & _ & H). injection H as _ <-. by apply quiet_emit.
Qed.
End Console.

(** ** Registers *)

Section Registers.
Context {FA : Type} `{HFL : FrameAllocatorLaws FA}.

Lemma trap_console env scause cpu (k : Kernel FA) c cpu' k' :
  kernel_ok k -> current_task_id (k_sched k) = Some c -> trap env scause cpu k = Done (cpu', k') ->
  console (k_log k') = console (k_log k) ++ trap_output scause cpu.
Proof using HFL.
  intros Hok Hc Ht. destruct (trap_current env scause cpu k c Hok Hc) as (t & _ & _ & _ & Hread & Heq).
  rewrite Ht in Heq. symmetry in Heq. apply bind_Done in Heq as ([v k2] & Hh & Heq).
  apply bind_Done in Heq as (x & _ & Heq). injection Heq as _ <-. by apply (trap_handler_console env _ _ _ _ _ _ Hread) in Hh.
Qed.

(** An interrupt saves the registers of the interrupted task; every task keeps its context, up to a character delivered. *)
Lemma interrupt_handled env scause cause (k : Kernel FA) :
  kernel_ok k -> parse_trap_cause scause = Interrupt cause ->
  handled (delivered env scause) None k (trap_handler env (k_sscratch k) scause k).
Proof using HFL.
  intros Hok Hp. unfold trap_handler, delivered. rewrite Hp. destruct cause.
  - apply timer_ok. apply Hok.
  - destruct (plic_ok env k Hok) as (k1 & -> & Hok1 & Hss & Ha). cbn [mbind outcome_bind].
    rewrite <- Hss. by apply return_saved_ok.
  - change (k_sscratch k) with (k_sscratch (emit k PollingPrint)).
    apply return_saved_ok; [by apply emit_ok|apply tables_agree_refl].
Qed.

Lemma interrupt_agree env scause cause cpu (k : Kernel FA) c cpu' k' :
  kernel_ok k -> current_task_id (k_sched k) = Some c -> parse_trap_cause scause = Interrupt cause ->
  trap env scause cpu k = Done (cpu', k') ->
  exists t, slot (k_sched k) c = Some t /\ tables_agree (delivered env scause) None (k_sched (put k c t cpu)) (k_sched k').
Proof using HFL.
  intros Hok Hc Hp Ht. destruct (trap_current env scause cpu k c Hok Hc) as (t & Hs & Hss & Hok1 & _ & Heq).
  exists t. split; [done|]. destruct (interrupt_handled env scause cause _ Hok1 Hp) as (v & k2 & Hh & _ & _ & Ha).
  change (k_sscratch (put k c t cpu)) with (k_sscratch k) in Hh. rewrite Hss in Hh. rewrite Hh in Heq. cbn [mbind outcome_bind] in Heq.
  rewrite Ht in Heq. symmetry in Heq. apply bind_Done in Heq as (x & _ & Heq). injection Heq as _ <-. exact Ha.
Qed.

(** [sscratch] stays, or is made to point to the context of a task. *)
Definition ptr_kept (k k' : Kernel FA) : Prop := k_sscratch k' = k_sscratch k \/ exists i, k_sscratch k' = TaskCtx i.

Lemma write_ctx_ptr (k : Kernel FA) p c k' : write_ctx k p c = Done k' -> k_sscratch k' = k_sscratch k.
Proof. destruct p; cbn; [by intros [= <-]|]. repeat case_match; try done. by intros [= <-]. Qed.

Lemma switch_context_ptr k0 (k : Kernel FA) n v k' : switch_context k n = Done (v, k') -> ptr_kept k0 k'.
Proof. unfold switch_context. intros Hs. apply bind_Done in Hs as (c & _ & Hs). injection Hs as _ <-. right. by exists n. Qed.

Lemma schedule_ptr k0 p (k : Kernel FA) v k' : schedule p k = Done (v, k') -> ptr_kept k0 k'.
Proof.
  unfold schedule. intros Hs. apply bind_Done in Hs as (c & _ & Hs). apply bind_Done in Hs as (k1 & _ & Hs).
  apply bind_Done in Hs as ([n [fs s]] & _ & Hs). by eapply switch_context_ptr.
Qed.

Lemma uart_read_ptr env p (k : Kernel FA) v k' : uart_read env p k = Done (v, k') -> ptr_kept k k'.
Proof.
  assert (Hchar : forall x k1, k_sscratch k1 = k_sscratch k -> return_char p x k1 = Done (v, k') -> ptr_kept k k').
  { intros x k1 Hk1 Hs. unfold return_char in Hs. apply bind_Done in Hs as (c & _ & Hs).
    apply bind_Done in Hs as (k2 & Hk2%write_ctx_ptr & Hs). injection Hs as _ <-. left. congruence. }
  unfold uart_read. intros Hs. apply bind_Done in Hs as (c & _ & Hs). apply bind_Done in Hs as (k1 & Hk1%write_ctx_ptr & Hs).
  apply bind_Done in Hs as ([o rb] & _ & Hs). cbv zeta in Hs. destruct o as [r|]; [eapply Hchar; [|exact Hs]; exact Hk1|]. case_match.
  - apply bind_Done in Hs as (x & _ & Hs). apply bind_Done in Hs as (k2 & Hk2%write_ctx_ptr & Hs). injection Hs as _ <-.
    left. by rewrite Hk2.
  - apply bind_Done in Hs as (i & _ & Hs). case_match.
    + apply bind_Done in Hs as ([o rb'] & _ & Hs). apply bind_Done in Hs as (r & _ & Hs). eapply Hchar; [|exact Hs]. exact Hk1.
    + unfold uart_block in Hs. apply bind_Done in Hs as (x & _ & Hs). apply bind_Done in Hs as (k2 & _ & Hs).
      apply bind_Done in Hs as ([n s] & _ & Hs). by eapply switch_context_ptr.
Qed.

Lemma trap_handler_ptr env p scause (k : Kernel FA) v k' :
  kernel_ok k -> trap_handler env p scause k = Done (v, k') -> ptr_kept k k'.
Proof using HFL.
  intros Hok. unfold trap_handler, return_saved. destruct (parse_trap_cause scause) as [[| |]|[|]]; intros Hs.
  - apply bind_Done in Hs as (s & _ & Hs). apply bind_Done in Hs as ([n [fs s']] & _ & Hs). by eapply switch_context_ptr.
  - destruct (plic_ok env k Hok) as (k1 & Heq & _ & Hss & _). rewrite Heq in Hs. cbn [mbind outcome_bind] in Hs.
    apply bind_Done in Hs as (c & _ & Hs). injection Hs as _ <-. by left.
  - apply bind_Done in Hs as (c & _ & Hs). injection Hs as _ <-. by left.
  - apply bind_Done in Hs as (c & _ & Hs). cbv zeta in Hs. repeat case_match.
    + unfold uart_write_byte in Hs. apply bind_Done in Hs as (x & _ & Hs). cbv zeta in Hs.
      apply bind_Done in Hs as (k1 & Hk1%write_ctx_ptr & Hs). injection Hs as _ <-. left. by rewrite Hk1.
    + by eapply schedule_ptr.
    + apply bind_Done in Hs as (s & _ & Hs). by eapply schedule_ptr.
    + injection Hs as _ <-. by left.
    + unfold sleep in Hs. apply bind_Done in Hs as (x & _ & Hs). apply bind_Done in Hs as (k1 & _ & Hs).
      apply bind_Done in Hs as ([n s] & _ & Hs). by eapply switch_context_ptr.
    + by eapply uart_read_ptr.
    + apply bind_Done in Hs as (x & _ & Hs). injection Hs as _ <-. by left.
  - apply bind_Done in Hs as (c & _ & Hs). injection Hs as _ <-. by left.
Qed.

(** While tasks run there is a current task. *)
Lemma trap_has_current env scause cpu (k : Kernel FA) c cpu' k' :
  kernel_ok k -> kernel_ok k' -> current_task_id (k_sched k) = Some c -> trap env scause cpu k = Done (cpu', k') ->
  is_Some (current_task_id (k_sched k')).
Proof using HFL.
  intros Hok [_ Hp] Hc Ht. destruct (trap_current env scause cpu k c Hok Hc) as (t & _ & Hss & Hok1 & _ & Heq).
  rewrite Ht in Heq. symmetry in Heq. apply bind_Done in Heq as ([v k2] & Hh & Heq).
  apply bind_Done in Heq as (x & _ & Heq). injection Heq as _ <-. apply trap_handler_ptr in Hh; [|done].
  unfold ptr_ok in Hp. destruct (current_task_id (k_sched k2)); [done|]. exfalso.
  destruct Hh as [Hh|[i Hh]]; rewrite Hh in Hp; [|done]. change (k_sscratch (put k c t cpu)) with (k_sscratch k) in Hp. congruence.
Qed.

(** The value of a read: -1, or an ASCII character. *)
Definition a0_ok (c : TaskContext) : Prop := ctx_a0 c = usize_MAX \/ ctx_a0 c < 128.

Lemma agree_a0 w t t' : agree w t t' -> (forall r, w = Some r -> r < 128) -> a0_ok (context t) -> a0_ok (context t').
Proof.
  intros (st & c & -> & _ & [->|(r & Hw & ->)]) Hr Hok; [exact Hok|]. right. cbn. by apply Hr.
Qed.

Lemma delivered_ascii env scause r : delivered env scause = Some r -> r < 128.
Proof.
  unfold delivered, received_char. repeat case_match; try done. intros [= <-].
  match goal with H : (_ <=? _) = false |- _ => apply Z.leb_gt in H end. lia.
Qed.

Lemma put_a0 (k : Kernel FA) c t y t' :
  slot (k_sched k) c = Some t -> a0_ok y -> slot (k_sched (put k c t y)) c = Some t' -> a0_ok (context t').
Proof. intros Ht Hy. rewrite put_slot, decide_True by done. by intros [= <-]. Qed.

Lemma return_char_a0 x (k : Kernel FA) c t v k' t' :
  slot (k_sched k) c = Some t -> return_char (TaskCtx c) x k = Done (v, k') -> slot (k_sched k') c = Some t' -> a0_ok (context t').
Proof.
  intros Ht. unfold return_char. rewrite (read_ctx_slot _ _ _ Ht). cbn [mbind outcome_bind].
  rewrite (write_ctx_slot _ _ _ _ Ht). cbn [mbind outcome_bind]. intros [= _ <-]. apply put_a0; [done|].
  unfold a0_ok. cbn. destruct (Z.leb_spec 0x80 x); [by left|right; lia].
Qed.

Lemma uart_read_a0 env (k : Kernel FA) c t v k' t' :
  kernel_ok k -> calling k c -> slot (k_sched k) c = Some t ->
  uart_read env (TaskCtx c) k = Done (v, k') -> slot (k_sched k') c = Some t' -> a0_ok (context t').
Proof using HFL.
  intros Hok Hcall Ht. unfold uart_read. rewrite (read_ctx_slot _ _ _ Ht). cbn [mbind outcome_bind].
  rewrite (write_ctx_slot _ _ _ _ Ht). cbn [mbind outcome_bind]. set (y := set_sepc _ _).
  assert (Ht1 : slot (k_sched (put k c t y)) c = Some (set_context t y)) by (by rewrite put_slot, decide_True).
  pose proof Hcall as (Hb & Hc & _). destruct (bo_rx _ Hb) as [l Hl].
  change (receive_buffer (put k c t y)) with (receive_buffer k). destruct l as [|x l];
    [|destruct (RingBuffer_pop_cons _ uart_buffer_small _ _ _ Hl) as (rb & -> & Hrb); cbn [mbind outcome_bind]; by apply return_char_a0 with (t := set_context t y)].
  rewrite (RingBuffer_pop_nil _ _ Hl). cbn [mbind outcome_bind]. cbv zeta. intros Hr.
  case_match.
  - rewrite (read_ctx_slot (set_rx _ _) _ _ Ht1) in Hr. cbn [mbind outcome_bind] in Hr.
    rewrite (write_ctx_slot (set_rx _ _) _ _ _ Ht1) in Hr. cbn [mbind outcome_bind] in Hr. injection Hr as _ <-.
    apply (put_a0 (set_rx (put k c t y) (receive_buffer k))); [exact Ht1|by left].
  - change (get_current_task_id (k_sched (set_rx (put k c t y) (receive_buffer k)))) with (get_current_task_id (k_sched k)) in Hr.
    unfold get_current_task_id in Hr. rewrite Hc in Hr. cbn [unwrap mbind outcome_bind] in Hr. cbv zeta in Hr. case_match.
    + apply bind_Done in Hr as ([o rb'] & _ & Hr). apply bind_Done in Hr as (w & _ & Hr). eapply return_char_a0; [|exact Hr]. exact Ht1.
    + set (k3 := set_wait _ _) in Hr. unfold uart_block in Hr. rewrite (read_ctx_slot k3 _ _ Ht1) in Hr. cbn [mbind outcome_bind] in Hr.
      rewrite (write_ctx_slot k3 _ _ _ Ht1) in Hr. cbn [mbind outcome_bind] in Hr. set (z := set_a0 _ _) in Hr.
      assert (Hh : handled None None (put k3 c (set_context t y) z) (Done (v, k'))).
      { rewrite <- Hr. assert (Hc3 : calling (put k3 c (set_context t y) z) c).
        { apply put_calling; [|exact Ht1]. destruct (put_calling k c t y Hcall Ht) as (Hb1 & Hc1 & Hrun1 & Hne1).
          split_and!; try done. destruct Hb1 as [? ? ? ? ? Hw]. split; try done. apply Forall_app. split; [exact Hw|].
          repeat constructor. by eapply slot_lt. }
        destruct (_ <? _); [apply (sleep_until_ok _ c)|apply (block_ok _ c)]; exact Hc3. }
      destruct Hh as (v' & k'' & [= <- <-] & _ & _ & _ & Ha). intros Ht'. destruct (Ha c t' Ht') as (u & Hu & _ & _ & Hag).
      eapply agree_a0; [by apply Hag|done|]. eapply (put_a0 k3); [exact Ht1| |exact Hu]. by left.
Qed.
End Registers.

(** The value that a read leaves for the task, now or when it is resumed. *)
Lemma read_trap_a0 {FA} `{FrameAllocatorLaws FA} env cpu (k : Kernel FA) c cpu' k' t' :
  kernel_ok k -> current_task_id (k_sched k) = Some c -> c <> 0%nat -> ctx_a7 cpu = 27 ->
  trap env ECALL cpu k = Done (cpu', k') -> slot (k_sched k') c = Some t' -> a0_ok (context t').
Proof.
  intros Hok Hc Hc0 Ha7 Ht. destruct (trap_current env ECALL cpu k c Hok Hc) as (t & Hs & Hss & Hok1 & Hread & Heq).
  rewrite Ht in Heq. symmetry in Heq. apply bind_Done in Heq as ([v k2] & Hh & Heq).
  apply bind_Done in Heq as (x & _ & Heq). injection Heq as _ <-. unfold trap_handler in Hh.
  change (parse_trap_cause ECALL) with (Exception UserEcall) in Hh. rewrite Hread in Hh. cbn [mbind outcome_bind] in Hh.
  cbv zeta in Hh. rewrite Ha7 in Hh. cbn [Z.eqb Pos.eqb] in Hh.
  eapply (uart_read_a0 env (put k c t cpu) c (set_context t cpu)); [exact Hok1| |by rewrite put_slot, decide_True|exact Hh].
  destruct Hok1 as [Hb1 Hp1]. unfold ptr_ok in Hp1.
  change (current_task_id (k_sched (put k c t cpu))) with (current_task_id (k_sched k)) in Hp1. rewrite Hc in Hp1.
  by split_and!; [| |apply Hp1|].
Qed.

(** A task that has made the exit system call is terminated. *)
Lemma exit_trap_dead {FA} `{FrameAllocatorLaws FA} env cpu (k : Kernel FA) c cpu' k' t' :
  kernel_ok k -> current_task_id (k_sched k) = Some c -> c <> 0%nat -> ctx_a7 cpu = 9 ->
  trap env ECALL cpu k = Done (cpu', k') -> slot (k_sched k') c = Some t' -> status t' = Terminated.
Proof.
  intros Hok Hc Hc0 Ha7 Ht. destruct (trap_current env ECALL cpu k c Hok Hc) as (t & Hs & Hss & Hok1 & Hread & Heq).
  rewrite Ht in Heq. symmetry in Heq. apply bind_Done in Heq as ([v k2] & Hh & Heq).
  apply bind_Done in Heq as (x & _ & Heq). injection Heq as _ <-. unfold trap_handler in Hh.
  change (parse_trap_cause ECALL) with (Exception UserEcall) in Hh. rewrite Hread in Hh. cbn [mbind outcome_bind] in Hh.
  cbv zeta in Hh. rewrite Ha7 in Hh. cbn [Z.eqb Pos.eqb] in Hh. set (k1 := put k c t cpu) in *.
  assert (Ht1 : slot (k_sched k1) c = Some (set_context t cpu)) by (unfold k1; by rewrite put_slot, decide_True).
  destruct Hok1 as [Hb1 Hp1]. unfold ptr_ok in Hp1. change (current_task_id (k_sched k1)) with (current_task_id (k_sched k)) in Hp1.
  rewrite Hc in Hp1. destruct Hp1 as [Hrun _]. unfold stat in Hrun. rewrite Ht1 in Hrun. injection Hrun as Hrun.
  destruct (exit_current_task_ok _ c _ (bo_sched _ Hb1) Hc Ht1 Hrun) as (s & Hexit & Hsok & _ & _ & _ & Hl & Hsl).
  rewrite Hexit in Hh. cbn [mbind outcome_bind] in Hh.
  set (u := set_status (set_context t cpu) Terminated) in *.
  assert (Hu : slot s c = Some u) by (by rewrite Hsl, decide_True).
  assert (Hbs : base_ok (set_sched k1 s)).
  { apply (base_set_sched k1 s None None Hb1 Hsok).
    - unfold idle_ok, stat. rewrite Hsl, decide_False by done. apply Hb1.
    - split; [done|]. intros i w Hw. rewrite Hsl in Hw. case_decide; subst; [injection Hw as <-|exists w; split_and!; try done; intros _; apply agree_refl].
      eexists. split; [exact Ht1|]. split_and!; try done. intros _. by apply agree_status. }
  unfold schedule in Hh. rewrite (read_ctx_slot (set_sched k1 s) c u Hu) in Hh. cbn [mbind outcome_bind] in Hh.
  rewrite (write_ctx_slot (set_sched k1 s) c u _ Hu) in Hh. cbn [mbind outcome_bind] in Hh. set (y := set_sepc _ _) in Hh.
  destruct (prepare_step (put (set_sched k1 s) c u y)) as (n & fs & s2 & v2 & k3 & Hprep & Hsw & _ & _ & _ & Ha);
    [by apply put_base|]. rewrite Hprep in Hh. cbn [mbind outcome_bind] in Hh. rewrite Hsw in Hh. injection Hh as _ <-.
  intros Ht'. destruct (Ha c t' Ht') as (w & Hw & _ & _ & Hag). rewrite (put_slot (set_sched k1 s) c u y c Hu), decide_True in Hw by done.
  injection Hw as <-. destruct (Hag ltac:(done)) as (st & z & -> & Hd & _). cbn. by apply Hd.
Qed.
