(* ===== verification/Plic.v ===== *)
(** * Interrupt delivery

    What makes an interrupt reach the handler and be delivered again: the enable bits that [init_supervisor_interrupts]
    ([src/trap/interrupts/mod.rs]) sets, and the claim and completion of an external interrupt at the interrupt controller
    ([PLIC::claim], [PLIC::complete] of [src/driver/plic.rs]), composed with the kernel's handler.

    The controller is modelled as its specification describes it: a source that is pending and enabled can be claimed; from then on it
    is in service and not offered again until it is completed; a completion for a source that is not in service is ignored. *)

From stdpp Require Import relations.
From S2P Require Import Prelude Address FrameAllocator Memory Buddy BuddyProofs RingBuf Board Lock Context Scheduler SchedulerProofs SchedulerSpec Kernel KernelProofs KernelSpec Trace.

(** ** Enabling *)

Definition SIE_STIE_MASK : Z := wshl 1 5.
Definition SIE_SEIE_MASK : Z := wshl 1 9.

(** [sie] and [sstatus]. [sie::set_stimer], [sie::set_sext] and [sstatus::set_sie] set one bit each. *)
Record Csr := mkCsr { csr_sie : Z; csr_sstatus : Z }.

Definition init_supervisor_interrupts (c : Csr) : Csr :=
  let sie := Z.lor (csr_sie c) SIE_STIE_MASK in
  let sie := Z.lor sie SIE_SEIE_MASK in
  mkCsr sie (Z.lor (csr_sstatus c) SSTATUS_SIE_MASK).

Lemma init_supervisor_interrupts_ok c :
  interrupts_enabled (csr_sstatus (init_supervisor_interrupts c)) = true /\
  forall i, 0 <= i -> Z.testbit (csr_sie (init_supervisor_interrupts c)) i = Z.testbit (csr_sie c) i || (i =? 5) || (i =? 9).
Proof.
  unfold init_supervisor_interrupts, interrupts_enabled. cbn [csr_sie csr_sstatus]. split.
  - rewrite Z.lor_spec. apply orb_true_r.
  - intros i Hi. rewrite !Z.lor_spec. change SIE_STIE_MASK with (2 ^ 5). change SIE_SEIE_MASK with (2 ^ 9).
    rewrite !Z.pow2_bits_eqb by lia. by rewrite (Z.eqb_sym 5), (Z.eqb_sym 9).
Qed.

(** The clock in milliseconds. *)
Definition get_time_ms (current_time : Z) : Z := current_time / (RISCV_ACLINT_DEFAULT_TIMEBASE_FREQ / 1000).

(** ** The controller *)

(** The sources that are pending, enabled and in service, for one hart. *)
Record Plic := mkPlic { p_pending : gset Z; p_enabled : gset Z; p_serving : gset Z }.

(** The sources that a claim can return. *)
Definition offered (p : Plic) : gset Z := (p_pending p ∩ p_enabled p) ∖ p_serving p.

(** A read of the claim register; 0 is no source. Which source it returns if there are several is the controller's choice. *)
Inductive claims : Plic -> Z -> Plic -> Prop :=
| claim_none p : offered p = ∅ -> claims p 0 p
| claim_some p irq : irq ∈ offered p ->
    claims p irq (mkPlic (p_pending p ∖ {[irq]}) (p_enabled p) (p_serving p ∪ {[irq]})).

(** A write of the completion register. *)
Definition complete (p : Plic) (irq : Z) : Plic := mkPlic (p_pending p) (p_enabled p) (p_serving p ∖ {[irq]}).

(** A device raises its interrupt. *)
Definition raise (p : Plic) (irq : Z) : Plic := mkPlic (p_pending p ∪ {[irq]}) (p_enabled p) (p_serving p).

(** The completions that the handler has written. *)
Definition completions (l : list Effect) : list Z :=
  omap (fun e => match e with PlicComplete irq => Some irq | _ => None end) l.

(** An external interrupt: the claim, the handler with the number claimed, and the completions it writes. *)
Inductive external_round {FA} `{FrameAllocator FA} (env : Env) (p : Plic) (k : Kernel FA) : Plic -> Kernel FA -> Prop :=
| ext_round p1 k' :
    claims p (e_irq env) p1 -> plic_handler env k = Done k' ->
    external_round env p k (foldl complete p1 (drop (length (completions (k_log k))) (completions (k_log k')))) k'.

(** ** Rounds *)

Section Rounds.
Context {FA : Type} `{HFL : FrameAllocatorLaws FA}.

Lemma plic_handler_completions env (k k' : Kernel FA) :
  plic_handler env k = Done k' -> completions (k_log k') = completions (k_log k) ++ [to_num (num_to_irq (e_irq env))].
Proof.
  unfold plic_handler. cbv zeta. intros Hh. apply bind_Done in Hh as (k1 & H1 & Hh). injection Hh as <-. cbn [k_log emit].
  unfold completions. rewrite omap_app. cbn. f_equal. destruct (num_to_irq (e_irq env)).
  - apply uart_interrupt_logged in H1 as (l & -> & Hu). rewrite omap_app.
    assert (omap (fun e => match e with PlicComplete irq => Some irq | _ => None end) l = []) as ->; [|apply app_nil_r].
    induction Hu as [|[] l He _ IH]; by try (destruct He).
  - injection H1 as <-. cbn. rewrite omap_app. apply app_nil_r.
Qed.

(** The controller after a round. *)
Lemma round_complete env p (k : Kernel FA) p' k' :
  external_round env p k p' k' ->
  exists p1, claims p (e_irq env) p1 /\ p' = complete p1 (to_num (num_to_irq (e_irq env))).
Proof.
  intros [p1 k'' Hc Hh]. exists p1. split; [done|]. rewrite (plic_handler_completions _ _ _ Hh).
  by rewrite drop_app_length.
Qed.

(** Later rounds and interrupts raised by devices. *)
Inductive plic_step : Plic * Kernel FA -> Plic * Kernel FA -> Prop :=
| ps_raise p k irq : plic_step (p, k) (raise p irq, k)
| ps_round env p k p' k' : external_round env p k p' k' -> plic_step (p, k) (p', k').

(** A source that is in service with a number other than the two that the handler completes stays so. *)
Lemma plic_step_stuck n s s' : n <> 10 -> n <> 717 -> n ∈ p_serving s.1 -> plic_step s s' -> n ∈ p_serving s'.1.
Proof using HFL.
  intros H10 H717 Hn Hs. destruct Hs as [p k irq|env p k p' k' Hr]; [done|].
  apply round_complete in Hr as (p1 & Hc & ->). cbn [fst] in *.
  assert (Hn1 : n ∈ p_serving p1) by (destruct Hc; [done|by apply elem_of_union_l]).
  cbn. apply elem_of_difference. split; [done|]. unfold num_to_irq. destruct (e_irq env =? 10); cbn; set_solver.
Qed.
End Rounds.

(** C31: what completing an interrupt achieves. After the round of a UART interrupt the controller is as before the interrupt was raised, so the next
    one is delivered. After the round of any other source, which the handler completes with the number 717 instead of its own,
    that source is in service forever: no later claim returns it, whatever devices raise and whatever is handled. *)
Theorem external_round_spec {FA} `{FrameAllocatorLaws FA} env p (k : Kernel FA) p' k' :
  external_round env p k p' k' -> e_irq env <> 0 ->
  (e_irq env = 10 -> p_serving p' = p_serving p /\ p_enabled p' = p_enabled p /\ 10 ∈ offered (raise p' 10)) /\
  (e_irq env <> 10 -> e_irq env <> 717 -> forall s, rtc plic_step (p', k') s -> e_irq env ∉ offered s.1).
Proof.
  intros Hr Hirq. apply round_complete in Hr as (p1 & Hc & ->).
  assert (Hclaim : e_irq env ∈ offered p /\ p1 = mkPlic (p_pending p ∖ {[e_irq env]}) (p_enabled p) (p_serving p ∪ {[e_irq env]})).
  { inversion Hc; subst; [congruence|done]. }
  destruct Hclaim as [Ho ->]. unfold offered in *. split.
  - intros H10. rewrite H10 in *. apply elem_of_difference in Ho as [[_ He]%elem_of_intersection Hs].
    change (to_num (num_to_irq 10)) with 10. cbn [complete raise p_serving p_enabled p_pending].
    assert (Heq : (p_serving p ∪ {[10]}) ∖ {[10]} = p_serving p).
    { apply set_eq. intros x. rewrite elem_of_difference, elem_of_union, elem_of_singleton.
      split; [intros [[?|?] ?]; done|]. intros Hx. split; [by left|]. intros ->. done. }
    rewrite Heq. split_and!; [done|done|]. apply elem_of_difference. split; [|done]. apply elem_of_intersection. split; [|done].
    apply elem_of_union_r. by apply elem_of_singleton.
  - intros H10 H717 s Hs.
    assert (Hin : e_irq env ∈ p_serving (complete (mkPlic (p_pending p ∖ {[e_irq env]}) (p_enabled p) (p_serving p ∪ {[e_irq env]}))
      (to_num (num_to_irq (e_irq env))))).
    { unfold num_to_irq. rewrite (proj2 (Z.eqb_neq _ _) H10). apply elem_of_difference. split; [|by apply not_elem_of_singleton].
      apply elem_of_union_r. by apply elem_of_singleton. }
    assert (Hend : e_irq env ∈ p_serving s.1); [|by intros [_ Hx]%elem_of_difference].
    remember (complete _ _, k') as s0 eqn:Hs0. assert (Hin0 : e_irq env ∈ p_serving s0.1) by (subst s0; exact Hin). clear Hs0 Hin.
    induction Hs as [|s1 s2 s3 H12 _ IH]; [done|]. apply IH. by eapply plic_step_stuck.
Qed.

Lemma external_round_spec_witness :
  exists p' k', external_round (mkEnv 0 0 8 0 0 0 0) (mkPlic {[8]} {[8; 10]} ∅) k_run1 p' k' /\
    8 ∉ offered (raise p' 8).
Proof.
  assert (Hh : plic_handler (mkEnv 0 0 8 0 0 0 0) k_run1 = Done (emit (emit k_run1 PollingPrint) (PlicComplete 717))) by reflexivity.
  assert (Hc : claims (mkPlic {[8]} {[8; 10]} ∅) 8 (mkPlic ({[8]} ∖ {[8]}) {[8; 10]} (∅ ∪ {[8]})))
    by (apply claim_some; apply (bool_decide_unpack _); vm_compute; exact I).
  pose proof (ext_round (mkEnv 0 0 8 0 0 0 0) _ k_run1 _ _ Hc Hh) as Hr. eexists _, _. split; [exact Hr|].
  destruct (external_round_spec _ _ _ _ _ Hr ltac:(discriminate)) as [_ Hstuck].
  exact (Hstuck ltac:(discriminate) ltac:(discriminate) _ (rtc_once _ _ (ps_raise _ _ 8))).
Defined.
