(* ===== verification/Liveness.v ===== *)
(** * Progress of sleeping and ready tasks

    What a sequence of timer interrupts does: a task that sleeps is woken by the first one at or after its time and gets the
    processor after at most as many interrupts as there are tasks. Between the interrupts the running tasks compute, so
    their registers are arbitrary. *)

From S2P Require Import Prelude Address FrameAllocator Memory Buddy BuddyProofs RingBuf Context Scheduler SchedulerProofs SchedulerSpec Kernel KernelProofs KernelSpec.

(** A timer interrupt for every environment and set of registers of the task it interrupts; the result lists the tasks that get the
    processor. *)
Fixpoint timer_ticks {FA} `{FrameAllocator FA} (l : list (Env * TaskContext)) (k : Kernel FA) : outcome (list nat * Kernel FA) :=
  match l with
  | [] => Done ([], k)
  | (env, cpu) :: l =>
      '(_, k) ← trap env TIMER cpu k;
      c ← get_current_task_id (k_sched k);
      '(cs, k) ← timer_ticks l k;
      Done (c :: cs, k)
  end.

Section Ticks.
Context {FA : Type} `{HFL : FrameAllocatorLaws FA}.

(** One timer interrupt: sleepers are woken, then the first task of the ready queue is chosen. *)
Lemma timer_step env cpu (k : Kernel FA) c :
  kernel_ok k -> current_task_id (k_sched k) = Some c ->
  exists cpu' k' t s1 n, trap env TIMER cpu k = Done (cpu', k') /\ kernel_ok k' /\
    slot (k_sched k) c = Some t /\ sched_ok s1 /\
    woken (e_time env) (blocked_queue (k_sched k)) (k_sched (put k c t cpu)) s1 /\
    current_task_id (k_sched k') = Some n /\
    (n, ready_queue (k_sched k')) = pick (ready_queue s1 ++ requeued s1) /\
    length (task_list (k_sched k')) = length (task_list (k_sched k)).
Proof using HFL.
  intros Hok Hc. destruct (trap_current env TIMER cpu k c Hok Hc) as (t & Ht & Hss & [Hb1 Hp1] & _ & Htrap).
  set (k1 := put k c t cpu) in *.
  destruct (finish_sleep_loop_ok (e_time env) _ (S (length (blocked_queue (k_sched k1)))) (k_sched k1) eq_refl
    ltac:(lia) (bo_sched _ Hb1)) as (s1 & Hfin & Hs1 & Hw & _).
  destruct (finish_sleep_ok k1 (e_time env) Hb1) as (s1' & Hfin' & Hb2 & _).
  assert (s1' = s1) as ->. { unfold finish_sleep in Hfin'. rewrite Hfin in Hfin'. by injection Hfin'. }
  destruct (bo_stacks _ Hb2) as [B HB].
  destruct (prepare_next_task_ok _ s1 B Hs1 (bo_idle _ Hb2) HB) as (n & fs & s2 & B' & Hprep & Hr).
  cbn [set_sched set_alloc k_frames] in Hprep.
  destruct (trap_ok env TIMER cpu k Hok) as (cpu' & k' & Heq & Hok' & _ & Hlen & _); [intros Hx; vm_compute in Hx; discriminate|].
  exists cpu', k', t, s1, n. pose proof Heq as Heq'. rewrite Htrap in Heq'. unfold trap_handler in Heq'.
  change (parse_trap_cause TIMER) with (Interrupt SupervisorTimerInterrupt) in Heq'. rewrite Hfin' in Heq'.
  cbn [mbind outcome_bind] in Heq'. cbv zeta in Heq'.
  change (k_sched (set_next_timer_tick (e_time2 env) (set_sched k1 s1))) with s1 in Heq'.
  change (k_frames (set_next_timer_tick (e_time2 env) (set_sched k1 s1))) with (k_frames k1) in Heq'. rewrite Hprep in Heq'.
  cbn [mbind outcome_bind] in Heq'. apply bind_Done in Heq' as ([v k2] & Hsw & Hx).
  apply bind_Done in Hx as (x & _ & Hx). injection Hx as _ <-.
  unfold switch_context in Hsw. apply bind_Done in Hsw as (y & _ & Hsw). injection Hsw as _ <-.
  split_and!; try done; [apply (rs_current _ _ _ _ _ _ Hr)|apply (rs_pick _ _ _ _ _ _ Hr)].
Qed.

Lemma timer_ticks_total l : forall (k : Kernel FA) c,
  kernel_ok k -> current_task_id (k_sched k) = Some c -> exists cs k', timer_ticks l k = Done (cs, k').
Proof using HFL.
  induction l as [|[env cpu] l IH]; intros k c Hok Hc; cbn [timer_ticks]; [by eexists _, _|].
  destruct (timer_step env cpu k c Hok Hc) as (cpu' & k' & t & s1 & n & -> & Hok' & _ & _ & _ & Hn & _). cbn [mbind outcome_bind].
  unfold get_current_task_id. rewrite Hn. cbn [unwrap mbind outcome_bind].
  destruct (IH k' n Hok' Hn) as (cs & k2 & ->). by eexists _, _.
Qed.

(** A ready task advances in the queue. *)
Lemma timer_ticks_reach l : forall (k : Kernel FA) c pre i post,
  kernel_ok k -> current_task_id (k_sched k) = Some c -> ready_queue (k_sched k) = pre ++ i :: post -> i <> 0%nat ->
  (length pre < length l)%nat -> exists cs k', timer_ticks l k = Done (cs, k') /\ i ∈ cs.
Proof using HFL.
  induction l as [|[env cpu] l IH]; intros k c pre i post Hok Hc Hq Hi Hl; cbn [length] in Hl; [lia|]. cbn [timer_ticks].
  destruct (timer_step env cpu k c Hok Hc) as (cpu' & k' & t & s1 & n & -> & Hok' & _ & _ & Hw & Hn & Hp & _). cbn [mbind outcome_bind].
  unfold get_current_task_id. rewrite Hn. cbn [unwrap mbind outcome_bind].
  destruct (wk_ready _ _ _ _ Hw) as [more Hmore]. change (ready_queue (k_sched (put k c t cpu))) with (ready_queue (k_sched k)) in Hmore.
  rewrite Hmore, Hq, <- !app_assoc, <- app_comm_cons in Hp.
  destruct (pick_progress pre i ((post ++ more) ++ requeued s1) Hi) as [Hnow|(pre' & post' & Hlater & Hlen)];
    rewrite <- app_assoc in *; rewrite <- Hp in *; cbn [fst snd] in *.
  - subst n. destruct (timer_ticks_total l k' i Hok' Hn) as (cs & k2 & ->). eexists _, _. split; [done|]. left.
  - destruct (IH k' n pre' i post' Hok' Hn Hlater Hi ltac:(lia)) as (cs & k2 & -> & Hin). eexists _, _. split; [done|]. by right.
Qed.
End Ticks.

(** The ready queue is no longer than the table. *)
Lemma ready_short s : sched_ok s -> (length (ready_queue s) <= length (task_list s))%nat.
Proof.
  intros Hok. rewrite <- (length_seq (length (task_list s)) 0). apply submseteq_length, NoDup_submseteq; [apply Hok|].
  intros i Hi. apply (co_ready _ _ _ _ (so_coherent _ Hok)), stat_Some in Hi as (t & Ht & _). apply elem_of_seq. apply slot_lt in Ht. lia.
Qed.


(** Task 1 of the booted system sleeps for 5 ms. *)
Definition k_asleep : Kernel Frames :=
  match play [Syscall 0 17 5] TaskContext_zero k_run1 with Done (_, k) => k | Fault _ => k_run1 end.

Lemma k_asleep_ok :
  kernel_ok k_asleep /\ current_task_id (k_sched k_asleep) = Some 2%nat /\ stat (k_sched k_asleep) 1 = Some Blocked /\
  blocked_queue (k_sched k_asleep) = [mkSleepEntry 50000 1] /\ length (task_list (k_sched k_asleep)) = 3%nat.
Proof.
  split; [|split_and!; vm_compute; reflexivity]. unfold k_asleep. cbn [play].
  destruct (trap_ok (at_time 0) ECALL (call_regs 17 5 TaskContext_zero) k_run1 k_run1_ok) as (cpu' & k' & Heq & Hok & _).
  { intros _. split; [discriminate|]. exists 1%nat. split; [apply k_run1_current|discriminate]. }
  rewrite Heq. exact Hok.
Qed.

#[local] Opaque k_asleep.

