(* ===== verification/HeapVec.v ===== *)
(** * Vectors on the kernel heap

    The kernel's [Vec], [VecDeque] and [BinaryHeap] ([src/task/scheduler.rs], [src/trap/interrupts/service/uart_service.rs]) live on
    [SLUB_ALLOCATOR], the global allocator. Models how they grow: [RawVec::grow_one] of the alloc crate, which asks the global
    allocator for the first block with [alloc] and for every larger one with [realloc]. [SlubAllocator] does not define [realloc], so it is the
    provided method of [GlobalAlloc]: a new block, a copy, and [dealloc] of the old block.

    Every vector can therefore grow exactly once: this file proves it and what it means for the number of tasks. *)

From S2P Require Import Prelude Address FrameAllocator Memory Buddy BuddyProofs BuddyMemory MemMap Slub SlubProofs SlubSpec.
From S2P Require Import RingBuf Context Scheduler SchedulerProofs SchedulerSpec Kernel KernelProofs KernelSpec.

(** ** The provided method [GlobalAlloc::realloc] *)

(** [ptr::copy_nonoverlapping] of [n] words. *)
Fixpoint copy_words (n : nat) (fs : Frames) (src dst : Z) : Frames :=
  match n with
  | O => fs
  | S n => copy_words n (write_word fs dst (read_word fs src)) (src ⊞ 8) (dst ⊞ 8)
  end.

Definition GlobalAlloc_realloc (fuel : nat) (s : SlubAllocator Frames) (ptr size align new_size : Z)
    : outcome (Z * SlubAllocator Frames) :=
  '(new_ptr, s) ← GlobalAlloc_alloc fuel s new_size align;
  if new_ptr =? 0 then Done (0, s)
  else
    let s := mkSlubAllocator (copy_words (Z.to_nat ((Z.min size new_size + 7) / 8)) (sl_frames s) ptr new_ptr) (sl_map s) (caches s) in
    s ← GlobalAlloc_dealloc s ptr size align;
    Done (new_ptr, s).

(** ** Growing *)

(** Elements of [elem_size] bytes and the given alignment. *)
Record RawVec := mkRawVec { rv_ptr : Z; rv_cap : Z }.

Definition RawVec_new (align : Z) : RawVec := mkRawVec align 0.

Definition min_non_zero_cap (elem_size : Z) : Z :=
  if elem_size =? 1 then 8 else if elem_size <=? 1024 then 4 else 1.

Definition isize_max : Z := 2 ^ 63 - 1.

(** The capacity after growing by one element. *)
Definition grown_cap (elem_size cap : Z) : Z := Z.max (min_non_zero_cap elem_size) (Z.max (cap * 2) (cap + 1)).

Definition grow_one (fuel : nat) (elem_size align : Z) (s : SlubAllocator Frames) (v : RawVec)
    : outcome (RawVec * SlubAllocator Frames) :=
  let cap := grown_cap elem_size (rv_cap v) in
  let size := elem_size * cap in
  if isize_max <? size then panic "capacity overflow"
  else
    '(ptr, s) ← (if rv_cap v =? 0 then GlobalAlloc_alloc fuel s size align
                 else GlobalAlloc_realloc fuel s (rv_ptr v) (elem_size * rv_cap v) align size);
    if ptr =? 0 then panic "memory allocation failed"
    else Done (mkRawVec ptr cap, s).

(** ** How often it works *)

Lemma alloc_too_large f (s : SlubAllocator Frames) size align :
  layout_ok size align -> size <= isize_max -> 2048 < Z.max size align -> GlobalAlloc_alloc f s size align = panic "not implemented".
Proof.
  intros [Hs (k & Hk & ->)] Hmax Hbig. unfold isize_max in Hmax. unfold GlobalAlloc_alloc. cbv zeta.
  pose proof (pow2_pos k ltac:(lia)). pose proof (pow2_le_mono k 63 ltac:(lia)).
  destruct (Z.leb_spec (actual_size size (2 ^ k)) 2048) as [Hle|]; [exfalso|done]. unfold actual_size in Hle.
  set (m := Z.max size (2 ^ k)) in *. pose proof (Z.log2_up_nonneg m).
  assert (Hj : Z.log2_up m <= 63) by (change 63 with (Z.log2_up (2 ^ 63)); apply Z.log2_up_le_mono; lia).
  pose proof (pow2_le_mono (Z.log2_up m) 63 ltac:(lia)). pose proof (pow2_pos (Z.log2_up m) ltac:(lia)).
  destruct (log2_up_spec' m ltac:(lia)) as [_ Hup]. unfold next_power_of_two in Hle. rewrite wrap_small in Hle by (unfold usize; lia). lia.
Qed.

Lemma slubs_ok_map lo hi B Ss (s : SlubAllocator Frames) : slubs_ok lo hi B Ss s -> map_ok lo hi (sl_map s).
Proof.
  intros [Hlen Hok]. destruct (lookup_lt_is_Some_2 (caches s) 0) as [c Hc]; [lia|].
  destruct (Hok 0%nat c Hc) as [_ [l Hh]]. apply (ho_map _ _ _ _ _ _ _ Hh).
Qed.

(** The block that [alloc] returns lies in RAM. *)
Lemma alloc_in_ram lo hi B Ss (s : SlubAllocator Frames) size align f :
  0 < lo -> hi < DIRECT_MAP_PAGES -> slubs_ok lo hi B Ss s -> layout_ok size align -> Z.max size align <= 2048 ->
  (2 * length (MEM_MAP (sl_map s)) + 3 <= f)%nat ->
  exists r s' B' Ss', GlobalAlloc_alloc f s size align = Done (r, s') /\ slubs_ok lo hi B' Ss' s' /\
    (r = 0 \/ 0 < r /\ lo * 4096 <= virt_to_phys r < hi * 4096).
Proof.
  intros Hlo Hhi Hok Hlay Hmax Hf.
  destruct (GlobalAlloc_alloc_ok lo hi Hlo Hhi B Ss s size align f Hok Hlay Hmax Hf) as (i & r & s' & B' & S' & Hi & _ & _ & Heq & Hok' & _ & _ & Hr).
  exists r, s', B', (set_slabs Ss i S'). split; [done|]. split; [done|].
  destruct Hr as [(-> & _)|(Ht & c & l & Hc & Hh)]; [by left|right].
  destruct (taken_object lo hi i B Ss s l c r B' S' Hh Hc Ht) as (p & free' & HS' & Hro & _).
  destruct (lookup_lt_is_Some_2 (caches s') i) as [c' Hc']; [destruct Hok'; lia|].
  destruct (proj2 Hok' i c' Hc') as [Hcs [l' Hh']].
  assert (HSi : set_slabs Ss i S' i !! p = Some free') by (unfold set_slabs; by rewrite decide_True, HS', lookup_insert_eq).
  destruct (ho_slabs _ _ _ _ _ _ _ Hh' p free' HSi) as [Hp HB _ _ _].
  destruct (object_in_block lo hi Hlo Hhi (cache_size i) B' p r (cache_size_ok i Hi) Hp HB Hro) as [_ Hb].
  split; [|lia]. eapply objects_nonzero; [by apply cache_size_ok| |exact Hro]. lia.
Qed.

(** A block that is too large, or there is no memory, or the old block cannot be freed. *)
Lemma realloc_panics lo hi B Ss (s : SlubAllocator Frames) ptr size align new_size f :
  0 < lo <= hi -> hi < DIRECT_MAP_PAGES -> hi <= lo * 4096 -> slubs_ok lo hi B Ss s ->
  layout_ok size align -> 0 <= size <= new_size -> new_size <= isize_max -> lo * 4096 <= virt_to_phys ptr < hi * 4096 ->
  (2 * length (MEM_MAP (sl_map s)) + 3 <= f)%nat ->
  GlobalAlloc_realloc f s ptr size align new_size = panic "not implemented" \/
  GlobalAlloc_realloc f s ptr size align new_size = panic "index out of bounds" \/
  exists s', GlobalAlloc_realloc f s ptr size align new_size = Done (0, s').
Proof.
  intros Hlo Hhi Hra Hok [Hs0 Hk] Hsz Hmax Hptr Hf. assert (Hlay : layout_ok new_size align) by (split; [lia|done]).
  unfold GlobalAlloc_realloc. destruct (Z.le_gt_cases (Z.max new_size align) 2048) as [Hle|Hgt];
    [|left; by rewrite alloc_too_large]. right.
  destruct (alloc_in_ram lo hi B Ss s new_size align f) as (r & s' & B' & Ss' & -> & Hok' & Hr); try done; [lia|].
  cbn [mbind outcome_bind]. destruct (Z.eqb_spec r 0) as [->|Hne]; [right; by exists s'|left].
  cbv zeta. rewrite (GlobalAlloc_dealloc_panics lo hi); try done; [|unfold isize_max in Hmax; lia].
  cbn [sl_map]. by eapply slubs_ok_map.
Qed.

Lemma grown_cap_bound es cap : 0 <= cap -> cap < grown_cap es cap.
Proof. intros. unfold grown_cap. lia. Qed.

(** C38: a vector on the kernel heap grows once. The first element gets a block for [min_non_zero_cap] elements (if it has at most 2048 bytes and there is a
    page left); growing it again panics in every state of the heap, because the heap does not serve the larger
    block, or because it cannot free the old one. So none of the kernel's vectors, queues and heaps holds more elements than its first block. *)
Theorem vec_grows_once lo hi B Ss (s : SlubAllocator Frames) elem_size align v f :
  0 < lo <= hi -> hi < DIRECT_MAP_PAGES -> hi <= lo * 4096 -> slubs_ok lo hi B Ss s ->
  0 < elem_size -> layout_ok (elem_size * rv_cap v) align -> elem_size * rv_cap v <= isize_max ->
  (2 * length (MEM_MAP (sl_map s)) + 3 <= f)%nat ->
  (rv_cap v = 0 -> Z.max (elem_size * min_non_zero_cap elem_size) align <= 2048 ->
     grow_one f elem_size align s v = panic "memory allocation failed" \/
     exists ptr s' B' Ss', grow_one f elem_size align s v = Done (mkRawVec ptr (min_non_zero_cap elem_size), s') /\
       slubs_ok lo hi B' Ss' s' /\ lo * 4096 <= virt_to_phys ptr < hi * 4096) /\
  (0 < rv_cap v -> lo * 4096 <= virt_to_phys (rv_ptr v) < hi * 4096 ->
     exists msg, grow_one f elem_size align s v = panic msg).
Proof.
  intros Hlo Hhi Hra Hok Hes Hlay Hsz Hf. unfold grow_one. cbv zeta. split.
  - intros Hc Hmax. rewrite Hc. assert (Hcap : grown_cap elem_size 0 = min_non_zero_cap elem_size).
    { unfold grown_cap, min_non_zero_cap. repeat case_match; lia. }
    rewrite Hcap. destruct (Z.ltb_spec isize_max (elem_size * min_non_zero_cap elem_size)) as [Hx|Hx]; [unfold isize_max in Hx; lia|].
    destruct (alloc_in_ram lo hi B Ss s (elem_size * min_non_zero_cap elem_size) align f) as (r & s' & B' & Ss' & Heq & Hok' & Hr); try done; [lia| |].
    { split; [|apply Hlay]. unfold min_non_zero_cap. repeat case_match; lia. }
    cbn [Z.eqb]. rewrite Heq. cbn [mbind outcome_bind]. destruct Hr as [->|[Hpos Hram]]; [by left|right].
    destruct (Z.eqb_spec r 0); [lia|]. by exists r, s', B', Ss'.
  - intros Hc Hptr. destruct (Z.eqb_spec (rv_cap v) 0); [lia|]. pose proof (grown_cap_bound elem_size (rv_cap v) ltac:(lia)) as Hg.
    destruct (Z.ltb_spec isize_max (elem_size * grown_cap elem_size (rv_cap v))) as [|Hx]; [by eexists|].
    destruct (realloc_panics lo hi B Ss s (rv_ptr v) (elem_size * rv_cap v) align (elem_size * grown_cap elem_size (rv_cap v)) f)
      as [Heq|[Heq|[s' Heq]]]; try done; [split; [apply Hlay|]; nia| | |]; rewrite Heq; by eexists.
Qed.

(** The list of tasks: four slots of [Option<TaskControlBlock>], which has 296 bytes; a fifth task does not fit. *)
Definition SIZE_OF_TASK_SLOT : Z := 296.

Lemma vec_grows_once_witness :
  exists ptr s', grow_one 19 SIZE_OF_TASK_SLOT 8 example_slub (RawVec_new 8) = Done (mkRawVec ptr 4, s') /\
    exists msg, grow_one 19 SIZE_OF_TASK_SLOT 8 s' (mkRawVec ptr 4) = panic msg.
Proof.
  assert (H8 : layout_ok 0 8 /\ layout_ok (SIZE_OF_TASK_SLOT * 4) 8) by (split; (split; [unfold SIZE_OF_TASK_SLOT; lia|by exists 3])).
  destruct H8 as [Hl0 Hl4].
  destruct (vec_grows_once 0x80400 0x80408 _ _ example_slub SIZE_OF_TASK_SLOT 8 (RawVec_new 8) 19 ltac:(lia) ltac:(unfold DIRECT_MAP_PAGES; lia)
    ltac:(lia) example_slub_ok ltac:(unfold SIZE_OF_TASK_SLOT; lia) Hl0 ltac:(unfold isize_max; cbn; lia) ltac:(cbn; lia)) as [Hfirst _].
  destruct Hfirst as [Hbad|(ptr & s' & B' & Ss' & Heq & Hok' & Hram)]; [reflexivity|unfold SIZE_OF_TASK_SLOT; cbn; lia| |].
  - exfalso. vm_compute in Hbad. discriminate Hbad.
  - exists ptr, s'. split; [exact Heq|].
    assert (Hlen : length (MEM_MAP (sl_map s')) = 8%nat) by (destruct (slubs_ok_map _ _ _ _ _ Hok') as [_ ->]; reflexivity).
    apply (vec_grows_once 0x80400 0x80408 _ _ s' SIZE_OF_TASK_SLOT 8 (mkRawVec ptr 4) 19 ltac:(lia) ltac:(unfold DIRECT_MAP_PAGES; lia)
      ltac:(lia) Hok' ltac:(unfold SIZE_OF_TASK_SLOT; lia) Hl4 ltac:(unfold isize_max, SIZE_OF_TASK_SLOT; cbn; lia) ltac:(rewrite Hlen; lia));
      [cbn; lia|exact Hram].
Defined.

(** ** The sleep heap *)

(** A read of task 1 with a timeout of 5 s, answered at once, at time [t]. *)
Definition answered_read (t : Z) : list event := [Syscall t 27 5000; Receive (t + 1) 65; Tick (t + 2)].

(** Five reads that are answered before their timeouts leave five entries in [blocked_queue], whose first block holds four: with the vectors as they are,
    the fifth read panics although at most one task is blocked at any time. *)
Theorem answered_reads_fill_sleep_heap :
  (p ← play (answered_read 0 ++ answered_read 10 ++ answered_read 20 ++ answered_read 30 ++ answered_read 40) TaskContext_zero k_run1;
   Done (length (blocked_queue (k_sched p.2)), stat (k_sched p.2) 1)) = Done (5%nat, Some Running) /\
  min_non_zero_cap 16 = 4.
Proof. split; vm_compute; reflexivity. Qed.
