(* ===== verification/Capacity.v ===== *)
(** * How far the queues of the kernel grow

    The lengths of the kernel's collections over a trap. The table of tasks keeps its length; the tasks in the ready
    queue, the zombies and the current task are different entries of it; the heap of sleepers and the queue of waiting readers grow
    by one entry in a [sleep] or [read] system call and in no other trap. With [HeapVec], which shows that a vector on the kernel heap
    never outgrows its first block, this bounds what tasks may ask of the kernel. *)

From S2P Require Import Prelude Address FrameAllocator RingBuf Context Scheduler SchedulerProofs SchedulerSpec Kernel KernelProofs KernelSpec.
From S2P Require Import Memory Buddy MemMap Slub HeapVec.

(** ** Tasks in queues *)

(** Everybody in the ready queue, the zombies and the current task has a slot of its own. *)
Lemma queued_bound s c :
  sched_ok s -> stat s c = Some Running -> (length (ready_queue s) + length (zombie_queue s) + 1 <= length (task_list s))%nat.
Proof.
  intros Hok Hc. destruct (so_coherent _ Hok) as [_ _ Hrn Hr Hzn Hz].
  assert (Hlen : length (c :: ready_queue s ++ zombie_queue s) = (length (ready_queue s) + length (zombie_queue s) + 1)%nat)
    by (cbn; rewrite length_app; lia).
  rewrite <- Hlen, <- (length_seq (length (task_list s)) 0). apply submseteq_length, NoDup_submseteq.
  - apply NoDup_cons. split; [|apply NoDup_app; split; [done|]; split; [|done]].
    + rewrite elem_of_app. intros [Hx%Hr|Hx%Hz]; congruence.
    + intros x Hx%Hr Hx'%Hz. congruence.
  - intros i Hi. assert (Hst : is_Some (stat s i)).
    { apply elem_of_cons in Hi as [->|[Hx%Hr|Hx%Hz]%elem_of_app]; by eexists. }
    destruct Hst as [st Hst]. apply stat_Some in Hst as (t & Ht & _). apply slot_lt in Ht. apply elem_of_seq. lia.
Qed.

(** ** Pending timeouts and reads *)

Lemma heap_push_length e h : length (heap_push e h) = S (length h).
Proof. by rewrite heap_push_perm. Qed.

(** The sleep heap is the same. *)
Lemma dispatch_blocked s n s' : dispatch s = Done (n, s') -> blocked_queue s' = blocked_queue s.
Proof.
  rewrite dispatch_pick. intros H. apply bind_Done in H as (o & _ & H). apply bind_Done in H as (t & _ & H). by injection H as _ <-.
Qed.

Lemma set_task_ready_blocked s i s' : set_task_ready s i = Done s' -> blocked_queue s' = blocked_queue s.
Proof. unfold set_task_ready. intros H. apply bind_Done in H as (o & _ & H). repeat case_match; by injection H as <-. Qed.

Lemma wake_up_blocked s i r s' : wake_up_task_with_result s i r = Done s' -> blocked_queue s' = blocked_queue s.
Proof. unfold wake_up_task_with_result. intros H. apply bind_Done in H as (o & _ & H). repeat case_match; by injection H as <-. Qed.

Lemma exit_blocked s s' : exit_current_task s = Done s' -> blocked_queue s' = blocked_queue s.
Proof.
  unfold exit_current_task. intros H. apply bind_Done in H as (i & _ & H). apply bind_Done in H as (o & _ & H).
  case_match; by injection H as <-.
Qed.

Lemma finish_sleep_blocked s now s' : finish_sleep s now = Done s' -> (length (blocked_queue s') <= length (blocked_queue s))%nat.
Proof.
  unfold finish_sleep. generalize (S (length (blocked_queue s))). intros n. revert s.
  induction n as [|n IH]; intros s H; cbn [finish_sleep_loop] in H; [done|].
  destruct (blocked_queue s) as [|e rest] eqn:Hb; [injection H as <-; by rewrite Hb|].
  case_match; [injection H as <-; by rewrite Hb|]. apply bind_Done in H as (s1 & H1%set_task_ready_blocked & H).
  apply IH in H. rewrite H1 in H. cbn in *. lia.
Qed.

Lemma sleep_blocked s w n s' : set_current_task_sleep s w = Done (n, s') -> length (blocked_queue s') = S (length (blocked_queue s)).
Proof.
  unfold set_current_task_sleep. intros H. case_match; [|done]. apply bind_Done in H as (o & _ & H). repeat case_match; try done.
  apply dispatch_blocked in H. rewrite H. apply heap_push_length.
Qed.

Lemma block_blocked s n s' : block_current_task s = Done (n, s') -> blocked_queue s' = blocked_queue s.
Proof.
  unfold block_current_task. intros H. case_match; [|done]. apply bind_Done in H as (o & _ & H). repeat case_match; try done.
  by apply dispatch_blocked in H.
Qed.

Lemma vec_pop_length z x rest : vec_pop z = Some (x, rest) -> length z = S (length rest).
Proof.
  unfold vec_pop. destruct z as [|a z] using rev_ind; [done|]. rewrite last_snoc, removelast_last. intros [= <- <-]. rewrite length_app. cbn. lia.
Qed.

Section Traps.
Context {FA : Type} `{!FrameAllocator FA}.

Lemma reap_blocked n cur : forall (fs : FA) s fs' s', reap n cur fs s = Done (fs', s') -> blocked_queue s' = blocked_queue s.
Proof.
  induction n as [|n IH]; intros fs s fs' s' H; cbn [reap] in H; [by injection H as _ <-|].
  destruct (vec_pop (zombie_queue s)) as [[z rest]|]; [|by apply IH in H].
  case_decide; [by injection H as _ <-|]. cbv zeta in H.
  destruct (task_list _ !! z) as [[t|]|]; [apply bind_Done in H as (fs1 & _ & H)| |]; by apply IH in H.
Qed.

Lemma prepare_blocked (fs : FA) s n fs' s' : prepare_next_task fs s = Done (n, (fs', s')) -> blocked_queue s' = blocked_queue s.
Proof.
  unfold prepare_next_task. intros H. apply bind_Done in H as ([fs1 s1] & H1%reap_blocked & H). apply bind_Done in H as (s2 & H2 & H).
  apply bind_Done in H as ([m s3] & H3%dispatch_blocked & H). injection H as _ _ <-. rewrite H3, <- H1. clear H1 H3.
  unfold requeue_current in H2. case_match; [|by injection H2 as <-]. apply bind_Done in H2 as (o & _ & H2).
  repeat case_match; by injection H2 as <-.
Qed.

(** [k'] has at most [n] entries more than [k] in either queue. *)
Definition grows (n : nat) (k k' : Kernel FA) : Prop :=
  (length (blocked_queue (k_sched k')) <= n + length (blocked_queue (k_sched k)))%nat /\
  (length (wait_queue k') <= n + length (wait_queue k))%nat.

Lemma grows_same n (k k' : Kernel FA) :
  blocked_queue (k_sched k') = blocked_queue (k_sched k) -> wait_queue k' = wait_queue k -> grows n k k'.
Proof. intros Hb Hw. unfold grows. rewrite Hb, Hw. lia. Qed.

Lemma write_ctx_pending (k : Kernel FA) p c k' :
  write_ctx k p c = Done k' -> blocked_queue (k_sched k') = blocked_queue (k_sched k) /\ wait_queue k' = wait_queue k.
Proof. destruct p; cbn; [by intros [= <-]|]. repeat case_match; try done. by intros [= <-]. Qed.

Lemma switch_context_pending (k : Kernel FA) n v k' :
  switch_context k n = Done (v, k') -> k_sched k' = k_sched k /\ wait_queue k' = wait_queue k.
Proof. unfold switch_context. intros H. apply bind_Done in H as (c & _ & H). by injection H as _ <-. Qed.

Lemma send_loop_pending n : forall (k k' : Kernel FA), send_loop n k = Done k' -> k_sched k' = k_sched k /\ wait_queue k' = wait_queue k.
Proof.
  induction n as [|n IH]; intros k k' H; cbn [send_loop] in H; [by injection H as <-|].
  apply bind_Done in H as ([[c|] tr] & _ & H); [by apply IH in H|by injection H as <-].
Qed.

Lemma plic_grows env (k k' : Kernel FA) : plic_handler env k = Done k' -> grows 0 k k'.
Proof.
  unfold plic_handler. cbv zeta. intros H. apply bind_Done in H as (k1 & H1 & H). injection H as <-.
  assert (Hg : grows 0 k k1); [|exact Hg]. case_match; [|injection H1 as <-; by apply grows_same].
  unfold uart_interrupt_handler in H1. cbv zeta in H1.
  repeat case_match; try (injection H1 as <-; by apply grows_same).
  - unfold send_data in H1. apply bind_Done in H1 as (k2 & [Hs Hw]%send_loop_pending & H1).
    case_match; injection H1 as <-; (apply grows_same; [by rewrite <- Hs|done]).
  - apply bind_Done in H1 as (s & Hs%wake_up_blocked & H1). injection H1 as <-.
    match goal with Hp : pop_back _ = Some _ |- _ => apply vec_pop_length in Hp as Hlen end.
    unfold grows. cbn. rewrite Hs, Hlen. lia.
  - apply bind_Done in H1 as ([? rb] & _ & H1). injection H1 as <-. by apply grows_same.
Qed.

Lemma schedule_grows p (k : Kernel FA) v k' : schedule p k = Done (v, k') -> grows 0 k k'.
Proof.
  unfold schedule. intros H. apply bind_Done in H as (c & _ & H). apply bind_Done in H as (k1 & [H1 H2]%write_ctx_pending & H).
  apply bind_Done in H as ([n [fs s]] & Hp%prepare_blocked & H). apply switch_context_pending in H as [H3 H4].
  apply grows_same; [rewrite H3; cbn; by rewrite Hp, H1|rewrite H4; exact H2].
Qed.

Lemma sleep_grows env p (k : Kernel FA) v k' : sleep env p k = Done (v, k') -> grows 1 k k'.
Proof.
  unfold sleep. intros H. apply bind_Done in H as (c & _ & H). apply bind_Done in H as (k1 & [H1 H2]%write_ctx_pending & H).
  apply bind_Done in H as ([n s] & Hp%sleep_blocked & H). apply switch_context_pending in H as [H3 H4].
  unfold grows. rewrite H3, H4. cbn. rewrite Hp, H1, H2. lia.
Qed.

Lemma return_char_pending p c (k : Kernel FA) v k' :
  return_char p c k = Done (v, k') -> blocked_queue (k_sched k') = blocked_queue (k_sched k) /\ wait_queue k' = wait_queue k.
Proof.
  unfold return_char. intros H. apply bind_Done in H as (x & _ & H). apply bind_Done in H as (k1 & H1%write_ctx_pending & H).
  by injection H as _ <-.
Qed.

Lemma uart_block_pending env p ms (k : Kernel FA) v k' :
  uart_block env p ms k = Done (v, k') ->
  (length (blocked_queue (k_sched k')) <= 1 + length (blocked_queue (k_sched k)))%nat /\ wait_queue k' = wait_queue k.
Proof.
  unfold uart_block. intros H. apply bind_Done in H as (c & _ & H). apply bind_Done in H as (k1 & [H1 H2]%write_ctx_pending & H).
  apply bind_Done in H as ([n s] & Hs & H). apply switch_context_pending in H as [-> ->]. split; [|exact H2]. cbn. rewrite <- H1.
  case_match; [apply sleep_blocked in Hs|apply block_blocked in Hs]; rewrite Hs; lia.
Qed.

Lemma uart_read_grows env p (k : Kernel FA) v k' : uart_read env p k = Done (v, k') -> grows 1 k k'.
Proof.
  unfold uart_read. intros H. apply bind_Done in H as (c & _ & H). apply bind_Done in H as (k1 & [H1 H2]%write_ctx_pending & H).
  apply bind_Done in H as ([o rb] & _ & H). cbv zeta in H. unfold grows. rewrite <- H1, <- H2. clear H1 H2. destruct o as [r|].
  - apply return_char_pending in H as [-> ->]. cbn. lia.
  - case_match.
    + apply bind_Done in H as (x & _ & H). apply bind_Done in H as (k2 & [Hb Hw]%write_ctx_pending & H). injection H as _ <-.
      rewrite Hb, Hw. cbn. lia.
    + apply bind_Done in H as (i & _ & H). case_match.
      * apply bind_Done in H as ([o rb'] & _ & H). apply bind_Done in H as (r & _ & H). apply return_char_pending in H as [-> ->].
        cbn. case_match; [|rewrite length_app; cbn; lia]. case_match.
        match goal with Hp : pop_back _ = Some _ |- _ => apply vec_pop_length in Hp as Hlen end.
        cbn in Hlen. rewrite length_app in Hlen. cbn in Hlen. lia.
      * apply uart_block_pending in H as [Hb Hw]. cbn in Hb, Hw. rewrite Hw, length_app. cbn. lia.
Qed.

(** The entries that a trap may add. *)
Definition trap_adds (scause : Z) (cpu : TaskContext) : nat :=
  match parse_trap_cause scause with
  | Exception UserEcall => if (ctx_a7 cpu =? 17) || (ctx_a7 cpu =? 27) then 1 else 0
  | _ => 0
  end.

Lemma trap_handler_grows env p scause (k : Kernel FA) cpu v k' :
  read_ctx k p = Done cpu -> trap_handler env p scause k = Done (v, k') -> grows (trap_adds scause cpu) k k'.
Proof.
  intros Hcpu. unfold trap_handler, trap_adds, return_saved.
  destruct (parse_trap_cause scause) as [[| |]|[|]]; intros H.
  - apply bind_Done in H as (s & Hs%finish_sleep_blocked & H). apply bind_Done in H as ([n [fs s']] & Hp%prepare_blocked & H).
    apply switch_context_pending in H as [H1 H2]. unfold grows. rewrite H1, H2. cbn in *. rewrite Hp. lia.
  - apply bind_Done in H as (k1 & H1%plic_grows & H). apply bind_Done in H as (x & _ & H). injection H as _ <-. exact H1.
  - apply bind_Done in H as (x & _ & H). injection H as _ <-. by apply grows_same.
  - rewrite Hcpu in H. cbn [mbind outcome_bind] in H. cbv zeta in H.
    destruct (Z.eqb_spec (ctx_a7 cpu) 1) as [->|_]; cbn [orb Z.eqb Pos.eqb].
    { unfold uart_write_byte in H. rewrite Hcpu in H. cbn [mbind outcome_bind] in H. cbv zeta in H.
      apply bind_Done in H as (k2 & [H1 H2]%write_ctx_pending & H). injection H as _ <-. by apply grows_same. }
    destruct (Z.eqb_spec (ctx_a7 cpu) 7) as [->|_]; [by apply schedule_grows in H|].
    destruct (Z.eqb_spec (ctx_a7 cpu) 9) as [->|_].
    { apply bind_Done in H as (s & Hs%exit_blocked & H). apply schedule_grows in H as [H1 H2]. split; cbn in *; [by rewrite <- Hs|done]. }
    destruct (Z.eqb_spec (ctx_a7 cpu) 10) as [->|_]; [injection H as _ <-; by apply grows_same|].
    destruct (Z.eqb_spec (ctx_a7 cpu) 17); [by apply sleep_grows in H|].
    destruct (Z.eqb_spec (ctx_a7 cpu) 27); [by apply uart_read_grows in H|].
    injection H as _ <-. by apply grows_same.
  - apply bind_Done in H as (x & _ & H). injection H as _ <-. by apply grows_same.
Qed.
End Traps.

(** The same for a whole trap. *)
Lemma trap_grows {FA} `{FrameAllocatorLaws FA} env scause cpu (k : Kernel FA) c cpu' k' :
  kernel_ok k -> current_task_id (k_sched k) = Some c -> trap env scause cpu k = Done (cpu', k') -> grows (trap_adds scause cpu) k k'.
Proof.
  intros Hok Hc Ht. destruct (trap_current env scause cpu k c Hok Hc) as (t & Hslot & Hss & _ & Hctx & Htrap). rewrite Htrap in Ht.
  apply bind_Done in Ht as ([v k2] & Hh & Ht). apply bind_Done in Ht as (x & _ & Ht). injection Ht as _ <-.
  by apply (trap_handler_grows _ _ _ _ _ _ _ Hctx) in Hh.
Qed.

(** ** The first blocks of the collections *)

(** The elements are task slots, task numbers and sleep entries of two words. *)
Definition fit_first_blocks {FA} (k : Kernel FA) : Prop :=
  let n {A} (l : list A) := Z.of_nat (length l) in
  n (task_list (k_sched k)) <= min_non_zero_cap SIZE_OF_TASK_SLOT /\
  n (ready_queue (k_sched k)) + n (zombie_queue (k_sched k)) < min_non_zero_cap 8 /\
  n (wait_queue k) <= min_non_zero_cap 8 /\
  n (blocked_queue (k_sched k)) <= min_non_zero_cap 16.

Lemma kernel_fits {FA} `{FrameAllocatorLaws FA} (k : Kernel FA) :
  kernel_ok k -> is_Some (current_task_id (k_sched k)) -> (length (task_list (k_sched k)) <= 4)%nat ->
  (length (blocked_queue (k_sched k)) <= 4)%nat -> (length (wait_queue k) <= 4)%nat -> fit_first_blocks k.
Proof.
  intros [Hb Hp] [c Hc] Ht Hbl Hw. unfold ptr_ok in Hp. rewrite Hc in Hp.
  pose proof (queued_bound _ _ (bo_sched _ Hb) (proj1 Hp)).
  unfold fit_first_blocks, min_non_zero_cap, SIZE_OF_TASK_SLOT. cbn [Z.eqb Pos.eqb Z.leb Z.compare Pos.compare Pos.compare_cont]. lia.
Qed.
