(* ===== verification/Serial.v ===== *)
(** * The UART driver

    Models [src/driver/uart.rs] and the trait [SerialPort] of [src/driver/traits.rs], a type class
    with the two implementations the build features choose from. The UART is the
    16550 device that [src/bsp/qemu_virt.rs] describes: registers 0 and 1 are the divisor latch
    while bit 7 of [LCR] is set. PLIC registers are words of a map. [s_lsr] are the values
    that successive reads of the line status return. *)

From S2P Require Import Prelude Address RingBuf Board Kernel.

(** ** Devices *)

Record Uart16550 := mkUart {
  u_ier : Z; u_fcr : Z; u_lcr : Z; u_dll : Z; u_dlm : Z; u_rhr : Z; u_sent : list Z
}.

Record Serial := mkSerial {
  s_uart : Uart16550;
  s_plic : gmap Z Z;
  s_lsr : list Z;
  s_transmit : RingBuffer Z
}.

Definition dlab (u : Uart16550) : bool := Z.testbit (u_lcr u) 7.

Definition uart_read_reg (u : Uart16550) (off : Z) : Z :=
  if off =? 0 then (if dlab u then u_dll u else u_rhr u)
  else if off =? 1 then (if dlab u then u_dlm u else u_ier u)
  else if off =? 3 then u_lcr u
  else 0.

Definition uart_write_reg (u : Uart16550) (off v : Z) : Uart16550 :=
  let '(mkUart ier fcr lcr dll dlm rhr sent) := u in
  if off =? 0 then
    if dlab u then mkUart ier fcr lcr v dlm rhr sent else mkUart ier fcr lcr dll dlm rhr (sent ++ [v])
  else if off =? 1 then
    if dlab u then mkUart ier fcr lcr dll v rhr sent else mkUart v fcr lcr dll dlm rhr sent
  else if off =? 2 then mkUart ier v lcr dll dlm rhr sent
  else if off =? 3 then mkUart ier fcr v dll dlm rhr sent
  else u.

Definition with_uart (s : Serial) (f : Uart16550 -> Uart16550) : Serial :=
  mkSerial (f (s_uart s)) (s_plic s) (s_lsr s) (s_transmit s).
Definition write_uart (off v : Z) (s : Serial) : Serial := with_uart s (fun u => uart_write_reg u off v).
Definition read_plic (s : Serial) (addr : Z) : Z := default 0 (s_plic s !! addr).
Definition write_plic (addr v : Z) (s : Serial) : Serial :=
  mkSerial (s_uart s) (<[addr := v]> (s_plic s)) (s_lsr s) (s_transmit s).

(** ** The trait *)

Class SerialPort (D : Type) := {
  init : D -> D;
  putchar : D -> Z -> outcome ((() + Z) * D);
  getchar : D -> option Z * D;
}.

(** ** Register helpers (interrupt-driven build) *)

Definition update_ier (f : Z -> Z) (s : Serial) : Serial :=
  write_uart IER (f (uart_read_reg (s_uart s) IER)) s.
Definition disable_receive_interrupt : Serial -> Serial := update_ier (fun ier => Z.land ier (255 - 0x01)).
Definition enable_receive_interrupt : Serial -> Serial := update_ier (fun ier => Z.lor ier 0x01).
Definition disable_transmit_interrupt : Serial -> Serial := update_ier (fun ier => Z.land ier (255 - 0x02)).
Definition enable_transmit_interrupt : Serial -> Serial := update_ier (fun ier => Z.lor ier 0x02).
Definition write_to_reg (c : Z) : Serial -> Serial := write_uart THR c.

(** FIFO on and cleared, divisor 3, 8 data bits, 1 stop bit, no parity. *)
Definition init_line (s : Serial) : Serial :=
  let s := write_uart FCR 7 s in
  let lcr_value := uart_read_reg (s_uart s) LCR in
  let s := write_uart LCR (Z.lor lcr_value 128) s in
  let s := write_uart DLL 0x03 s in
  let s := write_uart DLM 0x00 s in
  write_uart LCR 0x03 s.

Definition init_interrupt (hart_id : Z) (s : Serial) : Serial :=
  let priority_ptr := plic_priority_addr UART0_IRQ in
  let enable_ptr := plic_enable_addr hart_id UART0_IRQ in
  let threshold_ptr := plic_context_addr hart_id in
  let s := write_uart IER 0x00 s in
  let s := write_plic priority_ptr 1 s in
  let current_enable := read_plic s enable_ptr in
  let s := write_plic enable_ptr (Z.lor current_enable (Z.shiftl 1 UART0_IRQ)) s in
  let s := write_plic threshold_ptr 0 s in
  let s := init_line s in
  let current_ier := uart_read_reg (s_uart s) IER in
  write_uart IER (Z.lor current_ier 0x01) s.

Definition putchar_interrupt (s : Serial) (c : Z) : outcome ((() + Z) * Serial) :=
  let s := disable_transmit_interrupt s in
  '(res, tx) ← RingBuffer_push UART_BUFFER (s_transmit s) c;
  let s := mkSerial (s_uart s) (s_plic s) (s_lsr s) tx in
  Done (res, enable_transmit_interrupt s).

(** ** The polling build *)

Definition init_polling (s : Serial) : Serial := init_line (write_uart IER 0x00 s).

Definition putchar_polling (s : Serial) (c : Z) : outcome ((() + Z) * Serial) :=
  '(c, lsr) ← polling_putchar (s_lsr s) c;
  Done (inl (), write_uart THR c (mkSerial (s_uart s) (s_plic s) lsr (s_transmit s))).

Definition getchar_polling (s : Serial) : option Z * Serial :=
  match s_lsr s with
  | [] => (None, s)
  | v :: lsr =>
      let s := mkSerial (s_uart s) (s_plic s) lsr (s_transmit s) in
      if Z.land v 1 =? 0 then (None, s) else (Some (uart_read_reg (s_uart s) RHR), s)
  end.

(** ** [write_str] over any serial port *)

Section WriteStr.
Context {D : Type} `{SerialPort D}.
(** What an interrupt handler does to the device between two attempts. *)
Variable irq : D -> D.

(** [while let Err(_) = self.putchar(c) {}] *)
Fixpoint putchar_retry (fuel : nat) (d : D) (c : Z) : outcome D :=
  match fuel with
  | O => Fault FuelF
  | S fuel =>
      '(res, d) ← putchar d c;
      match res with
      | inl _ => Done d
      | inr _ => putchar_retry fuel (irq d) c
      end
  end.

Fixpoint write_str (fuel : nat) (d : D) (s : list Z) : outcome D :=
  match s with
  | [] => Done d
  | c :: s => d ← putchar_retry fuel d c; write_str fuel d s
  end.
End WriteStr.

(** The implementation of the default build, on the hart [hart_id]. *)
Definition interrupt_port (hart_id : Z) : SerialPort Serial :=
  {| init := init_interrupt hart_id; putchar := putchar_interrupt; getchar := fun s => (None, s) |}.

Definition polling_port : SerialPort Serial :=
  {| init := init_polling; putchar := putchar_polling; getchar := getchar_polling |}.

(** ** Initialisation *)

Section Registers.
Context (ier fcr lcr dll dlm rhr : Z) (sent : list Z).

Lemma write_fcr v : uart_write_reg (mkUart ier fcr lcr dll dlm rhr sent) FCR v = mkUart ier v lcr dll dlm rhr sent.
Proof. reflexivity. Qed.

Lemma write_lcr v : uart_write_reg (mkUart ier fcr lcr dll dlm rhr sent) LCR v = mkUart ier fcr v dll dlm rhr sent.
Proof. reflexivity. Qed.

Lemma write_dll v :
  Z.testbit lcr 7 = true ->
  uart_write_reg (mkUart ier fcr lcr dll dlm rhr sent) DLL v = mkUart ier fcr lcr v dlm rhr sent.
Proof. intros Hd. unfold uart_write_reg, dlab. cbn [u_lcr]. by rewrite Hd. Qed.

Lemma write_dlm v :
  Z.testbit lcr 7 = true ->
  uart_write_reg (mkUart ier fcr lcr dll dlm rhr sent) DLM v = mkUart ier fcr lcr dll v rhr sent.
Proof. intros Hd. unfold uart_write_reg, dlab. cbn [u_lcr]. by rewrite Hd. Qed.

Lemma write_ier v :
  Z.testbit lcr 7 = false ->
  uart_write_reg (mkUart ier fcr lcr dll dlm rhr sent) IER v = mkUart v fcr lcr dll dlm rhr sent.
Proof. intros Hd. unfold uart_write_reg, dlab. cbn [u_lcr]. by rewrite Hd. Qed.

Lemma read_ier :
  Z.testbit lcr 7 = false -> uart_read_reg (mkUart ier fcr lcr dll dlm rhr sent) IER = ier.
Proof. intros Hd. unfold uart_read_reg, dlab. cbn [u_lcr]. by rewrite Hd. Qed.
End Registers.

Lemma init_line_ok ier fcr lcr dll dlm rhr sent plic lsr tx :
  init_line (mkSerial (mkUart ier fcr lcr dll dlm rhr sent) plic lsr tx) =
  mkSerial (mkUart ier 7 3 3 0 rhr sent) plic lsr tx.
Proof.
  assert (Hd : Z.testbit (Z.lor lcr 128) 7 = true) by (rewrite Z.lor_spec; apply orb_true_r).
  unfold init_line, write_uart, with_uart. cbn [s_uart s_plic s_lsr s_transmit].
  rewrite write_fcr. change (uart_read_reg (mkUart ier 7 lcr dll dlm rhr sent) LCR) with lcr.
  by rewrite write_lcr, write_dll, write_dlm, write_lcr by exact Hd.
Qed.

Lemma plic_addrs_differ hart :
  0 <= hart < 7936 ->
  plic_priority_addr UART0_IRQ <> plic_enable_addr hart UART0_IRQ /\
  plic_priority_addr UART0_IRQ <> plic_context_addr hart /\
  plic_enable_addr hart UART0_IRQ <> plic_context_addr hart.
Proof.
  intros Hh. unfold plic_priority_addr, plic_enable_addr, plic_context_addr, plic_context_id_s.
  change (PLIC_PRIORITY_BASE ⊞ UART0_IRQ ⊠ 4) with 0xC000028. change PLIC_ENABLE_BASE with 0xC002000.
  change PLIC_CONTEXT_BASE with 0xC200000. change ((UART0_IRQ / 32) ⊠ 4) with 0.
  unfold PLIC_ENABLE_STRIDE, PLIC_CONTEXT_STRIDE. rewrite !(wmul_small hart) by lia.
  rewrite !(wadd_small (hart * 2)) by lia. rewrite !(wmul_small (hart * 2 + 1)) by lia.
  rewrite !(wadd_small 0xC002000), !(wadd_small 0xC200000) by lia. rewrite wadd_small by lia. lia.
Qed.

(** initialising the UART (with the divisor latch not selected) leaves the line at divisor 3
    with 8 data bits, the FIFO on, only the receive interrupt enabled and nothing sent; in the PLIC
    the UART interrupt gets priority 1 and is enabled for the hart, the other
    interrupts of the same word and all other registers keep their state, and the threshold is 0. *)
Theorem uart_init_spec hart s :
  0 <= hart < 7936 -> dlab (s_uart s) = false ->
  let s' := init (SerialPort := interrupt_port hart) s in
  s_uart s' = mkUart 1 7 3 3 0 (u_rhr (s_uart s)) (u_sent (s_uart s)) /\
  read_plic s' (plic_priority_addr UART0_IRQ) = 1 /\ read_plic s' (plic_context_addr hart) = 0 /\
  (forall i, 0 <= i -> Z.testbit (read_plic s' (plic_enable_addr hart UART0_IRQ)) i =
     (i =? UART0_IRQ) || Z.testbit (read_plic s (plic_enable_addr hart UART0_IRQ)) i) /\
  (forall a, a <> plic_priority_addr UART0_IRQ -> a <> plic_enable_addr hart UART0_IRQ ->
     a <> plic_context_addr hart -> read_plic s' a = read_plic s a) /\
  s_transmit s' = s_transmit s.
Proof.
  intros Hh Hd s'. destruct (plic_addrs_differ hart Hh) as (H1 & H2 & H3).
  destruct s as [u plic lsr tx]. destruct u as [ier fcr lcr dll dlm rhr sent].
  unfold dlab in Hd. cbn [s_uart u_lcr] in Hd.
  assert (Hs' : s' = mkSerial (mkUart 1 7 3 3 0 rhr sent)
    (<[plic_context_addr hart := 0]> (<[plic_enable_addr hart UART0_IRQ :=
       Z.lor (default 0 (<[plic_priority_addr UART0_IRQ := 1]> plic !! plic_enable_addr hart UART0_IRQ)) (Z.shiftl 1 UART0_IRQ)]>
       (<[plic_priority_addr UART0_IRQ := 1]> plic))) lsr tx).
  { unfold s', init, interrupt_port, init_interrupt, read_plic, write_plic, write_uart, with_uart.
    cbn [s_uart s_plic s_lsr s_transmit]. rewrite write_ier, init_line_ok by exact Hd.
    cbn [s_uart s_plic s_lsr s_transmit]. by rewrite read_ier, write_ier. }
  clearbody s'. subst s'. unfold read_plic. cbn [s_uart s_plic u_rhr u_sent s_transmit]. split_and!.
  - done.
  - by rewrite !lookup_insert_ne, lookup_insert_eq by done.
  - by rewrite lookup_insert_eq.
  - intros i Hi. rewrite lookup_insert_ne, lookup_insert_eq, lookup_insert_ne by done. cbn [from_option]. unfold id at 1.
    rewrite Z.lor_spec, orb_comm. f_equal. rewrite Z.shiftl_spec by lia.
    destruct (Z.eqb_spec i UART0_IRQ) as [->|Hne]; [done|].
    unfold UART0_IRQ in *. destruct (Z.lt_ge_cases i 10); [by rewrite Z.testbit_neg_r by lia|].
    change 1 with (2 ^ 0). rewrite Z.pow2_bits_false by lia. done.
  - intros a Ha1 Ha2 Ha3. by rewrite !lookup_insert_ne.
  - done.
Qed.

Lemma uart_init_spec_witness :
  s_uart (init (SerialPort := interrupt_port 0) (mkSerial (mkUart 9 0 0 1 1 0 []) ∅ [] (RingBuffer_new UART_BUFFER)))
  = mkUart 1 7 3 3 0 0 [].
Proof.
  exact (proj1 (uart_init_spec 0 (mkSerial (mkUart 9 0 0 1 1 0 []) ∅ [] (RingBuffer_new UART_BUFFER))
    ltac:(lia) ltac:(reflexivity))).
Defined.

(** ** Output *)

(** The device is ready for the driver: registers 0 and 1 are not the divisor latch and the
    transmit buffer holds [q]. *)
Definition serial_ok (s : Serial) (q : list Z) : Prop :=
  dlab (s_uart s) = false /\ rb_repr UART_BUFFER (s_transmit s) q.

(** After a transmission request only the interrupt enable register differs. *)
Definition tx_enabled (u u' : Uart16550) : Prop :=
  u' = mkUart (Z.lor (Z.land (u_ier u) 253) 2) (u_fcr u) (u_lcr u) (u_dll u) (u_dlm u) (u_rhr u) (u_sent u).

Lemma putchar_ok s q c :
  serial_ok s q ->
  exists s', tx_enabled (s_uart s) (s_uart s') /\
    (if decide (length q = UART_BUFFER)
     then putchar_interrupt s c = Done (inr c, s') /\ serial_ok s' q
     else putchar_interrupt s c = Done (inl (), s') /\ serial_ok s' (q ++ [c])).
Proof.
  intros [Hd Hq]. destruct s as [[ier fcr lcr dll dlm rhr sent] plic lsr tx]. unfold dlab in Hd. cbn [s_uart u_lcr s_transmit] in *.
  unfold putchar_interrupt, disable_transmit_interrupt, enable_transmit_interrupt, update_ier, write_uart, with_uart.
  cbn [s_uart s_plic s_lsr s_transmit]. rewrite read_ier, write_ier by exact Hd.
  assert (HN : Z.of_nat UART_BUFFER < USIZE) by reflexivity.
  pose proof (RingBuffer_push_repr UART_BUFFER HN tx q c Hq) as Hpush.
  destruct (decide (length q = UART_BUFFER)).
  - rewrite Hpush. cbn [mbind outcome_bind s_uart s_plic s_lsr s_transmit]. rewrite read_ier, write_ier by exact Hd.
    eexists. split; [|split; [reflexivity|split; [exact Hd|exact Hq]]]. reflexivity.
  - destruct Hpush as (tx' & Hpush & Hq'). rewrite Hpush.
    cbn [mbind outcome_bind s_uart s_plic s_lsr s_transmit]. rewrite read_ier, write_ier by exact Hd.
    eexists. split; [|split; [reflexivity|split; [exact Hd|exact Hq']]]. reflexivity.
Qed.

Lemma tx_enabled_trans u v w : tx_enabled u v -> tx_enabled v w -> tx_enabled u w.
Proof.
  unfold tx_enabled. intros -> ->. cbn. f_equal. apply Z.bits_inj'. intros i Hi.
  rewrite !Z.lor_spec, !Z.land_spec, !Z.lor_spec, !Z.land_spec.
  destruct (Z.testbit (u_ier u) i) eqn:?, (Z.testbit 253 i) eqn:?, (Z.testbit 2 i) eqn:?; done.
Qed.

(** printing a string that fits into the free part of the transmit buffer succeeds at the
    first attempt for every byte, whatever interrupts do: the bytes are appended in order
    and the transmit interrupt is on, all other registers unchanged. *)
Theorem write_str_spec hart irq s q str fuel :
  serial_ok s q -> (length q + length str <= UART_BUFFER)%nat -> (0 < fuel)%nat -> str <> [] ->
  exists s', write_str (H := interrupt_port hart) irq fuel s str = Done s' /\ serial_ok s' (q ++ str) /\
    tx_enabled (s_uart s) (s_uart s').
Proof.
  intros Hs Hlen Hf. destruct fuel as [|fuel]; [lia|]. clear Hf.
  revert s q Hs Hlen. induction str as [|c str IH]; intros s q Hs Hlen Hne; [done|].
  cbn [write_str putchar_retry length] in *. cbn [putchar interrupt_port].
  destruct (putchar_ok s q c Hs) as (s1 & Hu & Hput). rewrite decide_False in Hput by lia.
  destruct Hput as [-> Hs1]. cbn [mbind outcome_bind].
  destruct str as [|c' str].
  - exists s1. split_and!; done.
  - destruct (IH s1 (q ++ [c])) as (s2 & Heq & Hs2 & Hu2); [done|rewrite length_app; cbn in *; lia|done|].
    exists s2. split; [exact Heq|]. rewrite <- app_assoc in Hs2. split; [done|]. by eapply tx_enabled_trans.
Qed.

(** with interrupts off (nothing drains the buffer between two attempts) printing to a full
    transmit buffer never returns: the retry loop exceeds every bound. *)
Theorem write_str_hangs hart s q c str fuel :
  serial_ok s q -> length q = UART_BUFFER ->
  write_str (H := interrupt_port hart) id fuel s (c :: str) = Fault FuelF.
Proof.
  intros Hs Hlen. cbn [write_str].
  assert (Hretry : forall s, serial_ok s q -> putchar_retry (H := interrupt_port hart) id fuel s c = Fault FuelF);
    [|by rewrite Hretry].
  clear s Hs. induction fuel as [|fuel IH]; intros s Hs; [done|]. cbn [putchar_retry]. cbn [putchar interrupt_port].
  destruct (putchar_ok s q c Hs) as (s1 & _ & Hput). rewrite decide_True in Hput by done.
  destruct Hput as [-> Hs1]. cbn [mbind outcome_bind]. by apply IH.
Qed.

(** ** Witnesses *)

Definition idle_serial : Serial := mkSerial (mkUart 1 7 3 3 0 0 []) ∅ [] (RingBuffer_new UART_BUFFER).

Lemma idle_serial_ok : serial_ok idle_serial [].
Proof. split; [reflexivity|apply RingBuffer_new_repr]. Qed.

Definition full_serial : Serial :=
  mkSerial (mkUart 3 7 3 3 0 0 []) ∅ [] (mkRingBuffer (replicate UART_BUFFER (Some 65)) 0 0 (Z.of_nat UART_BUFFER)).

Lemma full_serial_ok : serial_ok full_serial (replicate UART_BUFFER 65).
Proof.
  assert (Hn : Z.of_nat UART_BUFFER = 4096) by reflexivity.
  split; [reflexivity|]. split; cbn [s_transmit full_serial rb_buffer rb_len rb_head rb_tail].
  - apply length_replicate.
  - by rewrite length_replicate.
  - by rewrite length_replicate.
  - rewrite Hn. lia.
  - by rewrite length_replicate, Z.add_0_l, Z.mod_same.
  - intros i x [-> Hi]%lookup_replicate. apply lookup_replicate_2.
    pose proof (Z.mod_pos_bound (0 + Z.of_nat i) (Z.of_nat UART_BUFFER)). lia.
Qed.

Lemma write_str_spec_witness :
  exists s', write_str (H := interrupt_port 0) id 1 idle_serial (bytes "ok") = Done s' /\ serial_ok s' (bytes "ok").
Proof.
  destruct (write_str_spec 0 id idle_serial [] (bytes "ok") 1 idle_serial_ok) as (s' & Heq & Hs & _);
    [by apply Nat.leb_le|lia|done|]. exists s'. split; [exact Heq|exact Hs].
Defined.

Lemma write_str_hangs_witness : write_str (H := interrupt_port 0) id 1000 full_serial (bytes "x") = Fault FuelF.
Proof.
  apply (write_str_hangs 0 full_serial (replicate UART_BUFFER 65) 120 [] 1000 full_serial_ok).
  apply length_replicate.
Defined.
