(* ===== verification/Main.v ===== *)
(** * From boot to the first task

    [virt_rust_main] and the first switch to a task ([src/main.rs], [Scheduler::run_scheduler]), and the system call wrappers
    of [src/userlib/syscall.rs]. The system that the boot code starts satisfies the invariant of the trap
    handler, so everything shown there holds from the first instruction of the first task on; the wrappers are
    composed with the handler they call. Console output is left out and the enabling of interrupts ([init_supervisor_interrupts]) is in [Plic]: the
    kernel state does not depend on them. *)

From stdpp Require Import relations.
From S2P Require Import Prelude Address Memory Memblock FrameAllocator Buddy BuddyBlocks BuddyProofs BuddyMemory PageTable PageTree PageTableProofs MemMap Boot BootProofs Handover Board Machine.
From S2P Require Import RingBuf Context Scheduler SchedulerProofs SchedulerSpec Kernel KernelProofs KernelSpec.

(** ** The start of the scheduler *)

Section Main.
(** The address of [trampoline] and the boxed closures of [idle_task], [test_task_a], [test_task_b] and [shell]. *)
Context (trampoline : Z) (idle_task test_task_a test_task_b shell : Z * Z).
Context {FA : Type} `{!FrameAllocator FA}.

(** [Result::expect]. *)
Definition expect (msg : string) (r : () + SchedulerError) : outcome () :=
  match r with inl _ => Done () | inr _ => panic msg end.

(** [Scheduler::init], whose result is ignored, and the three calls of [spawn]. *)
Definition start_tasks (fs : FA) : outcome (FA * Scheduler) :=
  '(_, (fs, s)) ← Scheduler_init trampoline fs Scheduler_new idle_task;
  '(r, (fs, s)) ← spawn trampoline fs s test_task_a 8192 1;
  _ ← expect "Failed to spawn task A" r;
  '(r, (fs, s)) ← spawn trampoline fs s test_task_b 8192 1;
  _ ← expect "Failed to spawn task B" r;
  '(r, (fs, s)) ← spawn trampoline fs s shell 8192 1;
  _ ← expect "Failed to spawn task shell" r;
  Done (fs, s).

(** [first_switch_to] sets [sscratch] and loads the context (see [Context.v]). *)
Definition run_scheduler (k : Kernel FA) : outcome (TaskContext * Kernel FA) :=
  '(next, (fs, s)) ← prepare_next_task (k_frames k) (k_sched k);
  let k := set_sscratch (set_alloc k fs s) (TaskCtx next) in
  c ← read_ctx k (TaskCtx next);
  Done (c, k).

(** [virt_rust_main] after the memory setup, at time [now]. *)
Definition start_kernel (now : Z) (fs : FA) : outcome (TaskContext * Kernel FA) :=
  '(fs, s) ← start_tasks fs;
  let k := mkKernel fs s (RingBuffer_new UART_BUFFER) (RingBuffer_new UART_BUFFER) [] InitCtx TaskContext_zero [] in
  run_scheduler (set_next_timer_tick now k).
End Main.

(** The whole of [virt_rust_main]: the root of the page table in force, [MEM_MAP], and the processor and the kernel when the
    first task starts. *)
Definition virt_rust_main (trampoline : Z) (idle_task test_task_a test_task_b shell : Z * Z) (size_of_Page : Z)
    (from_ptr : Z -> option Fdt) (sy : Symbols) (m : Memory) (now dtb_addr : Z)
    : outcome (PhysPageNum * MemMap * (TaskContext * Kernel Frames)) :=
  bi ← setup_memory_and_mapping size_of_Page from_ptr sy m dtb_addr;
  let root := switch_to_final_page_table bi in
  bi ← unmap_temp_identity_area sy bi;
  '(mm, fs) ← init_buddy_system bi;
  s ← start_kernel trampoline idle_task test_task_a test_task_b shell now fs;
  Done (root, mm, s).

(** ** The system that boots *)

Lemma Scheduler_new_ok {FA} `{FrameAllocator FA} (fs : FA) :
  fa_owns fs ∅ -> sched_ok Scheduler_new /\ stacks_ok fs Scheduler_new ∅.
Proof. intros Ho. split; split; cbn; try done; try constructor; try done; try apply NoDup_nil_2; set_solver. Qed.

Section Started.
Context (trampoline : Z) (idle_task test_task_a test_task_b shell : Z * Z).
Context {FA : Type} `{HFL : FrameAllocatorLaws FA}.

Definition tasks_ok (p : FA * Scheduler) : Prop :=
  sched_ok p.2 /\ (exists B, stacks_ok p.1 p.2 B) /\ current_task_id p.2 = None /\
  forall i t, slot p.2 i = Some t -> ctx_sepc (context t) = trampoline.

(** A task is added, or the state is as before. *)
Lemma spawn_tasks_ok p fat size prio :
  tasks_ok p -> usize size ->
  exists r p', spawn trampoline p.1 p.2 fat size prio = Done (r, p') /\ tasks_ok p' /\
    (task_list p.2 = [] \/ idle_ok p.2 -> match r with inl _ => idle_ok p'.2 | inr _ => p'.2 = p.2 end).
Proof using HFL.
  intros (Hok & [B Hst] & Hcur & Hent) Hsize.
  destruct (spawn_ok trampoline p.1 p.2 B fat size prio Hok Hst Hsize) as (r & fs' & s' & Heq & Hr).
  exists r, (fs', s'). split; [exact Heq|]. destruct r as [[]|e].
  - destruct Hr as [Hok' Hidle Hc _ _ Hfresh Hother (t & Ht & _ & _ & _ & _ & _ & Hctx & _ & Hst')].
    split; [|intros [Hx|Hx]; apply Hidle; [by right|by left]]. split_and!; [done|by eexists|cbn; by rewrite Hc|].
    intros i u Hu. destruct (decide (i = free_slot (task_list p.2))) as [->|Hne].
    + cbn [snd] in Hu. rewrite Ht in Hu. injection Hu as <-. by rewrite Hctx.
    + cbn [snd] in Hu. rewrite Hother in Hu by done. by eapply Hent.
  - destruct Hr as (_ & -> & Hst'). split; [|done]. by split_and!; [|eexists| |].
Qed.

Lemma expect_spawn {A} p fat msg (f : FA * Scheduler -> outcome A) :
  tasks_ok p -> (task_list p.2 = [] \/ idle_ok p.2) ->
  ('(r, (fs, s)) ← spawn trampoline p.1 p.2 fat 8192 1; _ ← expect msg r; f (fs, s)) = panic msg \/
  exists p', tasks_ok p' /\ idle_ok p'.2 /\
    ('(r, (fs, s)) ← spawn trampoline p.1 p.2 fat 8192 1; _ ← expect msg r; f (fs, s)) = f p'.
Proof using HFL.
  intros Hp Hi. destruct (spawn_tasks_ok p fat 8192 1 Hp) as (r & [fs s] & -> & Hp' & Hidle); [split; done|].
  destruct r as [[]|]; [right; exists (fs, s); by auto|by left].
Qed.

Lemma start_tasks_ok fs :
  fa_owns fs ∅ ->
  (exists msg, msg ∈ ["Failed to spawn task A"; "Failed to spawn task B"; "Failed to spawn task shell"] /\
     start_tasks trampoline idle_task test_task_a test_task_b shell fs = panic msg) \/
  exists p, start_tasks trampoline idle_task test_task_a test_task_b shell fs = Done p /\ tasks_ok p /\ idle_ok p.2.
Proof using HFL.
  intros Ho. destruct (Scheduler_new_ok fs Ho) as [Hok Hst].
  assert (H0 : tasks_ok (fs, Scheduler_new)) by (split_and!; [done|by eexists|done|done]).
  destruct (spawn_tasks_ok (fs, Scheduler_new) idle_task 4096 0 H0) as (r & p1 & Heq & H1 & Hi1); [split; done|].
  unfold start_tasks, Scheduler_init. cbn [fst snd] in Heq. rewrite Heq. cbn [mbind outcome_bind]. destruct p1 as [fs1 s1].
  assert (Hi : task_list s1 = [] \/ idle_ok s1).
  { destruct r; cbn [fst snd] in Hi1; specialize (Hi1 (or_introl eq_refl)); [by right|left; by rewrite Hi1]. }
  destruct (expect_spawn (fs1, s1) test_task_a "Failed to spawn task A"
    (fun p => '(r, (fs, s)) ← spawn trampoline p.1 p.2 test_task_b 8192 1; _ ← expect "Failed to spawn task B" r;
      '(r, (fs, s)) ← spawn trampoline fs s shell 8192 1; _ ← expect "Failed to spawn task shell" r; Done (fs, s)) H1 Hi)
    as [Ha|(p2 & H2 & Hi2 & Ha)]; cbn [fst snd] in Ha; rewrite Ha; [left; eexists; split; [|done]; set_solver|].
  destruct (expect_spawn p2 test_task_b "Failed to spawn task B"
    (fun p => '(r, (fs, s)) ← spawn trampoline p.1 p.2 shell 8192 1; _ ← expect "Failed to spawn task shell" r; Done (fs, s)) H2
    (or_intror Hi2)) as [Hb|(p3 & H3 & Hi3 & Hb)]; cbn [fst snd] in Hb; rewrite Hb; [left; eexists; split; [|done]; set_solver|].
  destruct (expect_spawn p3 shell "Failed to spawn task shell" Done H3 (or_intror Hi3)) as [Hc|(p4 & H4 & Hi4 & Hc)]; rewrite Hc;
    [left; eexists; split; [|done]; set_solver|right]. by exists p4.
Qed.

(** The first task is dispatched. *)
Lemma run_scheduler_ok (k : Kernel FA) :
  base_ok k -> (forall i t, slot (k_sched k) i = Some t -> ctx_sepc (context t) = trampoline) ->
  exists cpu k', run_scheduler k = Done (cpu, k') /\ kernel_ok k' /\ read_ctx k' (k_sscratch k') = Done cpu /\
    ctx_sepc cpu = trampoline.
Proof using HFL.
  intros [Hs Hi [B Hst] Hrx Htx Hw] Hent.
  destruct (prepare_next_task_ok (k_frames k) (k_sched k) B Hs Hi Hst) as (n & fs' & s' & B' & Heq & Hr).
  unfold run_scheduler. rewrite Heq. cbn [mbind outcome_bind].
  pose proof (rs_running _ _ _ _ _ _ Hr) as Hrun. apply stat_Some in Hrun as (t & Ht & Hrun).
  set (k' := set_sscratch _ _). rewrite (read_ctx_slot k' n t Ht). cbn [mbind outcome_bind].
  exists (context t), k'. split; [done|]. split; [split|split].
  - split; try done; [apply Hr|apply Hr|exists B'; apply Hr|]. cbn. by rewrite (rs_length _ _ _ _ _ _ Hr).
  - unfold ptr_ok. change (k_sched k') with s'. rewrite (rs_current _ _ _ _ _ _ Hr). split; [apply Hr|done].
  - exact (read_ctx_slot k' n t Ht).
  - destruct (rs_slots _ _ _ _ _ _ Hr n t Ht) as (t0 & Ht0 & ->). cbn. by eapply Hent.
Qed.

Lemma start_kernel_ok now fs :
  fa_owns fs ∅ ->
  (exists msg, msg ∈ ["Failed to spawn task A"; "Failed to spawn task B"; "Failed to spawn task shell"] /\
     start_kernel trampoline idle_task test_task_a test_task_b shell now fs = panic msg) \/
  exists cpu k, start_kernel trampoline idle_task test_task_a test_task_b shell now fs = Done (cpu, k) /\
    kernel_ok k /\ read_ctx k (k_sscratch k) = Done cpu /\ ctx_sepc cpu = trampoline.
Proof using HFL.
  intros Ho. unfold start_kernel. destruct (start_tasks_ok fs Ho) as [(msg & Hm & ->)|([fs' s] & -> & (Hok & Hst & _ & Hent) & Hi)].
  - left. by exists msg.
  - right. cbn [mbind outcome_bind]. apply run_scheduler_ok; [|done].
    split; cbn; try done; exists []; apply RingBuffer_new_repr.
Qed.
End Started.


(** Eight pages are enough for the four tasks. *)
Lemma start_kernel_example :
  (fun s => (ctx_sepc s.1, current_task_id (k_sched s.2), ready_queue (k_sched s.2))) <$>
    start_kernel 0x80201000 (8, 0x80300000) (8, 0x80300020) (8, 0x80300040) (8, 0x80300060) 0 example_frames =
  Done (0x80201000, Some 1%nat, [2; 3; 0]%nat).
Proof. vm_compute. reflexivity. Qed.


(** ** Tasks run in user mode *)

(** The memory after the setup on the QEMU machine. *)
Definition qemu_memory : outcome Memory :=
  bi ← qemu_boot;
  bi ← unmap_temp_identity_area qemu_symbols bi;
  Done (bm_memory (bi_mem bi)).

Lemma translate_no_user m root va pa fl :
  map_Forall (fun _ w => Z.testbit w 4 = false) m -> sv39_translate m root va = Some (pa, fl) -> Z.testbit fl 4 = false.
Proof.
  intros Hm. assert (Hr : forall a, Z.testbit (read_pa m a) 4 = false).
  { intros a. unfold read_pa. destruct (m !! a) as [w|] eqn:Ha; [by apply (Hm a)|done]. }
  unfold sv39_translate. case_match; [|done]. generalize 3%nat. intros n. revert root. induction n as [|n IH]; intros root; cbn [sv39_walk]; [done|].
  repeat (case_match; try done); [apply IH|]. intros [= _ <-]. unfold PTE_flags. by rewrite Z.land_spec, Hr.
Qed.


(** ** The system call wrappers

    Inline assembly: the operands are placed in [a7] and [a0], [ecall] traps, and execution continues after it when the
    handler resumes the task. [sys_read] has [a0] as output; the other wrappers declare it as input only,
    so the compiler takes all registers to be unchanged by them. *)

Definition SYS_WRITE_BYTE : Z := 1.
Definition SYS_SLEEP : Z := 17.
Definition SYS_READ : Z := 27.
Definition SYS_TASK_EXIT : Z := 9.
Definition SYS_QUIT : Z := 10.

Section User.
Context {FA : Type} `{!FrameAllocator FA}.

(** The [ecall] of the running task: the system from the trap to the resumption of a task. *)
Definition sys_sleep (env : Env) (ms : Z) (cpu : TaskContext) (k : Kernel FA) : outcome (TaskContext * Kernel FA) :=
  trap env ECALL (call_regs SYS_SLEEP ms cpu) k.

Definition sys_read (env : Env) (ms : Z) (cpu : TaskContext) (k : Kernel FA) : outcome (TaskContext * Kernel FA) :=
  trap env ECALL (call_regs SYS_READ ms cpu) k.

(** The value of [sys_read] for a task that is resumed with the given registers. *)
Definition sys_read_ret (cpu : TaskContext) : Z := to_isize (ctx_a0 cpu).

Definition sys_write_byte (env : Env) (byte : Z) (cpu : TaskContext) (k : Kernel FA) : outcome (TaskContext * Kernel FA) :=
  trap env ECALL (call_regs SYS_WRITE_BYTE byte cpu) k.

Definition sys_task_exit (env : Env) (cpu : TaskContext) (k : Kernel FA) : outcome (TaskContext * Kernel FA) :=
  trap env ECALL (call_regs SYS_TASK_EXIT (ctx_a0 cpu) cpu) k.

Definition sys_shutdown (env : Env) (cpu : TaskContext) (k : Kernel FA) : outcome (TaskContext * Kernel FA) :=
  trap env ECALL (call_regs SYS_QUIT (ctx_a0 cpu) cpu) k.
End User.

(** The registers after an [asm!] block without outputs. *)
Definition after_asm (cpu : TaskContext) : TaskContext := set_sepc cpu (ctx_sepc cpu ⊞ 4).

(** A system call handler that only rewrites the caller's context. *)
Lemma ecall_return {FA} `{FrameAllocatorLaws FA} env cpu (k : Kernel FA) c t f k2 x :
  k_sscratch k = TaskCtx c -> slot (k_sched k) c = Some t ->
  trap env ECALL cpu k =
    ('(v, k2) ← trap_handler env (TaskCtx c) ECALL (put k c t cpu); x ← read_ctx k2 (k_sscratch k2); Done (set_sepc x v, k2)) ->
  trap_handler env (TaskCtx c) ECALL (put k c t cpu) = Done (ctx_sepc x, put k2 c f x) ->
  k_sscratch k2 = TaskCtx c -> slot (k_sched k2) c = Some f ->
  trap env ECALL cpu k = Done (x, put k2 c f x).
Proof.
  intros Hss Ht -> -> Hss2 Hf. cbn [mbind outcome_bind]. change (k_sscratch (put k2 c f x)) with (k_sscratch k2). rewrite Hss2.
  rewrite (read_ctx_slot (put k2 c f x) c (set_context f x)) by (by rewrite put_slot, decide_True).
  cbn [mbind outcome_bind]. by rewrite set_sepc_same.
Qed.

(** C33: [sys_read] that need not wait returns to the caller at once, with all registers but [a0] unchanged. Its value is the
    oldest character received if there is one; with a timeout of 0 and nothing received it is -1. *)
Theorem sys_read_spec {FA} `{FrameAllocatorLaws FA} env ms cpu (k : Kernel FA) c l :
  kernel_ok k -> current_task_id (k_sched k) = Some c -> rb_repr UART_BUFFER (receive_buffer k) l ->
  Forall (fun r => 0 <= r < 128) l -> (l = [] -> ms = 0) ->
  exists cpu' k', sys_read env ms cpu k = Done (cpu', k') /\
    cpu' = set_a0 (after_asm (call_regs SYS_READ ms cpu)) (ctx_a0 cpu') /\
    sys_read_ret cpu' = match l with r :: _ => r | [] => -1 end /\
    current_task_id (k_sched k') = Some c /\ rb_repr UART_BUFFER (receive_buffer k') (tail l).
Proof.
  intros Hok Hc Hl Hasc Hms. destruct l as [|r l].
  - specialize (Hms eq_refl). subst ms. set (y := call_regs SYS_READ 0 cpu).
    destruct (trap_current env ECALL y k c Hok Hc) as (t & Ht & Hss & Hok1 & Hread & Htrap).
    set (k1 := put k c t y) in *. set (y1 := after_asm y). set (k2 := put k1 c (set_context t y) y1).
    assert (Ht1 : slot (k_sched k1) c = Some (set_context t y)) by (unfold k1; by rewrite put_slot, decide_True).
    assert (Ht2 : slot (k_sched k2) c = Some (set_context (set_context t y) y1)) by (unfold k2; by rewrite put_slot, decide_True).
    exists (set_a0 y1 usize_MAX), (put k2 c (set_context (set_context t y) y1) (set_a0 y1 usize_MAX)).
    split; [|split; [done|split; [done|split; [exact Hc|exact Hl]]]].
    unfold sys_read. fold y. apply (ecall_return env y k c t _ k2 _ Hss Ht Htrap); [|exact Hss|exact Ht2].
    unfold trap_handler. change (parse_trap_cause ECALL) with (Exception UserEcall). fold k1. rewrite Hread. cbn [mbind outcome_bind].
    change (ctx_a7 y) with 27. cbn [Z.eqb Pos.eqb]. unfold uart_read. rewrite Hread. cbn [mbind outcome_bind]. cbv zeta.
    change (ctx_a0 y) with 0. rewrite (write_ctx_slot _ _ _ _ Ht1). cbn [mbind outcome_bind].
    fold y1. change (set_sepc y (ctx_sepc y ⊞ 4)) with y1. fold k2. change (receive_buffer k2) with (receive_buffer k).
    rewrite (RingBuffer_pop_nil _ _ Hl). cbn [mbind outcome_bind Z.eqb].
    rewrite (read_ctx_slot (set_rx k2 (receive_buffer k)) c _ Ht2). cbn [mbind outcome_bind].
    rewrite (write_ctx_slot (set_rx k2 (receive_buffer k)) c _ _ Ht2). cbn [mbind outcome_bind].
    change (context (set_context (set_context t y) y1)) with y1. reflexivity.
  - inversion_clear Hasc as [|? ? Hr _].
    destruct (uart_read_available_spec env (call_regs SYS_READ ms cpu) k c r l Hok Hc eq_refl Hl Hr) as (k' & Heq & Hc' & Hl').
    eexists _, k'. split; [exact Heq|]. split; [done|]. split; [|by split].
    unfold sys_read_ret. cbn. unfold to_isize. destruct (Z.ltb_spec r (2 ^ 63)); [done|lia].
Qed.

Lemma sys_read_spec_witness :
  exists cpu' k', sys_read idle_env 0 TaskContext_zero k_run1 = Done (cpu', k') /\ sys_read_ret cpu' = -1 /\
    current_task_id (k_sched k') = Some 1%nat.
Proof.
  destruct (sys_read_spec idle_env 0 TaskContext_zero k_run1 1 [] k_run1_ok k_run1_current (RingBuffer_new_repr (T := Z) UART_BUFFER)
    ltac:(constructor) ltac:(done)) as (cpu' & k' & Heq & _ & Hr & Hc & _).
  exists cpu', k'. split; [exact Heq|]. split; [exact Hr|exact Hc].
Defined.

(** [sys_write_byte] sends the byte to the console and returns at once. *)
Lemma sys_write_byte_ok {FA} `{FrameAllocatorLaws FA} env byte cpu (k : Kernel FA) c :
  kernel_ok k -> current_task_id (k_sched k) = Some c -> 0 <= byte < 256 ->
  exists k', sys_write_byte env byte cpu k = Done (set_a0 (after_asm (call_regs SYS_WRITE_BYTE byte cpu)) 0, k') /\
    k_log k' = k_log k ++ [ConsolePutchar byte] /\ current_task_id (k_sched k') = Some c.
Proof.
  intros Hok Hc Hb. set (y := call_regs SYS_WRITE_BYTE byte cpu).
  destruct (trap_current env ECALL y k c Hok Hc) as (t & Ht & Hss & Hok1 & Hread & Htrap). set (k1 := put k c t y) in *.
  assert (Ht1 : slot (k_sched k1) c = Some (set_context t y)) by (unfold k1; by rewrite put_slot, decide_True).
  set (x := set_a0 (after_asm y) 0). set (k2 := emit k1 (ConsolePutchar byte)).
  exists (put k2 c (set_context t y) x). split; [|by split].
  unfold sys_write_byte. fold y. apply (ecall_return env y k c t _ k2 _ Hss Ht Htrap); [|exact Hss|exact Ht1].
  unfold trap_handler. change (parse_trap_cause ECALL) with (Exception UserEcall). fold k1. rewrite Hread. cbn [mbind outcome_bind].
  change (ctx_a7 y) with 1. cbn [Z.eqb Pos.eqb]. unfold uart_write_byte. rewrite Hread. cbn [mbind outcome_bind]. cbv zeta.
  change (ctx_a0 y) with byte. assert (Z.land byte 0xff = byte) as -> by (etransitivity; [apply (land_low_mask byte 8); lia|apply Z.mod_small; lia]).
  fold k2. rewrite (write_ctx_slot k2 c _ _ Ht1). reflexivity.
Qed.

(** The handler sets [a0] to 0: the wrapper, which declares [a0] as an input only, returns with a register changed that the
    compiler takes to hold the byte still. *)
Theorem sys_write_byte_clobbers_a0 {FA} `{FrameAllocatorLaws FA} env byte cpu (k : Kernel FA) c :
  kernel_ok k -> current_task_id (k_sched k) = Some c -> 0 < byte < 256 ->
  exists cpu' k', sys_write_byte env byte cpu k = Done (cpu', k') /\
    k_log k' = k_log k ++ [ConsolePutchar byte] /\ current_task_id (k_sched k') = Some c /\
    cpu' = set_a0 (after_asm (call_regs SYS_WRITE_BYTE byte cpu)) 0 /\ cpu' <> after_asm (call_regs SYS_WRITE_BYTE byte cpu).
Proof.
  intros Hok Hc Hb. destruct (sys_write_byte_ok env byte cpu k c Hok Hc ltac:(lia)) as (k' & Heq & Hl & Hc').
  eexists _, k'. split; [exact Heq|]. split; [done|]. split; [done|]. split; [done|].
  intros Hx. apply (f_equal ctx_a0) in Hx. cbn in Hx. lia.
Qed.

Lemma sys_write_byte_clobbers_a0_witness :
  exists cpu' k', sys_write_byte idle_env 65 TaskContext_zero k_run1 = Done (cpu', k') /\ ctx_a0 cpu' = 0 /\
    k_log k' = k_log k_run1 ++ [ConsolePutchar 65].
Proof.
  destruct (sys_write_byte_clobbers_a0 idle_env 65 TaskContext_zero k_run1 1 k_run1_ok k_run1_current ltac:(lia))
    as (cpu' & k' & Heq & Hl & _ & -> & _).
  eexists _, k'. split; [exact Heq|]. split; [done|exact Hl].
Defined.
