(* ===== verification/Console.v ===== *)
(** * Formatted output

    Models the writers of [src/console/mod.rs]: [user_print] (system calls), [_print] (the UART driver), [_polling_print] (the
    UART registers), [_sbi_print] (the firmware) and the macros on top of them, which add a newline. A writer implements
    [core::fmt::Write], here the class [Write]; [Arguments] are the pieces of text that formatting passes to [write_str], one
    by one. [WriteLaws] states what a writer promises: given room, it accepts the bytes and delivers them in order. The
    macros are specified against it once, for all writers.

    [bytes] of a string literal are its UTF-8 bytes, as in [s.bytes()]. *)

From stdpp Require Import pretty.
From S2P Require Import Prelude Address FrameAllocator Memory Buddy BuddyProofs RingBuf Board Context Scheduler SchedulerProofs SchedulerSpec Kernel KernelProofs KernelSpec Serial Main.

(** ** [core::fmt] *)

Abbreviation Arguments_ := (list string).

Class Write (W : Type) := write_bytes : W -> list Z -> outcome W.

(** [write_fmt]: every piece in turn; the first failure ends it. *)
Fixpoint write_fmt {W} `{Write W} (w : W) (args : Arguments_) : outcome W :=
  match args with
  | [] => Done w
  | s :: args => w ← write_bytes w (bytes s); write_fmt w args
  end.

(** The text of the arguments. *)
Definition text (args : Arguments_) : list Z := args ≫= bytes.

(** [format_args!(args, newline)] *)
Definition format_args_ln (args : Arguments_) : Arguments_ := args ++ [String (Ascii.ascii_of_N 10) EmptyString].

(** The pieces for an argument of type [isize] in braces. *)
Definition display_isize (v : Z) : string := pretty v.

(** ** What a writer promises *)

(** [wrote w l n]: [w] has delivered [l] and has room for [n] more bytes. *)
Class WriteLaws (W : Type) `{Write W} (wrote : W -> list Z -> nat -> Prop) : Prop :=
  write_bytes_ok w l s n :
    wrote w l (length s + n)%nat -> Forall (fun b => 0 <= b < 256) s ->
    exists w', write_bytes w s = Done w' /\ wrote w' (l ++ s) n.

Lemma bytes_range s : Forall (fun b => 0 <= b < 256) (bytes s).
Proof.
  unfold bytes. apply Forall_fmap, Forall_true. intros a. cbn. pose proof (Ascii.N_ascii_bounded a). lia.
Qed.

Lemma text_range args : Forall (fun b => 0 <= b < 256) (text args).
Proof. unfold text. apply Forall_bind, Forall_true. intros s. apply bytes_range. Qed.

Lemma text_ln args : text (format_args_ln args) = text args ++ [10].
Proof. unfold text, format_args_ln. by rewrite bind_app. Qed.

Section Laws.
Context {W : Type} `{HW : WriteLaws W}.

Lemma write_fmt_ok args : forall w l n,
  wrote w l (length (text args) + n)%nat ->
  exists w', write_fmt w args = Done w' /\ wrote w' (l ++ text args) n.
Proof using HW.
  induction args as [|s args IH]; intros w l n Hw; cbn [write_fmt].
  - exists w. split; [done|]. by rewrite app_nil_r.
  - unfold text in Hw. rewrite bind_cons, length_app, <- Nat.add_assoc in Hw.
    destruct (write_bytes_ok w l (bytes s) _ Hw (bytes_range s)) as (w1 & -> & Hw1). cbn [mbind outcome_bind].
    destruct (IH w1 _ n Hw1) as (w2 & -> & Hw2). exists w2. split; [done|].
    unfold text. rewrite bind_cons, app_assoc. exact Hw2.
Qed.
End Laws.

(** A writer that handles one byte after the other. *)
Section PerByte.
Context {W : Type} (put_byte : W -> Z -> outcome W).

Fixpoint each_byte (w : W) (s : list Z) : outcome W :=
  match s with
  | [] => Done w
  | byte :: s => w ← put_byte w byte; each_byte w s
  end.

Lemma each_byte_ok (wrote : W -> list Z -> nat -> Prop) :
  (forall w l b n, wrote w l (S n) -> 0 <= b < 256 -> exists w', put_byte w b = Done w' /\ wrote w' (l ++ [b]) n) ->
  forall s w l n, wrote w l (length s + n)%nat -> Forall (fun b => 0 <= b < 256) s ->
    exists w', each_byte w s = Done w' /\ wrote w' (l ++ s) n.
Proof.
  intros Hput. induction s as [|b s IH]; intros w l n Hw Hs; cbn [each_byte].
  - exists w. split; [done|]. by rewrite app_nil_r.
  - apply Forall_cons in Hs as [Hb Hs]. destruct (Hput w l b _ Hw Hb) as (w1 & -> & Hw1). cbn [mbind outcome_bind].
    destruct (IH w1 _ n Hw1 Hs) as (w2 & -> & Hw2). exists w2. split; [done|]. by rewrite <- app_assoc in Hw2.
Qed.
End PerByte.

(** ** The firmware console *)

(** [SbiWriter]; the state is the bytes given to [console_putchar]. *)
Record SbiWriter := mkSbiWriter { sbi_out : list Z }.

Definition sbi_write_str (w : SbiWriter) (s : list Z) : outcome SbiWriter :=
  each_byte (fun w byte => Done (mkSbiWriter (sbi_out w ++ [byte]))) w s.

#[export] Instance SbiWriter_Write : Write SbiWriter := sbi_write_str.

Definition _sbi_print (w : SbiWriter) (args : Arguments_) : outcome SbiWriter := write_fmt w args.
Definition sbi_println (w : SbiWriter) (args : Arguments_) : outcome SbiWriter := _sbi_print w (format_args_ln args).

#[export] Instance SbiWriter_laws : WriteLaws SbiWriter (fun w l _ => sbi_out w = l).
Proof.
  intros w l s n Hw Hs. refine (each_byte_ok _ (fun w l (_ : nat) => sbi_out w = l) _ s w l n Hw Hs).
  intros w0 l0 b _ <- _. by eexists.
Qed.

(** *** The panic handler ([src/lang_items.rs]) *)

Inductive ResetReason := NoReason | SystemFailure.

(** The message on the console, the [system_reset] request for a shutdown, and then an endless loop. [info] and [message] are what the
    [PanicInfo] displays. *)
Record Halted := mkHalted { halted_console : SbiWriter; halted_reason : ResetReason }.

Definition panic_handler (w : SbiWriter) (info message : string) : outcome Halted :=
  w ← sbi_println w [info; " with message: "; message];
  Done (mkHalted w SystemFailure).

(** Code of the kernel under the panic handler; undefined behaviour and endless loops are left as they are. *)
Definition catch_panic {A} (w : SbiWriter) (info : string) (o : outcome A) : outcome (A + Halted) :=
  match o with
  | Done a => Done (inl a)
  | Fault (PanicF message) => h ← panic_handler w info message; Done (inr h)
  | Fault f => Fault f
  end.

(** ** The polling console *)

(** [PollingWriter]; the state is the values that reads of the line status will return and the bytes written to [THR]. *)
Record PollingWriter := mkPollingWriter { pw_lsr : list Z; pw_thr : list Z }.

Definition polling_write_str (w : PollingWriter) (s : list Z) : outcome PollingWriter :=
  each_byte (fun w byte => '(c, lsr) ← polling_putchar (pw_lsr w) byte; Done (mkPollingWriter lsr (pw_thr w ++ [c]))) w s.

#[export] Instance PollingWriter_Write : Write PollingWriter := polling_write_str.

Definition _polling_print (w : PollingWriter) (args : Arguments_) : outcome PollingWriter := write_fmt w args.
Definition polling_println (w : PollingWriter) (args : Arguments_) : outcome PollingWriter := _polling_print w (format_args_ln args).

(** How often the transmitter will be seen empty. *)
Definition ready_count (lsr : list Z) : nat := length (filter (fun v => Z.land v 32 <> 0) lsr).

Lemma polling_putchar_ok lsr c n :
  ready_count lsr = S n -> exists lsr', polling_putchar lsr c = Done (c, lsr') /\ ready_count lsr' = n.
Proof.
  unfold ready_count. induction lsr as [|v lsr IH]; [done|]. rewrite filter_cons. cbn [polling_putchar].
  destruct (Z.eqb_spec (Z.land v 32) 0); case_decide; try done. intros [= <-]. by exists lsr.
Qed.

#[export] Instance PollingWriter_laws : WriteLaws PollingWriter (fun w l n => pw_thr w = l /\ ready_count (pw_lsr w) = n).
Proof.
  intros w l s n Hw Hs. refine (each_byte_ok _ (fun w l n => pw_thr w = l /\ ready_count (pw_lsr w) = n) _ s w l n Hw Hs).
  intros w0 l0 b m [<- Hr] _. destruct (polling_putchar_ok _ b m Hr) as (lsr & -> & Hr'). cbn [mbind outcome_bind]. by eexists.
Qed.

(** ** The UART driver *)

Section Uart.
(** The hart, what interrupts do to the device, and the attempts per byte. *)
Context (hart_id : Z) (irq : Serial -> Serial) (fuel : nat).

Definition Uart_Write : Write Serial := write_str (H := interrupt_port hart_id) irq fuel.

(** [UART.lock().write_fmt(args).unwrap()] *)
Definition _print (w : Serial) (args : Arguments_) : outcome Serial := write_fmt (H := Uart_Write) w args.
Definition println (w : Serial) (args : Arguments_) : outcome Serial := _print w (format_args_ln args).

Lemma Uart_laws : (0 < fuel)%nat ->
  WriteLaws (H := Uart_Write) Serial (fun w l n => serial_ok w l /\ (length l + n <= UART_BUFFER)%nat).
Proof.
  intros Hf w l s n [Hw Hl] Hs. destruct s as [|b s].
  - exists w. rewrite app_nil_r. done.
  - destruct (write_str_spec hart_id irq w l (b :: s) fuel Hw) as (w' & Heq & Hw' & _); [lia|done|done|].
    exists w'. split; [exact Heq|]. split; [done|]. rewrite length_app. lia.
Qed.
End Uart.

(** ** System calls *)

Section User.
Context {FA : Type} `{HFL : FrameAllocatorLaws FA} (env : Env).

(** [UserWriter]; the state is the processor and the kernel. *)
Definition user_write_str (w : TaskContext * Kernel FA) (s : list Z) : outcome (TaskContext * Kernel FA) :=
  each_byte (fun w byte => sys_write_byte env byte w.1 w.2) w s.

Definition UserWriter_Write : Write (TaskContext * Kernel FA) := user_write_str.

Definition user_print (w : TaskContext * Kernel FA) (args : Arguments_) : outcome (TaskContext * Kernel FA) :=
  write_fmt (H := UserWriter_Write) w args.
Definition user_println (w : TaskContext * Kernel FA) (args : Arguments_) : outcome (TaskContext * Kernel FA) :=
  user_print w (format_args_ln args).

(** Task [c] runs, and the log of the kernel started with [l0]. *)
Definition user_wrote (c : nat) (l0 : list Effect) (w : TaskContext * Kernel FA) (l : list Z) (_ : nat) : Prop :=
  kernel_ok w.2 /\ current_task_id (k_sched w.2) = Some c /\ c <> 0%nat /\ k_log w.2 = l0 ++ (ConsolePutchar <$> l).

Lemma UserWriter_laws c l0 : WriteLaws (H := UserWriter_Write) (TaskContext * Kernel FA) (user_wrote c l0).
Proof using HFL.
  intros w l s n Hw Hs. refine (each_byte_ok _ (user_wrote c l0) _ s w l n Hw Hs).
  clear w l s n Hw Hs. intros [cpu k] l b n (Hok & Hc & H0 & Hlog) Hb. cbn [fst snd] in *.
  destruct (sys_write_byte_ok env b cpu k c Hok Hc Hb) as (k' & Heq & Hlog' & Hc').
  eexists. split; [exact Heq|]. split_and!; [|done|done|].
  - destruct (trap_ok env ECALL (call_regs SYS_WRITE_BYTE b cpu) k Hok) as (x & k2 & Ht & Hok2 & _).
    { intros _. split; [done|]. by exists c. }
    unfold sys_write_byte in Heq. rewrite Ht in Heq. by injection Heq as _ <-.
  - cbn [snd]. by rewrite Hlog', Hlog, fmap_app, app_assoc.
Qed.
End User.

(** ** Printing a line *)

(** The firmware console takes every text. *)
Lemma sbi_println_ok w args : sbi_println w args = Done (mkSbiWriter (sbi_out w ++ text args ++ [10])).
Proof.
  destruct (write_fmt_ok (wrote := fun w l _ => sbi_out w = l) (format_args_ln args) w (sbi_out w) 0 eq_refl)
    as ([out] & Heq & Hout). unfold sbi_println, _sbi_print. rewrite Heq. cbn [sbi_out] in Hout. by rewrite Hout, text_ln.
Qed.


(** A panic is reported in full before the machine is shut down. *)
Lemma catch_panic_reports {A} w info message :
  catch_panic w info (panic message : outcome A) =
    Done (inr (mkHalted (mkSbiWriter (sbi_out w ++ text [info; " with message: "; message] ++ [10])) SystemFailure)).
Proof.
  cbn [catch_panic]. unfold panic_handler. by rewrite sbi_println_ok.
Qed.

