(* ===== verification/Tasks.v ===== *)
(** * The tasks and the system they form

    The bodies of the tasks of [src/main.rs] ([test_task_a], [test_task_b], [shell]), of [idle_task] and [trampoline]
    ([src/task/scheduler.rs]) as programs whose only effects are system calls, and the whole system: the programs and the
    kernel, run by interleaving computation of the current task, its system calls and interrupts at any point. The
    system is shown safe, and its console output is described in terms of the texts of the single tasks.

    That pages are accessible to the tasks is assumed here (see [user_tasks_cannot_run] for what the page table says), and a
    successful [system_reset] ends the run. *)

From stdpp Require Import pretty relations functions.
From S2P Require Import Prelude Address FrameAllocator Memory Buddy BuddyProofs BuddyMemory RingBuf Board Context Scheduler SchedulerProofs SchedulerSpec.
From S2P Require Import SlubSpec Kernel KernelProofs KernelSpec Trace HeapVec Capacity Serial Main Console.

(** ** Programs *)

(** A computation of type [A]. Computation between system calls is [Work], in rounds; [Spin] is an endless loop and [Unreachable] the
    [unreachable!] macro. *)
Inductive prog (A : Type) : Type :=
| Ret (a : A)
| Work (n : N) (p : prog A)
| WriteByte (b : Z) (p : prog A)
| SleepCall (ms : Z) (p : prog A)
| ReadCall (ms : Z) (f : Z -> prog A)
| ExitCall (p : prog A)
| ShutdownCall (p : prog A)
| Spin
| Unreachable.
Arguments Ret {A} _.
Arguments Work {A} _ _.
Arguments WriteByte {A} _ _.
Arguments SleepCall {A} _ _.
Arguments ReadCall {A} _ _.
Arguments ExitCall {A} _.
Arguments ShutdownCall {A} _.
Arguments Spin {A}.
Arguments Unreachable {A}.

Fixpoint prog_bind {A B} (p : prog A) (g : A -> prog B) : prog B :=
  match p with
  | Ret a => g a
  | Work n p => Work n (prog_bind p g)
  | WriteByte b p => WriteByte b (prog_bind p g)
  | SleepCall ms p => SleepCall ms (prog_bind p g)
  | ReadCall ms f => ReadCall ms (fun v => prog_bind (f v) g)
  | ExitCall p => ExitCall (prog_bind p g)
  | ShutdownCall p => ShutdownCall (prog_bind p g)
  | Spin => Spin
  | Unreachable => Unreachable
  end.

#[export] Instance prog_mret : MRet prog := @Ret.
#[export] Instance prog_mbind : MBind prog := fun A B g p => prog_bind p g.

(** [user_println!]: a system call per byte. *)
Fixpoint put_bytes (s : list Z) : prog () :=
  match s with
  | [] => Ret ()
  | byte :: s => WriteByte byte (put_bytes s)
  end.

Definition print_line (args : Arguments_) : prog () := put_bytes (text (format_args_ln args)).

(** ** The tasks *)

(** The two nested loops of ten times 100000 rounds. *)
Definition workload : prog () := Work 1000000 (Ret ()).

Definition test_task_a : prog () :=
  _ ← print_line ["[Task A] ✓ Start!"];
  _ ← workload;
  print_line ["[Task A] ✓ Finished!"].

Definition test_task_b : prog () :=
  _ ← print_line ["[Task B] ✓ Start!"];
  _ ← workload;
  _ ← SleepCall 10000 (Ret ());
  _ ← print_line ["[Task B] ✓ Finished!"];
  ShutdownCall (Ret ()).

Definition shell : prog () :=
  _ ← print_line ["shell Start!"];
  char ← ReadCall 5000 Ret;
  _ ← (if 0 <? char then print_line ["read a ,ascii "; display_isize char] else Ret ());
  print_line ["shell ✓ Finished!"].

Definition idle_task : prog () := Spin.

(** It does not return. *)
Definition trampoline (task : prog ()) : prog Empty_set :=
  _ ← task;
  ExitCall Unreachable.

(** ** The system *)

(** A task is at some point of its program, or waits for the result of a read. *)
Inductive tstate := Runs (p : prog Empty_set) | Reading (f : Z -> prog Empty_set).

Record Sys (FA : Type) := mkSys { s_cpu : TaskContext; s_kernel : Kernel FA; s_tasks : gmap nat tstate; s_on : bool }.
Arguments mkSys {FA} _ _ _ _.
Arguments s_cpu {FA} _.
Arguments s_kernel {FA} _.
Arguments s_tasks {FA} _.
Arguments s_on {FA} _.

Section System.
Context {FA : Type} `{HFL : FrameAllocatorLaws FA}.

Abbreviation current k := (current_task_id (k_sched k)).

(** A step and the bytes it sends to the console, with the task that wrote them. *)
Inductive sys_step : Sys FA -> list (nat * Z) -> Sys FA -> Prop :=
| st_compute cpu cpu' k T i p :
    current k = Some i -> T !! i = Some (Runs p) ->
    sys_step (mkSys cpu k T true) [] (mkSys cpu' k T true)
| st_work cpu cpu' k T i n p :
    current k = Some i -> T !! i = Some (Runs (Work n p)) ->
    sys_step (mkSys cpu k T true) [] (mkSys cpu' k (<[i := Runs (if (n =? 0)%N then p else Work (n - 1) p)]> T) true)
| st_write env cpu k T i b p cpu' k' :
    current k = Some i -> T !! i = Some (Runs (WriteByte b p)) -> sys_write_byte env b cpu k = Done (cpu', k') ->
    sys_step (mkSys cpu k T true) [(i, b)] (mkSys cpu' k' (<[i := Runs p]> T) true)
| st_sleep env cpu k T i ms p cpu' k' :
    current k = Some i -> T !! i = Some (Runs (SleepCall ms p)) -> sys_sleep env ms cpu k = Done (cpu', k') ->
    sys_step (mkSys cpu k T true) [] (mkSys cpu' k' (<[i := Runs p]> T) true)
| st_read env cpu k T i ms f cpu' k' :
    current k = Some i -> T !! i = Some (Runs (ReadCall ms f)) -> sys_read env ms cpu k = Done (cpu', k') ->
    sys_step (mkSys cpu k T true) [] (mkSys cpu' k' (<[i := Reading f]> T) true)
| st_resume cpu k T i f :
    current k = Some i -> T !! i = Some (Reading f) ->
    sys_step (mkSys cpu k T true) [] (mkSys cpu k (<[i := Runs (f (sys_read_ret cpu))]> T) true)
| st_exit env cpu k T i p cpu' k' :
    current k = Some i -> T !! i = Some (Runs (ExitCall p)) -> sys_task_exit env cpu k = Done (cpu', k') ->
    sys_step (mkSys cpu k T true) [] (mkSys cpu' k' (<[i := Runs p]> T) true)
| st_shutdown env cpu k T i p cpu' k' :
    current k = Some i -> T !! i = Some (Runs (ShutdownCall p)) -> sys_shutdown env cpu k = Done (cpu', k') ->
    sys_step (mkSys cpu k T true) [] (mkSys cpu' k' T false)
| st_interrupt env scause cause cpu k T cpu' k' :
    parse_trap_cause scause = Interrupt cause -> trap env scause cpu k = Done (cpu', k') ->
    sys_step (mkSys cpu k T true) [] (mkSys cpu' k' T true).

Inductive sys_run : Sys FA -> list (nat * Z) -> Sys FA -> Prop :=
| run_refl s : sys_run s [] s
| run_step s o s' tr s'' : sys_step s o s' -> sys_run s' tr s'' -> sys_run s (o ++ tr) s''.

(** ** The invariant *)

(** Programs as the trampoline makes them: the exit call is followed by [unreachable!], which occurs nowhere else. *)
Fixpoint wf {A} (p : prog A) : Prop :=
  match p with
  | Ret _ => True
  | Work _ p | SleepCall _ p | ShutdownCall p => wf p
  | WriteByte b p => 0 <= b < 256 /\ wf p
  | ReadCall _ f => forall v, wf (f v)
  | ExitCall p => p = Unreachable
  | Spin => True
  | Unreachable => False
  end.

(** The state of task [i] fits its slot: beyond the exit call the task is terminated; a suspended reader
    has the result in its context, the current one in the processor. *)
Definition task_fits (cpu : TaskContext) (k : Kernel FA) (i : nat) (ts : tstate) : Prop :=
  match ts with
  | Runs p => wf p \/ p = Unreachable /\ forall t, slot (k_sched k) i = Some t -> status t = Terminated
  | Reading f => (forall v, wf (f v)) /\
      if decide (current k = Some i) then a0_ok cpu else forall t, slot (k_sched k) i = Some t -> a0_ok (context t)
  end.

Record sys_ok (s : Sys FA) : Prop := {
  sy_kernel : kernel_ok (s_kernel s);
  sy_current : is_Some (current (s_kernel s));
  sy_idle : s_tasks s !! 0%nat = Some (Runs Spin);
  sy_dom i t : slot (k_sched (s_kernel s)) i = Some t -> is_Some (s_tasks s !! i);
  sy_fits i ts : s_tasks s !! i = Some ts -> task_fits (s_cpu s) (s_kernel s) i ts
}.

Lemma task_running k c : kernel_ok k -> current k = Some c -> exists t, slot (k_sched k) c = Some t /\ status t = Running.
Proof using HFL. intros [_ Hp] Hc. unfold ptr_ok in Hp. rewrite Hc in Hp. destruct Hp as [Hp _]. by apply stat_Some in Hp. Qed.

(** The registers after a trap are those of the current task. *)
Lemma resumed_context k' cpu' c t :
  kernel_ok k' -> read_ctx k' (k_sscratch k') = Done cpu' -> current k' = Some c -> slot (k_sched k') c = Some t -> cpu' = context t.
Proof using HFL.
  intros [_ Hp] Hread Hc Ht. unfold ptr_ok in Hp. rewrite Hc in Hp. destruct Hp as [_ Hss].
  rewrite Hss, (read_ctx_slot _ _ _ Ht) in Hread. by injection Hread.
Qed.

(** A trap of the current task [c] and the other tasks. *)
Lemma trap_others env scause cpu k c cpu' k' :
  kernel_ok k -> current k = Some c -> call_ok cpu k scause -> trap env scause cpu k = Done (cpu', k') ->
  kernel_ok k' /\ is_Some (current k') /\ read_ctx k' (k_sscratch k') = Done cpu' /\
  (forall i t', slot (k_sched k') i = Some t' -> is_Some (slot (k_sched k) i)) /\
  forall i ts, i <> c -> task_fits cpu k i ts -> task_fits cpu' k' i ts.
Proof using HFL.
  intros Hok Hc Hcall Ht. destruct (trap_ok env scause cpu k Hok Hcall) as (x & k2 & Heq & Hok' & Hread & _ & Ha).
  rewrite Ht in Heq. injection Heq as <- <-. pose proof (trap_has_current _ _ _ _ _ _ _ Hok Hok' Hc Ht) as Hcur.
  split_and!; try done.
  - intros i t' Ht'. destruct (Ha i t' Ht') as (t & ? & _). by exists t.
  - intros i ts Hi Hfit. rewrite Hc in Ha.
    assert (Hag : forall t', slot (k_sched k') i = Some t' -> exists t, slot (k_sched k) i = Some t /\ agree (delivered env scause) t t').
    { intros t' Ht'. destruct (Ha i t' Ht') as (t & Htt & _ & _ & Hag). exists t. split; [done|]. apply Hag. congruence. }
    destruct ts as [p|f]; cbn [task_fits] in *.
    + destruct Hfit as [?|[-> Hd]]; [by left|right]. split; [done|]. intros t' Ht'.
      destruct (Hag t' Ht') as (t & Htt & st & y & -> & Hst & _). cbn. by apply Hst, Hd.
    + destruct Hfit as [Hwf Hr]. rewrite decide_False in Hr by congruence. split; [done|].
      assert (Hall : forall t', slot (k_sched k') i = Some t' -> a0_ok (context t')).
      { intros t' Ht'. destruct (Hag t' Ht') as (t & Htt & Hagree). eapply agree_a0; [exact Hagree| |by apply Hr].
        intros r. apply delivered_ascii. }
      case_decide as Hci; [|done]. destruct (task_running k' i Hok' Hci) as (t' & Ht' & _).
      rewrite (resumed_context k' cpu' i t' Hok' Hread Hci Ht'). by apply Hall.
Qed.

(** Updating the state of the trapping task. *)
Lemma sys_ok_trap env scause cpu k T c ts cpu' k' :
  sys_ok (mkSys cpu k T true) -> current k = Some c -> c <> 0%nat -> call_ok cpu k scause ->
  trap env scause cpu k = Done (cpu', k') -> task_fits cpu' k' c ts -> sys_ok (mkSys cpu' k' (<[c := ts]> T) true).
Proof using HFL.
  intros [Hok _ Hidle Hdom Hfits] Hc Hc0 Hcall Ht Hts. cbn in *.
  destruct (trap_others _ _ _ _ _ _ _ Hok Hc Hcall Ht) as (Hok' & Hcur & _ & Hslots & Hothers). split; cbn; try done.
  - by rewrite lookup_insert_ne.
  - intros i t' Ht'. destruct (decide (i = c)) as [->|Hi]; [by rewrite lookup_insert_eq|rewrite lookup_insert_ne by done].
    destruct (Hslots i t' Ht') as [t Hs]. by eapply Hdom.
  - intros i us. destruct (decide (i = c)) as [->|Hi]; [rewrite lookup_insert_eq|rewrite lookup_insert_ne by done].
    + by intros [= <-].
    + intros Hi'. apply Hothers; [done|]. by apply Hfits.
Qed.

(** The registers of a call are passed to the trap. *)
Lemma sys_ok_regs cpu cpu' k T i p :
  sys_ok (mkSys cpu k T true) -> current k = Some i -> T !! i = Some (Runs p) -> sys_ok (mkSys cpu' k T true).
Proof using HFL.
  intros [Hok Hcur Hidle Hdom Hfits] Hc Hp. cbn in *. split; cbn; try done. intros j ts Hj. specialize (Hfits j ts Hj).
  destruct ts as [q|f]; cbn [task_fits] in *; [done|]. destruct Hfits as [? Hr]. split; [done|].
  assert (j <> i) by congruence. by rewrite decide_False in * by congruence.
Qed.

Lemma not_idle cpu k T i ts b : sys_ok (mkSys cpu k T b) -> T !! i = Some ts -> ts <> Runs Spin -> i <> 0%nat.
Proof using HFL. intros Hok Hi Hts ->. pose proof (sy_idle _ Hok) as H0. cbn in H0. congruence. Qed.

(** A system call of a task that is not the idle task. *)
Lemma sys_ok_call env n x cpu k T c p ts cpu' k' :
  sys_ok (mkSys cpu k T true) -> current k = Some c -> T !! c = Some (Runs p) -> p <> Spin -> n <> 10 ->
  trap env ECALL (call_regs n x cpu) k = Done (cpu', k') -> task_fits cpu' k' c ts ->
  sys_ok (mkSys cpu' k' (<[c := ts]> T) true).
Proof using HFL.
  intros Hok Hc Hp Hspin Hn Ht Hts.
  assert (Hc0 : c <> 0%nat) by (eapply not_idle; [exact Hok|exact Hp|congruence]).
  eapply (sys_ok_trap env ECALL (call_regs n x cpu)); try done; [by eapply sys_ok_regs|].
  intros _. split; [done|]. by exists c.
Qed.

(** The program of the current task is not beyond its exit call. *)
Lemma current_wf s c p :
  sys_ok s -> current (s_kernel s) = Some c -> s_tasks s !! c = Some (Runs p) -> wf p.
Proof using HFL.
  intros Hok Hc Hp. destruct (sy_fits _ Hok c _ Hp) as [?|[-> Hd]]; [done|].
  destruct (task_running _ c (sy_kernel _ Hok) Hc) as (t & Ht & Hrun). rewrite (Hd t Ht) in Hrun. done.
Qed.

(** The state of the current task changes without a trap. *)
Lemma sys_ok_local cpu cpu' k T c ts p :
  sys_ok (mkSys cpu k T true) -> current k = Some c -> c <> 0%nat -> T !! c = Some ts -> wf p ->
  (forall f, ts = Reading f -> cpu' = cpu) -> sys_ok (mkSys cpu' k (<[c := Runs p]> T) true).
Proof using HFL.
  intros [Hok Hcur Hidle Hdom Hfits] Hc Hc0 Hts Hp Hcpu. cbn in *. split; cbn; try done.
  - by rewrite lookup_insert_ne.
  - intros i t' Ht'. destruct (decide (i = c)) as [->|Hi]; [by rewrite lookup_insert_eq|rewrite lookup_insert_ne by done]. by eapply Hdom.
  - intros i us. destruct (decide (i = c)) as [->|Hi]; [rewrite lookup_insert_eq|rewrite lookup_insert_ne by done].
    + intros [= <-]. by left.
    + intros Hi'. specialize (Hfits i us Hi'). destruct us as [q|f]; cbn [task_fits] in *; [done|].
      destruct Hfits as [? Hr]. split; [done|]. by rewrite decide_False in * by congruence.
Qed.

Lemma interrupt_sys_ok env scause cause cpu k T cpu' k' :
  sys_ok (mkSys cpu k T true) -> parse_trap_cause scause = Interrupt cause -> trap env scause cpu k = Done (cpu', k') ->
  sys_ok (mkSys cpu' k' T true).
Proof using HFL.
  intros Hok Hp Ht. pose proof Hok as [Hkok [c Hc] Hidle Hdom Hfits]. cbn in *.
  assert (Hcall : call_ok cpu k scause) by (intros He; congruence).
  destruct (trap_others _ _ _ _ _ _ _ Hkok Hc Hcall Ht) as (Hok' & Hcur & Hread & Hslots & Hothers).
  destruct (interrupt_agree _ _ _ _ _ _ _ _ Hkok Hc Hp Ht) as (t & Hslot & _ & Ha).
  split; cbn; try done.
  - intros i t' Ht'. destruct (Hslots i t' Ht') as [u Hu]. by eapply Hdom.
  - intros i ts Hi. specialize (Hfits i ts Hi). destruct (decide (i = c)) as [->|Hic]; [|by apply Hothers].
    destruct ts as [p|f]; cbn [task_fits] in *.
    + left. eapply (current_wf _ c); [exact Hok|exact Hc|exact Hi].
    + destruct Hfits as [Hwf Hr]. rewrite decide_True in Hr by done. split; [done|].
      assert (Hall : forall t', slot (k_sched k') c = Some t' -> a0_ok (context t')).
      { intros t' Ht'. destruct (Ha c t' Ht') as (u & Hu & _ & _ & Hag).
        rewrite put_slot, decide_True in Hu by done. injection Hu as <-.
        eapply agree_a0; [by apply Hag| |exact Hr]. intros r. apply delivered_ascii. }
      case_decide as Hci; [|done]. destruct (task_running k' c Hok' Hci) as (t' & Ht' & _).
      rewrite (resumed_context k' cpu' c t' Hok' Hread Hci Ht'). by apply Hall.
Qed.

Lemma sys_step_ok s o s' : sys_ok s -> sys_step s o s' -> s_on s' = true -> sys_ok s'.
Proof using HFL.
  intros Hok Hs Hon.
  destruct Hs as [cpu cpu' k T i p Hc Hp|cpu cpu' k T i n p Hc Hp|env cpu k T i b p cpu' k' Hc Hp Ht|env cpu k T i ms p cpu' k' Hc Hp Ht
    |env cpu k T i ms f cpu' k' Hc Hp Ht|cpu k T i f Hc Hp|env cpu k T i p cpu' k' Hc Hp Ht| |env scause cause cpu k T cpu' k' Hcause Ht].
  - by eapply sys_ok_regs.
  - assert (Hc0 : i <> 0%nat) by (eapply not_idle; [exact Hok|exact Hp|discriminate]).
    eapply (sys_ok_local cpu); [exact Hok|exact Hc|exact Hc0|exact Hp| |discriminate].
    pose proof (current_wf _ i _ Hok Hc Hp) as Hwf. by case_match.
  - eapply (sys_ok_call env SYS_WRITE_BYTE b); [exact Hok|exact Hc|exact Hp|discriminate|discriminate|exact Ht|].
    left. apply (current_wf _ i _ Hok Hc Hp).
  - eapply (sys_ok_call env SYS_SLEEP ms); [exact Hok|exact Hc|exact Hp|discriminate|discriminate|exact Ht|].
    left. apply (current_wf _ i _ Hok Hc Hp).
  - assert (Hc0 : i <> 0%nat) by (eapply not_idle; [exact Hok|exact Hp|discriminate]).
    eapply (sys_ok_call env SYS_READ ms); [exact Hok|exact Hc|exact Hp|discriminate|discriminate|exact Ht|].
    split; [apply (current_wf _ i _ Hok Hc Hp)|].
    assert (Hall : forall t', slot (k_sched k') i = Some t' -> a0_ok (context t'))
      by (intros t'; exact (read_trap_a0 env (call_regs SYS_READ ms cpu) k i _ _ t' (sy_kernel _ Hok) Hc Hc0 eq_refl Ht)).
    case_decide as Hci; [|exact Hall].
    destruct (trap_others env ECALL (call_regs SYS_READ ms cpu) k i cpu' k' (sy_kernel _ Hok) Hc) as (Hok' & _ & Hread & _); [|exact Ht|].
    { intros _. split; [discriminate|]. by exists i. }
    destruct (task_running k' i Hok' Hci) as (t' & Ht' & _).
    rewrite (resumed_context k' cpu' i t' Hok' Hread Hci Ht'). by apply Hall.
  - assert (Hc0 : i <> 0%nat) by (eapply not_idle; [exact Hok|exact Hp|discriminate]).
    eapply (sys_ok_local cpu); [exact Hok|exact Hc|exact Hc0|exact Hp| |done]. by apply (sy_fits _ Hok i (Reading f) Hp).
  - assert (Hc0 : i <> 0%nat) by (eapply not_idle; [exact Hok|exact Hp|discriminate]).
    eapply (sys_ok_call env SYS_TASK_EXIT (ctx_a0 cpu)); [exact Hok|exact Hc|exact Hp|discriminate|discriminate|exact Ht|].
    right. split; [apply (current_wf _ i _ Hok Hc Hp)|]. intros t'.
    exact (exit_trap_dead env (call_regs SYS_TASK_EXIT (ctx_a0 cpu) cpu) k i _ _ t' (sy_kernel _ Hok) Hc Hc0 eq_refl Ht).
  - discriminate Hon.
  - by eapply interrupt_sys_ok.
Qed.

Lemma sys_run_ok s tr s' : sys_ok s -> sys_run s tr s' -> s_on s' = true -> sys_ok s'.
Proof using HFL.
  intros Hok Hr Hon. induction Hr as [|s o s' tr s'' Hs Hr IH]; [done|]. apply IH; [|done].
  eapply sys_step_ok; [exact Hok|exact Hs|]. destruct (s_on s') eqn:Hoff; [done|]. inversion Hr; subst; [congruence|].
  match goal with H : sys_step s' _ _ |- _ => inversion H; subst; discriminate end.
Qed.

(** ** Pending calls *)

(** The program makes at most [n] calls of [sleep] and [read]. *)
Fixpoint calls_within {A} (n : nat) (p : prog A) : Prop :=
  match p with
  | Ret _ | Spin | Unreachable => True
  | Work _ p | WriteByte _ p | ExitCall p | ShutdownCall p => calls_within n p
  | SleepCall _ p => match n with O => False | S n => calls_within n p end
  | ReadCall _ f => match n with O => False | S n => forall v, calls_within n (f v) end
  end.

Definition tcalls (n : nat) (ts : tstate) : Prop :=
  match ts with Runs p => calls_within n p | Reading f => forall v, calls_within n (f v) end.

(** Four tasks with [f i] calls left each: what is pending and what may still come is at most [n]. *)
Definition budgeted (n : nat) (s : Sys FA) : Prop :=
  length (task_list (k_sched (s_kernel s))) = 4%nat /\
  exists f : nat -> nat, (forall i ts, s_tasks s !! i = Some ts -> (i < 4)%nat /\ tcalls (f i) ts) /\
    (length (blocked_queue (k_sched (s_kernel s))) + (f 0 + f 1 + f 2 + f 3) <= n)%nat /\
    (length (wait_queue (s_kernel s)) + (f 0 + f 1 + f 2 + f 3) <= n)%nat.

Lemma trap_length env scause cpu (k : Kernel FA) cpu' k' :
  kernel_ok k -> call_ok cpu k scause -> trap env scause cpu k = Done (cpu', k') ->
  length (task_list (k_sched k')) = length (task_list (k_sched k)).
Proof using HFL.
  intros Hok Hcall Ht. destruct (trap_ok env scause cpu k Hok Hcall) as (x & k2 & Heq & _ & _ & Hlen & _).
  rewrite Ht in Heq. by injection Heq as <- <-.
Qed.

(** A step of task [i] that takes [d] of its calls. *)
Lemma budget_move n d cpu cpu' k k' T i ts ts' b :
  budgeted n (mkSys cpu k T true) -> T !! i = Some ts -> length (task_list (k_sched k')) = length (task_list (k_sched k)) ->
  grows d k k' -> (forall m, tcalls m ts -> (d <= m)%nat /\ tcalls (m - d) ts') -> budgeted n (mkSys cpu' k' (<[i := ts']> T) b).
Proof.
  intros [Hlen (f & Hf & Hb & Hw)] Hi Hl [Hgb Hgw] Hts. cbn in *. destruct (Hf i ts Hi) as [Hi4 Hc]. destruct (Hts _ Hc) as [Hd Hc'].
  split; [by rewrite <- Hlen|]. exists (<[i := (f i - d)%nat]> f). split.
  - intros j us. cbn. destruct (decide (j = i)) as [->|Hne].
    + rewrite lookup_insert_eq, fn_lookup_insert. intros [= <-]. done.
    + rewrite lookup_insert_ne, fn_lookup_insert_ne by done. apply Hf.
  - destruct i as [|[|[|[|i]]]]; [..|lia]; rewrite fn_lookup_insert, !fn_lookup_insert_ne by done; cbn; lia.
Qed.

(** A system call that takes [d] calls. *)
Lemma budget_call n d env code x cpu cpu' k k' T i p ts' b :
  sys_ok (mkSys cpu k T true) -> budgeted n (mkSys cpu k T true) -> current k = Some i -> T !! i = Some (Runs p) -> p <> Spin -> code <> 10 ->
  trap env ECALL (call_regs code x cpu) k = Done (cpu', k') -> trap_adds ECALL (call_regs code x cpu) = d ->
  (forall m, calls_within m p -> (d <= m)%nat /\ tcalls (m - d) ts') -> budgeted n (mkSys cpu' k' (<[i := ts']> T) b).
Proof using HFL.
  intros Hok Hbud Hc Hp Hspin Hcode Ht <- Hts. pose proof (sy_kernel _ Hok) as Hk. cbn [s_kernel] in Hk.
  eapply (budget_move n _ cpu _ k); [exact Hbud|exact Hp| |by eapply trap_grows|exact Hts].
  eapply (trap_length env ECALL); [exact Hk| |exact Ht]. intros _. split; [done|]. exists i. split; [done|].
  eapply not_idle; [exact Hok|exact Hp|congruence].
Qed.

Lemma calls_le_0 ts ts' : (forall m, tcalls m ts -> tcalls m ts') -> forall m, tcalls m ts -> (0 <= m)%nat /\ tcalls (m - 0) ts'.
Proof. intros Hts m Hm. rewrite Nat.sub_0_r. split; [lia|auto]. Qed.

Lemma sys_step_budget n s o s' : sys_ok s -> sys_step s o s' -> s_on s' = true -> budgeted n s -> budgeted n s'.
Proof using HFL.
  intros Hok Hs Hon Hb. pose proof (sy_kernel _ Hok) as Hk.
  destruct Hs as [cpu cpu' k T i p Hc Hp|cpu cpu' k T i m p Hc Hp|env cpu k T i b p cpu' k' Hc Hp Ht|env cpu k T i ms p cpu' k' Hc Hp Ht
    |env cpu k T i ms f cpu' k' Hc Hp Ht|cpu k T i f Hc Hp|env cpu k T i p cpu' k' Hc Hp Ht| |env scause cause cpu k T cpu' k' Hcause Ht];
    cbn [s_kernel] in Hk.
  - exact Hb.
  - eapply (budget_move n 0); [exact Hb|exact Hp|done|by apply grows_same|]. apply calls_le_0. intros q Hq. by case_match.
  - eapply (budget_call n 0 env SYS_WRITE_BYTE b cpu); [exact Hok|exact Hb|exact Hc|exact Hp|done|done|exact Ht|reflexivity|].
    by apply (calls_le_0 (Runs (WriteByte b p))).
  - eapply (budget_call n 1 env SYS_SLEEP ms cpu); [exact Hok|exact Hb|exact Hc|exact Hp|done|done|exact Ht|reflexivity|].
    intros [|m] Hm; [done|]. split; [lia|]. by rewrite Nat.sub_succ, Nat.sub_0_r.
  - eapply (budget_call n 1 env SYS_READ ms cpu); [exact Hok|exact Hb|exact Hc|exact Hp|done|done|exact Ht|reflexivity|].
    intros [|m] Hm; [done|]. split; [lia|]. by rewrite Nat.sub_succ, Nat.sub_0_r.
  - eapply (budget_move n 0); [exact Hb|exact Hp|done|by apply grows_same|]. apply calls_le_0. intros q Hq. apply Hq.
  - eapply (budget_call n 0 env SYS_TASK_EXIT (ctx_a0 cpu) cpu); [exact Hok|exact Hb|exact Hc|exact Hp|done|done|exact Ht|reflexivity|].
    by apply (calls_le_0 (Runs (ExitCall p))).
  - discriminate Hon.
  - destruct (sy_current _ Hok) as [c Hc]. cbn [s_kernel] in Hc. destruct (trap_grows _ _ _ _ _ _ _ Hk Hc Ht) as [Hgb Hgw].
    unfold trap_adds in Hgb, Hgw. rewrite Hcause in Hgb, Hgw. destruct Hb as [Hl (f & Hf & Hb & Hw)]. cbn in *. split; cbn.
    + rewrite <- Hl. eapply trap_length; [exact Hk| |exact Ht]. intros He. congruence.
    + exists f. split; [exact Hf|]. lia.
Qed.

Lemma sys_run_budget n s tr s' : sys_ok s -> sys_run s tr s' -> s_on s' = true -> budgeted n s -> budgeted n s'.
Proof using HFL.
  intros Hok Hr Hon. induction Hr as [|s o s' tr s'' Hs Hr IH]; [done|]. intros Hb.
  assert (Hon' : s_on s' = true).
  { destruct (s_on s') eqn:Hoff; [done|]. inversion Hr; subst; [congruence|].
    match goal with H : sys_step s' _ _ |- _ => inversion H; subst; discriminate end. }
  apply IH; [by eapply sys_step_ok|done|by eapply sys_step_budget].
Qed.

(** Within a budget of four every collection of the kernel stays in its first block. *)
Lemma budgeted_fits n s : (n <= 4)%nat -> sys_ok s -> budgeted n s -> fit_first_blocks (s_kernel s).
Proof using HFL.
  intros Hn Hok [Hl (f & _ & Hb & Hw)]. apply kernel_fits; [apply Hok|apply Hok|lia|lia|lia].
Qed.

(** ** Output *)

(** What one task can do, whatever the others do: the bytes it writes. A read returns -1 or an ASCII character. *)
Inductive ostep : tstate -> list Z -> tstate -> Prop :=
| os_work n p : ostep (Runs (Work n p)) [] (Runs (if (n =? 0)%N then p else Work (n - 1) p))
| os_write b p : ostep (Runs (WriteByte b p)) [b] (Runs p)
| os_sleep ms p : ostep (Runs (SleepCall ms p)) [] (Runs p)
| os_read ms f : ostep (Runs (ReadCall ms f)) [] (Reading f)
| os_resume f v : v = -1 \/ v < 128 -> ostep (Reading f) [] (Runs (f v))
| os_exit p : ostep (Runs (ExitCall p)) [] (Runs p).

Inductive outs : tstate -> list Z -> tstate -> Prop :=
| outs_refl ts : outs ts [] ts
| outs_step ts w ts' w' ts'' : ostep ts w ts' -> outs ts' w' ts'' -> outs ts (w ++ w') ts''.

Lemma outs_once ts w ts' : ostep ts w ts' -> outs ts w ts'.
Proof. intros Hs. rewrite <- (app_nil_r w). eapply outs_step; [exact Hs|apply outs_refl]. Qed.

Lemma outs_app ts w ts' w' ts'' : outs ts w ts' -> outs ts' w' ts'' -> outs ts (w ++ w') ts''.
Proof. induction 1; [done|]. intros. rewrite <- app_assoc. eapply outs_step; [done|auto]. Qed.

(** The bytes of a trace that task [i] has written. *)
Definition written (i : nat) (tr : list (nat * Z)) : list Z := snd <$> filter (fun e => e.1 = i) tr.

Lemma written_app i tr tr' : written i (tr ++ tr') = written i tr ++ written i tr'.
Proof. unfold written. by rewrite filter_app, fmap_app. Qed.

Lemma read_ret_ok cpu : a0_ok cpu -> sys_read_ret cpu = -1 \/ sys_read_ret cpu < 128.
Proof.
  intros [Ha|Ha]; unfold sys_read_ret, to_isize; [left; by rewrite Ha|right]. destruct (Z.ltb_spec (ctx_a0 cpu) (2 ^ 63)); lia.
Qed.

(** A step of the system moves the task that makes it, and no other. *)
Lemma step_moves (T : gmap nat tstate) i b ts' ts (o : list (nat * Z)) w j us :
  T !! i = Some ts -> ostep ts w ts' -> o = map (pair i) w -> T !! j = Some us -> b = <[i := ts']> T ->
  exists us', b !! j = Some us' /\ outs us (written j o) us'.
Proof.
  intros Hi Hs -> Hj ->. destruct (decide (j = i)) as [->|Hne].
  - exists ts'. split; [apply lookup_insert_eq|]. assert (us = ts) as -> by congruence.
    assert (written i (map (pair i) w) = w) as ->; [|by apply outs_once].
    unfold written. clear. induction w as [|c w IH]; [done|]. cbn [map]. rewrite filter_cons_True by done. cbn. by f_equal.
  - exists us. split; [by rewrite lookup_insert_ne|].
    assert (written j (map (pair i) w) = []) as ->; [|apply outs_refl].
    unfold written. clear -Hne. induction w as [|c w IH]; [done|]. cbn [map]. by rewrite filter_cons_False by (cbn; congruence).
Qed.

Lemma sys_step_outs s o s' j us :
  sys_ok s -> sys_step s o s' -> s_tasks s !! j = Some us -> exists us', s_tasks s' !! j = Some us' /\ outs us (written j o) us'.
Proof using HFL.
  intros Hok Hs Hj.
  destruct Hs as [cpu cpu' k T i p Hc Hp|cpu cpu' k T i n p Hc Hp|env cpu k T i b p cpu' k' Hc Hp Ht|env cpu k T i ms p cpu' k' Hc Hp Ht
    |env cpu k T i ms f cpu' k' Hc Hp Ht|cpu k T i f Hc Hp|env cpu k T i p cpu' k' Hc Hp Ht|env cpu k T i p cpu' k' Hc Hp Ht
    |env scause cause cpu k T cpu' k' Hcause Ht]; cbn [s_tasks] in *.
  - exists us. split; [done|apply outs_refl].
  - by eapply step_moves; [exact Hp|apply os_work| |exact Hj|].
  - by eapply step_moves; [exact Hp|apply os_write| |exact Hj|].
  - by eapply step_moves; [exact Hp|apply os_sleep| |exact Hj|].
  - by eapply step_moves; [exact Hp|apply os_read| |exact Hj|].
  - eapply step_moves; [exact Hp|apply (os_resume f (sys_read_ret cpu))|done|exact Hj|done].
    apply read_ret_ok. destruct (sy_fits _ Hok i (Reading f) Hp) as [_ Hr]. cbn [s_kernel s_cpu] in Hr. by rewrite decide_True in Hr.
  - by eapply step_moves; [exact Hp|apply os_exit| |exact Hj|].
  - exists us. split; [done|apply outs_refl].
  - exists us. split; [done|apply outs_refl].
Qed.

Lemma sys_step_console s o s' :
  sys_ok s -> sys_step s o s' -> console (k_log (s_kernel s')) = console (k_log (s_kernel s)) ++ (snd <$> o).
Proof using HFL.
  intros Hok Hs.
  destruct Hs as [cpu cpu' k T i p Hc Hp|cpu cpu' k T i n p Hc Hp|env cpu k T i b p cpu' k' Hc Hp Ht|env cpu k T i ms p cpu' k' Hc Hp Ht
    |env cpu k T i ms f cpu' k' Hc Hp Ht|cpu k T i f Hc Hp|env cpu k T i p cpu' k' Hc Hp Ht|env cpu k T i p cpu' k' Hc Hp Ht
    |env scause cause cpu k T cpu' k' Hcause Ht]; cbn [s_kernel fmap list_fmap]; rewrite ?app_nil_r; try done;
    pose proof (sy_kernel _ Hok) as Hk; cbn [s_kernel] in Hk.
  - rewrite (trap_console _ _ _ _ _ _ _ Hk Hc Ht). f_equal.
    assert (Hb : 0 <= b < 256) by exact (proj1 (current_wf _ i _ Hok Hc Hp)).
    change (trap_output ECALL (call_regs SYS_WRITE_BYTE b cpu)) with [Z.land b 0xff].
    assert (Z.land b 0xff = b) as ->; [|done].
    etransitivity; [apply (land_low_mask b 8); lia|apply Z.mod_small; change (2 ^ 8) with 256; lia].
  - rewrite (trap_console _ _ _ _ _ _ _ Hk Hc Ht). apply app_nil_r.
  - rewrite (trap_console _ _ _ _ _ _ _ Hk Hc Ht). apply app_nil_r.
  - rewrite (trap_console _ _ _ _ _ _ _ Hk Hc Ht). apply app_nil_r.
  - rewrite (trap_console _ _ _ _ _ _ _ Hk Hc Ht). apply app_nil_r.
  - destruct (sy_current _ Hok) as [c Hc]. rewrite (trap_console _ _ _ _ _ _ _ Hk Hc Ht). unfold trap_output. rewrite Hcause. apply app_nil_r.
Qed.

(** Only tasks of the system write. *)
Lemma sys_run_writers s tr s' : sys_run s tr s' -> Forall (fun e => is_Some (s_tasks s !! e.1)) tr.
Proof.
  induction 1 as [|s o s' tr s'' Hs _ IH]; [constructor|]. apply Forall_app. split.
  - destruct Hs; try constructor; cbn; [by eexists|constructor].
  - eapply Forall_impl; [exact IH|]. intros [j b] Hj. cbn in *.
    destruct Hs; cbn in *; try done; apply lookup_insert_is_Some in Hj as [<-|[_ Hj]]; by eauto.
Qed.

(** Both along a run. *)
Lemma sys_run_output s tr s' :
  sys_ok s -> s_on s = true -> sys_run s tr s' ->
  console (k_log (s_kernel s')) = console (k_log (s_kernel s)) ++ (snd <$> tr) /\
  forall j us, s_tasks s !! j = Some us -> exists us', s_tasks s' !! j = Some us' /\ outs us (written j tr) us'.
Proof using HFL.
  intros Hok Hon Hr. revert Hok Hon. induction Hr as [s|s o s' tr s'' Hs Hr IH]; intros Hok Hon.
  - split; [by rewrite app_nil_r|]. intros j us Hj. exists us. split; [done|apply outs_refl].
  - pose proof (sys_step_console _ _ _ Hok Hs) as Hcon. pose proof (sys_step_outs s o s') as Hmove.
    destruct (s_on s') eqn:Hon'.
    + destruct IH as [IHc IHo]; [by eapply sys_step_ok|done|]. split; [by rewrite IHc, Hcon, fmap_app, app_assoc|].
      intros j us Hj. destruct (Hmove j us Hok Hs Hj) as (us1 & Hj1 & Ho1). destruct (IHo j us1 Hj1) as (us2 & Hj2 & Ho2).
      exists us2. split; [done|]. rewrite written_app. by eapply outs_app.
    + inversion Hr as [|? ? ? ? ? Hbad]; subst; [|inversion Hbad; subst; discriminate]. rewrite app_nil_r. split; [done|].
      intros j us Hj. by apply (Hmove j us Hok Hs Hj).
Qed.
End System.

(** ** The texts of the tasks *)

(** Everything the task can write is a prefix of a text in [P]. *)
Definition says (ts : tstate) (P : list Z -> Prop) : Prop :=
  forall w ts', outs ts w ts' -> exists L, P L /\ w `prefix_of` L.

Lemma says_some ts P : says ts P -> exists L, P L.
Proof. intros Hs. destruct (Hs [] ts (outs_refl ts)) as (L & HL & _). by exists L. Qed.

(** A state whose steps write nothing. *)
Lemma says_silent ts P :
  (exists L, P L) -> (forall w ts', ostep ts w ts' -> w = [] /\ says ts' P) -> says ts P.
Proof.
  intros [L HL] Hstep w ts' Ho. destruct Ho as [ts|ts w ts1 w' ts2 H1 H2]; [exists L; split; [done|apply prefix_nil]|].
  destruct (Hstep _ _ H1) as [-> Hs]. by apply (Hs w' ts2).
Qed.

Lemma says_stuck ts P : (exists L, P L) -> (forall w ts', ostep ts w ts' -> False) -> says ts P.
Proof. intros HP Hstep. apply says_silent; [done|]. intros w ts' Hs. by destruct (Hstep _ _ Hs). Qed.

Lemma says_work n p P : says (Runs p) P -> says (Runs (Work n p)) P.
Proof.
  intros Hp. induction n as [|n IH] using N.peano_ind; (apply says_silent; [by eapply says_some|]);
    intros w ts' Hs; inversion Hs; subst; (split; [done|]).
  - exact Hp.
  - rewrite (proj2 (N.eqb_neq _ _)) by lia. replace (N.succ n - 1)%N with n by lia. exact IH.
Qed.

Lemma says_sleep ms p P : says (Runs p) P -> says (Runs (SleepCall ms p)) P.
Proof. intros Hp. apply says_silent; [by eapply says_some|]. intros w ts' Hs. by inversion Hs; subst. Qed.

Lemma says_read ms f P : (forall v, v = -1 \/ v < 128 -> says (Runs (f v)) P) -> says (Runs (ReadCall ms f)) P.
Proof.
  intros Hf. assert (HP : exists L, P L) by (eapply (says_some _ _ (Hf (-1) ltac:(by left)))).
  apply says_silent; [done|]. intros w ts' Hs. inversion Hs; subst. split; [done|].
  apply says_silent; [done|]. intros w ts' Hs'. inversion Hs'; subst. split; [done|]. by apply Hf.
Qed.

Lemma says_exit P : (exists L, P L) -> says (Runs (ExitCall Unreachable)) P.
Proof.
  intros HP. apply says_silent; [done|]. intros w ts' Hs. inversion Hs; subst. split; [done|].
  apply says_stuck; [done|]. intros w ts' Hs'. inversion Hs'.
Qed.

Lemma says_shutdown p P : (exists L, P L) -> says (Runs (ShutdownCall p)) P.
Proof. intros HP. apply says_stuck; [done|]. intros w ts' Hs. inversion Hs. Qed.

Lemma says_bytes s p (P Q : list Z -> Prop) :
  says (Runs p) P -> (forall L, P L -> Q (s ++ L)) -> says (Runs (prog_bind (put_bytes s) (fun _ => p))) Q.
Proof.
  intros Hp. revert Q. induction s as [|b s IH]; intros Q HQ.
  - intros w ts' Ho. destruct (Hp w ts' Ho) as (L & HL & Hw). exists L. split; [by apply HQ|done].
  - cbn [put_bytes prog_bind]. destruct (says_some _ _ Hp) as [L0 HL0]. intros w ts' Ho.
    inversion Ho as [|? w1 ts1 w2 ? H1 H2]; subst.
    + exists (b :: s ++ L0). split; [by apply HQ|apply prefix_nil].
    + inversion H1; subst. destruct (IH (fun L => Q (b :: L))) with (w := w2) (ts' := ts') as (L & HL & Hw); [|done|].
      * intros L HL. by apply (HQ L).
      * exists (b :: L). split; [done|]. by apply prefix_cons.
Qed.

Lemma put_bytes_assoc {A B} s (f : () -> prog A) (g : A -> prog B) :
  prog_bind (prog_bind (put_bytes s) f) g = prog_bind (put_bytes s) (fun _ => prog_bind (f ()) g).
Proof. induction s as [|b s IH]; [done|]. cbn [put_bytes prog_bind]. by rewrite IH. Qed.

(** The texts. *)
Definition line (args : Arguments_) : list Z := text args ++ [10].
Definition text_a : list Z := line ["[Task A] ✓ Start!"] ++ line ["[Task A] ✓ Finished!"].
Definition text_b : list Z := line ["[Task B] ✓ Start!"] ++ line ["[Task B] ✓ Finished!"].
Definition text_shell (read : option Z) : list Z :=
  line ["shell Start!"] ++ match read with Some v => line ["read a ,ascii "; display_isize v] | None => [] end ++ line ["shell ✓ Finished!"].

(** A line, then the rest. *)
Lemma says_line args p (P Q : list Z -> Prop) :
  says (Runs p) P -> (forall L, P L -> Q (line args ++ L)) -> says (Runs (prog_bind (print_line args) (fun _ => p))) Q.
Proof. intros Hp HQ. unfold print_line. rewrite text_ln. by apply (says_bytes _ _ P). Qed.

Lemma says_last_line args P :
  P (line args) -> says (Runs (prog_bind (print_line args) (fun _ => ExitCall Unreachable))) P.
Proof.
  intros HP. apply (says_line _ _ (fun L => L = [])); [by apply says_exit; eexists|]. intros L ->. by rewrite app_nil_r.
Qed.

Lemma task_a_says : says (Runs (trampoline test_task_a)) (fun L => L = text_a).
Proof.
  unfold trampoline, test_task_a, mbind, prog_mbind. unfold print_line at 1. rewrite put_bytes_assoc. fold (print_line ["[Task A] ✓ Start!"]).
  apply (says_line _ _ (fun L => L = line ["[Task A] ✓ Finished!"])); [|by intros L ->].
  cbn [workload prog_bind]. apply says_work. by apply says_last_line.
Qed.

Lemma task_b_says : says (Runs (trampoline test_task_b)) (fun L => L = text_b).
Proof.
  unfold trampoline, test_task_b, mbind, prog_mbind. unfold print_line at 1. rewrite put_bytes_assoc. fold (print_line ["[Task B] ✓ Start!"]).
  apply (says_line _ _ (fun L => L = line ["[Task B] ✓ Finished!"])); [|by intros L ->].
  cbn [workload prog_bind]. apply says_work, says_sleep. unfold print_line. rewrite put_bytes_assoc. fold (print_line ["[Task B] ✓ Finished!"]).
  apply (says_line _ _ (fun L => L = [])); [|by intros L ->; rewrite app_nil_r]. by apply says_shutdown; eexists.
Qed.

Lemma shell_says :
  says (Runs (trampoline shell)) (fun L => exists read, (forall v, read = Some v -> 0 < v < 128) /\ L = text_shell read).
Proof.
  unfold trampoline, shell, mbind, prog_mbind. unfold print_line at 1. rewrite put_bytes_assoc. fold (print_line ["shell Start!"]).
  apply (says_line _ _ (fun L => exists read, (forall v, read = Some v -> 0 < v < 128) /\
    L = match read with Some v => line ["read a ,ascii "; display_isize v] | None => [] end ++ line ["shell ✓ Finished!"]));
    [|intros L (read & Hr & ->); by exists read].
  cbn [prog_bind]. apply says_read. intros v Hv. destruct (Z.ltb_spec 0 v) as [Hpos|Hneg].
  - unfold print_line at 1. rewrite put_bytes_assoc. fold (print_line ["read a ,ascii "; display_isize v]).
    apply (says_line _ _ (fun L => L = line ["shell ✓ Finished!"])); [by apply says_last_line|].
    intros L ->. exists (Some v). split; [intros x [= <-]; lia|done].
  - cbn [prog_bind]. apply says_last_line. by exists None.
Qed.

Lemma idle_says : says (Runs (trampoline idle_task)) (fun L => L = []).
Proof. apply says_stuck; [by eexists|]. intros w ts' Hs. inversion Hs. Qed.

Lemma wf_line {A} args (p : prog A) : wf p -> wf (prog_bind (print_line args) (fun _ => p)).
Proof.
  intros Hp. unfold print_line. pose proof (text_range (format_args_ln args)) as Hb.
  induction Hb as [|b s Hb Hs IH]; [done|]. by split.
Qed.

Lemma trampoline_line args (f : () -> prog ()) :
  trampoline (prog_bind (print_line args) f) = prog_bind (print_line args) (fun _ => trampoline (f ())).
Proof. unfold trampoline, mbind, prog_mbind, print_line. apply put_bytes_assoc. Qed.

Lemma wf_trampoline_line args (f : () -> prog ()) : wf (trampoline (f ())) -> wf (trampoline (prog_bind (print_line args) f)).
Proof. intros Hf. rewrite trampoline_line. by apply wf_line. Qed.

Lemma wf_last_line args : wf (trampoline (print_line args)).
Proof. by apply wf_line. Qed.

Lemma tasks_wf : Forall (fun p => wf (trampoline p)) [idle_task; test_task_a; test_task_b; shell].
Proof.
  apply Forall_cons; split; [done|]. apply Forall_cons; split; [|apply Forall_cons; split; [|apply Forall_cons; split; [|constructor]]].
  - apply wf_trampoline_line. exact (wf_last_line ["[Task A] ✓ Finished!"]).
  - apply wf_trampoline_line. change (wf (trampoline (prog_bind (print_line ["[Task B] ✓ Finished!"]) (fun _ => ShutdownCall (Ret ()))))).
    by apply wf_trampoline_line.
  - apply wf_trampoline_line. intros v.
    change (wf (trampoline (prog_bind (if 0 <? v then print_line ["read a ,ascii "; display_isize v] else Ret ())
      (fun _ => print_line ["shell ✓ Finished!"])))).
    destruct (0 <? v); [apply wf_trampoline_line|]; exact (wf_last_line ["shell ✓ Finished!"]).
Qed.

Lemma calls_line {A} n args (p : prog A) : calls_within n p -> calls_within n (prog_bind (print_line args) (fun _ => p)).
Proof. intros Hp. unfold print_line. by induction (text (format_args_ln args)). Qed.

Lemma calls_trampoline_line n args (f : () -> prog ()) :
  calls_within n (trampoline (f ())) -> calls_within n (trampoline (prog_bind (print_line args) f)).
Proof. intros Hf. rewrite trampoline_line. by apply calls_line. Qed.

Lemma calls_last_line n args : calls_within n (trampoline (print_line args)).
Proof. by apply calls_line. Qed.

(** Task B sleeps once and the shell reads once. *)
Lemma tasks_calls :
  calls_within 0 (trampoline idle_task) /\ calls_within 0 (trampoline test_task_a) /\
  calls_within 1 (trampoline test_task_b) /\ calls_within 1 (trampoline shell).
Proof.
  split_and!.
  - exact I.
  - apply calls_trampoline_line. exact (calls_last_line 0 ["[Task A] ✓ Finished!"]).
  - apply calls_trampoline_line.
    change (calls_within 0 (trampoline (prog_bind (print_line ["[Task B] ✓ Finished!"]) (fun _ => ShutdownCall (Ret ()))))).
    by apply calls_trampoline_line.
  - apply calls_trampoline_line. intros v.
    change (calls_within 0 (trampoline (prog_bind (if 0 <? v then print_line ["read a ,ascii "; display_isize v] else Ret ())
      (fun _ => print_line ["shell ✓ Finished!"])))).
    destruct (0 <? v); [apply calls_trampoline_line|]; exact (calls_last_line 0 ["shell ✓ Finished!"]).
Qed.

(** ** The tasks after boot *)

(** The programs in the order the boot code spawns them. *)
Definition boot_tasks : gmap nat tstate :=
  list_to_map (zip (seq 0 4) ((fun p => Runs (trampoline p)) <$> [idle_task; test_task_a; test_task_b; shell])).

(** The closures of the tasks in the table. *)
Definition entries (s : Scheduler) : list (option (Z * Z)) := map (option_map entry_point) (task_list s).

(** No slot is free and all tasks are ready. *)
Definition all_ready (s : Scheduler) : Prop := Forall (fun o => exists t, o = Some t /\ status t = Ready) (task_list s).

Section Booted.
Context (tramp : Z) (idle_c a_c b_c shell_c : Z * Z) {FA : Type} `{HFL : FrameAllocatorLaws FA}.

Lemma free_slot_full l : Forall (fun o => exists t, o = Some t /\ status t = Ready) l -> free_slot l = length l.
Proof. induction 1 as [|o l (t & -> & _) _ IH]; [done|]. cbn. by rewrite IH. Qed.

Lemma spawn_entries (fs : FA) s fat size prio r fs' s' :
  spawn tramp fs s fat size prio = Done (r, (fs', s')) -> all_ready s ->
  match r with inl _ => entries s' = entries s ++ [Some fat] /\ all_ready s' | inr _ => s' = s end.
Proof.
  intros Hs Hall. unfold spawn in Hs. cbv zeta in Hs. destruct (stack_pages size =? 0); [by injection Hs as <- _ <-|].
  apply bind_Done in Hs as ([[ppn|] fs1] & _ & Hs); [|by injection Hs as <- _ <-].
  apply bind_Done in Hs as (ptr & _ & Hs). destruct fat as [d v]. apply bind_Done in Hs as (tasks & Ht & Hs).
  rewrite free_slot_full, decide_True in Ht by done. injection Ht as <-. injection Hs as <- _ <-.
  unfold entries, all_ready. cbn. rewrite map_app. split; [done|]. apply Forall_app. split; [exact Hall|].
  constructor; [by eexists|constructor].
Qed.

Lemma expect_entries msg (fs : FA) s fat size prio fs' s' (f : FA * Scheduler -> outcome (FA * Scheduler)) :
  ('(r, (fs, s)) ← spawn tramp fs s fat size prio; _ ← expect msg r; f (fs, s)) = Done (fs', s') -> all_ready s ->
  exists fs1 s1, f (fs1, s1) = Done (fs', s') /\ entries s1 = entries s ++ [Some fat] /\ all_ready s1.
Proof.
  intros Hs Hall. apply bind_Done in Hs as ([[[]|e] [fs1 s1]] & Hsp & Hs); [|done].
  destruct (spawn_entries _ _ _ _ _ _ _ _ Hsp Hall). by exists fs1, s1.
Qed.

(** The idle task comes first, unless it could not be spawned. *)
Lemma start_tasks_entries (fs fs' : FA) s' :
  start_tasks tramp idle_c a_c b_c shell_c fs = Done (fs', s') ->
  all_ready s' /\ (entries s' = Some <$> [idle_c; a_c; b_c; shell_c] \/ entries s' = Some <$> [a_c; b_c; shell_c]).
Proof.
  intros Hs. unfold start_tasks, Scheduler_init in Hs. apply bind_Done in Hs as ([r [fs0 s0]] & Hsp & Hs).
  apply spawn_entries in Hsp as H0; [|constructor].
  assert (Hr0 : all_ready s0 /\ (entries s0 = [Some idle_c] \/ entries s0 = [])).
  { destruct r; [destruct H0; by auto|]. subst s0. split; [constructor|by right]. }
  destruct Hr0 as [Hr0 He0].
  apply (expect_entries _ _ _ _ _ _ _ _ (fun p => '(r, (fs, s)) ← spawn tramp p.1 p.2 b_c 8192 1; _ ← expect "Failed to spawn task B" r;
    '(r, (fs, s)) ← spawn tramp fs s shell_c 8192 1; _ ← expect "Failed to spawn task shell" r; Done (fs, s))) in Hs
    as (fs1 & s1 & Hs & He1 & Hr1); [|done]. cbn [fst snd] in Hs.
  apply (expect_entries _ _ _ _ _ _ _ _ (fun p => '(r, (fs, s)) ← spawn tramp p.1 p.2 shell_c 8192 1;
    _ ← expect "Failed to spawn task shell" r; Done (fs, s))) in Hs as (fs2 & s2 & Hs & He2 & Hr2); [|done]. cbn [fst snd] in Hs.
  apply (expect_entries _ _ _ _ _ _ _ _ Done) in Hs as (fs3 & s3 & Hs & He3 & Hr3); [|done].
  injection Hs as <- <-. split; [done|]. rewrite He3, He2, He1. destruct He0 as [-> | ->]; [by left|by right].
Qed.

(** Dispatching the first task keeps the table. *)
Lemma rescheduled_entries s B n (fs' : FA) s' B' :
  rescheduled s B n fs' s' B' -> all_ready s -> entries s' = entries s.
Proof.
  intros Hr Hall. unfold entries. apply list_eq. intros i. rewrite !list_lookup_fmap.
  destruct (decide (i < length (task_list s))%nat) as [Hi|Hi].
  - destruct (lookup_lt_is_Some_2 _ _ Hi) as [o Ho]. rewrite Ho.
    destruct (proj1 (Forall_lookup _ _) Hall i o Ho) as (t & -> & Hst).
    assert (Hs : slot s i = Some t) by (by apply slot_Some).
    destruct (rs_kept _ _ _ _ _ _ Hr i t Hs) as (st & Hs'); [left; congruence|]. apply slot_Some in Hs'. by rewrite Hs'.
  - rewrite !lookup_ge_None_2; [done|lia|rewrite (rs_length _ _ _ _ _ _ Hr); lia].
Qed.

Lemma boot_tasks_lookup i ts :
  boot_tasks !! i = Some ts -> (i < 4)%nat /\ exists p, ts = Runs (trampoline p) /\ wf (trampoline p).
Proof.
  unfold boot_tasks. intros Hi. apply elem_of_list_to_map_2 in Hi. apply elem_of_zip_r in Hi as Hp. apply elem_of_zip_l in Hi.
  apply elem_of_seq in Hi. split; [lia|]. apply list_elem_of_fmap in Hp as (p & -> & Hp). exists p. split; [done|].
  by apply (proj1 (Forall_forall _ _) tasks_wf).
Qed.

Lemma start_kernel_sys now (fs : FA) cpu k :
  fa_owns fs ∅ -> start_kernel tramp idle_c a_c b_c shell_c now fs = Done (cpu, k) -> length (task_list (k_sched k)) = 4%nat ->
  entries (k_sched k) = Some <$> [idle_c; a_c; b_c; shell_c] /\ sys_ok (mkSys cpu k boot_tasks true) /\ console (k_log k) = [].
Proof using HFL.
  intros Ho Hk Hlen. destruct (start_kernel_ok tramp idle_c a_c b_c shell_c now fs Ho) as [(msg & _ & Hx)|(cpu' & k' & Heq & Hok & _)];
    [congruence|]. rewrite Hk in Heq. injection Heq as <- <-.
  unfold start_kernel in Hk. apply bind_Done in Hk as ([fs1 s1] & Hs1 & Hk).
  apply start_tasks_entries in Hs1 as Hs1'. destruct Hs1' as [Hall He].
  destruct (start_tasks_ok tramp idle_c a_c b_c shell_c fs Ho) as [(msg & _ & Hx)|([fs1' s1'] & Heq & (Hsok & [B Hst] & _) & Hidle)];
    [congruence|]. rewrite Hs1 in Heq. injection Heq as <- <-. cbn [fst snd] in *.
  destruct (prepare_next_task_ok fs1 s1 B Hsok Hidle Hst) as (n & fs2 & s2 & B2 & Hp & Hr).
  unfold run_scheduler in Hk. cbv zeta in Hk. cbn [set_next_timer_tick emit k_frames k_sched] in Hk. rewrite Hp in Hk.
  cbn [mbind outcome_bind] in Hk. apply bind_Done in Hk as (c & _ & Hk). injection Hk as <- <-.
  change (k_sched _) with s2 in Hlen |- *. change (k_log _) with [SetTimer (now ⊞ TEN_MS_CYCLES)].
  pose proof (rescheduled_entries _ _ _ _ _ _ Hr Hall) as He2.
  assert (He4 : entries s2 = Some <$> [idle_c; a_c; b_c; shell_c]).
  { rewrite He2. destruct He as [|He]; [done|]. apply (f_equal length) in He. unfold entries in He.
    rewrite length_map, <- (rs_length _ _ _ _ _ _ Hr), Hlen in He. discriminate He. }
  split; [exact He4|]. split; [|done]. split; cbn [s_kernel s_tasks s_cpu].
  - exact Hok.
  - exists n. exact (rs_current _ _ _ _ _ _ Hr).
  - reflexivity.
  - intros i t Hi%slot_lt. change (k_sched _) with s2 in Hi. rewrite Hlen in Hi.
    unfold boot_tasks. do 4 (destruct i as [|i]; [by eexists|]). lia.
  - intros i ts Hi. apply boot_tasks_lookup in Hi as (_ & p & -> & Hwf). by left.
Qed.
(** Nothing is pending at the start. *)
Lemma spawn_blocked (fs : FA) s fat size prio r fs' s' :
  spawn tramp fs s fat size prio = Done (r, (fs', s')) -> blocked_queue s' = blocked_queue s.
Proof.
  intros Hs. unfold spawn in Hs. cbv zeta in Hs. destruct (stack_pages size =? 0); [by injection Hs as _ _ <-|].
  apply bind_Done in Hs as ([[ppn|] fs1] & _ & Hs); [|by injection Hs as _ _ <-].
  apply bind_Done in Hs as (ptr & _ & Hs). destruct fat as [d v]. apply bind_Done in Hs as (tasks & _ & Hs). by injection Hs as _ _ <-.
Qed.

Lemma start_kernel_pending now (fs : FA) cpu k :
  start_kernel tramp idle_c a_c b_c shell_c now fs = Done (cpu, k) -> blocked_queue (k_sched k) = [] /\ wait_queue k = [].
Proof.
  intros Hk. unfold start_kernel in Hk. apply bind_Done in Hk as ([fs1 s1] & Hs & Hk).
  unfold run_scheduler in Hk. apply bind_Done in Hk as ([n [fs2 s2]] & Hp%prepare_blocked & Hk).
  cbv zeta in Hk. apply bind_Done in Hk as (c & _ & Hk). injection Hk as _ <-. split; [|done]. cbn in *. rewrite Hp. clear Hp.
  unfold start_tasks, Scheduler_init in Hs.
  apply bind_Done in Hs as ([r0 [fs0 s0]] & H0%spawn_blocked & Hs).
  apply bind_Done in Hs as ([ra [fsa sa]] & Ha%spawn_blocked & Hs). apply bind_Done in Hs as (? & _ & Hs).
  apply bind_Done in Hs as ([rb [fsb sb]] & Hb%spawn_blocked & Hs). apply bind_Done in Hs as (? & _ & Hs).
  apply bind_Done in Hs as ([rc [fsc sc]] & Hc%spawn_blocked & Hs). apply bind_Done in Hs as (? & _ & Hs).
  injection Hs as _ <-. by rewrite Hc, Hb, Ha, H0.
Qed.

Lemma boot_budget now (fs : FA) cpu k :
  start_kernel tramp idle_c a_c b_c shell_c now fs = Done (cpu, k) -> length (task_list (k_sched k)) = 4%nat ->
  budgeted 2 (mkSys cpu k boot_tasks true).
Proof.
  intros Hk Hlen. destruct (start_kernel_pending _ _ _ _ Hk) as [Hb Hw]. split; [exact Hlen|].
  exists (fun i => match i with 2 | 3 => 1 | _ => 0 end)%nat. cbn [s_kernel s_tasks]. rewrite Hb, Hw. split; [|by split; cbn; lia].
  intros i ts Hi. destruct (boot_tasks_lookup i ts Hi) as [Hi4 _]. split; [exact Hi4|]. destruct tasks_calls as (H0 & Ha & Hb' & Hs).
  destruct i as [|[|[|[|i]]]]; [..|lia]; (injection Hi as <-; assumption).
Qed.
End Booted.

(** ** Theorems *)

(** The system call that the current task makes next is handled without panic; [unreachable!] is not next. *)
Definition can_go {FA} `{FrameAllocator FA} (env : Env) (cpu : TaskContext) (k : Kernel FA) (ts : tstate) : Prop :=
  match ts with
  | Runs (WriteByte b _) => exists r, sys_write_byte env b cpu k = Done r
  | Runs (SleepCall ms _) => exists r, sys_sleep env ms cpu k = Done r
  | Runs (ReadCall ms _) => exists r, sys_read env ms cpu k = Done r
  | Runs (ExitCall _) => exists r, sys_task_exit env cpu k = Done r
  | Runs Unreachable => False
  | _ => True
  end.

Lemma sys_ok_can_go {FA} `{FrameAllocatorLaws FA} (s : Sys FA) c ts env :
  sys_ok s -> current_task_id (k_sched (s_kernel s)) = Some c -> s_tasks s !! c = Some ts -> can_go env (s_cpu s) (s_kernel s) ts.
Proof.
  intros Hok Hc Hts.
  assert (Hcall : forall n x, n <> 10 -> ts <> Runs Spin -> exists r, trap env ECALL (call_regs n x (s_cpu s)) (s_kernel s) = Done r).
  { intros n x Hn Hspin. destruct (trap_ok env ECALL (call_regs n x (s_cpu s)) (s_kernel s) (sy_kernel _ Hok)) as (cpu' & k' & Heq & _);
      [|by eexists]. intros _. split; [done|]. exists c. split; [done|]. destruct s. by eapply not_idle. }
  destruct ts as [p|f]; [|done]. pose proof (current_wf _ c p Hok Hc Hts) as Hwf.
  destruct p; cbn [can_go]; try done; by apply Hcall.
Qed.



(** ** A run *)

(** The system booted on eight free pages, its first task about to start. *)
Definition booted : TaskContext * Kernel Frames :=
  match start_kernel 0x80201000 (8, 0x80300000) (8, 0x80300020) (8, 0x80300040) (8, 0x80300060) 0 example_frames with
  | Done p => p
  | Fault _ => (TaskContext_zero, k_run1)
  end.

Lemma booted_ok :
  start_kernel 0x80201000 (8, 0x80300000) (8, 0x80300020) (8, 0x80300040) (8, 0x80300060) 0 example_frames = Done (booted.1, booted.2) /\
  length (task_list (k_sched booted.2)) = 4%nat /\ current_task_id (k_sched booted.2) = Some 1%nat.
Proof.
  assert (Hc : (fun p => (length (task_list (k_sched p.2)), current_task_id (k_sched p.2))) <$>
    start_kernel 0x80201000 (8, 0x80300000) (8, 0x80300020) (8, 0x80300040) (8, 0x80300060) 0 example_frames = Done (4%nat, Some 1%nat))
    by (vm_compute; reflexivity).
  unfold booted. destruct (start_kernel _ _ _ _ _ _ _) as [[cpu k]|]; [|discriminate Hc]. injection Hc as Hl Hcur. by split_and!.
Qed.

Lemma example_frames_owns : fa_owns example_frames ∅.
Proof. pose proof example_frames_within as Hw. by apply fa_within_owns in Hw. Qed.

Lemma booted_kernel_ok : kernel_ok booted.2.
Proof.
  destruct booted_ok as (Heq & Hlen & _).
  by destruct (start_kernel_sys _ _ _ _ _ _ _ booted.1 booted.2 example_frames_owns Heq Hlen) as (_ & [] & _).
Qed.

#[local] Opaque booted.


(** Task A writes its first byte. *)
Lemma first_byte : exists p, boot_tasks !! 1%nat = Some (Runs (WriteByte 91 p)).
Proof. eexists. reflexivity. Qed.

